(* ===== verification/_CoqProject ===== *)
-Q . S2P
Prelude.v
Messages.v
Tracker.v
Meter.v
SysStats.v
GoString.v
Base64.v
Helper.v
GoNet.v
Json.v
NodeConfig.v
Backends.v
Chunks.v
Controller.v
Rpc.v
Rest.v
NodeToy.v
Servers.v
Control.v
WgTypes.v
WgToy.v
PeerStore.v
WgConfig.v
WgUsers.v
WgPlan.v
WgReconcile.v
WgAgree.v
WgManager.v
HostRouting.v
WireGuard.v
WgScenario.v
WgSync.v
WgBackend.v
WgReads.v
WgRun.v
WgServe.v
WgFindings.v
Logger.v
XrayLogs.v
XrayAccount.v
XrayInbound.v
XrayClients.v
XrayUser.v
XrayToy.v
XrayApply.v
XrayApi.v
JsonToy.v
XrayApiToy.v
XrayRender.v
XrayTyped.v
XrayCore.v
XrayRun.v
XrayLife.v
XrayProps.v
XrayReap.v
XrayShare.v
XrayHealth.v
XrayProcess.v
WinProcess.v
XrayUnixToy.v
XrayStats.v
XrayConn.v
NodeBackends.v
NodeLaws.v
XrayServe.v
XrayRoster.v
Service.v
NodeSystem.v
EndToEnd.v
XrayMachine.v
XrayServeToy.v
XrayRace.v
XrayOverlap.v
NodeRun.v
EndToEndToy.v
Main.v
