(* ===== verification/Prelude.v ===== *)
(** * Verification library of the PasarGuard node (Go, [src/])

    ** What the program is

    The node runs one proxy backend at a time for a remote panel.  A panel
    connects over gRPC or HTTP, starts a backend (an Xray process or a WireGuard
    interface), keeps its users up to date, reads statistics, and stops it.  The
    parts and how they meet:
    - [cmd/node] loads the configuration ([config]) and starts one of the two
      servers ([controller/rpc], [controller/rest]), which embed a [Controller];
    - the controller ([controller]) owns the current backend, reached through the
      interfaces of [backend/backend.go];
    - the WireGuard backend ([backend/wireguard]) keeps a store of peers, a
      kernel interface, host routing and a traffic tracker ([pkg/stats]);
    - the Xray backend ([backend/xray]) keeps a configuration, a child process
      with its logs, and a gRPC client of that process ([backend/xray/api]);
    - [common], [logger], [pkg/sysstats], [pkg/netutil] serve all of them.

    ** How Go becomes Rocq

    A struct is a record, a sum behind an interface an inductive type, a map a
    [gmap], a nil pointer or interface [None].  A method is an [eff S A], a
    function from a state to a [result A] and the new state (below), so that an
    error still shows what was changed before it; a panic is the error
    [go_panic] or [nil_deref].  An [int64] or [uint64] whose wrap-around matters
    is a [Z] with the wrap written out ([sub64], [wrap_u64], [seconds]); a
    float64 is a [spec_float] of 53 bits.  A loop over a Go map takes the order
    it visits the keys in ([map_range]); the theorems hold for every order.  A
    critical section is one step; where the code gives a lock up half way, or
    does not take it, the sections are separate steps of threads (Control).

    Code outside [src/] is a parameter: a type class of operations, with the
    documented behaviour the program relies on as laws.  They are [WgKeys],
    [Kernel], [Host], [AwgLib] (awgctrl, netlink, the commands run), [JsonText]
    (JSON's syntax), [Grpc] (status errors), [Proto] (protobuf decoding),
    [Sha256], [UuidLib], [XrayApi], [OutboundApi] and [XrayServices] (the core's gRPC services),
    [CoreConfig] (what the core reads in its configuration), [Net] and
    [GrpcClient] (dialling), [Machine], [Unix] and [Windows] (processes and files
    of the operating system), [Platform] (certificates, listening), [HostStats]
    (gopsutil).  Those a theorem assumes laws of have a concrete instance that its
    witness computes with (the files named Toy, and XrayMachine, NodeRun,
    WgScenario, the ends of WinProcess and Main).

    ** Files, with what they model

    - Prelude: results and effects, Go's map order, errors with their chain,
      machine integers, shared tactics and lemmas.
    - Messages: [common/service.pb.go], the messages and nil-safe getters.
    - GoString, GoNet, Json, Base64: what is used of Go's [strings], [net],
      [encoding/json] and [encoding/base64].
    - NodeConfig: [config/config.go].  Helper: [common/helper.go].  Logger:
      [logger/logger.go].  SysStats: [pkg/sysstats/sys.go].
    - Tracker, with its specification in Meter: [pkg/stats].
    - Backends: [backend/backend.go] as the class [Backends], with the laws
      [BackendLaws] the controller's theorems use.
    - Controller: [controller/controller.go], [pkg/netutil]; Chunks:
      [controller/users_chunk.go]; Rpc and Rest: the two servers, every
      interceptor, middleware and handler; Servers: theorems about them; Control:
      the controller's critical sections as threads, with NodeToy for witnesses.
    - WgTypes (the kernel), PeerStore, WgConfig, WgUsers, WgManager, HostRouting
      and WireGuard model the files of [backend/wireguard]; WgPlan, WgReconcile,
      WgAgree, WgSync and WgBackend hold what planning, the kernel calls and the
      handlers do; WgReads which parts of the state queries and ticks leave
      alone; WgRun the backend as a transition system with its properties; WgServe
      when the backend serves a set of users, and what each operation makes of
      it; WgFindings what fails without their assumptions.
    - XrayAccount, XrayInbound, XrayUser, XrayApply, XrayRender, XrayLogs,
      XrayCore, XrayRun, XrayProcess, WinProcess, XrayStats and XrayConn model the
      files of [backend/xray] and [backend/xray/api]; XrayClients, XrayApi,
      XrayTyped, XrayLife, XrayProps, XrayHealth, XrayReap, XrayShare and XrayServe
      hold the theorems; XrayRoster says what each operation makes of the inbounds
      and their users.
      XrayRace writes the user operations and a restart with the points where the
      others can act, XrayOverlap shows what holds of them when a restart does.
    - NodeBackends: the two backends behind the interface, in one world; NodeLaws
      and NodeSystem: they keep its laws, and the controller over them; Service:
      what the node promises a panel, a transition system whose state is the
      service (idle, a WireGuard interface with its users, Xray with the users of
      its inbounds); EndToEnd: the
      calls of the two servers refine it; NodeRun and EndToEndToy: sessions of a
      whole node; Main: [cmd/node], the listeners of the two servers,
      [pkg/tlsutil] and [pkg/fsutil].

    ** What the theorems show

    The properties carry the ids C1, C2, ... in their doc comments.
    - WireGuard (WgRun): the store and the kernel agree in every reachable state;
      full and partial synchronisation, creation and shutdown do exactly what they
      should where keys are written in the standard base64 form ([canonical_keys];
      WgFindings shows what happens otherwise), a restart gives the
      kernel the stored peers and routes each of their networks to one of those
      that have it ([rebuilt]), a dropped peer is offline, and a failed request
      changes nothing; planning accepts exactly the requests without clashes,
      whatever the map order (WgPlan).
    - End to end (EndToEnd): every run of the servers' calls, with the keep-alive
      expiries, health checks, ticks and statistics between them, is a run of the
      service: after each answer the users the panel asked for, the controller's
      backend, and what the kernel interface or the Xray core serves agree.
    - Node and controller: in every run in which keep-alive expiries do not
      overlap Start and Stop, a running backend is the current one (Control,
      against the interface), and a living Xray process or an interface of the
      node is the current backend's (NodeSystem, over the real backends), so a
      node that is told to stop leaves neither behind (Main); calls
      with effects are authorised, the two servers agree, uploads in chunks are
      put together whatever their order (Servers, Chunks).
    - Xray: the configuration and the core agree after user updates (XrayUser) and
      through restarts, restorations and failures (XrayServe), but for the users
      whose removal failed, an error the code discards: the sets [SyncUser_left],
      [UpdateUsers_left] and the [left] of XrayServe name them; and what holds when
      the health check restarts the core between the steps of an update
      (XrayOverlap);
      full and partial updates agree and store well-typed accounts (XrayClients,
      XrayTyped); [ApplyAPI] protects the API and is idempotent (XrayApi); what
      the process reads lists the users (XrayRender); a restart is applied or
      undone, there is at most one process, every wait ends (XrayProps), the
      health check recovers a silent core (XrayHealth), the cleanup kills nothing
      else (XrayProcess; on Windows it finds nothing, WinProcess), logs and
      statistics are kept and translated faithfully (XrayLogs, XrayStats, Logger).
    - Traffic: the tracker refines abstract meters, conserves and never hides
      traffic (Meter); host statistics stay in range (SysStats).

    Lemmas under a heading Observations (and WgFindings) evaluate runs in which
    the code does not do what it means to.

    ** Bounds, fuel and time

    [Split], [Fields] and the other scanners recurse on fuel equal to the length
    of their input, and each step consumes a character.  [FindFreePort] has the
    number of ports left as fuel.  Waiting loops are given the list of moments
    they wake up at; that they end is a theorem when some moment is decisive, as
    the end of a context is ([xray_waits_end]).  The health check's bound is the
    code's own ten failures.  [wait_exit] polls ten times, like the code.

    ** What is assumed of concurrency

    [syncMu] makes the user operations of a backend atomic, and [c.mu], [wg.mu]
    and the tracker's mutex the methods under them; a health check is under
    [x.mu] only, and XrayServe takes it not to restart the core in the middle of a
    user operation; XrayRace writes the operations and the restart with the points
    where the others can act, and shows removed users served and a failed
    synchronisation taken for a success, while XrayOverlap proves that when whole
    restarts fall between the steps, [UpdateUsers] keeps its promise all the same
    and [SyncUser] harms only the user it names.  [Shutdown] is not under
    [syncMu]: NodeSystem lets what can restart a core run only while no Start,
    Stop or expiry is under way, and NodeRun shows a process leaking otherwise.
    EndToEnd takes the requests one at a time, so expiries fall between them.
    Keep-alive disconnections do not take the control lock: the theorems of
    Control and NodeSystem are about runs in which none overlaps a Start or Stop
    (every run without keep-alive is one, [no_keepalive_serial]); with an overlap a
    backend can be lost, which is an observation there.  A tracker
    sample can be applied after the removal of its peer (WgFindings).  One scan
    of /proc sees one moment of it.

    ** What is abbreviated

    White space and letter case are ASCII's.  The texts of [encoding/json]'s own
    errors are not reproduced.  JSON numbers stay literals, decoded where the
    code decodes them.  Lines the code only writes to its own standard log are
    left out.

    ** Not modelled

    - [core_windows.go], [core_unix.go]: flags of the child process; the non-Linux
      stubs of host routing and latency.
    - [LogRequest] and [logRequest], which only log; [CreateHTTPClient], which
      only tests call; signals, and the goroutine that serves.
    - the generated [service_grpc.pb.go] (but for the kinds of its methods) and the
      protobuf runtime part of [service.pb.go].
    - the HTTP transport bound to an interface ([latency_linux.go]): the probe is
      a parameter of the latency report.

    ** Where the library can grow

    The traffic of a WireGuard backend over a whole node session. *)

From Stdlib Require Export ZArith Lia.
From stdpp Require Export base gmap strings sorting numbers list.

(** ** Hint databases and tactics of the library *)

Create HintDb node discriminated.
#[export] Hint Constants Opaque : node.
#[export] Hint Variables Opaque : node.
Create Rewrite HintDb node.
Create Rewrite HintDb eff.

(** Split the outermost [match] or [if] of the goal and simplify. *)
Ltac split_match :=
  match goal with
  | |- context [match ?x with _ => _ end] => destruct x eqn:?; simplify_eq/=
  end.

(** The same for a hypothesis that reports the outcome of a run. *)
Ltac split_match_in H :=
  match type of H with
  | context [match ?x with _ => _ end] => destruct x eqn:?; simplify_eq/=
  end.

(** Rewrite with the library's rewrite hints, then simplify. *)
Ltac node_simpl := repeat progress (autorewrite with node in *; simplify_eq/=).

(** Close a goal with the library's hints. *)
Ltac node_auto := eauto with node.

(** ** Go's error results

    A Go [error] value is seen through what the program observes of it: its
    text ([Error()]) and the sentinels [errors.Is]/[errors.As] find in its
    chain.  A run-time panic is an error with the sentinel [Panicked]; a gRPC
    status carries its numeric code. *)

Inductive sentinel : Type :=
  | EPERM | EACCES | LinkNotFound | ContextCanceled | StdEOF | Panicked
  | GrpcStatus (code : Z).

#[export] Instance sentinel_eq_dec : EqDecision sentinel.
Proof. solve_decision. Defined.

Record goerr : Type := GoErr { err_text : string; err_chain : list sentinel }.

(** [errors.New(msg)] and [fmt.Errorf] without [%w]. *)
Definition errors_New (msg : string) : goerr := GoErr msg [].

(** [panic(msg)]. *)
Definition go_panic (msg : string) : goerr := GoErr ("panic: " +:+ msg) [Panicked].

(** A method called on, or a field read from, a nil pointer. *)
Definition nil_deref : goerr :=
  go_panic "runtime error: invalid memory address or nil pointer dereference".

(** [fmt.Errorf("<msg>: %w", err)]: the text is prefixed, the chain is kept. *)
Definition wrapf (msg : string) (e : goerr) : goerr :=
  GoErr (msg +:+ ": " +:+ err_text e) (err_chain e).

(** [errors.Is(err, s)]. *)
Definition errors_Is (e : goerr) (s : sentinel) : bool := bool_decide (s ∈ err_chain e).

Inductive result (A : Type) : Type :=
  | Ok (a : A)
  | Err (e : goerr).
Arguments Ok {A} a.
Arguments Err {A} e.

Declare Scope node_scope.
Delimit Scope node_scope with node.

(** [x, err := c1; if err != nil { return err }; c2]. *)
Notation "'let?' x := c1 'in' c2" :=
  (match c1 with Ok x => c2 | Err e => Err e end)
  (at level 10, x pattern, c1 at level 100, c2 at level 200) : node_scope.

Definition is_ok {A} (r : result A) : bool :=
  match r with Ok _ => true | Err _ => false end.

(** ** Go's 64-bit signed integers

    Arithmetic on [int64] wraps around modulo 2^64. *)

Definition wrap64 (z : Z) : Z := ((z + 2 ^ 63) mod 2 ^ 64 - 2 ^ 63)%Z.
Definition sub64 (a b : Z) : Z := wrap64 (a - b).
Definition max64 : Z := (2 ^ 63 - 1)%Z.
Definition in64 (z : Z) : Prop := (- 2 ^ 63 <= z < 2 ^ 63)%Z.

(** [time.Duration(n) * time.Second], in nanoseconds. *)
Definition seconds (n : Z) : Z := wrap64 (n * 10 ^ 9).

Lemma wrap64_id z : in64 z → wrap64 z = z.
Proof. unfold in64, wrap64. intros ?. rewrite Z.mod_small; lia. Qed.

Lemma wrap64_range z : in64 (wrap64 z).
Proof.
  unfold in64, wrap64.
  pose proof (Z.mod_pos_bound (z + 2 ^ 63) (2 ^ 64) ltac:(lia)). lia.
Qed.

Lemma wrap64_congr z : ∃ k, wrap64 z = (z + k * 2 ^ 64)%Z.
Proof.
  unfold wrap64. exists (- ((z + 2 ^ 63) / 2 ^ 64))%Z.
  pose proof (Z.div_mod (z + 2 ^ 63) (2 ^ 64) ltac:(lia)). lia.
Qed.

Lemma wrap64_shift z k : wrap64 (z + k * 2 ^ 64) = wrap64 z.
Proof.
  unfold wrap64. replace (z + k * 2 ^ 64 + 2 ^ 63)%Z with (z + 2 ^ 63 + k * 2 ^ 64)%Z by lia.
  rewrite Z.mod_add by lia. done.
Qed.

Lemma sub64_self a : sub64 a a = 0%Z.
Proof. unfold sub64. by rewrite Z.sub_diag. Qed.

(** Two's complement subtraction cancels: [a - (a - p) = p] even when the
    inner subtraction overflows. *)
Lemma sub64_sub64 a p : in64 p → sub64 a (sub64 a p) = p.
Proof.
  intros Hp. unfold sub64 at 2. destruct (wrap64_congr (a - p)) as [k ->].
  unfold sub64. replace (a - (a - p + k * 2 ^ 64))%Z with (p + (- k) * 2 ^ 64)%Z by lia.
  by rewrite wrap64_shift, wrap64_id.
Qed.

Lemma sub64_range a b : in64 (sub64 a b).
Proof. apply wrap64_range. Qed.

(** Differences compose: [(c - b) = (c - a) + (a - b)] modulo 2^64. *)
Lemma sub64_trans a b c : sub64 c b = wrap64 ((c - a) + sub64 a b).
Proof.
  unfold sub64. destruct (wrap64_congr (a - b)) as [k ->].
  replace (c - a + (a - b + k * 2 ^ 64))%Z with (c - b + k * 2 ^ 64)%Z by lia.
  by rewrite wrap64_shift.
Qed.

#[export] Hint Rewrite sub64_self : node.
#[export] Hint Resolve wrap64_range sub64_range : node.

(** ** Go's [range] over a map

    The order in which a [for k, v := range m] loop visits the entries of a
    map is unspecified.  A [map_range] is one choice of that order; every
    definition that loops over a map takes the order it uses, so a theorem
    about it holds for every order. *)

Record map_range : Type := MapRange {
  range_of :> ∀ A : Type, gmap string A → list (string * A);
  range_perm : ∀ A (m : gmap string A), range_of A m ≡ₚ map_to_list m
}.
Arguments range_of _ {A} m.
Arguments range_perm _ {A} m.

(** The order of stdpp's [map_to_list], which witnesses compute with. *)
Definition std_range : map_range :=
  MapRange (λ A m, map_to_list m) (λ A m, Permutation_refl _).

(** The reverse order, a second instance. *)
Program Definition rev_range : map_range :=
  MapRange (λ A m, reverse (map_to_list m)) _.
Next Obligation. intros A m. apply reverse_Permutation. Qed.

Section Range.
Context (ρ : map_range) {A : Type}.
Implicit Types m : gmap string A.

Lemma elem_of_range m k a : (k, a) ∈ range_of ρ m ↔ m !! k = Some a.
Proof. rewrite (range_perm ρ m). apply elem_of_map_to_list. Qed.

Lemma range_nodup m : NoDup (range_of ρ m).*1.
Proof. rewrite (range_perm ρ m). apply NoDup_fst_map_to_list. Qed.

Lemma range_length m : length (range_of ρ m) = size m.
Proof. rewrite (range_perm ρ m). apply length_map_to_list. Qed.

Lemma range_to_map m : list_to_map (range_of ρ m) = m.
Proof.
  rewrite (list_to_map_proper _ (map_to_list m)); [|apply range_nodup|apply range_perm].
  apply list_to_map_to_list.
Qed.

Lemma elem_of_range_keys m k : k ∈ (range_of ρ m).*1 ↔ is_Some (m !! k).
Proof.
  rewrite list_elem_of_fmap. split.
  - intros ([k' a] & -> & H%elem_of_range). by exists a.
  - intros [a H%elem_of_range]. by exists (k, a).
Qed.

Lemma range_empty : range_of ρ (∅ : gmap string A) = [].
Proof. apply length_zero_iff_nil. by rewrite range_length, map_size_empty. Qed.
End Range.

#[export] Hint Resolve range_nodup : node.

(** ** Maps built from lists of keyed values *)

Section Keyed.
Context {A : Type} (key : A → string).

(** [for _, x := range l { m[key(x)] = x }]. *)
Definition insert_all (l : list A) (m : gmap string A) : gmap string A :=
  foldl (λ acc x, <[key x := x]> acc) m l.

Lemma insert_all_snoc l x m : insert_all (l ++ [x]) m = <[key x := x]> (insert_all l m).
Proof. unfold insert_all. by rewrite foldl_app. Qed.

Lemma insert_all_nil m : insert_all [] m = m.
Proof. done. Qed.

Lemma insert_all_notin l m k : k ∉ key <$> l → insert_all l m !! k = m !! k.
Proof.
  induction l as [|x l IH] using rev_ind; [done|].
  rewrite fmap_app, not_elem_of_app, insert_all_snoc. intros [H1 H2].
  rewrite lookup_insert_ne; [auto|]. set_solver.
Qed.

(** An entry of the result is an element of the list with that key, or was
    in the map before. *)
Lemma insert_all_Some l m k a :
  insert_all l m !! k = Some a → (a ∈ l ∧ key a = k) ∨ (k ∉ key <$> l ∧ m !! k = Some a).
Proof.
  induction l as [|x l IH] using rev_ind; [set_solver|].
  rewrite insert_all_snoc, lookup_insert. case_decide as Hk.
  - intros [= <-]. left. set_solver.
  - intros [[H1 H2]|[H1 H2]]%IH; [left; set_solver|right; set_solver].
Qed.

Lemma insert_all_is_Some l m k :
  is_Some (insert_all l m !! k) ↔ k ∈ key <$> l ∨ is_Some (m !! k).
Proof.
  induction l as [|x l IH] using rev_ind; [set_solver|].
  rewrite insert_all_snoc, lookup_insert_is_Some, IH, fmap_app, elem_of_app.
  simpl. rewrite list_elem_of_singleton. destruct (decide (key x = k)); naive_solver.
Qed.

Lemma insert_all_elem l m x : NoDup (key <$> l) → x ∈ l → insert_all l m !! key x = Some x.
Proof.
  induction l as [|y l IH] using rev_ind; [set_solver|].
  rewrite fmap_app, insert_all_snoc. intros (Hl & Hy & _)%NoDup_app.
  intros [Hx | ->%list_elem_of_singleton]%elem_of_app.
  - rewrite lookup_insert_ne; [by apply IH|].
    intros Heq. apply (Hy (key x)); [by apply list_elem_of_fmap_2|]. set_solver.
  - apply lookup_insert_eq.
Qed.
End Keyed.

(** ** Lists without duplicates *)

Lemma NoDup_fmap_transfer {A B C} (f : A → B) (g : A → C) l :
  NoDup (f <$> l) → (∀ x y, x ∈ l → y ∈ l → g x = g y → f x = f y) → NoDup (g <$> l).
Proof.
  induction l as [|x l IH]; intros Hnd Hfg; [constructor|].
  apply NoDup_cons in Hnd as [Hx Hnd]. apply NoDup_cons. split; [|apply IH; set_solver].
  intros (y & Hy & Hin)%list_elem_of_fmap. apply Hx. apply list_elem_of_fmap.
  exists y. split; [|done]. apply Hfg; set_solver.
Qed.

Lemma NoDup_fmap_filter {A B} (f : A → B) (P : A → Prop) `{!∀ x, Decision (P x)} l :
  NoDup (f <$> l) → NoDup (f <$> filter P l).
Proof.
  induction l as [|x l IH]; intros Hnd; [constructor|].
  apply NoDup_cons in Hnd as [Hx Hnd]. rewrite filter_cons. case_decide; [|by apply IH].
  apply NoDup_cons. split; [|by apply IH]. intros Hin. apply Hx.
  apply list_elem_of_fmap in Hin as (y & -> & [_ Hy]%list_elem_of_filter).
  by apply list_elem_of_fmap_2.
Qed.

(** ** Folds over lists *)

Lemma foldl_ext {A B} (f g : A → B → A) l a :
  (∀ a b, b ∈ l → f a b = g a b) → foldl f a l = foldl g a l.
Proof.
  revert a. induction l as [|x l IH]; intros a H; [done|]. simpl.
  rewrite H by set_solver. apply IH. intros. apply H. set_solver.
Qed.

(** An invariant kept by each iteration of a loop holds at its end. *)
Lemma foldl_inv {A B} (P : A → Prop) (f : A → B → A) l a :
  P a → (∀ a b, b ∈ l → P a → P (f a b)) → P (foldl f a l).
Proof.
  revert a. induction l as [|x l IH]; intros a Ha Hf; [done|]. simpl.
  apply IH; [apply Hf; set_solver|]. intros. apply Hf; set_solver.
Qed.

(** ** Stateful code that can fail

    A Go method that mutates its receiver and returns an [error] is a function
    [S → result A * S]: the state survives an error, as a Go object does.
    [x ← m; k] (stdpp's notation) is [x, err := m; if err != nil { return err }; k]. *)

Definition eff (S A : Type) : Type := S → result A * S.

#[export] Instance eff_ret S : MRet (eff S) := λ A a s, (Ok a, s).
#[export] Instance eff_bind S : MBind (eff S) := λ A B f m s,
  match m s with
  | (Ok a, s') => f a s'
  | (Err e, s') => (Err e, s')
  end.

(** [return err]. *)
Definition throw {S A} (e : goerr) : eff S A := λ s, (Err e, s).
Definition lift {S A} (r : result A) : eff S A := λ s, (r, s).
Definition get {S} : eff S S := λ s, (Ok s, s).
Definition put {S} (s : S) : eff S unit := λ _, (Ok (), s).
Definition modify {S} (f : S → S) : eff S unit := λ s, (Ok (), f s).
(** [x, err := m], with the error kept for inspection. *)
Definition try {S A} (m : eff S A) : eff S (result A) := λ s, let '(r, s') := m s in (Ok r, s').
(** [if err := m; err != nil { return f(err) }]. *)
Definition map_err {S A} (f : goerr → goerr) (m : eff S A) : eff S A := λ s,
  match m s with
  | (Err e, s') => (Err (f e), s')
  | ok => ok
  end.
(** Run on a part of the state. *)
Definition on {S T A} (view : S → T) (set : T → S → S) (m : eff T A) : eff S A := λ s,
  let '(r, t) := m (view s) in (r, set t s).

(** [for _, x := range l { if err := f(x); err != nil { return err } }]. *)
Fixpoint for_each {S A} (f : A → eff S unit) (l : list A) : eff S unit :=
  match l with
  | [] => mret ()
  | x :: l => _ ← f x; for_each f l
  end.

Lemma bind_Ok {S A B} (m : eff S A) (f : A → eff S B) s b s' :
  (m ≫= f) s = (Ok b, s') ↔ ∃ a s1, m s = (Ok a, s1) ∧ f a s1 = (Ok b, s').
Proof. unfold mbind, eff_bind. destruct (m s) as [[a|e] s1]; naive_solver. Qed.

Lemma bind_Err {S A B} (m : eff S A) (f : A → eff S B) s e s' :
  (m ≫= f) s = (Err e, s') ↔
  m s = (Err e, s') ∨ ∃ a s1, m s = (Ok a, s1) ∧ f a s1 = (Err e, s').
Proof. unfold mbind, eff_bind. destruct (m s) as [[a|e'] s1]; naive_solver. Qed.

Lemma map_err_Ok {S A} f (m : eff S A) s a s' : map_err f m s = (Ok a, s') ↔ m s = (Ok a, s').
Proof. unfold map_err. destruct (m s) as [[|] ?]; naive_solver. Qed.

Lemma map_err_Err {S A} f (m : eff S A) s e s' :
  map_err f m s = (Err e, s') ↔ ∃ e', e = f e' ∧ m s = (Err e', s').
Proof. unfold map_err. destruct (m s) as [[|] ?]; naive_solver. Qed.

Lemma throw_eq {S A} e s r s' : throw (S:=S) (A:=A) e s = (r, s') ↔ r = Err e ∧ s' = s.
Proof. unfold throw. naive_solver. Qed.

Lemma lift_eq {S A} (x : result A) s r s' : lift (S:=S) x s = (r, s') ↔ r = x ∧ s' = s.
Proof. unfold lift. naive_solver. Qed.

Lemma mret_eq {S A} (a : A) (s : S) r s' : mret (M:=eff S) a s = (r, s') ↔ r = Ok a ∧ s' = s.
Proof. unfold mret, eff_ret. naive_solver. Qed.

(** A relation between states that every step keeps is kept by a run. *)
Definition preserves {S A} (R : S → S → Prop) (m : eff S A) : Prop := ∀ s, R s (m s).2.

Lemma preserves_bind {S A B} (R : S → S → Prop) `{!Transitive R} (m : eff S A) (f : A → eff S B) :
  preserves R m → (∀ a, preserves R (f a)) → preserves R (m ≫= f).
Proof.
  intros Hm Hf s. unfold mbind, eff_bind. specialize (Hm s).
  destruct (m s) as [[a|e] s1]; [|done]. etrans; [apply Hm|apply Hf].
Qed.

Lemma preserves_for_each {S A} (R : S → S → Prop) `{!PreOrder R} (f : A → eff S unit) l :
  (∀ x, x ∈ l → preserves R (f x)) → preserves R (for_each f l).
Proof.
  induction l as [|x l IH]; intros Hf; [intros s; reflexivity|]. cbn [for_each].
  apply preserves_bind; [apply _|apply Hf; set_solver|]. intros _. apply IH. set_solver.
Qed.

Lemma preserves_map_err {S A} (R : S → S → Prop) f (m : eff S A) :
  preserves R m → preserves R (map_err f m).
Proof. intros Hm s. specialize (Hm s). unfold map_err. by destruct (m s) as [[|] ?]. Qed.

Lemma preserves_pure {S A} (R : S → S → Prop) `{!Reflexive R} (r : result A) : preserves R (lift r).
Proof. intros s. reflexivity. Qed.

#[export] Hint Rewrite @bind_Ok @map_err_Ok @throw_eq @lift_eq @mret_eq : eff.
#[export] Hint Resolve preserves_bind preserves_map_err preserves_pure : node.
