(* ===== verification/Messages.v ===== *)
(** * The messages of the node's API ([src/common/service.pb.go])

    The Go structs that protoc generates from [src/common/service.proto], as
    records: a message pointer that may be nil is an [option], a [repeated]
    field a list, an integer field a [Z] in the range of its width.  The
    generated getters return the zero value on a nil receiver. *)

From S2P Require Import Prelude.

(** ** Accounts of a user *)

Record Vmess := { Vmess_Id : string }.
Record Vless := { Vless_Id : string; Vless_Flow : string }.
Record Trojan := { Trojan_Password : string }.
Record Shadowsocks := { Shadowsocks_Password : string; Shadowsocks_Method : string }.
Record Wireguard := { Wireguard_PublicKey : string; Wireguard_PeerIps : list string }.
Record Hysteria := { Hysteria_Auth : string }.

Record Proxy := {
  Proxy_Vmess : option Vmess;
  Proxy_Vless : option Vless;
  Proxy_Trojan : option Trojan;
  Proxy_Shadowsocks : option Shadowsocks;
  Proxy_Wireguard : option Wireguard;
  Proxy_Hysteria : option Hysteria
}.

Record User := {
  User_Email : string;
  User_Proxies : option Proxy;
  User_Inbounds : list string
}.

(** The getters [user.GetProxies().GetX()], on a possibly nil user. *)
Definition GetEmail (u : option User) : string := from_option User_Email "" u.
Definition GetInbounds (u : option User) : list string := from_option User_Inbounds [] u.
Definition GetProxies (u : option User) : option Proxy := u ≫= User_Proxies.
Definition GetVmess (p : option Proxy) : option Vmess := p ≫= Proxy_Vmess.
Definition GetVless (p : option Proxy) : option Vless := p ≫= Proxy_Vless.
Definition GetTrojan (p : option Proxy) : option Trojan := p ≫= Proxy_Trojan.
Definition GetShadowsocks (p : option Proxy) : option Shadowsocks := p ≫= Proxy_Shadowsocks.
Definition GetWireguard (p : option Proxy) : option Wireguard := p ≫= Proxy_Wireguard.
Definition GetHysteria (p : option Proxy) : option Hysteria := p ≫= Proxy_Hysteria.
Definition GetPublicKey (w : option Wireguard) : string := from_option Wireguard_PublicKey "" w.
Definition GetPeerIps (w : option Wireguard) : list string := from_option Wireguard_PeerIps [] w.

(** ** Chunked user payloads *)

Record UsersChunk := {
  UsersChunk_Users : list (option User);
  UsersChunk_Index : Z;
  UsersChunk_Last : bool
}.

(** ** Starting a backend *)

Inductive BackendType := BackendType_XRAY | BackendType_WIREGUARD | BackendType_other (n : Z).

Record Backend := {
  Backend_Type : BackendType;
  Backend_Config : string;
  Backend_Users : list (option User);
  Backend_KeepAlive : Z;
  Backend_ExcludeInbounds : list string
}.

Record BaseInfoResponse := {
  BaseInfoResponse_Started : bool;
  BaseInfoResponse_CoreVersion : string;
  BaseInfoResponse_NodeVersion : string
}.

(** ** Statistics *)

Record Stat := {
  Stat_Name : string;
  Stat_Type : string;
  Stat_Link : string;
  Stat_Value : Z
}.

Definition StatResponse := list Stat.

Inductive StatType :=
  | StatType_Outbounds | StatType_Outbound | StatType_Inbounds | StatType_Inbound
  | StatType_UsersStat | StatType_UserStat | StatType_other (n : Z).

Record StatRequest := {
  StatRequest_Name : string;
  StatRequest_Reset : bool;
  StatRequest_Type : StatType
}.

Record OnlineStatResponse := {
  OnlineStatResponse_Name : string;
  OnlineStatResponse_Value : Z
}.

Record StatsOnlineIpListResponse := {
  StatsOnlineIpListResponse_Name : string;
  StatsOnlineIpListResponse_Ips : gmap string Z
}.

Record Latency := {
  Latency_Name : string;
  Latency_Alive : bool;
  Latency_Delay : Z;
  Latency_Link : string;
  Latency_LastSeenTime : Z;
  Latency_LastTryTime : Z;
  Latency_Source : string
}.

Definition LatencyRequest := string. (* its only field, [Name] *)
Definition LatencyResponse := list Latency.

Record BackendStatsResponse := {
  BackendStatsResponse_NumGoroutine : Z;
  BackendStatsResponse_NumGc : Z;
  BackendStatsResponse_Alloc : Z;
  BackendStatsResponse_TotalAlloc : Z;
  BackendStatsResponse_Sys : Z;
  BackendStatsResponse_Mallocs : Z;
  BackendStatsResponse_Frees : Z;
  BackendStatsResponse_LiveObjects : Z;
  BackendStatsResponse_PauseTotalNs : Z;
  BackendStatsResponse_Uptime : Z
}.

Record SystemStatsResponse := {
  SystemStatsResponse_MemTotal : Z;
  SystemStatsResponse_MemUsed : Z;
  SystemStatsResponse_CpuCores : Z;
  SystemStatsResponse_CpuUsage : Z; (* the bits of a float64: the node copies it *)
  SystemStatsResponse_IncomingBandwidthSpeed : Z;
  SystemStatsResponse_OutgoingBandwidthSpeed : Z;
  SystemStatsResponse_Uptime : Z
}.

(** ** Routing *)

Record RoutingRule := { RoutingRule_OutboundTag : string; RoutingRule_RuleTag : string }.

Record BalancerInfoResponse := {
  BalancerInfoResponse_OverrideTarget : string;
  BalancerInfoResponse_PrincipleTarget : list string
}.

Record TestRouteRequest := {
  TestRouteRequest_InboundTag : string;
  TestRouteRequest_Network : string;
  TestRouteRequest_TargetIp : string;
  TestRouteRequest_TargetDomain : string;
  TestRouteRequest_TargetPort : Z;
  TestRouteRequest_Protocol : string;
  TestRouteRequest_User : string;
  TestRouteRequest_Attributes : gmap string string;
  TestRouteRequest_FieldSelectors : list string;
  TestRouteRequest_PublishResult : bool
}.

Record RouteResult := {
  RouteResult_OutboundTag : string;
  RouteResult_OutboundGroupTags : list string;
  RouteResult_InboundTag : string;
  RouteResult_Network : string;
  RouteResult_TargetDomain : string
}.

Record AddRoutingRuleRequest := {
  AddRoutingRuleRequest_Rule : string;
  AddRoutingRuleRequest_ShouldReset : bool
}.

Record OverrideBalancerTargetRequest := {
  OverrideBalancerTargetRequest_BalancerTag : string;
  OverrideBalancerTargetRequest_Target : string
}.

(** ** Decidable equality of the messages the components compare *)

#[export] Instance Stat_eq_dec : EqDecision Stat.
Proof. solve_decision. Defined.
#[export] Instance Wireguard_eq_dec : EqDecision Wireguard.
Proof. solve_decision. Defined.
#[export] Instance Vmess_eq_dec : EqDecision Vmess.
Proof. solve_decision. Defined.
#[export] Instance Vless_eq_dec : EqDecision Vless.
Proof. solve_decision. Defined.
#[export] Instance Trojan_eq_dec : EqDecision Trojan.
Proof. solve_decision. Defined.
#[export] Instance Shadowsocks_eq_dec : EqDecision Shadowsocks.
Proof. solve_decision. Defined.
#[export] Instance Hysteria_eq_dec : EqDecision Hysteria.
Proof. solve_decision. Defined.
#[export] Instance Proxy_eq_dec : EqDecision Proxy.
Proof. solve_decision. Defined.
#[export] Instance User_eq_dec : EqDecision User.
Proof. solve_decision. Defined.
