(* ===== verification/Tracker.v ===== *)
(** * Traffic accounting ([src/pkg/stats])

    [Tracker] (tracker.go) keeps one [Entry] per WireGuard public key and
    reports the traffic since the last reset; [InterfaceCountersTracker]
    (interface_counters.go) does the same for a whole interface.  Counters
    are [int64] and subtract with wrap-around ([sub64]).  Every method runs
    under the tracker's mutex, so it is one atomic function on the map. *)

From S2P Require Import Prelude Messages.

(** ** Data *)

(** [time.Time] as nanoseconds since Go's zero time (January 1, year 1). *)
Notation Time := Z (only parsing).
Definition zero_time : Time := 0%Z.
Definition Time_IsZero (t : Time) : bool := (t =? 0)%Z.
Definition Time_After (t u : Time) : bool := (u <? t)%Z.
(** [t.Unix()]: whole seconds since 1970. *)
Definition Time_Unix (t : Time) : Z := (t / 10 ^ 9 - 62135596800)%Z.

Record Entry := mkEntry {
  Entry_Email : string;
  CurrentRx : Z;
  CurrentTx : Z;
  BaseRx : Z;
  BaseTx : Z;
  LastDeltaRx : Z;
  LastDeltaTx : Z;
  LastActiveTime : Time;
  Entry_EndpointIP : string;
  IsDeleted : bool
}.

Record Sample := mkSample {
  Sample_PublicKey : string;
  Sample_Email : string;
  Sample_Rx : Z;
  Sample_Tx : Z;
  Sample_EndpointIP : string
}.

Record Tracker := mkTracker { stats : gmap string Entry }.

Definition Tracker_New : Tracker := mkTracker ∅.

(** ** Operations of the tracker *)

(** [&Entry{Email: email}]. *)
Definition new_entry (email : string) : Entry :=
  mkEntry email 0 0 0 0 0 0 zero_time "" false.

(** The body of [applySampleLocked] on the entry it found or created; the Go
    code updates the entry in place. *)
Definition apply_sample_entry (entry : Entry) (sample : Sample) (activeAt : Time) : Entry :=
  let '(mkEntry _ curRx curTx baseRx baseTx ldRx ldTx lastActive ep _) := entry in
  let email := Sample_Email sample in
  let rx := Sample_Rx sample in
  let tx := Sample_Tx sample in
  let readded := negb (ldRx =? 0)%Z || negb (ldTx =? 0)%Z in
  let baseRx := if readded then sub64 rx ldRx else baseRx in
  let baseTx := if readded then sub64 tx ldTx else baseTx in
  let ldRx := if readded then 0%Z else ldRx in
  let ldTx := if readded then 0%Z else ldTx in
  if (curRx =? rx)%Z && (curTx =? tx)%Z then
    mkEntry email curRx curTx baseRx baseTx ldRx ldTx lastActive (Sample_EndpointIP sample) false
  else
    let rollback := negb readded && ((rx <? curRx)%Z || (tx <? curTx)%Z) in
    let pendingRx := let p := sub64 curRx baseRx in if (p <? 0)%Z then 0%Z else p in
    let pendingTx := let p := sub64 curTx baseTx in if (p <? 0)%Z then 0%Z else p in
    let baseRx := if rollback then sub64 rx pendingRx else baseRx in
    let baseTx := if rollback then sub64 tx pendingTx else baseTx in
    let lastActive :=
      if (curRx <? rx)%Z || (curTx <? tx)%Z then activeAt else lastActive in
    mkEntry email rx tx baseRx baseTx ldRx ldTx lastActive (Sample_EndpointIP sample) false.

Definition Tracker_applySampleLocked (m : gmap string Entry) (sample : Sample)
    (activeAt : Time) : gmap string Entry :=
  let entry := default (new_entry (Sample_Email sample)) (m !! Sample_PublicKey sample) in
  <[Sample_PublicKey sample := apply_sample_entry entry sample activeAt]> m.

Definition Tracker_UpdateStatsBatch (st : Tracker) (samples : list Sample) (now : Time) : Tracker :=
  match samples with
  | [] => st
  | _ => mkTracker (foldl (λ m s, Tracker_applySampleLocked m s now) (stats st) samples)
  end.

Definition buildDeltaStats (name link : string) (rx tx : Z) : list Stat :=
  if (rx =? 0)%Z && (tx =? 0)%Z then []
  else (if (0 <? tx)%Z then [Build_Stat name "uplink" link tx] else [])
       ++ (if (0 <? rx)%Z then [Build_Stat name "downlink" link rx] else []).

Definition BuildInterfaceStats (name link : string) (rx tx : Z) : list Stat :=
  buildDeltaStats name link rx tx.

Definition entry_stats (key : string) (entry : Entry) : list Stat :=
  buildDeltaStats (Entry_Email entry) key
    (sub64 (CurrentRx entry) (BaseRx entry)) (sub64 (CurrentTx entry) (BaseTx entry)).

(** [entry.BaseRx = entry.CurrentRx; entry.BaseTx = entry.CurrentTx]. *)
Definition rebase_entry (e : Entry) : Entry :=
  mkEntry (Entry_Email e) (CurrentRx e) (CurrentTx e) (CurrentRx e) (CurrentTx e)
    (LastDeltaRx e) (LastDeltaTx e) (LastActiveTime e) (Entry_EndpointIP e) (IsDeleted e).

(** One iteration of the loops of [GetStats] and [GetUsersStats]. *)
Definition report_key (reset : bool) (acc : list Stat * gmap string Entry) (key : string)
    : list Stat * gmap string Entry :=
  let '(out, m) := acc in
  match m !! key with
  | None => (out, m)
  | Some entry =>
      let out := out ++ entry_stats key entry in
      if reset then
        let m := <[key := rebase_entry entry]> m in
        if IsDeleted entry then (out, delete key m) else (out, m)
      else (out, m)
  end.

Definition Tracker_GetStats (st : Tracker) (keys : list string) (reset : bool)
    : StatResponse * Tracker :=
  let '(out, m) := foldl (report_key reset) ([], stats st) keys in (out, mkTracker m).

(** The loop ranges over [st.stats] itself, in the order [ρ]. *)
Definition Tracker_GetUsersStats (ρ : map_range) (st : Tracker) (reset : bool)
    : StatResponse * Tracker :=
  let '(out, m) := foldl (report_key reset) ([], stats st) (range_of ρ (stats st)).*1 in
  (out, mkTracker m).

Definition Tracker_GetStatsEntries (st : Tracker) (keys : list string) : gmap string Entry :=
  foldl (λ result key,
           match stats st !! key with
           | Some entry => <[key := entry]> result
           | None => result
           end) ∅ keys.

Fixpoint Tracker_AnyActiveSince (st : Tracker) (keys : list string) (cutoff : Time) : bool :=
  match keys with
  | [] => false
  | key :: keys =>
      match stats st !! key with
      | None => Tracker_AnyActiveSince st keys cutoff
      | Some entry =>
          if Time_After (LastActiveTime entry) cutoff then true
          else Tracker_AnyActiveSince st keys cutoff
      end
  end.

Definition endpoint_step (st : Tracker) (result : gmap string Z) (key : string) : gmap string Z :=
  match stats st !! key with
  | None => result
  | Some entry =>
      if bool_decide (Entry_EndpointIP entry = "") || Time_IsZero (LastActiveTime entry)
      then result
      else
        let ts := Time_Unix (LastActiveTime entry) in
        match result !! Entry_EndpointIP entry with
        | Some prev =>
            if (prev <? ts)%Z then <[Entry_EndpointIP entry := ts]> result else result
        | None => <[Entry_EndpointIP entry := ts]> result
        end
  end.

(** Go returns a nil map when nothing was found; reading it is reading [∅]. *)
Definition Tracker_EndpointActivity (st : Tracker) (keys : list string) : gmap string Z :=
  foldl (endpoint_step st) ∅ keys.

Definition remove_entry (e : Entry) : Entry :=
  mkEntry (Entry_Email e) (CurrentRx e) (CurrentTx e) (BaseRx e) (BaseTx e)
    (sub64 (CurrentRx e) (BaseRx e)) (sub64 (CurrentTx e) (BaseTx e))
    zero_time (Entry_EndpointIP e) true.

Definition Tracker_RemoveStats (st : Tracker) (publicKey : string) : Tracker :=
  match stats st !! publicKey with
  | None => st
  | Some entry => mkTracker (<[publicKey := remove_entry entry]> (stats st))
  end.

Definition Tracker_ClearAllStats (st : Tracker) : Tracker := mkTracker ∅.

(** The entries [CleanupDeletedEntries] drops. *)
Definition cleanable (e : Entry) : bool :=
  IsDeleted e && (CurrentRx e =? BaseRx e)%Z && (CurrentTx e =? BaseTx e)%Z.

Definition Tracker_CleanupDeletedEntries (ρ : map_range) (st : Tracker) : Tracker :=
  mkTracker
    (foldl (λ m ke, if cleanable ke.2 then delete ke.1 m else m)
       (stats st) (range_of ρ (stats st))).

(** ** Interface counters *)

Record InterfaceCountersTracker := mkICT { baseRx : Z; baseTx : Z; baseSet : bool }.

Definition NewInterfaceCountersTracker : InterfaceCountersTracker := mkICT 0 0 false.

Definition ICT_Delta (t : InterfaceCountersTracker) (currentRx currentTx : Z) (reset : bool)
    : (Z * Z) * InterfaceCountersTracker :=
  let t := if baseSet t then t else mkICT currentRx currentTx true in
  let t :=
    if (currentRx <? baseRx t)%Z || (currentTx <? baseTx t)%Z
    then mkICT currentRx currentTx (baseSet t) else t in
  let deltaRx := sub64 currentRx (baseRx t) in
  let deltaTx := sub64 currentTx (baseTx t) in
  let t := if reset then mkICT currentRx currentTx (baseSet t) else t in
  ((deltaRx, deltaTx), t).

(** ** Sanity checks on the source's unit tests (tracker_test.go) *)

Example readd_preserves_pending :
  let s rx tx := mkSample "key1" "user1@example.com" rx tx "1.2.3.4" in
  let st := Tracker_UpdateStatsBatch Tracker_New [s 1000 2000]%Z 5 in
  let st := Tracker_RemoveStats st "key1" in
  let st := Tracker_UpdateStatsBatch st [s 100 200]%Z 6 in
  (Tracker_GetStats st ["key1"] false).1
  = [Build_Stat "user1@example.com" "uplink" "key1" 2000;
     Build_Stat "user1@example.com" "downlink" "key1" 1000].
Proof. vm_compute. reflexivity. Qed.

(** ** Elementary facts *)

Lemma apply_sample_same_key m s t :
  Tracker_applySampleLocked m s t !! Sample_PublicKey s
  = Some (apply_sample_entry (default (new_entry (Sample_Email s)) (m !! Sample_PublicKey s)) s t).
Proof. unfold Tracker_applySampleLocked. apply lookup_insert_eq. Qed.

Lemma apply_sample_other_key m s t k :
  Sample_PublicKey s ≠ k → Tracker_applySampleLocked m s t !! k = m !! k.
Proof. intros. unfold Tracker_applySampleLocked. by apply lookup_insert_ne. Qed.

Lemma UpdateStatsBatch_stats st samples now :
  stats (Tracker_UpdateStatsBatch st samples now)
  = foldl (λ m s, Tracker_applySampleLocked m s now) (stats st) samples.
Proof. by destruct samples. Qed.

(** What a report does to one key, and what it leaves alone. *)
Lemma report_key_other reset out m key k :
  key ≠ k → (report_key reset (out, m) key).2 !! k = m !! k.
Proof.
  intros Hne. simpl. repeat split_match; try done.
  - by rewrite lookup_delete_ne, lookup_insert_ne.
  - by rewrite lookup_insert_ne.
Qed.

Definition reported_entry (reset : bool) (e : Entry) : option Entry :=
  if reset then (if IsDeleted e then None else Some (rebase_entry e)) else Some e.

Lemma report_key_same reset out m k :
  (report_key reset (out, m) k).2 !! k = m !! k ≫= reported_entry reset.
Proof.
  simpl. unfold reported_entry. destruct (m !! k) as [e|] eqn:He; simpl; [|done].
  destruct reset; [|done]. destruct (IsDeleted e); simpl.
  - apply lookup_delete_eq.
  - apply lookup_insert_eq.
Qed.

Lemma report_key_out reset out m k :
  (report_key reset (out, m) k).1 = out ++ from_option (entry_stats k) [] (m !! k).
Proof. simpl. repeat split_match; rewrite ?app_nil_r; done. Qed.

(** Reporting distinct keys reads each entry once, in its initial state. *)
Lemma report_keys_out reset keys out m :
  NoDup keys →
  (foldl (report_key reset) (out, m) keys).1
  = out ++ (keys ≫= λ k, from_option (entry_stats k) [] (m !! k)).
Proof.
  revert out m. induction keys as [|k keys IH]; intros out m; [by rewrite app_nil_r|].
  intros [Hk Hnd]%NoDup_cons. cbn [foldl].
  rewrite (surjective_pairing (report_key reset (out, m) k)), report_key_out, IH by done.
  rewrite bind_cons, <- app_assoc. do 2 f_equal. apply Forall_bind_ext, Forall_forall.
  intros k' Hk'. rewrite report_key_other; [done|]. congruence.
Qed.

Lemma report_keys_state reset keys out m k :
  NoDup keys →
  (foldl (report_key reset) (out, m) keys).2 !! k
  = if decide (k ∈ keys) then m !! k ≫= reported_entry reset else m !! k.
Proof.
  revert out m. induction keys as [|k' keys IH]; intros out m.
  { intros _. by rewrite decide_False by set_solver. }
  intros [Hk Hnd]%NoDup_cons. cbn [foldl].
  rewrite (surjective_pairing (report_key reset (out, m) k')), IH by done.
  destruct (decide (k = k')) as [->|Hne].
  - rewrite decide_False by done. rewrite decide_True by set_solver.
    apply report_key_same.
  - rewrite report_key_other by done. do 2 case_decide; set_solver.
Qed.
