(* ===== verification/Meter.v ===== *)
(** * What the traffic tracker promises ([src/pkg/stats])

    An abstract meter per key over unbounded integers, the simulation of
    every operation of [Tracker.v] by it, the conservation of traffic, and
    the properties of the queries and of the interface counters. *)

From S2P Require Import Prelude Messages Tracker.

(** ** The abstract meter

    What the tracker promises for one key, over unbounded integers: the last
    counters seen, the traffic not yet reported, and whether the peer was
    removed.  A sample adds the growth of the counters; a counter that went
    back restarts the measure without losing what is pending; a removed peer
    that comes back with pending traffic keeps exactly that traffic. *)

Record meter := mkMeter {
  m_email : string;
  m_lastRx : Z; m_lastTx : Z;
  m_pendRx : Z; m_pendTx : Z;
  m_gone : bool
}.

Definition meter_new (email : string) : meter := mkMeter email 0 0 0 0 false.

Definition meter_resumed (m : meter) : bool :=
  m_gone m && negb ((m_pendRx m =? 0)%Z && (m_pendTx m =? 0)%Z).

Definition meter_rolled_back (m : meter) (s : Sample) : bool :=
  (Sample_Rx s <? m_lastRx m)%Z || (Sample_Tx s <? m_lastTx m)%Z.

(** The two directions a stat reports: what the peer received and sent. *)
Inductive dir : Type := Down | Up.

Definition dir_type (d : dir) : string :=
  match d with Down => "downlink" | Up => "uplink" end.
Definition m_last (d : dir) (m : meter) : Z :=
  match d with Down => m_lastRx m | Up => m_lastTx m end.
Definition m_pend (d : dir) (m : meter) : Z :=
  match d with Down => m_pendRx m | Up => m_pendTx m end.
Definition sample_counter (d : dir) (s : Sample) : Z :=
  match d with Down => Sample_Rx s | Up => Sample_Tx s end.

(** The traffic a sample adds. *)
Definition meter_growth (d : dir) (m : meter) (s : Sample) : Z :=
  if meter_resumed m || meter_rolled_back m s then 0%Z
  else (sample_counter d s - m_last d m)%Z.

Definition meter_sample (m : meter) (s : Sample) : meter :=
  mkMeter (Sample_Email s) (Sample_Rx s) (Sample_Tx s)
    (m_pendRx m + meter_growth Down m s) (m_pendTx m + meter_growth Up m s) false.

Definition meter_remove (m : meter) : meter :=
  mkMeter (m_email m) (m_lastRx m) (m_lastTx m) (m_pendRx m) (m_pendTx m) true.

Definition meter_stats (key : string) (m : meter) : list Stat :=
  buildDeltaStats (m_email m) key (m_pendRx m) (m_pendTx m).

(** A reset hands the pending traffic over; a removed peer is then forgotten. *)
Definition meter_reset (m : meter) : option meter :=
  if m_gone m then None
  else Some (mkMeter (m_email m) (m_lastRx m) (m_lastTx m) 0 0 false).

(** The abstraction of an entry, and the invariant every entry keeps. *)
Definition entry_meter (e : Entry) : meter :=
  mkMeter (Entry_Email e) (CurrentRx e) (CurrentTx e)
    (sub64 (CurrentRx e) (BaseRx e)) (sub64 (CurrentTx e) (BaseTx e)) (IsDeleted e).

Record entry_wf (e : Entry) : Prop := {
  wf_cur : (0 <= CurrentRx e <= max64)%Z ∧ (0 <= CurrentTx e <= max64)%Z;
  wf_base : in64 (BaseRx e) ∧ in64 (BaseTx e);
  wf_pend : (0 <= m_pendRx (entry_meter e))%Z ∧ (0 <= m_pendTx (entry_meter e))%Z;
  wf_deleted :
    (LastDeltaRx e, LastDeltaTx e)
    = if IsDeleted e then (m_pendRx (entry_meter e), m_pendTx (entry_meter e)) else (0%Z, 0%Z);
  wf_idle : IsDeleted e = true → LastActiveTime e = zero_time
}.

(** A sample the tracker can count: non-negative [int64] counters, and the
    pending traffic does not overflow. *)
Definition sample_fits (m : meter) (s : Sample) : Prop :=
  (0 <= Sample_Rx s <= max64)%Z ∧ (0 <= Sample_Tx s <= max64)%Z ∧
  (m_pendRx (meter_sample m s) <= max64)%Z ∧ (m_pendTx (meter_sample m s) <= max64)%Z.

Lemma sub64_pending_grow s cur base :
  (0 <= sub64 cur base)%Z → (0 <= s - cur)%Z → (sub64 cur base + (s - cur) <= max64)%Z →
  sub64 s base = (sub64 cur base + (s - cur))%Z.
Proof.
  unfold max64. intros ???. rewrite (sub64_trans cur), wrap64_id; unfold in64; lia.
Qed.

Lemma sub64_le_max a b : (sub64 a b <= max64)%Z.
Proof. pose proof (sub64_range a b). unfold in64, max64 in *. lia. Qed.

Lemma in64_pos p : (0 <= p <= max64)%Z → in64 p.
Proof. unfold in64, max64. lia. Qed.

Ltac zbool :=
  repeat match goal with
  | H : (_ =? _)%Z = true |- _ => apply Z.eqb_eq in H
  | H : (_ =? _)%Z = false |- _ => apply Z.eqb_neq in H
  | H : (_ <? _)%Z = true |- _ => apply Z.ltb_lt in H
  | H : (_ <? _)%Z = false |- _ => apply Z.ltb_ge in H
  | H : _ && _ = true |- _ => apply andb_true_iff in H as [? ?]
  | H : _ || _ = false |- _ => apply orb_false_iff in H as [? ?]
  end.

Lemma new_entry_wf email : entry_wf (new_entry email).
Proof. split; try done; unfold in64; simpl; lia. Qed.

Lemma entry_meter_new email : entry_meter (new_entry email) = meter_new email.
Proof. done. Qed.

(** [entry] was removed with traffic pending: the branch that sets [readded]. *)
Definition readded (e : Entry) : bool :=
  negb (LastDeltaRx e =? 0)%Z || negb (LastDeltaTx e =? 0)%Z.

Lemma readded_resumed e : entry_wf e → readded e = meter_resumed (entry_meter e).
Proof.
  intros [_ _ _ Hdel _]. unfold readded, meter_resumed. simpl in *.
  destruct (IsDeleted e); injection Hdel as -> ->; [by rewrite <- negb_andb|done].
Qed.

(** Close a branch of the refinement: the invariant field by field, then the
    meter's fields by arithmetic. *)
Ltac close_branch lems :=
  split; [split; simpl; lems; unfold max64 in *; first [done | solve [split; auto with node] | lia]
         | unfold entry_meter; simpl; lems; f_equal; lia].

(** The peer comes back with pending traffic. *)
Lemma apply_sample_resumed e s t :
  entry_wf e → readded e = true → sample_fits (entry_meter e) s →
  entry_wf (apply_sample_entry e s t) ∧
  entry_meter (apply_sample_entry e s t) = meter_sample (entry_meter e) s.
Proof.
  intros Hwf Hre (Hsr & Hst & _). unfold meter_sample, meter_growth. rewrite <- readded_resumed, Hre by done.
  destruct Hwf as [Hc Hb [Hpr Hpt] Hdel _], e as [em cr ct br bt lr lt la ep del].
  unfold readded in Hre. simpl in *. rewrite Hre.
  pose proof (sub64_le_max cr br). pose proof (sub64_le_max ct bt).
  destruct del; simplify_eq/=.
  destruct ((cr =? _)%Z && (ct =? _)%Z) eqn:Hsame; zbool; simplify_eq/=;
    close_branch ltac:(rewrite ?sub64_sub64 by auto using in64_pos).
Qed.

(** Otherwise the base moves only when a counter went back. *)
Lemma apply_sample_plain e s t :
  entry_wf e → readded e = false → sample_fits (entry_meter e) s →
  entry_wf (apply_sample_entry e s t) ∧
  entry_meter (apply_sample_entry e s t) = meter_sample (entry_meter e) s.
Proof.
  intros Hwf Hre (Hsr & Hst & Hfits). unfold meter_sample, meter_growth in *.
  rewrite <- readded_resumed, Hre in * by done.
  destruct Hwf as [Hc Hb [Hpr Hpt] Hdel _], e as [em cr ct br bt lr lt la ep del].
  unfold readded, meter_rolled_back in *. simpl in *. rewrite Hre. simpl in *.
  apply orb_false_iff in Hre as [->%negb_false_iff%Z.eqb_eq ->%negb_false_iff%Z.eqb_eq].
  pose proof (sub64_le_max cr br). pose proof (sub64_le_max ct bt).
  destruct s as [k em' rx tx ep']; simpl in *.
  destruct ((cr =? rx)%Z && (ct =? tx)%Z) eqn:Hsame.
  { zbool; subst. rewrite !Z.ltb_irrefl in *. close_branch idtac. }
  destruct ((rx <? cr)%Z || (tx <? ct)%Z) eqn:Hroll; zbool.
  - replace (sub64 cr br <? 0)%Z with false by (symmetry; apply Z.ltb_ge; done).
    replace (sub64 ct bt <? 0)%Z with false by (symmetry; apply Z.ltb_ge; done).
    close_branch ltac:(rewrite ?sub64_sub64 by auto using in64_pos).
  - close_branch ltac:(rewrite ?(sub64_pending_grow rx cr br), ?(sub64_pending_grow tx ct bt) by lia).
Qed.

Lemma apply_sample_refines e s t :
  entry_wf e → sample_fits (entry_meter e) s →
  entry_wf (apply_sample_entry e s t) ∧
  entry_meter (apply_sample_entry e s t) = meter_sample (entry_meter e) s.
Proof.
  intros. destruct (readded e) eqn:?; [by apply apply_sample_resumed|by apply apply_sample_plain].
Qed.

(** ** The tracker against the meters

    The operations of the tracker as one step function, the same operations
    on a map of meters, and the simulation between them. *)

Inductive tracker_op : Type :=
  | OpUpdate (samples : list Sample) (now : Z)
  | OpGetStats (keys : list string) (reset : bool)
  | OpGetUsersStats (ρ : map_range) (reset : bool)
  | OpRemove (key : string)
  | OpCleanup (ρ : map_range).

Definition tracker_step (st : Tracker) (op : tracker_op) : StatResponse * Tracker :=
  match op with
  | OpUpdate samples now => ([], Tracker_UpdateStatsBatch st samples now)
  | OpGetStats keys reset => Tracker_GetStats st keys reset
  | OpGetUsersStats ρ reset => Tracker_GetUsersStats ρ st reset
  | OpRemove key => ([], Tracker_RemoveStats st key)
  | OpCleanup ρ => ([], Tracker_CleanupDeletedEntries ρ st)
  end.

Definition meters_sample (M : gmap string meter) (s : Sample) : gmap string meter :=
  <[Sample_PublicKey s :=
      meter_sample (default (meter_new (Sample_Email s)) (M !! Sample_PublicKey s)) s]> M.

Definition meters_report (reset : bool) (acc : list Stat * gmap string meter) (key : string)
    : list Stat * gmap string meter :=
  let '(out, M) := acc in
  (out ++ from_option (meter_stats key) [] (M !! key),
   if reset then partial_alter (λ o, o ≫= meter_reset) key M else M).

(** A removed meter with nothing pending carries no information. *)
Definition meter_live (km : string * meter) : Prop :=
  negb (m_gone km.2 && (m_pendRx km.2 =? 0)%Z && (m_pendTx km.2 =? 0)%Z) = true.

Definition meters_step (M : gmap string meter) (op : tracker_op)
    : StatResponse * gmap string meter :=
  match op with
  | OpUpdate samples _ => ([], foldl meters_sample M samples)
  | OpGetStats keys reset => foldl (meters_report reset) ([], M) keys
  | OpGetUsersStats _ reset => foldl (meters_report reset) ([], M) (map_to_list M).*1
  | OpRemove key => ([], alter meter_remove key M)
  | OpCleanup _ => ([], filter meter_live M)
  end.

Definition meters (m : gmap string Entry) : gmap string meter := entry_meter <$> m.
Definition tracker_wf (m : gmap string Entry) : Prop := map_Forall (λ _, entry_wf) m.

Fixpoint samples_fit (M : gmap string meter) (samples : list Sample) : Prop :=
  match samples with
  | [] => True
  | s :: samples =>
      sample_fits (default (meter_new (Sample_Email s)) (M !! Sample_PublicKey s)) s ∧
      samples_fit (meters_sample M s) samples
  end.

Definition op_fits (M : gmap string meter) (op : tracker_op) : Prop :=
  match op with OpUpdate samples _ => samples_fit M samples | _ => True end.

(** *** Simulation of each operation *)

Lemma meters_lookup m k : meters m !! k = entry_meter <$> m !! k.
Proof. apply lookup_fmap. Qed.

Lemma default_meter m s :
  default (meter_new (Sample_Email s)) (meters m !! Sample_PublicKey s)
  = entry_meter (default (new_entry (Sample_Email s)) (m !! Sample_PublicKey s)).
Proof. rewrite meters_lookup. by destruct (m !! Sample_PublicKey s). Qed.

Lemma default_entry_wf m s :
  tracker_wf m → entry_wf (default (new_entry (Sample_Email s)) (m !! Sample_PublicKey s)).
Proof.
  intros Hwf. destruct (m !! Sample_PublicKey s) as [e|] eqn:He; simpl.
  - by apply (Hwf (Sample_PublicKey s)).
  - apply new_entry_wf.
Qed.

Lemma sim_samples m samples now :
  tracker_wf m → samples_fit (meters m) samples →
  let m' := foldl (λ m s, Tracker_applySampleLocked m s now) m samples in
  tracker_wf m' ∧ meters m' = foldl meters_sample (meters m) samples.
Proof.
  revert m. induction samples as [|s samples IH]; intros m Hwf; [done|].
  intros [Hs Hfit]. rewrite default_meter in Hs.
  destruct (apply_sample_refines _ s now (default_entry_wf m s Hwf) Hs) as [Hwf' Hm'].
  assert (meters (Tracker_applySampleLocked m s now) = meters_sample (meters m) s) as Heq.
  { unfold Tracker_applySampleLocked, meters_sample, meters.
    rewrite fmap_insert, Hm'. by rewrite <- default_meter. }
  simpl. rewrite <- Heq. apply IH; [|by rewrite Heq].
  by apply map_Forall_insert_2.
Qed.

Lemma rebase_meter e :
  IsDeleted e = false → Some (entry_meter (rebase_entry e)) = meter_reset (entry_meter e).
Proof.
  intros Hd. unfold meter_reset, entry_meter; simpl. rewrite Hd. by node_simpl.
Qed.

Lemma rebase_wf e : entry_wf e → IsDeleted e = false → entry_wf (rebase_entry e).
Proof.
  intros [Hc _ _ Hdel ?] Hd. rewrite Hd in *. injection Hdel as H1 H2.
  split; simpl; rewrite ?Hd, ?sub64_self, ?H1, ?H2; try done.
  unfold in64, max64 in *. lia.
Qed.

Lemma sim_report_key reset out m key :
  tracker_wf m →
  tracker_wf (report_key reset (out, m) key).2 ∧
  meters_report reset (out, meters m) key
  = ((report_key reset (out, m) key).1, meters (report_key reset (out, m) key).2).
Proof.
  intros Hwf. unfold meters_report. rewrite report_key_out, meters_lookup.
  assert (Hm : meters (report_key reset (out, m) key).2
               = if reset then partial_alter (λ o, o ≫= meter_reset) key (meters m) else meters m).
  { apply map_eq. intros k. rewrite meters_lookup. destruct (decide (key = k)) as [->|Hne].
    - rewrite report_key_same. unfold reported_entry. destruct reset; [|rewrite meters_lookup; by destruct (m !! k)].
      rewrite lookup_partial_alter_eq, meters_lookup. destruct (m !! k) as [e|] eqn:He; [|done].
      simpl. destruct (IsDeleted e) eqn:Hd; simpl; [by unfold meter_reset; simpl; rewrite Hd|].
      by apply rebase_meter.
    - rewrite report_key_other by done. destruct reset; [rewrite lookup_partial_alter_ne by done|];
        by rewrite meters_lookup. }
  rewrite Hm. split; [|f_equal; by destruct (m !! key)].
  intros k e. destruct (decide (key = k)) as [->|Hne]; [|rewrite report_key_other by done; apply Hwf].
  rewrite report_key_same. destruct (m !! k) as [e'|] eqn:He; [|done]. simpl.
  unfold reported_entry. pose proof (Hwf k e' He) as Hwf'.
  destruct reset; [|by intros [= <-]]. destruct (IsDeleted e') eqn:Hd; [done|].
  intros [= <-]. by apply rebase_wf.
Qed.

Lemma sim_report reset keys out m :
  tracker_wf m →
  tracker_wf (foldl (report_key reset) (out, m) keys).2 ∧
  foldl (meters_report reset) (out, meters m) keys
  = ((foldl (report_key reset) (out, m) keys).1,
     meters (foldl (report_key reset) (out, m) keys).2).
Proof.
  revert out m. induction keys as [|k keys IH]; intros out m Hwf; [done|].
  cbn [foldl]. destruct (sim_report_key reset out m k Hwf) as [Hwf' ->].
  rewrite (surjective_pairing (report_key reset (out, m) k)). by apply IH.
Qed.

Lemma sim_remove m key :
  tracker_wf m →
  tracker_wf (stats (Tracker_RemoveStats (mkTracker m) key)) ∧
  meters (stats (Tracker_RemoveStats (mkTracker m) key)) = alter meter_remove key (meters m).
Proof.
  intros Hwf. unfold Tracker_RemoveStats. simpl. destruct (m !! key) as [e|] eqn:He; simpl.
  - split.
    + apply map_Forall_insert_2; [|done]. by destruct (Hwf key e He).
    + unfold meters. rewrite fmap_insert. apply map_eq. intros k.
      rewrite lookup_insert, lookup_alter, !lookup_fmap.
      case_decide; subst; [|done]. by rewrite He.
  - split; [done|]. rewrite alter_id'; [done|]. by rewrite meters_lookup, He.
Qed.

Lemma cleanable_live k e :
  entry_wf e → cleanable e = false ↔ meter_live (k, entry_meter e).
Proof.
  intros [Hc Hb _ _ _]. unfold cleanable, meter_live; simpl.
  rewrite negb_true_iff. destruct (IsDeleted e); simpl; [|done].
  assert (∀ a b, in64 a → in64 b → (sub64 a b =? 0)%Z = (a =? b)%Z) as Heq.
  { intros a b Ha Hb'. unfold sub64. destruct (Z.eqb_spec a b) as [->|Hne].
    - by rewrite Z.sub_diag.
    - apply Z.eqb_neq. destruct (wrap64_congr (a - b)) as [j ->]. unfold in64 in *.
      intros ?. assert (j = 0)%Z by lia. lia. }
  rewrite !Heq by (tauto || apply in64_pos; tauto). done.
Qed.

Lemma foldl_delete_lookup {A} (P : string * A → bool) (l : list (string * A)) (m : gmap string A) k :
  NoDup l.*1 → (∀ k a, (k, a) ∈ l → m !! k = Some a) →
  foldl (λ m ke, if P ke then delete ke.1 m else m) m l !! k
  = match m !! k with
    | Some a => if bool_decide ((k ∈ l.*1)) && P (k, a) then None else Some a
    | None => None
    end.
Proof.
  revert m. induction l as [|[k' a'] l IH]; intros m; cbn [foldl]; [|rewrite fmap_cons; cbn [fst]].
  { intros _ _. rewrite bool_decide_eq_false_2 by set_solver. by destruct (m !! k). }
  intros [Hk' Hnd]%NoDup_cons Hm.
  assert (Hk'' : m !! k' = Some a') by (apply Hm; set_solver).
  rewrite IH; [|done|].
  - destruct (P (k', a')) eqn:HP.
    + destruct (decide (k = k')) as [->|Hne].
      * rewrite lookup_delete_eq, Hk'', HP. by rewrite bool_decide_eq_true_2 by set_solver.
      * rewrite lookup_delete_ne by done. destruct (m !! k); [|done].
        by rewrite (bool_decide_ext (k ∈ l.*1) (k ∈ k' :: l.*1)) by set_solver.
    + destruct (decide (k = k')) as [->|Hne].
      * rewrite Hk'', HP, !andb_false_r. done.
      * destruct (m !! k); [|done].
        by rewrite (bool_decide_ext (k ∈ l.*1) (k ∈ k' :: l.*1)) by set_solver.
  - intros k0 a0 Hin. assert (k0 ≠ k').
    { intros ->. apply Hk'. rewrite list_elem_of_fmap. by exists (k', a0). }
    destruct (P (k', a')); rewrite ?lookup_delete_ne by done; apply Hm; set_solver.
Qed.

Lemma cleanup_lookup ρ m k :
  stats (Tracker_CleanupDeletedEntries ρ (mkTracker m)) !! k
  = match m !! k with
    | Some e => if cleanable e then None else Some e
    | None => None
    end.
Proof.
  simpl. rewrite foldl_delete_lookup; [|apply range_nodup|intros ??; by rewrite elem_of_range].
  destruct (m !! k) as [e|] eqn:He; [|done].
  rewrite bool_decide_eq_true_2; [done|]. apply elem_of_range_keys. eauto.
Qed.

Lemma sim_cleanup ρ m :
  tracker_wf m →
  tracker_wf (stats (Tracker_CleanupDeletedEntries ρ (mkTracker m))) ∧
  meters (stats (Tracker_CleanupDeletedEntries ρ (mkTracker m))) = filter meter_live (meters m).
Proof.
  intros Hwf. split.
  - intros k e. rewrite cleanup_lookup. repeat split_match; naive_solver.
  - apply map_eq. intros k. rewrite meters_lookup, cleanup_lookup.
    destruct (m !! k) as [e|] eqn:He; simpl.
    + pose proof (cleanable_live k e (Hwf k e He)) as Hl. symmetry.
      destruct (cleanable e) eqn:Hc; simpl.
      * apply map_lookup_filter_None_2. right. intros x. rewrite meters_lookup, He.
        intros [= <-] Hlive%Hl. congruence.
      * apply map_lookup_filter_Some_2; [by rewrite meters_lookup, He|]. by apply Hl.
    + symmetry. apply map_lookup_filter_None_2. left. by rewrite meters_lookup, He.
Qed.

Lemma report_perm reset keys keys' m :
  NoDup keys → keys ≡ₚ keys' →
  (foldl (report_key reset) ([], m) keys).1 ≡ₚ (foldl (report_key reset) ([], m) keys').1 ∧
  (foldl (report_key reset) ([], m) keys).2 = (foldl (report_key reset) ([], m) keys').2.
Proof.
  intros Hnd Hp. assert (NoDup keys') as Hnd' by by rewrite <- Hp. split.
  - rewrite !report_keys_out by done. by rewrite Hp.
  - apply map_eq. intros k. rewrite !report_keys_state by done.
    by rewrite (decide_ext (k ∈ keys) (k ∈ keys')) by by rewrite Hp.
Qed.

Lemma meters_keys ρ m : (range_of ρ m).*1 ≡ₚ (map_to_list (meters m)).*1.
Proof.
  unfold meters. rewrite map_to_list_fmap, <- list_fmap_compose, (range_perm ρ m).
  by rewrite (list_fmap_ext (fst ∘ prod_map id entry_meter) fst (map_to_list m)).
Qed.

Lemma GetUsersStats_eq ρ st reset :
  Tracker_GetUsersStats ρ st reset = Tracker_GetStats st (range_of ρ (stats st)).*1 reset.
Proof. done. Qed.

Lemma GetStats_eq st keys reset :
  Tracker_GetStats st keys reset
  = ((foldl (report_key reset) ([], stats st) keys).1,
     mkTracker (foldl (report_key reset) ([], stats st) keys).2).
Proof. unfold Tracker_GetStats. by destruct (foldl _ _ _). Qed.

(** One step of the tracker is one step of the meters, up to the order in
    which the map is ranged over. *)
Lemma tracker_step_sim st op :
  tracker_wf (stats st) → op_fits (meters (stats st)) op →
  (tracker_step st op).1 ≡ₚ (meters_step (meters (stats st)) op).1 ∧
  meters (stats (tracker_step st op).2) = (meters_step (meters (stats st)) op).2 ∧
  tracker_wf (stats (tracker_step st op).2).
Proof.
  intros Hwf Hfit. destruct op as [samples now|keys reset|ρ reset|key|ρ]; cbn [tracker_step meters_step].
  - cbn [fst snd]. rewrite UpdateStatsBatch_stats.
    by destruct (sim_samples (stats st) samples now Hwf Hfit).
  - rewrite GetStats_eq. cbn [fst snd stats].
    destruct (sim_report reset keys [] (stats st) Hwf) as [? ->]. done.
  - rewrite GetUsersStats_eq, GetStats_eq. cbn [fst snd stats].
    destruct (report_perm reset _ _ (stats st) (range_nodup ρ (stats st)) (meters_keys ρ (stats st)))
      as [-> ->].
    destruct (sim_report reset (map_to_list (meters (stats st))).*1 [] (stats st) Hwf) as [? ->].
    done.
  - destruct st as [m]. cbn [fst snd]. destruct (sim_remove m key Hwf) as [? ->]. done.
  - destruct st as [m]. cbn [fst snd]. destruct (sim_cleanup ρ m Hwf) as [? ->]. done.
Qed.

(** ** Conservation of the traffic *)

Definition pending (d : dir) (key : string) (M : gmap string meter) : Z :=
  from_option (m_pend d) 0%Z (M !! key).

Definition stat_value (d : dir) (key : string) (s : Stat) : Z :=
  if bool_decide (Stat_Link s = key ∧ Stat_Type s = dir_type d) then Stat_Value s else 0%Z.

(** The value a response reports for a key in a direction. *)
Definition reported (d : dir) (key : string) (out : StatResponse) : Z :=
  foldr (λ s acc, (stat_value d key s + acc)%Z) 0%Z out.

Definition resets (op : tracker_op) : bool :=
  match op with OpGetStats _ reset | OpGetUsersStats _ reset => reset | _ => false end.

(** What the resets of a run handed over for a key. *)
Fixpoint billed (d : dir) (key : string) (st : Tracker) (ops : list tracker_op) : Z :=
  match ops with
  | [] => 0%Z
  | op :: ops =>
      ((if resets op then reported d key (tracker_step st op).1 else 0)
       + billed d key (tracker_step st op).2 ops)%Z
  end.

Definition tracker_run (st : Tracker) (ops : list tracker_op) : Tracker :=
  foldl (λ st op, (tracker_step st op).2) st ops.

(** What the meters count for a key in a run. *)
Fixpoint credit_samples (d : dir) (key : string) (M : gmap string meter)
    (samples : list Sample) : Z :=
  match samples with
  | [] => 0%Z
  | s :: samples =>
      ((if bool_decide (Sample_PublicKey s = key)
        then meter_growth d (default (meter_new (Sample_Email s)) (M !! Sample_PublicKey s)) s
        else 0) + credit_samples d key (meters_sample M s) samples)%Z
  end.

Fixpoint credited (d : dir) (key : string) (M : gmap string meter) (ops : list tracker_op) : Z :=
  match ops with
  | [] => 0%Z
  | op :: ops =>
      ((match op with OpUpdate samples _ => credit_samples d key M samples | _ => 0 end)
       + credited d key (meters_step M op).2 ops)%Z
  end.

Fixpoint ops_fit (M : gmap string meter) (ops : list tracker_op) : Prop :=
  match ops with
  | [] => True
  | op :: ops => op_fits M op ∧ ops_fit (meters_step M op).2 ops
  end.

Lemma reported_app d key o1 o2 :
  reported d key (o1 ++ o2) = (reported d key o1 + reported d key o2)%Z.
Proof. induction o1 as [|s o1 IH]; simpl; lia. Qed.

Lemma reported_perm d key o1 o2 : o1 ≡ₚ o2 → reported d key o1 = reported d key o2.
Proof. induction 1; simpl; lia. Qed.

Lemma reported_meter d key k m :
  (0 <= m_pendRx m)%Z → (0 <= m_pendTx m)%Z →
  reported d key (meter_stats k m) = if bool_decide (k = key) then m_pend d m else 0%Z.
Proof.
  intros H1 H2. unfold meter_stats, buildDeltaStats.
  destruct d, (m_pendRx m =? 0)%Z eqn:?, (m_pendTx m =? 0)%Z eqn:?,
    (0 <? m_pendRx m)%Z eqn:?, (0 <? m_pendTx m)%Z eqn:?;
    zbool; simpl; unfold stat_value; simpl; repeat case_bool_decide; naive_solver lia.
Qed.

(** Pending amounts of the meters of a well-formed tracker are not negative. *)
Definition meters_wf (M : gmap string meter) : Prop :=
  map_Forall (λ _ m, (0 <= m_pendRx m)%Z ∧ (0 <= m_pendTx m)%Z) M.

Lemma tracker_meters_wf m : tracker_wf m → meters_wf (meters m).
Proof.
  intros Hwf k x. rewrite meters_lookup, fmap_Some. intros (e & He & ->).
  by apply (wf_pend e (Hwf k e He)).
Qed.

Lemma meters_report_wf keys out M :
  meters_wf M → meters_wf (foldl (meters_report true) (out, M) keys).2.
Proof.
  revert out M. induction keys as [|k keys IH]; intros out M HM; [done|]. apply IH.
  intros k' m. rewrite lookup_partial_alter. case_decide; [|apply HM].
  subst. rewrite bind_Some. intros (x & Hx & Hr). unfold meter_reset in Hr.
  destruct (m_gone x); simplify_eq/=. lia.
Qed.

Lemma meters_report_out reset keys out M :
  (foldl (meters_report reset) (out, M) keys).1
  = out ++ (foldl (meters_report reset) ([], M) keys).1 ∧
  (foldl (meters_report reset) (out, M) keys).2 = (foldl (meters_report reset) ([], M) keys).2.
Proof.
  revert out M. induction keys as [|k keys IH]; intros out M; cbn [foldl].
  { by rewrite app_nil_r. }
  unfold meters_report at 2 4 6 8.
  match goal with |- context [foldl _ (?o, ?M') keys] => destruct (IH o M') as [-> ->] end.
  match goal with |- context [foldl _ ([] ++ ?o, ?M') keys] =>
    destruct (IH ([] ++ o) M') as [-> ->] end.
  by rewrite app_assoc.
Qed.

Lemma meter_reset_pending d m : from_option (m_pend d) 0%Z (meter_reset m) = 0%Z.
Proof. unfold meter_reset. by destruct (m_gone m), d. Qed.

(** A reset moves what is pending into its response. *)
Lemma report_balance d key keys M :
  meters_wf M →
  (reported d key (foldl (meters_report true) ([], M) keys).1
   + pending d key (foldl (meters_report true) ([], M) keys).2)%Z = pending d key M.
Proof.
  revert M. induction keys as [|k keys IH]; intros M HM; [done|]. cbn [foldl].
  pose proof (meters_report_wf [k] [] M HM) as HM'. cbn [foldl] in HM'.
  unfold meters_report at 2 4. unfold meters_report in HM'. cbn [snd] in HM'.
  match goal with |- context [foldl _ ([] ++ ?o, ?M') keys] =>
    destruct (meters_report_out true keys ([] ++ o) M') as [-> ->] end.
  rewrite !reported_app, <- Z.add_assoc, IH by done. unfold pending.
  rewrite lookup_partial_alter. destruct (M !! k) as [m|] eqn:Hm; simpl.
  - destruct (HM k m Hm). rewrite reported_meter by done.
    case_bool_decide; case_decide; subst; try done.
    rewrite Hm. simpl. rewrite meter_reset_pending. lia.
  - case_decide; subst; rewrite ?Hm; done.
Qed.

Lemma credit_balance d key samples M :
  pending d key (foldl meters_sample M samples)
  = (pending d key M + credit_samples d key M samples)%Z.
Proof.
  revert M. induction samples as [|s samples IH]; intros M; simpl; [lia|].
  rewrite IH. enough (pending d key (meters_sample M s) = pending d key M +
    (if bool_decide (Sample_PublicKey s = key)
     then meter_growth d (default (meter_new (Sample_Email s)) (M !! Sample_PublicKey s)) s
     else 0))%Z by lia.
  unfold pending, meters_sample. rewrite lookup_insert.
  case_bool_decide as Hk; case_decide; try congruence; [|lia]. subst.
  destruct (M !! Sample_PublicKey s) as [m|]; simpl; destruct d; simpl; lia.
Qed.

Lemma step_balance d key M op :
  meters_wf M →
  ((if resets op then reported d key (meters_step M op).1 else 0)
   + pending d key (meters_step M op).2
   = pending d key M
     + match op with OpUpdate samples _ => credit_samples d key M samples | _ => 0 end)%Z.
Proof.
  intros HM. destruct op as [samples now|keys [|]|ρ [|]|k|ρ]; cbn [resets meters_step fst snd].
  - by rewrite credit_balance.
  - rewrite report_balance by done. lia.
  - assert (∀ keys out, (foldl (meters_report false) (out, M) keys).2 = M) as ->; [|lia].
    intros l. induction l as [|k l IH]; intros out; [done|]. apply IH.
  - rewrite report_balance by done. lia.
  - assert (∀ keys out, (foldl (meters_report false) (out, M) keys).2 = M) as ->; [|lia].
    intros l. induction l as [|k l IH]; intros out; [done|]. apply IH.
  - unfold pending. rewrite lookup_alter. case_decide; [subst|lia].
    destruct (M !! key); simpl; [|lia]. destruct d; simpl; lia.
  - unfold pending. rewrite map_lookup_filter. destruct (M !! key) as [m|] eqn:Hm; simpl; [|lia].
    unfold guard. case_decide as Hl; simpl; [lia|].
    unfold meter_live in Hl. apply not_true_is_false, negb_false_iff in Hl; simpl in Hl.
    zbool. destruct d; simpl; lia.
Qed.

Lemma run_balance d key ops st :
  tracker_wf (stats st) → ops_fit (meters (stats st)) ops →
  (billed d key st ops + pending d key (meters (stats (tracker_run st ops)))
   = pending d key (meters (stats st)) + credited d key (meters (stats st)) ops)%Z.
Proof.
  revert st. induction ops as [|op ops IH]; intros st Hwf Hfit; simpl; [lia|].
  destruct Hfit as [Hop Hops].
  destruct (tracker_step_sim st op Hwf Hop) as (Hout & Hm & Hwf').
  rewrite <- Hm in *. rewrite <- Z.add_assoc, IH, (reported_perm _ _ _ _ Hout) by done.
  pose proof (step_balance d key (meters (stats st)) op (tracker_meters_wf _ Hwf)) as Hb.
  rewrite <- Hm in Hb. lia.
Qed.

Lemma run_wf ops st :
  tracker_wf (stats st) → ops_fit (meters (stats st)) ops → tracker_wf (stats (tracker_run st ops)).
Proof.
  revert st. induction ops as [|op ops IH]; intros st Hwf Hfit; [done|].
  destruct Hfit as [Hop Hops].
  destruct (tracker_step_sim st op Hwf Hop) as (Hout & Hm & Hwf').
  apply IH; [done|]. by rewrite Hm.
Qed.

(** *** Counters that never go back

    When the kernel counters of a peer only grow, what the meters credit is
    the counter itself. *)

Definition key_samples (key : string) (ops : list tracker_op) : list Sample :=
  ops ≫= λ op,
    match op with
    | OpUpdate samples _ => filter (λ s, Sample_PublicKey s = key) samples
    | _ => []
    end.

Definition counters (s : Sample) : dir → Z := λ d, sample_counter d s.

Fixpoint mono_from (l : dir → Z) (ss : list Sample) : Prop :=
  match ss with
  | [] => True
  | s :: ss => (l Down <= Sample_Rx s)%Z ∧ (l Up <= Sample_Tx s)%Z ∧ mono_from (counters s) ss
  end.

Definition last_from (l : dir → Z) (ss : list Sample) : dir → Z :=
  foldl (λ _ s, counters s) l ss.

Definition key_last (key : string) (M : gmap string meter) (d : dir) : Z :=
  from_option (m_last d) 0%Z (M !! key).
Definition key_gone (key : string) (M : gmap string meter) : bool :=
  from_option m_gone false (M !! key).

Lemma mono_from_app l a b : mono_from l (a ++ b) ↔ mono_from l a ∧ mono_from (last_from l a) b.
Proof. revert l. induction a as [|s a IH]; intros l; simpl; [tauto|]. rewrite IH. tauto. Qed.

Lemma mono_from_ext l l' ss : (∀ d, l d = l' d) → mono_from l ss → mono_from l' ss.
Proof. intros H. destruct ss as [|s ss]; simpl; [done|]. by rewrite !H. Qed.

Lemma last_from_ext l l' ss d : (∀ d, l d = l' d) → last_from l ss d = last_from l' ss d.
Proof. destruct ss; simpl; auto. Qed.

Lemma meters_sample_last key M s d :
  key_last key (meters_sample M s) d
  = if bool_decide (Sample_PublicKey s = key) then sample_counter d s else key_last key M d.
Proof.
  unfold key_last, meters_sample. rewrite lookup_insert.
  case_bool_decide; case_decide; try congruence; by destruct d.
Qed.

Lemma meters_sample_gone key M s :
  key_gone key M = false → key_gone key (meters_sample M s) = false.
Proof.
  unfold key_gone, meters_sample. rewrite lookup_insert. by case_decide.
Qed.

Lemma growth_mono d M s :
  key_gone (Sample_PublicKey s) M = false →
  (key_last (Sample_PublicKey s) M Down <= Sample_Rx s)%Z →
  (key_last (Sample_PublicKey s) M Up <= Sample_Tx s)%Z →
  meter_growth d (default (meter_new (Sample_Email s)) (M !! Sample_PublicKey s)) s
  = (sample_counter d s - key_last (Sample_PublicKey s) M d)%Z.
Proof.
  unfold key_gone, key_last, meter_growth, meter_resumed, meter_rolled_back. intros Hg H1 H2.
  destruct (M !! Sample_PublicKey s) as [m|]; simpl in *.
  - rewrite Hg. simpl. rewrite (proj2 (Z.ltb_ge _ _) H1), (proj2 (Z.ltb_ge _ _) H2). done.
  - rewrite (proj2 (Z.ltb_ge _ _) H1), (proj2 (Z.ltb_ge _ _) H2). by destruct d.
Qed.

Lemma credit_mono d key samples M :
  key_gone key M = false →
  let ss := filter (λ s, Sample_PublicKey s = key) samples in
  mono_from (key_last key M) ss →
  credit_samples d key M samples = (last_from (key_last key M) ss d - key_last key M d)%Z ∧
  key_gone key (foldl meters_sample M samples) = false ∧
  ∀ d', key_last key (foldl meters_sample M samples) d' = last_from (key_last key M) ss d'.
Proof.
  revert M. induction samples as [|s samples IH]; intros M Hg; simpl.
  { intros _. split_and!; [lia|done|done]. }
  destruct (decide (Sample_PublicKey s = key)) as [Hk|Hk].
  - rewrite filter_cons_True, bool_decide_eq_true_2 by done. intros (H1 & H2 & Hm).
    assert (Hl : ∀ d', counters s d' = key_last key (meters_sample M s) d').
    { intros d'. rewrite meters_sample_last, bool_decide_eq_true_2; done. }
    destruct (IH (meters_sample M s)) as (-> & ? & Hlast);
      [by apply meters_sample_gone|by eapply mono_from_ext|].
    subst key. rewrite growth_mono by done. simpl.
    rewrite <- (last_from_ext (counters s)), <- Hl by done. split_and!; [|done|].
    + unfold counters. lia.
    + intros d'. rewrite Hlast. symmetry. by apply last_from_ext.
  - rewrite filter_cons_False, bool_decide_eq_false_2 by done. intros Hm.
    assert (Hl : ∀ d', key_last key M d' = key_last key (meters_sample M s) d').
    { intros d'. rewrite meters_sample_last, bool_decide_eq_false_2; done. }
    destruct (IH (meters_sample M s)) as (-> & ? & Hlast);
      [by apply meters_sample_gone|by eapply mono_from_ext|].
    rewrite <- (last_from_ext (key_last key M)), <- Hl by done. split_and!; [lia|done|].
    intros d'. rewrite Hlast. symmetry. by apply last_from_ext.
Qed.

(** The operations that do not sample leave the last counters of a live peer
    alone. *)
Lemma report_last reset keys key out M d :
  key_gone key M = false →
  key_gone key (foldl (meters_report reset) (out, M) keys).2 = false ∧
  key_last key (foldl (meters_report reset) (out, M) keys).2 d = key_last key M d.
Proof.
  revert out M. induction keys as [|k keys IH]; intros out M Hg; [done|]. cbn [foldl].
  unfold meters_report at 2 4. destruct reset; [|by apply IH].
  assert (Hk : key_gone key (partial_alter (λ o, o ≫= meter_reset) k M) = false ∧
               key_last key (partial_alter (λ o, o ≫= meter_reset) k M) d = key_last key M d).
  { unfold key_gone, key_last in *. rewrite lookup_partial_alter. case_decide; [subst|done].
    destruct (M !! key) as [m|]; simpl in *; [|done].
    unfold meter_reset. rewrite Hg. by destruct d. }
  match goal with |- context [foldl _ (?o, ?M') keys] => destruct (IH o M') as [-> ->] end;
    tauto.
Qed.

Lemma step_last key M op d :
  key_gone key M = false → op ≠ OpRemove key → (∀ ss t, op ≠ OpUpdate ss t) →
  key_gone key (meters_step M op).2 = false ∧ key_last key (meters_step M op).2 d = key_last key M d.
Proof.
  intros Hg Hr Hu. destruct op as [ss t|keys reset|ρ reset|k|ρ]; cbn [meters_step snd].
  - by destruct (Hu ss t).
  - by apply report_last.
  - by apply report_last.
  - unfold key_gone, key_last in *. rewrite lookup_alter. case_decide; [congruence|done].
  - unfold key_gone, key_last in *. rewrite map_lookup_filter.
    destruct (M !! key) as [m|]; simpl in *; [|done]. unfold guard.
    case_decide as Hl; [done|]. exfalso. apply Hl. unfold meter_live; simpl. by rewrite Hg.
Qed.

Lemma credited_mono d key ops M :
  key_gone key M = false → OpRemove key ∉ ops → mono_from (key_last key M) (key_samples key ops) →
  credited d key M ops = (last_from (key_last key M) (key_samples key ops) d - key_last key M d)%Z.
Proof.
  revert M. induction ops as [|op ops IH]; intros M Hg Hr Hm; simpl; [lia|].
  apply not_elem_of_cons in Hr as [Hr Hrs].
  change (key_samples key (op :: ops)) with
    (match op with OpUpdate ss _ => filter (λ s, Sample_PublicKey s = key) ss | _ => [] end
     ++ key_samples key ops) in *.
  apply mono_from_app in Hm as [Hm1 Hm2]. unfold last_from. rewrite foldl_app.
  destruct op as [ss t|keys reset|ρ reset|k|ρ].
  1: { destruct (credit_mono d key ss M Hg Hm1) as (-> & Hg' & Hl'). cbn [meters_step snd].
       rewrite IH; [|done|done|by eapply mono_from_ext; [intros d'; symmetry; apply Hl'|]].
       rewrite Hl', (last_from_ext _ _ _ _ Hl'). unfold last_from. lia. }
  all: match goal with |- context [meters_step ?M' ?op] =>
    assert (Hs : ∀ d', key_gone key (meters_step M' op).2 = false ∧
                       key_last key (meters_step M' op).2 d' = key_last key M' d')
      by (intros d'; by apply step_last) end;
    rewrite IH; [|apply (Hs Down)|done|eapply mono_from_ext; [intros d'; symmetry; apply Hs|done]];
    rewrite (proj2 (Hs d)), (last_from_ext _ _ _ _ (λ d', proj2 (Hs d'))); done.
Qed.

(** ** Queries *)

Lemma AnyActiveSince_true st keys cutoff :
  Tracker_AnyActiveSince st keys cutoff = true ↔
  ∃ key e, key ∈ keys ∧ stats st !! key = Some e ∧ (cutoff < LastActiveTime e)%Z.
Proof.
  induction keys as [|k keys IH]; simpl; [split; [done|]; set_solver|].
  destruct (stats st !! k) as [e|] eqn:He; [unfold Time_After; destruct (Z.ltb_spec cutoff (LastActiveTime e))|].
  - split; [intros _; exists k, e; set_solver|done].
  - rewrite IH. split; [set_solver|]. intros (k' & e' & [->|?]%elem_of_cons & ? & ?); [|eauto].
    simplify_eq. lia.
  - rewrite IH. split; [set_solver|]. intros (k' & e' & [->|?]%elem_of_cons & ? & ?); [|eauto].
    simplify_eq.
Qed.

(** The activity an entry contributes to [EndpointActivity]. *)
Definition endpoint_of (st : Tracker) (key ip : string) (ts : Z) : Prop :=
  ∃ e, stats st !! key = Some e ∧ Entry_EndpointIP e = ip ∧ ip ≠ "" ∧
       LastActiveTime e ≠ zero_time ∧ ts = Time_Unix (LastActiveTime e).

Lemma endpoint_step_lookup st acc key ip :
  (∀ ts, endpoint_of st key ip ts →
     endpoint_step st acc key !! ip = Some (from_option (Z.max ts) ts (acc !! ip))) ∧
  ((∀ ts, ¬ endpoint_of st key ip ts) → endpoint_step st acc key !! ip = acc !! ip).
Proof.
  unfold endpoint_step, endpoint_of. destruct (stats st !! key) as [e|] eqn:He.
  2: { split; [naive_solver|done]. }
  destruct (decide (Entry_EndpointIP e = "" ∨ LastActiveTime e = zero_time)) as [Hno|Hyes].
  - assert (bool_decide (Entry_EndpointIP e = "") || Time_IsZero (LastActiveTime e) = true) as ->.
    { apply orb_true_iff. destruct Hno; [left; by apply bool_decide_eq_true|].
      right. by apply Z.eqb_eq. }
    split; [naive_solver|done].
  - assert (Entry_EndpointIP e ≠ "" ∧ LastActiveTime e ≠ zero_time) as [Hip Hact] by tauto.
    rewrite bool_decide_eq_false_2 by done. unfold Time_IsZero.
    assert ((LastActiveTime e =? 0)%Z = false) as -> by by apply Z.eqb_neq.
    destruct (decide (Entry_EndpointIP e = ip)) as [<-|Hne].
    + split; [|intros Hno; exfalso; eapply Hno; eauto 10].
      intros ts (e' & [= <-] & _ & _ & _ & ->).
      destruct (acc !! Entry_EndpointIP e) as [prev|] eqn:Hp; simpl; [|by rewrite lookup_insert_eq].
      destruct (Z.ltb_spec prev (Time_Unix (LastActiveTime e)));
        rewrite ?lookup_insert_eq, ?Hp; f_equal; lia.
    + split; [naive_solver|intros _]. repeat split_match; by rewrite ?lookup_insert_ne.
Qed.

(** [o] is the largest element of [P], if it has one. *)
Definition newest (P : Z → Prop) (o : option Z) : Prop :=
  match o with
  | Some ts => P ts ∧ ∀ ts', P ts' → (ts' <= ts)%Z
  | None => ∀ ts, ¬ P ts
  end.

Lemma newest_extend P o t :
  newest P o → newest (λ ts, P ts ∨ ts = t) (Some (from_option (Z.max t) t o)).
Proof.
  destruct o as [p|]; simpl; [intros [Hp Hmax]|naive_solver lia]. split.
  - destruct (Z.max_spec t p) as [[_ ->]|[_ ->]]; auto.
  - intros ts [Hts| ->]; [specialize (Hmax ts Hts)|]; lia.
Qed.

Lemma newest_ext P Q o : (∀ ts, P ts ↔ Q ts) → newest P o → newest Q o.
Proof. intros H. destruct o; simpl; naive_solver. Qed.

Lemma endpoint_of_dec st key ip : {t | endpoint_of st key ip t} + {∀ t, ¬ endpoint_of st key ip t}.
Proof.
  unfold endpoint_of. destruct (stats st !! key) as [e|]; [|right; naive_solver].
  destruct (decide (Entry_EndpointIP e = ip ∧ ip ≠ "" ∧ LastActiveTime e ≠ zero_time));
    [left; eexists|right]; naive_solver.
Qed.

Lemma endpoint_of_unique st key ip t t' : endpoint_of st key ip t → endpoint_of st key ip t' → t = t'.
Proof. unfold endpoint_of. naive_solver. Qed.

Lemma EndpointActivity_newest st keys ip :
  newest (λ ts, ∃ key, key ∈ keys ∧ endpoint_of st key ip ts)
    (Tracker_EndpointActivity st keys !! ip).
Proof.
  unfold Tracker_EndpointActivity. induction keys as [|k keys IH] using rev_ind.
  { cbn [foldl]. rewrite lookup_empty. simpl. set_solver. }
  rewrite foldl_snoc.
  destruct (endpoint_step_lookup st (foldl (endpoint_step st) ∅ keys) k ip) as [H1 H2].
  destruct (endpoint_of_dec st k ip) as [[t Ht]|Hno].
  - rewrite (H1 t Ht). eapply newest_ext; [|by apply newest_extend]. intros ts. simpl. split.
    + intros [(k' & ? & ?)| ->]; [exists k'|exists k]; set_solver.
    + intros (k' & [Hk| ->%list_elem_of_singleton]%elem_of_app & He); [left; eauto|].
      right. by eapply endpoint_of_unique.
  - rewrite H2 by done. eapply newest_ext; [|done]. intros ts. set_solver.
Qed.

(** ** Interface counters *)

Record interface_sample := mkIS { is_rx : Z; is_tx : Z; is_reset : bool }.

Definition is_ok64 (x : interface_sample) : Prop :=
  (0 <= is_rx x <= max64)%Z ∧ (0 <= is_tx x <= max64)%Z.

(** The traffic the resets of a run of [Delta] calls hand over. *)
Fixpoint ict_billed (t : InterfaceCountersTracker) (calls : list interface_sample) : Z * Z :=
  match calls with
  | [] => (0, 0)%Z
  | x :: calls =>
      let '((dr, dt), t') := ICT_Delta t (is_rx x) (is_tx x) (is_reset x) in
      let '(r, s) := ict_billed t' calls in
      if is_reset x then (dr + r, dt + s)%Z else (r, s)
  end.

Definition ict_run (t : InterfaceCountersTracker) (calls : list interface_sample) :
    InterfaceCountersTracker :=
  foldl (λ t x, (ICT_Delta t (is_rx x) (is_tx x) (is_reset x)).2) t calls.

Fixpoint is_mono (rx tx : Z) (calls : list interface_sample) : Prop :=
  match calls with
  | [] => True
  | x :: calls => (rx <= is_rx x)%Z ∧ (tx <= is_tx x)%Z ∧ is_ok64 x ∧ is_mono (is_rx x) (is_tx x) calls
  end.

(** One call on a set baseline: a rollback rebases and reports nothing,
    otherwise the growth since the baseline is reported. *)
Lemma ICT_Delta_set br bt rx tx reset :
  (0 <= br <= max64)%Z → (0 <= bt <= max64)%Z → (0 <= rx <= max64)%Z → (0 <= tx <= max64)%Z →
  ICT_Delta (mkICT br bt true) rx tx reset
  = if (rx <? br)%Z || (tx <? bt)%Z then ((0, 0)%Z, mkICT rx tx true)
    else ((rx - br, tx - bt)%Z, if reset then mkICT rx tx true else mkICT br bt true).
Proof.
  intros. unfold ICT_Delta. simpl. destruct ((rx <? br)%Z || (tx <? bt)%Z) eqn:Hroll; simpl.
  - rewrite !sub64_self. by destruct reset.
  - zbool. unfold sub64. rewrite !wrap64_id by (unfold in64, max64 in *; lia). by destruct reset.
Qed.

Lemma ICT_Delta_unset br bt rx tx reset :
  ICT_Delta (mkICT br bt false) rx tx reset = ((0, 0)%Z, mkICT rx tx true).
Proof.
  unfold ICT_Delta. simpl. rewrite !Z.ltb_irrefl. simpl. rewrite !sub64_self. by destruct reset.
Qed.

Lemma ict_run_conserves calls br bt rx tx :
  (0 <= br <= rx)%Z → (0 <= bt <= tx)%Z → (rx <= max64)%Z → (tx <= max64)%Z → is_mono rx tx calls →
  let t' := ict_run (mkICT br bt true) calls in
  let last := from_option (λ x, (is_rx x, is_tx x)) (rx, tx) (last calls) in
  (ict_billed (mkICT br bt true) calls).1 = (baseRx t' - br)%Z ∧
  (ict_billed (mkICT br bt true) calls).2 = (baseTx t' - bt)%Z ∧
  (0 <= baseRx t' <= last.1)%Z ∧ (0 <= baseTx t' <= last.2)%Z.
Proof.
  revert br bt rx tx. induction calls as [|x calls IH]; intros br bt rx tx Hr Ht Hmr Hmt Hm.
  { simpl. lia. }
  destruct Hm as (Hx & Hx' & [Hk Hk'] & Hm). cbn [ict_billed].
  unfold ict_run. cbn [foldl]. rewrite ICT_Delta_set by lia.
  assert ((is_rx x <? br)%Z || (is_tx x <? bt)%Z = false) as ->.
  { apply orb_false_iff. rewrite !Z.ltb_ge. lia. }
  cbn [snd]. fold (ict_run (if is_reset x then mkICT (is_rx x) (is_tx x) true else mkICT br bt true) calls).
  assert (Hl : from_option (λ x, (is_rx x, is_tx x)) (rx, tx) (last (x :: calls))
               = from_option (λ x, (is_rx x, is_tx x)) (is_rx x, is_tx x) (last calls)).
  { rewrite last_cons. by destruct (last calls). }
  rewrite Hl. destruct (is_reset x).
  - destruct (IH (is_rx x) (is_tx x) (is_rx x) (is_tx x)) as (H1 & H2 & H3 & H4); try done; try lia.
    destruct (ict_billed _ calls); simpl in *. lia.
  - destruct (IH br bt (is_rx x) (is_tx x)) as (H1 & H2 & H3 & H4); try done; try lia.
    destruct (ict_billed _ calls); simpl in *. lia.
Qed.

(** ** Properties *)

(** C33: every operation of the traffic tracker is, on well-formed counters,
    the operation of the abstract meters: same response up to the order in
    which Go ranges over the map, same new state, and well-formedness is
    kept.  This fixes the behaviour on every branch: growth, unchanged
    counters, counter rollback, a removed peer that comes back, resets that
    forget removed peers, and cleanup. *)
Theorem tracker_refines_meters (st : Tracker) (op : tracker_op)
    (Hwf : tracker_wf (stats st)) (Hfit : op_fits (meters (stats st)) op) :
  (tracker_step st op).1 ≡ₚ (meters_step (meters (stats st)) op).1 ∧
  meters (stats (tracker_step st op).2) = (meters_step (meters (stats st)) op).2 ∧
  tracker_wf (stats (tracker_step st op).2).
Proof. by apply tracker_step_sim. Qed.

Definition wit_sample (rx tx : Z) : Sample := mkSample "k1" "a@x" rx tx "1.2.3.4".
Definition wit_ops : list tracker_op :=
  [OpUpdate [wit_sample 1000 2000] 5; OpGetStats ["k1"] true; OpUpdate [wit_sample 1500 2000] 6;
   OpGetUsersStats rev_range true; OpCleanup std_range; OpUpdate [wit_sample 1700 2100] 7]%Z.

Lemma tracker_new_wf : tracker_wf (stats Tracker_New).
Proof. apply map_Forall_empty. Qed.

Definition wit_removed : list tracker_op := [OpUpdate [wit_sample 1000 2000] 5; OpRemove "k1"]%Z.

Lemma tracker_refines_meters_witness :
  let st := tracker_run Tracker_New wit_removed in
  let op := OpUpdate [wit_sample 100 200]%Z 6 in
  tracker_wf (stats st) ∧ op_fits (meters (stats st)) op ∧
  meters (stats (tracker_step st op).2) = (meters_step (meters (stats st)) op).2.
Proof.
  assert (H1 : tracker_wf (stats (tracker_run Tracker_New wit_removed))).
  { apply run_wf; [apply tracker_new_wf|]. vm_compute; intuition congruence. }
  assert (H2 : op_fits (meters (stats (tracker_run Tracker_New wit_removed)))
                 (OpUpdate [wit_sample 100 200]%Z 6)).
  { vm_compute; intuition congruence. }
  split; [exact H1|split; [exact H2|]].
  exact (proj1 (proj2 (tracker_refines_meters _ _ H1 H2))).
Defined.

(** C32: over any run of the tracker (samples, per-key and per-user reports
    with or without reset, removals, cleanups), the traffic handed over by
    resets plus the traffic still pending for a key is exactly the traffic
    the meters credited to it: nothing is lost and nothing is counted
    twice, whatever the order of the operations. *)
Theorem tracker_conserves_traffic (d : dir) (key : string) (ops : list tracker_op)
    (Hfit : ops_fit ∅ ops) :
  (billed d key Tracker_New ops + pending d key (meters (stats (tracker_run Tracker_New ops)))
   = credited d key ∅ ops)%Z.
Proof.
  pose proof (run_balance d key ops Tracker_New) as H.
  change (meters (stats Tracker_New)) with (∅ : gmap string meter) in H.
  rewrite H; [unfold pending; by rewrite lookup_empty|apply map_Forall_empty|done].
Qed.

Lemma tracker_conserves_traffic_witness :
  ops_fit ∅ wit_ops ∧
  (billed Down "k1" Tracker_New wit_ops
   + pending Down "k1" (meters (stats (tracker_run Tracker_New wit_ops)))
   = credited Down "k1" ∅ wit_ops)%Z.
Proof.
  assert (H : ops_fit ∅ wit_ops) by (vm_compute; intuition congruence).
  split; [exact H|exact (tracker_conserves_traffic Down "k1" wit_ops H)].
Defined.

(** C31: if the kernel counters of a peer never go back and the peer is never
    removed, then in every run what the resets reported for it plus what is
    pending equals its last counter value, in both directions. *)
Theorem tracker_counts_every_byte (d : dir) (key : string) (ops : list tracker_op)
    (Hfit : ops_fit ∅ ops) (Hkept : OpRemove key ∉ ops)
    (Hmono : mono_from (λ _, 0%Z) (key_samples key ops)) :
  (billed d key Tracker_New ops + pending d key (meters (stats (tracker_run Tracker_New ops)))
   = last_from (λ _, 0) (key_samples key ops) d)%Z.
Proof.
  pose proof (run_balance d key ops Tracker_New) as H.
  change (meters (stats Tracker_New)) with (∅ : gmap string meter) in H.
  rewrite H, credited_mono; [|done|done|done|apply map_Forall_empty|done].
  unfold pending. rewrite lookup_empty. simpl.
  rewrite (last_from_ext (key_last key ∅) (λ _, 0%Z)) by done. unfold key_last. rewrite lookup_empty. simpl. lia.
Qed.

Lemma tracker_counts_every_byte_witness :
  (ops_fit ∅ wit_ops ∧ OpRemove "k1" ∉ wit_ops ∧ mono_from (λ _, 0%Z) (key_samples "k1" wit_ops)) ∧
  (billed Up "k1" Tracker_New wit_ops
   + pending Up "k1" (meters (stats (tracker_run Tracker_New wit_ops))) = 2100)%Z.
Proof.
  assert (H1 : ops_fit ∅ wit_ops) by (vm_compute; intuition congruence).
  assert (H2 : OpRemove "k1" ∉ wit_ops).
  { unfold wit_ops. rewrite !not_elem_of_cons. split_and!; try discriminate. apply not_elem_of_nil. }
  assert (H3 : mono_from (λ _, 0%Z) (key_samples "k1" wit_ops)) by (vm_compute; intuition congruence).
  split; [by split_and!|]. exact (tracker_counts_every_byte Up "k1" wit_ops H1 H2 H3).
Defined.

(** A report without reset reads the map and leaves it alone. *)
Lemma report_keys_peek keys out m :
  foldl (report_key false) (out, m) keys
  = (out ++ (keys ≫= λ k, from_option (entry_stats k) [] (m !! k)), m).
Proof.
  revert out. induction keys as [|k keys IH]; intros out; cbn [foldl]; [by rewrite app_nil_r|].
  rewrite bind_cons. unfold report_key at 2.
  destruct (m !! k); simpl; by rewrite IH, ?app_assoc.
Qed.

Lemma RemoveStats_lookup st key k :
  stats (Tracker_RemoveStats st key) !! k
  = if decide (key = k) then remove_entry <$> stats st !! k else stats st !! k.
Proof.
  unfold Tracker_RemoveStats. destruct (stats st !! key) as [e|] eqn:He; simpl.
  - rewrite lookup_insert. case_decide; subst; by rewrite ?He.
  - case_decide; subst; by rewrite ?He.
Qed.

(** The periodic cleanup of removed peers drops no traffic: every report
    of any keys answers the same with and without it, on well-formed
    counters. *)
Theorem cleanup_hides_no_traffic (ρ : map_range) (st : Tracker) (keys : list string)
    (Hwf : tracker_wf (stats st)) :
  (Tracker_GetStats (Tracker_CleanupDeletedEntries ρ st) keys false).1
  = (Tracker_GetStats st keys false).1.
Proof.
  rewrite !GetStats_eq, !report_keys_peek. cbn [fst]. f_equal.
  apply Forall_bind_ext, Forall_forall. intros k _. destruct st as [m].
  rewrite cleanup_lookup. cbn [stats]. destruct (m !! k) as [e|]; [|done].
  destruct (cleanable e) eqn:Hc; [|done]. unfold cleanable in Hc. zbool. simpl.
  unfold entry_stats, buildDeltaStats.
  match goal with H1 : CurrentRx e = _, H2 : CurrentTx e = _ |- _ => by rewrite H1, H2, !sub64_self end.
Qed.

Lemma cleanup_hides_no_traffic_witness :
  let st := tracker_run Tracker_New wit_ops in
  tracker_wf (stats st) ∧
  (Tracker_GetStats (Tracker_CleanupDeletedEntries rev_range st) ["k1"; "k2"] false).1
  = (Tracker_GetStats st ["k1"; "k2"] false).1.
Proof.
  assert (H : tracker_wf (stats (tracker_run Tracker_New wit_ops))).
  { apply run_wf; [apply tracker_new_wf|]. vm_compute; intuition congruence. }
  split; [exact H|exact (cleanup_hides_no_traffic rev_range _ ["k1"; "k2"] H)].
Defined.

(** Removing peers leaves a report without reset unchanged, and a removed peer
    has never been active. *)
Lemma RemoveStats_peek st key keys :
  (Tracker_GetStats (Tracker_RemoveStats st key) keys false).1 = (Tracker_GetStats st keys false).1.
Proof.
  rewrite !GetStats_eq, !report_keys_peek. cbn [fst]. f_equal.
  apply Forall_bind_ext, Forall_forall. intros k _. rewrite RemoveStats_lookup.
  by case_decide; subst; destruct (stats st !! k).
Qed.

Lemma RemoveAll_peek st gone keys :
  (Tracker_GetStats (foldl Tracker_RemoveStats st gone) keys false).1 = (Tracker_GetStats st keys false).1.
Proof.
  induction gone as [|key gone IH] using rev_ind; [done|]. by rewrite foldl_snoc, RemoveStats_peek.
Qed.

Lemma remove_entry_idem e : remove_entry (remove_entry e) = remove_entry e.
Proof. done. Qed.

Lemma RemoveAll_lookup st gone k :
  stats (foldl Tracker_RemoveStats st gone) !! k
  = if decide (k ∈ gone) then remove_entry <$> stats st !! k else stats st !! k.
Proof.
  induction gone as [|key gone IH] using rev_ind; [by rewrite decide_False by set_solver|].
  rewrite foldl_snoc, RemoveStats_lookup, !IH.
  destruct (decide (key = k)) as [->|Hne].
  - destruct (decide (k ∈ gone ++ [k])) as [_|Hn]; [|set_solver].
    case_decide; [|done]. by destruct (stats st !! k).
  - repeat case_decide; set_solver.
Qed.

Lemma removed_inactive st gone key cutoff :
  key ∈ gone → (0 <= cutoff)%Z →
  Tracker_AnyActiveSince (foldl Tracker_RemoveStats st gone) [key] cutoff = false.
Proof.
  intros Hin Hcut. apply not_true_is_false. rewrite AnyActiveSince_true.
  intros (k & e & ->%list_elem_of_singleton & He & Hact).
  rewrite RemoveAll_lookup, decide_True in He by done.
  destruct (stats st !! key); simplify_eq/=. unfold zero_time in *. lia.
Qed.

(** What [GetUsersStats] reports does not depend on the order in which Go
    ranges over the map, and neither does the state it leaves: for any two
    orders the responses are permutations of each other. *)
Theorem users_stats_any_order (ρ ρ' : map_range) (st : Tracker) (reset : bool) :
  (Tracker_GetUsersStats ρ st reset).1 ≡ₚ (Tracker_GetUsersStats ρ' st reset).1 ∧
  (Tracker_GetUsersStats ρ st reset).2 = (Tracker_GetUsersStats ρ' st reset).2.
Proof.
  rewrite !GetUsersStats_eq, !GetStats_eq. cbn [fst snd].
  destruct (report_perm reset (range_of ρ (stats st)).*1 (range_of ρ' (stats st)).*1 (stats st))
    as [-> ->]; [apply range_nodup| |done].
  by rewrite (range_perm ρ), (range_perm ρ').
Qed.

(** Removing a peer takes effect at once for every online query (it is not
    active since any cutoff, and its endpoint is not listed), while a report
    without reset still shows the traffic it has pending. *)
Theorem removed_peer_offline (st : Tracker) (key : string) (cutoff : Z) (keys : list string)
    (Hcut : (0 <= cutoff)%Z) :
  Tracker_AnyActiveSince (Tracker_RemoveStats st key) [key] cutoff = false ∧
  Tracker_EndpointActivity (Tracker_RemoveStats st key) [key] = ∅ ∧
  (Tracker_GetStats (Tracker_RemoveStats st key) keys false).1 = (Tracker_GetStats st keys false).1.
Proof.
  split_and!.
  - apply (removed_inactive st [key]); [set_solver|done].
  - apply map_eq. intros ip. rewrite lookup_empty.
    pose proof (EndpointActivity_newest (Tracker_RemoveStats st key) [key] ip) as Hn.
    destruct (_ !! ip) as [ts|]; [|done]. exfalso.
    destruct Hn as [(k & ->%list_elem_of_singleton & e & He & _ & _ & Hact & _) _].
    pose proof (RemoveStats_lookup st key key) as Hr. rewrite He in Hr.
    destruct (stats st !! key); simplify_option_eq.
  - apply RemoveStats_peek.
Qed.

Lemma removed_peer_offline_witness :
  let st := Tracker_UpdateStatsBatch Tracker_New [wit_sample 1000 2000]%Z 5 in
  (0 <= 3)%Z ∧ Tracker_AnyActiveSince st ["k1"] 3 = true ∧
  Tracker_AnyActiveSince (Tracker_RemoveStats st "k1") ["k1"] 3 = false.
Proof.
  assert (H : (0 <= 3)%Z) by lia. split; [exact H|split; [reflexivity|]].
  exact (proj1 (removed_peer_offline _ "k1" 3 [] H)).
Defined.

(** The endpoint listing of a user holds, for each address, the newest
    activity among the given keys, and lists exactly the addresses some
    active key of the list has. *)
Theorem endpoint_activity_newest (st : Tracker) (keys : list string) (ip : string) :
  newest (λ ts, ∃ key, key ∈ keys ∧ endpoint_of st key ip ts)
    (Tracker_EndpointActivity st keys !! ip).
Proof. apply EndpointActivity_newest. Qed.

(** C34: a run of interface readings whose counters never go back reports,
    over its resets, exactly the distance between the first reading and the
    baseline left behind, which never exceeds the last reading: interface
    traffic is neither lost nor counted twice, and the first reading reports
    nothing. *)
Theorem interface_delta_conserves (x : interface_sample) (calls : list interface_sample)
    (Hx : is_ok64 x) (Hmono : is_mono (is_rx x) (is_tx x) calls) :
  let t' := ict_run NewInterfaceCountersTracker (x :: calls) in
  let last := from_option (λ y, (is_rx y, is_tx y)) (is_rx x, is_tx x) (last calls) in
  ict_billed NewInterfaceCountersTracker (x :: calls)
  = (baseRx t' - is_rx x, baseTx t' - is_tx x)%Z ∧
  (baseRx t' <= last.1)%Z ∧ (baseTx t' <= last.2)%Z.
Proof.
  destruct Hx as [Hr Ht]. cbn [ict_billed]. unfold ict_run. cbn [foldl].
  unfold NewInterfaceCountersTracker. rewrite ICT_Delta_unset. cbn [snd].
  fold (ict_run (mkICT (is_rx x) (is_tx x) true) calls).
  destruct (ict_run_conserves calls (is_rx x) (is_tx x) (is_rx x) (is_tx x)) as (H1 & H2 & H3 & H4);
    try done; try lia.
  destruct (ict_billed _ calls) as [r s]. simpl in *. subst.
  split_and!; [destruct (is_reset x); f_equal; lia|lia|lia].
Qed.

Lemma interface_delta_conserves_witness :
  let x := mkIS 100 200 false in
  let calls := [mkIS 150 220 true; mkIS 170 250 false; mkIS 180 260 true]%Z in
  is_ok64 x ∧ is_mono (is_rx x) (is_tx x) calls ∧
  ict_billed NewInterfaceCountersTracker (x :: calls) = (80, 60)%Z.
Proof.
  assert (H1 : is_ok64 (mkIS 100 200 false)) by (vm_compute; intuition congruence).
  assert (H2 : is_mono 100 200 [mkIS 150 220 true; mkIS 170 250 false; mkIS 180 260 true]%Z)
    by (vm_compute; intuition congruence).
  split; [exact H1|split; [exact H2|]].
  exact (proj1 (interface_delta_conserves (mkIS 100 200 false) _ H1 H2)).
Defined.
