(* ===== verification/SysStats.v ===== *)
(** * Host statistics ([src/pkg/sysstats/sys.go])

    The node samples the host twice, a second apart: processor time in float64,
    network counters in uint64.  gopsutil, which reads them, is the class
    [HostStats].  Floats are the executable binary64 of [SpecFloat]. *)

From Stdlib Require Import SpecFloat.
From S2P Require Import Prelude Messages.

#[local] Open Scope Z_scope.

(** ** float64 *)

Definition float64 := spec_float.
Definition f_add : float64 → float64 → float64 := SFadd 53 1024.
Definition f_sub : float64 → float64 → float64 := SFsub 53 1024.
Definition f_mul : float64 → float64 → float64 := SFmul 53 1024.
Definition f_div : float64 → float64 → float64 := SFdiv 53 1024.
Definition f_zero : float64 := S754_zero false.
Definition f_100 : float64 := S754_finite false 7036874417766400 (-46).

(** [math.Max] and [math.Min]. *)
Definition f_Max (x y : float64) : float64 :=
  match x, y with
  | S754_infinity false, _ | _, S754_infinity false => S754_infinity false
  | S754_nan, _ | _, S754_nan => S754_nan
  | S754_zero sx, S754_zero _ => if sx then y else x
  | _, _ => if SFltb y x then x else y
  end.

Definition f_Min (x y : float64) : float64 :=
  match x, y with
  | S754_infinity true, _ | _, S754_infinity true => S754_infinity true
  | S754_nan, _ | _, S754_nan => S754_nan
  | S754_zero sx, S754_zero _ => if sx then x else y
  | _, _ => if SFltb x y then x else y
  end.

(** [math.Float64bits], with one pattern for NaN. *)
Definition Float64bits (x : float64) : Z :=
  let sign (s : bool) := if s then 2 ^ 63 else 0 in
  match x with
  | S754_zero s => sign s
  | S754_infinity s => sign s + Z.shiftl 2047 52
  | S754_nan => Z.shiftl 2047 52 + 2 ^ 51 + 1
  | S754_finite s m e =>
      if Z.pos m <? 2 ^ 52 then sign s + Z.pos m
      else sign s + Z.shiftl (e + 1075) 52 + (Z.pos m - 2 ^ 52)
  end.

(** ** Processor time *)

Record TimesStat := mkTimes {
  cpu_User : float64; cpu_System : float64; cpu_Nice : float64; cpu_Iowait : float64; cpu_Irq : float64;
  cpu_Softirq : float64; cpu_Steal : float64; cpu_Idle : float64
}.

Definition cpuBusyTotal (t : TimesStat) : float64 * float64 :=
  let busy := f_add (f_add (f_add (f_add (f_add (f_add (cpu_User t) (cpu_System t)) (cpu_Nice t)) (cpu_Iowait t))
                (cpu_Irq t)) (cpu_Softirq t)) (cpu_Steal t) in
  (f_add busy (cpu_Idle t), busy).

Definition cpuPercent (t1 t2 : TimesStat) : float64 :=
  let '(t1All, t1Busy) := cpuBusyTotal t1 in
  let '(t2All, t2Busy) := cpuBusyTotal t2 in
  if SFleb t2Busy t1Busy then f_zero
  else if SFleb t2All t1All then f_100
  else f_Min f_100 (f_Max f_zero (f_mul (f_div (f_sub t2Busy t1Busy) (f_sub t2All t1All)) f_100)).

(** ** Bandwidth *)

Record IOCountersStat := mkIO { io_Name : string; BytesRecv : Z; BytesSent : Z }.

Definition wrap_u64 (z : Z) : Z := z mod 2 ^ 64.

Definition remember (prev : gmap string IOCountersStat) (c : IOCountersStat) : gmap string IOCountersStat :=
  if bool_decide (io_Name c = "lo") then prev else <[io_Name c := c]> prev.

Definition add_delta (prev : gmap string IOCountersStat) (total : Z * Z) (c : IOCountersStat) : Z * Z :=
  if bool_decide (io_Name c = "lo") then total
  else
    match prev !! io_Name c with
    | None => total
    | Some p =>
        (wrap_u64 (total.1 + wrap_u64 (BytesRecv c - BytesRecv p)),
         wrap_u64 (total.2 + wrap_u64 (BytesSent c - BytesSent p)))
    end.

Definition bandwidthDelta (first second : list IOCountersStat) : Z * Z :=
  foldl (add_delta (foldl remember ∅ first)) (0, 0) second.

(** ** Sampling *)

(** [cpu.Counts(true)], [cpu.Times(false)], [net.IOCounters(true)] and
    [mem.VirtualMemory], of which total and used bytes are read; [wait_sample]
    waits for a second or the end of the context. *)
Class HostStats (H : Type) := {
  ctx_Err : H → option goerr;
  VirtualMemory : eff H (Z * Z);
  cpu_Counts : eff H Z;
  cpu_Times : eff H (list TimesStat);
  net_IOCounters : eff H (list IOCountersStat);
  wait_sample : eff H unit
}.

Section Sampling.
Context {H : Type} `{!HostStats H}.

(** The variables of the package: what [cpuCoresOnce] has stored. *)
Definition Host : Type := H * option (Z * option goerr).

Definition host {A} (m : eff H A) : eff Host A := λ '(h, once), let '(r, h) := m h in (r, (h, once)).

Definition cachedCPUCores : eff Host Z := λ '(h, once),
  let '((n, e), h) := match once with
                      | Some stored => (stored, h)
                      | None => match cpu_Counts h with
                                | (Ok n, h) => ((wrap_u64 n, None), h)
                                | (Err e, h) => ((0, Some e), h)
                                end
                      end in
  (match e with None => Ok n | Some e => Err e end, (h, Some (n, e))).

(** [waitSample]. *)
Definition waitSample : eff Host unit := host wait_sample.

Definition set_mem (total used : Z) (s : SystemStatsResponse) : SystemStatsResponse :=
  {| SystemStatsResponse_MemTotal := total; SystemStatsResponse_MemUsed := used;
     SystemStatsResponse_CpuCores := SystemStatsResponse_CpuCores s;
     SystemStatsResponse_CpuUsage := SystemStatsResponse_CpuUsage s;
     SystemStatsResponse_IncomingBandwidthSpeed := SystemStatsResponse_IncomingBandwidthSpeed s;
     SystemStatsResponse_OutgoingBandwidthSpeed := SystemStatsResponse_OutgoingBandwidthSpeed s;
     SystemStatsResponse_Uptime := SystemStatsResponse_Uptime s |}.
Definition set_cpu (cores usage : Z) (s : SystemStatsResponse) : SystemStatsResponse :=
  {| SystemStatsResponse_MemTotal := SystemStatsResponse_MemTotal s;
     SystemStatsResponse_MemUsed := SystemStatsResponse_MemUsed s;
     SystemStatsResponse_CpuCores := cores; SystemStatsResponse_CpuUsage := usage;
     SystemStatsResponse_IncomingBandwidthSpeed := SystemStatsResponse_IncomingBandwidthSpeed s;
     SystemStatsResponse_OutgoingBandwidthSpeed := SystemStatsResponse_OutgoingBandwidthSpeed s;
     SystemStatsResponse_Uptime := SystemStatsResponse_Uptime s |}.
Definition set_bandwidth (incoming outgoing : Z) (s : SystemStatsResponse) : SystemStatsResponse :=
  {| SystemStatsResponse_MemTotal := SystemStatsResponse_MemTotal s;
     SystemStatsResponse_MemUsed := SystemStatsResponse_MemUsed s;
     SystemStatsResponse_CpuCores := SystemStatsResponse_CpuCores s;
     SystemStatsResponse_CpuUsage := SystemStatsResponse_CpuUsage s;
     SystemStatsResponse_IncomingBandwidthSpeed := incoming;
     SystemStatsResponse_OutgoingBandwidthSpeed := outgoing;
     SystemStatsResponse_Uptime := SystemStatsResponse_Uptime s |}.

Definition no_stats : SystemStatsResponse :=
  {| SystemStatsResponse_MemTotal := 0; SystemStatsResponse_MemUsed := 0; SystemStatsResponse_CpuCores := 0;
     SystemStatsResponse_CpuUsage := 0; SystemStatsResponse_IncomingBandwidthSpeed := 0;
     SystemStatsResponse_OutgoingBandwidthSpeed := 0; SystemStatsResponse_Uptime := 0 |}.

(** The two samples, after memory and cores. *)
Definition two_samples : eff Host (list TimesStat * list TimesStat * (list IOCountersStat * list IOCountersStat)) :=
  cpuFirst ← host cpu_Times; netFirst ← host net_IOCounters;
  _ ← waitSample;
  cpuSecond ← host cpu_Times; netSecond ← host net_IOCounters;
  mret (cpuFirst, cpuSecond, (netFirst, netSecond)).

(** The response is returned with the error too, as far as it was filled. *)
Definition GetSystemStats : Host → SystemStatsResponse * option goerr * Host := λ s,
  match ctx_Err s.1 with
  | Some e => (no_stats, Some e, s)
  | None =>
      match host VirtualMemory s with
      | (Err e, s) => (no_stats, Some e, s)
      | (Ok (total, used), s) =>
          let stats := set_mem total used no_stats in
          match cachedCPUCores s with
          | (Err e, s) => (stats, Some e, s)
          | (Ok cores, s) =>
              let stats := set_cpu cores 0 stats in
              match two_samples s with
              | (Err e, s) => (stats, Some e, s)
              | (Ok (cpuFirst, cpuSecond, (netFirst, netSecond)), s) =>
                  let usage := match cpuFirst, cpuSecond with
                               | t1 :: _, t2 :: _ => Float64bits (cpuPercent t1 t2)
                               | _, _ => 0
                               end in
                  let '(incoming, outgoing) := bandwidthDelta netFirst netSecond in
                  (set_bandwidth incoming outgoing (set_cpu cores usage stats), None, s)
              end
          end
      end
  end.
End Sampling.

(** ** Lemmas *)

Lemma SFcompare_swap x y : SFcompare y x = CompOpp <$> SFcompare x y.
Proof.
  destruct x as [sx|[]| |sx mx ex], y as [sy|[]| |sy my ey]; try reflexivity;
    try (by destruct sx); try (by destruct sy); try (by destruct sx, sy).
  cbn [SFcompare]. change (Pos.compare_cont Eq) with Pos.compare.
  rewrite (Z.compare_antisym ex ey), (Pos.compare_antisym mx my).
  destruct sx, sy, (Z.compare ex ey), (Pos.compare mx my); reflexivity.
Qed.

(** Not below: at or above. *)
Lemma SFltb_leb x y : x ≠ S754_nan → y ≠ S754_nan → SFltb x y = false → SFleb y x = true.
Proof.
  intros Hx Hy. unfold SFltb, SFleb. rewrite (SFcompare_swap x y).
  destruct (SFcompare x y) as [[]|] eqn:Hc; try done.
  exfalso. by destruct x as [?|[]| |[]], y as [?|[]| |[]].
Qed.

Lemma SFltb_le x y : SFltb x y = true → SFleb x y = true.
Proof. unfold SFltb, SFleb. by destruct (SFcompare x y) as [[]|]. Qed.

Lemma SFleb_refl x : x ≠ S754_nan → SFleb x x = true.
Proof.
  unfold SFleb, SFcompare. destruct x as [s|s| |s m e]; try done; destruct s; try done; intros _;
    rewrite Z.compare_refl; rewrite ?Pos.compare_cont_refl, ?Pos.compare_refl; done.
Qed.

(** [0 <= x <= 100]. *)
Definition percentage (x : float64) : Prop := SFleb f_zero x = true ∧ SFleb x f_100 = true.

Lemma clamp_percentage x : f_Min f_100 (f_Max f_zero x) = S754_nan ∨ percentage (f_Min f_100 (f_Max f_zero x)).
Proof.
  assert (f_Max f_zero x = S754_nan ∨ SFleb f_zero (f_Max f_zero x) = true) as [->|Hz].
  { unfold f_Max, f_zero. destruct x as [s|[]| |s m e]; try (by left); try (by right).
    right. destruct (SFltb _ _) eqn:Hlt; [done|]. apply SFltb_leb; done. }
  { by left. }
  set (z := f_Max f_zero x) in *. clearbody z. right.
  unfold f_Min, f_100. destruct z as [s|[]| |s m e]; try done.
  destruct (SFltb (S754_finite false 7036874417766400 (-46)) (S754_finite s m e)) eqn:Hlt; [done|].
  split; [exact Hz|]. by apply SFltb_leb.
Qed.

(** Growth of the counters two samples share. *)
Definition growth (get : IOCountersStat → Z) (first second : list IOCountersStat) : Z :=
  foldr Z.add 0 ((λ c, match (list_to_map ((λ p, (io_Name p, p)) <$> first) : gmap string _) !! io_Name c with
                       | Some p => get c - get p
                       | None => 0
                       end) <$> filter (λ c, io_Name c ≠ "lo") second).

(** Without repeated names the loop builds the map of the first sample. *)
Lemma remember_lookup first name : NoDup (io_Name <$> first) → name ≠ "lo" →
  foldl remember ∅ first !! name = (list_to_map ((λ p, (io_Name p, p)) <$> first) : gmap string _) !! name.
Proof.
  intros Hnd Hlo. induction first as [|c l IH] using rev_ind; [done|]. rewrite foldl_snoc, !fmap_app.
  rewrite fmap_app, NoDup_app in Hnd. destruct Hnd as (Hl & Hc & _). specialize (IH Hl). cbn.
  rewrite list_to_map_app, lookup_union. cbn. rewrite insert_empty. unfold remember at 1.
  assert (name = io_Name c → (list_to_map ((λ p, (io_Name p, p)) <$> l) : gmap string IOCountersStat) !! name = None) as Hno.
  { intros ->. apply not_elem_of_list_to_map_1. rewrite <- list_fmap_compose. intros Hin. apply (Hc (io_Name c)); [done|set_solver]. }
  case_bool_decide as Hcl.
  - rewrite IH, lookup_singleton_ne by congruence. by destruct (list_to_map _ !! name).
  - destruct (decide (name = io_Name c)) as [->|Hne].
    + by rewrite lookup_insert_eq, Hno, lookup_singleton_eq.
    + rewrite lookup_insert_ne, lookup_singleton_ne, IH by congruence. by destruct (list_to_map _ !! name).
Qed.

Lemma add_delta_totals first second a b : NoDup (io_Name <$> first) →
  foldl (add_delta (foldl remember ∅ first)) (wrap_u64 a, wrap_u64 b) second =
  (wrap_u64 (a + growth BytesRecv first second), wrap_u64 (b + growth BytesSent first second)).
Proof.
  intros Hnd. revert a b. induction second as [|c l IH]; intros a b; [unfold growth; cbn; by rewrite !Z.add_0_r|].
  cbn [foldl]. unfold add_delta at 2, growth. rewrite filter_cons. case_bool_decide as Hlo.
  - rewrite decide_False by (intros Hn; by apply Hn). apply IH.
  - rewrite decide_True by done. cbn [fmap list_fmap foldr]. rewrite <- (remember_lookup first (io_Name c)) by done.
    destruct (foldl remember ∅ first !! io_Name c) as [p|]; [|cbn; apply IH].
    cbn [fst snd]. unfold wrap_u64 in *. rewrite <- !Zplus_mod, IH. unfold growth.
    f_equal; f_equal; lia.
Qed.

(** ** Properties *)

(** C40: what the node reports of the host is in range and exact.  The processor
    usage is between 0 and 100, or NaN; and when the network counters of the
    interfaces present in both samples have not gone back, the bandwidth is the
    sum of their growth, loopback excluded, as long as it fits 64 bits. *)
Theorem host_stats_in_range (t1 t2 : TimesStat) (first second : list IOCountersStat)
    (Hnames : NoDup (io_Name <$> first))
    (Hgrow : ∀ p c, p ∈ first → c ∈ second → io_Name p = io_Name c →
       BytesRecv p ≤ BytesRecv c ∧ BytesSent p ≤ BytesSent c)
    (Hfit : growth BytesRecv first second < 2 ^ 64 ∧ growth BytesSent first second < 2 ^ 64) :
  (cpuPercent t1 t2 = S754_nan ∨ percentage (cpuPercent t1 t2)) ∧
  bandwidthDelta first second = (growth BytesRecv first second, growth BytesSent first second).
Proof.
  split.
  - unfold cpuPercent. destruct (cpuBusyTotal t1) as [a1 b1], (cpuBusyTotal t2) as [a2 b2].
    destruct (SFleb b2 b1); [by right|]. destruct (SFleb a2 a1); [by right|]. apply clamp_percentage.
  - assert (∀ get, (∀ p c, p ∈ first → c ∈ second → io_Name p = io_Name c → get p ≤ get c) →
      0 ≤ growth get first second) as Hpos.
    { intros get Hget. unfold growth. assert (∀ c, c ∈ filter (λ c, io_Name c ≠ "lo") second → c ∈ second) as Hsub
        by (intros c Hc; by apply list_elem_of_filter in Hc as [_ Hc]).
      induction (filter _ second) as [|c l IH]; [done|]. cbn [fmap list_fmap foldr].
      specialize (IH ltac:(intros d Hd; apply Hsub; set_solver)). specialize (Hsub c ltac:(set_solver)).
      destruct (list_to_map _ !! io_Name c) as [p|] eqn:Hp; [|lia].
      apply elem_of_list_to_map_2, list_elem_of_fmap in Hp as (q & [= Hn ->] & Hq).
      specialize (Hget q c Hq Hsub (eq_sym Hn)). lia. }
    unfold bandwidthDelta. change (0, 0) with (wrap_u64 0, wrap_u64 0). rewrite add_delta_totals by done.
    unfold wrap_u64. rewrite !Z.add_0_l, !Z.mod_small; [done|..]; split; try tauto; apply Hpos; intros p c Hp Hc Hn;
      by destruct (Hgrow p c Hp Hc Hn).
Qed.

Definition one_percent (busy idle : Z) : TimesStat :=
  let f z := match z with Z.pos m => binary_normalize 53 1024 (Z.pos m) 0 false | _ => f_zero end in
  mkTimes (f busy) f_zero f_zero f_zero f_zero f_zero f_zero (f idle).

Lemma host_stats_in_range_witness :
  let first := [mkIO "lo" 5 5; mkIO "eth0" 10 20; mkIO "old" 1 1] in
  let second := [mkIO "lo" 9 9; mkIO "eth0" 110 25; mkIO "new" 7 7] in
  bandwidthDelta first second = (100, 5) ∧
  cpuPercent (one_percent 10 90) (one_percent 35 165) = S754_finite false 7036874417766400 (-48) ∧
  percentage (S754_finite false 7036874417766400 (-48)).
Proof.
  intros first second.
  assert (NoDup (io_Name <$> first)) as Hnames by (apply (bool_decide_unpack _); vm_compute; exact I).
  assert (∀ p c, p ∈ first → c ∈ second → io_Name p = io_Name c →
    BytesRecv p ≤ BytesRecv c ∧ BytesSent p ≤ BytesSent c) as Hgrow.
  { intros p c Hp Hc. unfold first, second in *. set_unfold.
    destruct Hp as [->|[->|[->|[]]]], Hc as [->|[->|[->|[]]]]; cbn; intros Hn; try discriminate Hn; lia. }
  assert (growth BytesRecv first second < 2 ^ 64 ∧ growth BytesSent first second < 2 ^ 64) as Hfit
    by (vm_compute; split; reflexivity).
  destruct (host_stats_in_range (one_percent 10 90) (one_percent 35 165) first second Hnames Hgrow Hfit) as [_ ->].
  split; [vm_compute; reflexivity|]. vm_compute. split_and!; reflexivity.
Defined.

(** ** Observations *)

(** Counters that start again, as those of an interface that was created anew,
    are reported as almost 2^64 bytes a second. *)
Lemma counter_reset_is_huge :
  bandwidthDelta [mkIO "wg0" 1000 1000] [mkIO "wg0" 0 0] = (2 ^ 64 - 1000, 2 ^ 64 - 1000).
Proof. vm_compute. reflexivity. Qed.
