(* ===== verification/GoString.v ===== *)
(** * Go's string functions

    What the program uses of Go's [strings], [sort], [slices] and [strconv]
    packages, on byte strings.  White space and letter case are those of
    ASCII: Go also trims a few non-ASCII space runes, which do not occur in
    the values the program trims (addresses, interface names, tags). *)

From Stdlib Require Import Ascii.
From stdpp Require Import pretty.
From S2P Require Import Prelude.

(** ** Definitions *)

Fixpoint trim_left (s : string) : string :=
  match s with
  | "" => ""
  | String a s' => if Ascii.is_space a then trim_left s' else s
  end.

(** [strings.TrimSpace]. *)
Definition TrimSpace (s : string) : string := String.rev (trim_left (String.rev (trim_left s))).

(** [strings.HasPrefix(s, p)], [strings.HasSuffix(s, p)]. *)
Definition HasPrefix (s p : string) : bool := String.prefix p s.
Definition HasSuffix (s p : string) : bool := String.prefix (String.rev p) (String.rev s).

(** [strings.Contains(s, sub)]. *)
Fixpoint Contains (s sub : string) : bool :=
  String.prefix sub s || match s with "" => false | String _ s' => Contains s' sub end.

Fixpoint drop_str (n : nat) (s : string) : string :=
  match n, s with
  | S n, String _ s => drop_str n s
  | _, _ => s
  end.

Definition TrimPrefix (s p : string) : string :=
  if HasPrefix s p then drop_str (String.length p) s else s.

(** [strings.Cut(s, sep)]: the parts around the first [sep], if there is one. *)
Fixpoint Cut (s sep : string) : option (string * string) :=
  if String.prefix sep s then Some ("", drop_str (String.length sep) s)
  else match s with
       | "" => None
       | String a s' =>
           match Cut s' sep with
           | Some (b, e) => Some (String a b, e)
           | None => None
           end
       end.

(** [strings.Split(s, sep)] for a non-empty [sep]; the fuel is the length of
    [s], which every cut decreases. *)
Fixpoint split_fuel (fuel : nat) (s sep : string) : list string :=
  match fuel with
  | O => [s]
  | S fuel =>
      match Cut s sep with
      | Some (b, e) => b :: split_fuel fuel e sep
      | None => [s]
      end
  end.
Definition Split (s sep : string) : list string := split_fuel (String.length s) s sep.

(** [strings.Fields]. *)
Definition Fields (s : string) : list string := String.words s.

(** [strings.Join(l, sep)]. *)
Fixpoint Join (l : list string) (sep : string) : string :=
  match l with
  | [] => ""
  | [x] => x
  | x :: l => x +:+ sep +:+ Join l sep
  end.

Definition lower_ascii (a : ascii) : ascii :=
  let n := nat_of_ascii a in
  if bool_decide (65 ≤ n ≤ 90)%nat then ascii_of_nat (n + 32) else a.

(** [strings.ToLower] and [strings.EqualFold]. *)
Fixpoint ToLower (s : string) : string :=
  match s with
  | "" => ""
  | String a s => String (lower_ascii a) (ToLower s)
  end.
Definition EqualFold (s t : string) : bool := bool_decide (ToLower s = ToLower t).

(** [sort.Strings]. *)
Definition sort_Strings (l : list string) : list string := merge_sort String.le l.

(** [slices.Contains(l, s)]. *)
Definition slices_Contains (l : list string) (s : string) : bool := bool_decide (s ∈ l).

(** [slices.Sort] followed by [slices.Compact], or a set's keys sorted. *)
Definition sorted_set (l : list string) : list string := sort_Strings (remove_dups l).

(** [strconv.Itoa]. *)
Definition Itoa (n : Z) : string := pretty n.

(** The quoting of [%q], for printable ASCII: the quote and the backslash are
    escaped. *)
Fixpoint quote_body (s : string) : string :=
  match s with
  | "" => ""
  | String a s =>
      if bool_decide (a = "034"%char ∨ a = "092"%char)
      then String "092"%char (String a (quote_body s))
      else String a (quote_body s)
  end.
Definition Quote (s : string) : string :=
  String "034"%char (quote_body s +:+ String "034"%char "").

(** The line separator. *)
Definition newline : string := String "010"%char "".

(** ** Lemmas *)

Lemma sort_Strings_perm l : sort_Strings l ≡ₚ l.
Proof. apply merge_sort_Permutation. Qed.

Lemma sort_Strings_sorted l : StronglySorted String.le (sort_Strings l).
Proof. apply StronglySorted_merge_sort; apply _. Qed.

(** Sorting hides the order a map was visited in. *)
Lemma sort_Strings_proper l l' : l ≡ₚ l' → sort_Strings l = sort_Strings l'.
Proof.
  intros Hp. apply (StronglySorted_unique String.le); [apply sort_Strings_sorted..|].
  by rewrite !sort_Strings_perm.
Qed.

#[export] Instance sort_Strings_Proper : Proper ((≡ₚ) ==> (=)) sort_Strings.
Proof. intros l l'. apply sort_Strings_proper. Qed.

Lemma elem_of_sort_Strings l x : x ∈ sort_Strings l ↔ x ∈ l.
Proof. by rewrite sort_Strings_perm. Qed.

Lemma sort_Strings_nodup l : NoDup (sort_Strings l) ↔ NoDup l.
Proof. by rewrite sort_Strings_perm. Qed.

Lemma sort_Strings_keys_ρ (ρ ρ' : map_range) {A} (m : gmap string A) :
  sort_Strings (range_of ρ m).*1 = sort_Strings (range_of ρ' m).*1.
Proof. apply sort_Strings_proper. by rewrite (range_perm ρ), (range_perm ρ'). Qed.

Lemma slices_Contains_true l s : slices_Contains l s = true ↔ s ∈ l.
Proof. apply bool_decide_eq_true. Qed.

Lemma slices_Contains_false l s : slices_Contains l s = false ↔ s ∉ l.
Proof. apply bool_decide_eq_false. Qed.

Lemma string_app_nil_l (s : string) : "" +:+ s = s.
Proof. done. Qed.

Lemma string_app_cons a (s t : string) : String a s +:+ t = String a (s +:+ t).
Proof. done. Qed.

Ltac string_simpl := rewrite ?string_app_cons, ?string_app_nil_l in *.

Lemma string_length_app (a b : string) : String.length (a +:+ b) = (String.length a + String.length b)%nat.
Proof. induction a as [|x a IH]; string_simpl; [done|]. cbn. by rewrite IH. Qed.

Lemma string_app_assoc (a b c : string) : (a +:+ b) +:+ c = a +:+ (b +:+ c).
Proof. induction a as [|x a IH]; string_simpl; [done|]. by rewrite IH. Qed.

Lemma string_app_nil_r (a : string) : a +:+ "" = a.
Proof. induction a as [|x a IH]; string_simpl; [done|]. by rewrite IH. Qed.

Lemma prefix_iff p s : String.prefix p s = true ↔ ∃ t, s = p +:+ t.
Proof.
  revert p. induction s as [|b s IH]; intros [|a p]; cbn [String.prefix].
  - naive_solver.
  - split; [done|]. intros [t Ht]. string_simpl. congruence.
  - split; intros _; [by exists (String b s)|done].
  - destruct (ascii_dec a b) as [->|Hab].
    + rewrite IH. split; intros [t Ht]; exists t; string_simpl; congruence.
    + split; [done|]. intros [t Ht]. string_simpl. congruence.
Qed.

Lemma HasPrefix_iff s p : HasPrefix s p = true ↔ ∃ t, s = p +:+ t.
Proof. apply prefix_iff. Qed.

Lemma Contains_iff s sub : Contains s sub = true ↔ ∃ a b, s = a +:+ sub +:+ b.
Proof.
  induction s as [|c s IH]; cbn [Contains].
  - rewrite orb_false_r, prefix_iff. split.
    + intros [t Ht]. by exists "", t.
    + intros (a & b & Hab). destruct a; [|done]. by exists b.
  - rewrite orb_true_iff, IH, prefix_iff. split.
    + intros [[t Ht]|(a & b & Hab)]; [by exists "", t|].
      exists (String c a), b. by rewrite Hab.
    + intros (a & b & Hab). destruct a as [|c' a].
      * left. by exists b.
      * right. string_simpl. injection Hab as -> ->. by exists a, b.
Qed.

Lemma drop_str_app a b : drop_str (String.length a) (a +:+ b) = b.
Proof. induction a as [|x a IH]; string_simpl; cbn; [by destruct b|apply IH]. Qed.

Lemma prefix_drop sep s :
  String.prefix sep s = true → s = sep +:+ drop_str (String.length sep) s.
Proof. intros [t ->]%prefix_iff. by rewrite drop_str_app. Qed.

Lemma Cut_Some s sep b e : Cut s sep = Some (b, e) → s = b +:+ sep +:+ e.
Proof.
  revert b e. induction s as [|c s IH]; intros b e; cbn [Cut];
    destruct (String.prefix sep _) eqn:Hp; intros H; simplify_eq.
  - rewrite string_app_nil_l. by apply prefix_drop.
  - rewrite string_app_nil_l. by apply prefix_drop.
  - destruct (Cut s sep) as [[b' e']|] eqn:Hc; simplify_eq.
    string_simpl. f_equal. by apply IH.
Qed.

Lemma Cut_None s sep : Cut s sep = None ↔ Contains s sep = false.
Proof.
  induction s as [|c s IH]; cbn [Cut Contains]; destruct (String.prefix sep _); cbn; try done.
  destruct (Cut s sep) as [[b e]|]; [naive_solver|]. rewrite <- IH. done.
Qed.

Lemma rev_app_app s t u : String.rev_app (s +:+ t) u = String.rev_app t (String.rev_app s u).
Proof. revert u. induction s as [|a s IH]; intros u; string_simpl; [done|apply IH]. Qed.

Lemma rev_app_acc s u : String.rev_app s u = String.rev s +:+ u.
Proof.
  unfold String.rev. revert u. induction s as [|a s IH]; intros u; cbn [String.rev_app]; [done|].
  rewrite IH, (IH (String a "")), string_app_assoc. done.
Qed.

Lemma rev_string_app s t : String.rev (s +:+ t) = String.rev t +:+ String.rev s.
Proof. unfold String.rev at 1. by rewrite rev_app_app, rev_app_acc. Qed.

Lemma rev_involutive_str s : String.rev (String.rev s) = s.
Proof.
  induction s as [|a s IH]; [done|].
  change (String.rev (String a s)) with (String.rev_app s (String a "")).
  by rewrite rev_app_acc, rev_string_app, IH.
Qed.

Lemma HasSuffix_iff s p : HasSuffix s p = true ↔ ∃ t, s = t +:+ p.
Proof.
  unfold HasSuffix. rewrite prefix_iff. split; intros [t Ht]; exists (String.rev t).
  - by rewrite <- (rev_involutive_str s), Ht, rev_string_app, rev_involutive_str.
  - rewrite Ht. by rewrite rev_string_app.
Qed.

#[export] Hint Rewrite elem_of_sort_Strings : node.
#[export] Hint Resolve sort_Strings_sorted sort_Strings_perm : node.
