(* ===== verification/Base64.v ===== *)
(** * Standard base64 (RFC 4648), as Go's [base64.StdEncoding]

    Three bytes become four characters of the alphabet [A-Za-z0-9+/]; one or
    two bytes at the end are padded with [=].  Decoding skips line breaks,
    requires the padding, and does not check the unused bits of the last
    character. *)

From Stdlib Require Import Ascii.
From S2P Require Import Prelude GoString.

#[local] Open Scope Z_scope.

(** ** The alphabet *)

Definition alphabet : string := "ABCDEFGHIJKLMNOPQRSTUVWXYZabcdefghijklmnopqrstuvwxyz0123456789+/".

Definition pad_char : ascii := "="%char.

Definition b64_char (v : Z) : ascii :=
  default pad_char (String.get (Z.to_nat v) alphabet).

Fixpoint index_of (a : ascii) (s : string) : option Z :=
  match s with
  | "" => None
  | String b s => if Ascii.eqb a b then Some 0 else Z.succ <$> index_of a s
  end.

Definition b64_value (a : ascii) : option Z := index_of a alphabet.

(** ** Bytes of a string *)

Definition byte_of (a : ascii) : Z := Z.of_nat (nat_of_ascii a).
Definition of_byte (b : Z) : ascii := ascii_of_nat (Z.to_nat b).

(** ** Encoding and decoding *)

Fixpoint EncodeToString (s : string) : string :=
  match s with
  | "" => ""
  | String a "" =>
      let x := byte_of a in
      String (b64_char (x / 4)) (String (b64_char (x mod 4 * 16)) "==")
  | String a (String b "") =>
      let x := byte_of a in let y := byte_of b in
      String (b64_char (x / 4)) (String (b64_char (x mod 4 * 16 + y / 16))
        (String (b64_char (y mod 16 * 4)) "="))
  | String a (String b (String c s)) =>
      let x := byte_of a in let y := byte_of b in let z := byte_of c in
      String (b64_char (x / 4)) (String (b64_char (x mod 4 * 16 + y / 16))
        (String (b64_char (y mod 16 * 4 + z / 64)) (String (b64_char (z mod 64)) (EncodeToString s))))
  end.

Fixpoint drop_breaks (s : string) : string :=
  match s with
  | "" => ""
  | String a s =>
      if bool_decide (a = "010"%char ∨ a = "013"%char) then drop_breaks s else String a (drop_breaks s)
  end.

Definition corrupt : goerr := errors_New "illegal base64 data".

(** The bytes of one, two and three decoded values. *)
Definition join2 (p q : Z) : ascii := of_byte (p * 4 + q / 16).
Definition join3 (q r : Z) : ascii := of_byte (q mod 16 * 16 + r / 4).
Definition join4 (r t : Z) : ascii := of_byte (r mod 4 * 64 + t).

Fixpoint decode_quads (s : string) : result string :=
  match s with
  | "" => Ok ""
  | String a (String b (String c (String d s))) =>
      match b64_value a, b64_value b with
      | Some p, Some q =>
          match b64_value c, b64_value d with
          | Some r, Some t =>
              match decode_quads s with
              | Ok rest => Ok (String (join2 p q) (String (join3 q r) (String (join4 r t) rest)))
              | Err e => Err e
              end
          | Some r, None =>
              if Ascii.eqb d pad_char && bool_decide (s = "")
              then Ok (String (join2 p q) (String (join3 q r) "")) else Err corrupt
          | None, _ =>
              if Ascii.eqb c pad_char && Ascii.eqb d pad_char && bool_decide (s = "")
              then Ok (String (join2 p q) "") else Err corrupt
          end
      | _, _ => Err corrupt
      end
  | _ => Err corrupt
  end.

Definition DecodeString (s : string) : result string := decode_quads (drop_breaks s).

(** ** Decoding inverts encoding *)

Lemma b64_table v : 0 <= v < 64 →
  b64_value (b64_char v) = Some v ∧ b64_char v ≠ "010"%char ∧ b64_char v ≠ "013"%char.
Proof.
  intros Hv. assert (v ∈ seqZ 0 64) as Hin by (apply elem_of_seqZ; lia).
  clear Hv. revert v Hin. apply Forall_forall. apply (bool_decide_unpack _). by vm_compute.
Qed.

Lemma byte_of_range a : 0 <= byte_of a < 256.
Proof. unfold byte_of. pose proof (nat_ascii_bounded a). lia. Qed.

Lemma of_byte_of a z : z = byte_of a → of_byte z = a.
Proof. intros ->. unfold of_byte, byte_of. by rewrite Nat2Z.id, ascii_nat_embedding. Qed.

Lemma keep_char v s : 0 <= v < 64 →
  drop_breaks (String (b64_char v) s) = String (b64_char v) (drop_breaks s).
Proof.
  intros Hv. destruct (b64_table v Hv) as (_ & Hn & Hr). cbn [drop_breaks].
  rewrite bool_decide_eq_false_2; [done|]. intros [?|?]; done.
Qed.

(** Strings three characters at a time. *)
Lemma string_ind3 (P : string → Prop) :
  P "" → (∀ a, P (String a "")) → (∀ a b, P (String a (String b ""))) →
  (∀ a b c s, P s → P (String a (String b (String c s)))) → ∀ s, P s.
Proof.
  intros P0 P1 P2 P3.
  assert (∀ n s, (String.length s <= n)%nat → P s) as Hn.
  { induction n as [|n IH]; intros [|a [|b [|c s]]] Hl; cbn in Hl; try lia; auto.
    apply P3, IH. lia. }
  intros s. by apply (Hn (String.length s)).
Qed.

Ltac b64_bytes :=
  repeat match goal with
  | |- context [byte_of ?a] =>
      lazymatch goal with
      | H : 0 <= byte_of a < 256 |- _ => fail
      | _ => pose proof (byte_of_range a)
      end
  end.

Ltac b64_arith := Z.to_euclidean_division_equations; lia.

Lemma b64_pad : b64_value pad_char = None.
Proof. reflexivity. Qed.

Lemma drop_pad s : drop_breaks (String pad_char s) = String pad_char (drop_breaks s).
Proof. reflexivity. Qed.

#[local] Opaque b64_char b64_value.

Lemma quads_one p q : 0 <= p < 64 → 0 <= q < 64 →
  DecodeString (String (b64_char p) (String (b64_char q) "==")) = Ok (String (join2 p q) "").
Proof.
  intros Hp Hq. unfold DecodeString. rewrite !keep_char by done.
  change "==" with (String pad_char (String pad_char "")). rewrite !drop_pad. cbn [drop_breaks decode_quads].
  by rewrite (proj1 (b64_table p Hp)), (proj1 (b64_table q Hq)), b64_pad.
Qed.

Lemma quads_two p q r : 0 <= p < 64 → 0 <= q < 64 → 0 <= r < 64 →
  DecodeString (String (b64_char p) (String (b64_char q) (String (b64_char r) "="))) =
  Ok (String (join2 p q) (String (join3 q r) "")).
Proof.
  intros Hp Hq Hr. unfold DecodeString. rewrite !keep_char by done.
  change "=" with (String pad_char ""). rewrite !drop_pad. cbn [drop_breaks decode_quads].
  by rewrite (proj1 (b64_table p Hp)), (proj1 (b64_table q Hq)), (proj1 (b64_table r Hr)), b64_pad.
Qed.

Lemma quads_three p q r t s : 0 <= p < 64 → 0 <= q < 64 → 0 <= r < 64 → 0 <= t < 64 →
  DecodeString (String (b64_char p) (String (b64_char q) (String (b64_char r) (String (b64_char t) s)))) =
  match DecodeString s with
  | Ok rest => Ok (String (join2 p q) (String (join3 q r) (String (join4 r t) rest)))
  | Err e => Err e
  end.
Proof.
  intros Hp Hq Hr Ht. unfold DecodeString. rewrite !keep_char by done. cbn [decode_quads].
  by rewrite (proj1 (b64_table p Hp)), (proj1 (b64_table q Hq)), (proj1 (b64_table r Hr)),
    (proj1 (b64_table t Ht)).
Qed.

Lemma DecodeString_EncodeToString s : DecodeString (EncodeToString s) = Ok s.
Proof.
  induction s as [|a|a b|a b c s IH] using string_ind3; [done|..]; cbn [EncodeToString]; b64_bytes.
  - rewrite quads_one by b64_arith. do 2 f_equal. apply of_byte_of. b64_arith.
  - rewrite quads_two by b64_arith. do 2 f_equal; [|f_equal]; apply of_byte_of; b64_arith.
  - rewrite quads_three, IH by b64_arith.
    do 2 f_equal; [|f_equal; [|f_equal]]; apply of_byte_of; b64_arith.
Qed.
