(* ===== verification/Helper.v ===== *)
(** * Shared helpers ([src/common/helper.go])

    The mapping of gRPC codes to HTTP statuses, the wrapping of "not found."
    errors, and the normalisation of Shadowsocks passwords.  The gRPC status
    package and SHA-256 are parameters with the laws their documentation
    states. *)

From Stdlib Require Import Ascii.
From S2P Require Import Prelude GoString Base64.

#[local] Open Scope Z_scope.

(** ** gRPC codes and statuses *)

Inductive Code :=
  | codes_OK | Canceled | Unknown | InvalidArgument | DeadlineExceeded | NotFound | AlreadyExists
  | PermissionDenied | ResourceExhausted | FailedPrecondition | Aborted | OutOfRange | Unimplemented
  | Internal | Unavailable | DataLoss | Unauthenticated.

#[export] Instance Code_eq_dec : EqDecision Code.
Proof. solve_decision. Defined.

(** [status.Error(c, msg)] is an error whose code [status.FromError] finds and
    whose text ends with the message; an error with no status in its chain
    counts as [Unknown], and no error has the code [OK]. *)
Class Grpc := {
  status_Error : Code → string → goerr;
  status_Code : goerr → Code;
  status_Code_Error c msg : c ≠ codes_OK → status_Code (status_Error c msg) = c;
  status_Code_not_OK e : status_Code e ≠ codes_OK;
  status_Code_Unknown e : (∀ n, GrpcStatus n ∉ err_chain e) → status_Code e = Unknown;
  status_Error_text c msg : ∃ p, err_text (status_Error c msg) = p +:+ msg
}.

(** [GrpcCodeToHTTP]. *)
Definition GrpcCodeToHTTP (code : Code) : Z :=
  match code with
  | codes_OK => 200
  | Canceled => 499
  | InvalidArgument => 400
  | Unauthenticated => 401
  | PermissionDenied => 403
  | NotFound => 404
  | AlreadyExists => 409
  | ResourceExhausted => 429
  | FailedPrecondition => 412
  | Aborted => 409
  | OutOfRange => 400
  | Unimplemented => 501
  | Internal => 500
  | Unavailable => 503
  | DeadlineExceeded => 504
  | Unknown | DataLoss => 500
  end.

(** [InterceptNotFound], on an error that is not nil. *)
Definition InterceptNotFound `{Grpc} (err : goerr) : goerr :=
  if HasSuffix (err_text err) "not found." then status_Error NotFound (err_text err) else err.

(** ** Shadowsocks passwords *)

(** SHA-256 of a byte string: 32 bytes. *)
Class Sha256 := {
  sha256 : string → string;
  sha256_length s : String.length (sha256 s) = 32%nat
}.

Fixpoint take_str (n : nat) (s : string) : string :=
  match n, s with
  | S n, String a s => String a (take_str n s)
  | _, _ => ""
  end.

Definition is_aes128 (method : string) : bool := Contains method "aes-128-gcm".
Definition is_long_key (method : string) : bool :=
  Contains method "aes-256-gcm" || Contains method "chacha20-poly1305".

(** [EnsureBase64Password]. *)
Definition EnsureBase64Password `{Sha256} (password method : string) : string :=
  let fits :=
    match DecodeString password with
    | Ok decodedBytes =>
        (is_aes128 method && (String.length decodedBytes =? 16)%nat) ||
        (is_long_key method && (String.length decodedBytes =? 32)%nat)
    | Err _ => false
    end in
  if fits then password
  else
    let hashBytes := sha256 password in
    let keyBytes := if is_aes128 method then take_str 16 hashBytes else take_str 32 hashBytes in
    EncodeToString keyBytes.

(** ** Lemmas *)

Lemma take_str_length n s : (n <= String.length s)%nat → String.length (take_str n s) = n.
Proof.
  revert s. induction n as [|n IH]; intros [|a s] Hn; cbn in *; [done..|lia|]. f_equal. apply IH. lia.
Qed.

(** The suffix tests of the text of a status only look at the message, when it
    is long enough. *)
Lemma HasSuffix_app p s suf : (String.length suf <= String.length s)%nat →
  HasSuffix (p +:+ s) suf = HasSuffix s suf.
Proof.
  intros Hl. apply eq_true_iff_eq. rewrite !HasSuffix_iff. split.
  - intros [t Ht]. revert p t Ht. induction p as [|a p IH]; intros t Ht; [by exists t|].
    destruct t as [|b t].
    + exfalso. apply (f_equal String.length) in Ht. rewrite string_app_cons, string_app_nil_l in Ht.
      cbn in Ht. rewrite string_length_app in Ht. cbn in Ht. lia.
    + rewrite !string_app_cons in Ht. injection Ht as _ Ht. by apply (IH t).
  - intros [t ->]. exists (p +:+ t). by rewrite string_app_assoc.
Qed.

Lemma status_Error_suffix `{Grpc} c msg suf : (String.length suf <= String.length msg)%nat →
  HasSuffix (err_text (status_Error c msg)) suf = HasSuffix msg suf.
Proof. intros Hl. destruct (status_Error_text c msg) as [p ->]. by apply HasSuffix_app. Qed.

Lemma GrpcCodeToHTTP_error c : c ≠ codes_OK → 400 <= GrpcCodeToHTTP c < 600.
Proof. destruct c; cbn; intros ?; [done|lia..]. Qed.

(** The number of bytes a method's key has. *)
Definition key_length (method : string) : nat := if is_aes128 method then 16 else 32.

Lemma ensure_keeps `{Sha256} q method key :
  xorb (is_aes128 method) (is_long_key method) = true →
  DecodeString q = Ok key → String.length key = key_length method → EnsureBase64Password q method = q.
Proof.
  intros Hone Hd Hl. unfold EnsureBase64Password, key_length in *. rewrite Hd, Hl.
  destruct (is_aes128 method), (is_long_key method); done.
Qed.

Lemma ensure_length `{Sha256} password method :
  xorb (is_aes128 method) (is_long_key method) = true →
  ∃ key, DecodeString (EnsureBase64Password password method) = Ok key ∧
         String.length key = key_length method.
Proof.
  intros Hone. unfold EnsureBase64Password, key_length. case_match eqn:Hfit.
  - destruct (DecodeString password) as [key|]; [|done]. exists key. split; [done|].
    destruct (is_aes128 method), (is_long_key method); try done; cbn [andb orb] in Hfit;
      rewrite ?orb_false_r in Hfit; by apply Nat.eqb_eq in Hfit.
  - eexists. rewrite DecodeString_EncodeToString. split; [done|].
    destruct (is_aes128 method); apply take_str_length; rewrite sha256_length; lia.
Qed.

Lemma ensure_twice `{Sha256} password method :
  xorb (is_aes128 method) (is_long_key method) = true →
  EnsureBase64Password (EnsureBase64Password password method) method =
  EnsureBase64Password password method.
Proof. intros Hone. destruct (ensure_length password method Hone) as (key & Hd & Hl). by eapply ensure_keeps. Qed.

(** ** Properties *)

(** For a method of the aes-128-gcm, aes-256-gcm or chacha20-poly1305
    family, the password the node configures always decodes to a key of the
    method's length, a password that already is such a key is kept, and
    normalising twice is the same as normalising once. *)
Theorem password_has_key_length `{Sha256} (password method : string)
    (Hone : xorb (is_aes128 method) (is_long_key method) = true) :
  let p := EnsureBase64Password password method in
  (∃ key, DecodeString p = Ok key ∧ String.length key = key_length method) ∧
  EnsureBase64Password p method = p ∧
  (∀ key, DecodeString password = Ok key → String.length key = key_length method → p = password).
Proof.
  intros p. split_and!; [by apply ensure_length|by apply ensure_twice|].
  intros key Hd Hl. by eapply ensure_keeps.
Qed.

(** A stand-in for SHA-256 that has its length. *)
Fixpoint fill (n : nat) (s : string) : string :=
  match n with
  | O => ""
  | S n => match s with "" => String "#"%char (fill n "") | String a s => String a (fill n s) end
  end.

Lemma fill_length n s : String.length (fill n s) = n.
Proof. revert s. induction n as [|n IH]; intros [|a s]; cbn; f_equal; auto. Qed.

#[local] Instance toy_sha256 : Sha256 := {| sha256 := fill 32; sha256_length := fill_length 32 |}.

Lemma password_has_key_length_witness :
  let p := EnsureBase64Password "secret" "2022-blake3-aes-128-gcm" in
  p = "c2VjcmV0IyMjIyMjIyMjIw==" ∧ EnsureBase64Password p "2022-blake3-aes-128-gcm" = p.
Proof.
  intros p. split; [reflexivity|].
  exact (proj1 (proj2 (password_has_key_length "secret" "2022-blake3-aes-128-gcm" eq_refl))).
Defined.
