(* ===== verification/GoNet.v ===== *)
(** * IP networks (Go's [net.IPNet], [net.ParseCIDR])

    What the WireGuard backend uses of Go's [net] package.  A network is the
    masked address bytes (4 or 16 of them) and the number of leading ones of
    its mask, which is all [ParseCIDR] can produce. *)

From Stdlib Require Import Ascii.
From S2P Require Import Prelude GoString.
Local Open Scope Z_scope.

Record IPNet := mkIPNet { IPNet_IP : list Z; IPNet_Ones : Z }.

#[export] Instance IPNet_eq_dec : EqDecision IPNet.
Proof. solve_decision. Defined.

(** [ipnet.Mask.Size()]: the leading ones and the width. *)
Definition Mask_Size (n : IPNet) : Z * Z := (IPNet_Ones n, 8 * Z.of_nat (length (IPNet_IP n))).

(** ** Masks *)

(** The byte [i] of a mask with [ones] leading ones. *)
Definition mask_byte (ones : Z) (i : nat) : Z :=
  let k := Z.min 8 (Z.max 0 (ones - 8 * Z.of_nat i)) in 256 - 2 ^ (8 - k).

Definition apply_mask (ones : Z) (ip : list Z) : list Z :=
  imap (λ i b, Z.land b (mask_byte ones i)) ip.

(** [ip.To4()]: four bytes, or a v4-mapped address. *)
Definition To4 (ip : list Z) : option (list Z) :=
  if bool_decide (length ip = 4%nat) then Some ip
  else if bool_decide (length ip = 16%nat ∧ take 12 ip = replicate 10 0 ++ [255; 255])
  then Some (drop 12 ip) else None.

(** [networkNumberAndMask]. *)
Definition network_number (n : IPNet) : list Z * Z :=
  match To4 (IPNet_IP n) with
  | Some ip4 =>
      if bool_decide (length (IPNet_IP n) = 4%nat) then (ip4, IPNet_Ones n)
      else (ip4, Z.max 0 (IPNet_Ones n - 96))
  | None => (IPNet_IP n, IPNet_Ones n)
  end.

(** [ipnet.Contains(ip)]. *)
Definition IPNet_Contains (n : IPNet) (ip : list Z) : bool :=
  let '(nn, ones) := network_number n in
  let ip := default ip (To4 ip) in
  bool_decide (length ip = length nn) &&
  bool_decide (apply_mask ones nn = apply_mask ones ip).

(** ** Parsing *)

Definition digit_val (a : ascii) : option Z :=
  let n := Z.of_nat (nat_of_ascii a) in
  if bool_decide (48 <= n <= 57) then Some (n - 48) else None.

Definition hex_val (a : ascii) : option Z :=
  let n := Z.of_nat (nat_of_ascii a) in
  if bool_decide (48 <= n <= 57) then Some (n - 48)
  else if bool_decide (97 <= n <= 102) then Some (n - 87)
  else if bool_decide (65 <= n <= 70) then Some (n - 55)
  else None.

(** [dtoi] on the whole string: decimal digits, below 0xFFFFFF. *)
Fixpoint dtoi_go (acc : Z) (s : string) : option Z :=
  match s with
  | "" => Some acc
  | String a s =>
      match digit_val a with
      | Some d => if bool_decide (acc * 10 + d < 16777215) then dtoi_go (acc * 10 + d) s else None
      | None => None
      end
  end.
Definition dtoi (s : string) : option Z :=
  match s with "" => None | _ => dtoi_go 0 s end.

(** One dotted field: no empty field, no leading zero, at most 255. *)
Definition parse_octet (s : string) : option Z :=
  match s with
  | "" => None
  | String "0" (String _ _) => None
  | _ => match dtoi s with
         | Some v => if bool_decide (v <= 255) then Some v else None
         | None => None
         end
  end.

Definition parse_ipv4 (s : string) : option (list Z) :=
  match mapM parse_octet (Split s ".") with
  | Some l => if bool_decide (length l = 4%nat) then Some l else None
  | None => None
  end.

(** The leading hexadecimal digits of [s], at most four of them. *)
Fixpoint hex_field (n : nat) (off acc : Z) (s : string) : option (Z * Z * string) :=
  match s with
  | "" => Some (off, acc, s)
  | String a s' =>
      match hex_val a with
      | Some d =>
          match n with
          | O => None
          | S n => hex_field n (off + 1) (acc * 16 + d) s'
          end
      | None => Some (off, acc, s)
      end
  end.

(** The loop of [parseIPv6]: the bytes so far, the position of the ellipsis.
    Every iteration adds at least two bytes, so eight iterations suffice. *)
Fixpoint ipv6_loop (fuel : nat) (s : string) (ip : list Z) (ellipsis : option nat)
    : option (list Z * option nat) :=
  match fuel with
  | O => if bool_decide (s = "") then Some (ip, ellipsis) else None
  | S fuel =>
      match hex_field 4 0 0 s with
      | None => None
      | Some (off, acc, rest) =>
          if bool_decide (off = 0) then None
          else if HasPrefix rest "." then
            if bool_decide (ellipsis = None ∧ length ip ≠ 12%nat) then None
            else if bool_decide (12 < length ip)%nat then None
            else match parse_ipv4 s with
                 | Some v4 => Some (ip ++ v4, ellipsis)
                 | None => None
                 end
          else
            let ip := ip ++ [acc / 256; acc mod 256] in
            match rest with
            | "" => Some (ip, ellipsis)
            | String ":" "" => None
            | String ":" (String ":" s'') =>
                match ellipsis with
                | Some _ => None
                | None =>
                    if bool_decide (s'' = "") then Some (ip, Some (length ip))
                    else ipv6_loop fuel s'' ip (Some (length ip))
                end
            | String ":" s' => ipv6_loop fuel s' ip ellipsis
            | _ => None
            end
      end
  end.

Definition ipv6_finish (r : list Z * option nat) : option (list Z) :=
  let '(ip, ellipsis) := r in
  if bool_decide (length ip < 16)%nat then
    match ellipsis with
    | None => None
    | Some e => Some (take e ip ++ replicate (16 - length ip) 0 ++ drop e ip)
    end
  else match ellipsis with None => Some ip | Some _ => None end.

Definition parse_ipv6 (s : string) : option (list Z) :=
  if HasPrefix s "::" then
    let s := drop_str 2 s in
    if bool_decide (s = "") then Some (replicate 16 0)
    else ipv6_loop 8 s [] (Some 0%nat) ≫= ipv6_finish
  else ipv6_loop 8 s [] None ≫= ipv6_finish.

(** [netip.ParseAddr]: the first of '.', ':' and '%' decides; an address with
    a zone is of no use to [ParseCIDR], which refuses it. *)
Fixpoint addr_kind (s : string) : option ascii :=
  match s with
  | "" => None
  | String a s => if bool_decide (a = "." ∨ a = ":" ∨ a = "%")%char then Some a else addr_kind s
  end.

Definition parse_addr (s : string) : option (list Z) :=
  match addr_kind s with
  | Some "."%char => parse_ipv4 s
  | Some ":"%char => parse_ipv6 s
  | _ => None
  end.

(** [net.ParseCIDR(s)]: the network only, which is all the program uses. *)
Definition ParseCIDR (s : string) : result IPNet :=
  let err := errors_New ("invalid CIDR address: " +:+ s) in
  match Cut s "/" with
  | None => Err err
  | Some (addr, mask) =>
      match parse_addr addr, dtoi mask with
      | Some ip, Some n =>
          if bool_decide (n <= 8 * Z.of_nat (length ip))
          then Ok (mkIPNet (apply_mask n ip) n) else Err err
      | _, _ => Err err
      end
  end.

(** ** Printing *)

Definition hex_digit (d : Z) : ascii :=
  ascii_of_nat (Z.to_nat (if bool_decide (d < 10) then 48 + d else 87 + d)).

(** [strconv] base 16 without leading zeros. *)
Definition hex16 (w : Z) : string :=
  let d i := hex_digit (w / 16 ^ i mod 16) in
  if bool_decide (w < 16) then String (d 0) ""
  else if bool_decide (w < 256) then String (d 1) (String (d 0) "")
  else if bool_decide (w < 4096) then String (d 2) (String (d 1) (String (d 0) ""))
  else String (d 3) (String (d 2) (String (d 1) (String (d 0) ""))).

Fixpoint words16 (ip : list Z) : list Z :=
  match ip with
  | hi :: lo :: ip => hi * 256 + lo :: words16 ip
  | _ => []
  end.

Fixpoint zero_run (l : list Z) : nat :=
  match l with
  | w :: l => if bool_decide (w = 0) then S (zero_run l) else O
  | [] => O
  end.

(** The first longest run of at least two zero words: its start and length. *)
Fixpoint best_run (i : nat) (l : list Z) (best : nat * nat) : nat * nat :=
  match l with
  | [] => best
  | _ :: l' =>
      let r := zero_run l in
      best_run (S i) l' (if bool_decide (2 ≤ r ∧ best.2 < r)%nat then (i, r) else best)
  end.

Definition ipv6_string (ip : list Z) : string :=
  let ws := words16 ip in
  let '(start, len) := best_run 0 ws (0%nat, 0%nat) in
  if bool_decide (len = 0%nat) then Join (hex16 <$> ws) ":"
  else Join (hex16 <$> take start ws) ":" +:+ "::" +:+ Join (hex16 <$> drop (start + len) ws) ":".

Definition IP_String (ip : list Z) : string :=
  if bool_decide (length ip = 4%nat) then Join (Itoa <$> ip) "." else ipv6_string ip.

(** [ipnet.String()]. *)
Definition IPNet_String (n : IPNet) : string :=
  let '(nn, ones) := network_number n in IP_String nn +:+ "/" +:+ Itoa ones.

(** ** Examples *)

Example cidr_v4 : IPNet_String <$> (match ParseCIDR "10.0.0.77/24" with Ok n => Some n | _ => None end)
  = Some "10.0.0.0/24".
Proof. vm_compute. reflexivity. Qed.

Example cidr_v6 : IPNet_String <$> (match ParseCIDR "fd00:0:0:1:0:0:0:7/128" with Ok n => Some n | _ => None end)
  = Some "fd00:0:0:1::7/128".
Proof. vm_compute. reflexivity. Qed.

Example cidr_bad : ((λ s, is_ok (ParseCIDR s)) <$> ["10.0.0.1"; "10.0.0.1/33"; "10.0.0.01/32"; "::/0"; "::ffff:1.2.3.4/128"; "1::2::3/64"])
  = [false; false; false; true; true; false].
Proof. vm_compute. reflexivity. Qed.

(** ** Facts *)

Lemma apply_mask_length ones ip : length (apply_mask ones ip) = length ip.
Proof. apply length_imap. Qed.

(** A parsed network is already masked: its host bits are clear. *)
Lemma apply_mask_idem ones ip : apply_mask ones (apply_mask ones ip) = apply_mask ones ip.
Proof.
  unfold apply_mask. apply list_eq. intros i. rewrite !list_lookup_imap.
  destruct (ip !! i); simpl; [|done]. by rewrite <- Z.land_assoc, Z.land_diag.
Qed.

Lemma ParseCIDR_masked s n :
  ParseCIDR s = Ok n → apply_mask (IPNet_Ones n) (IPNet_IP n) = IPNet_IP n.
Proof.
  unfold ParseCIDR. intros H. repeat split_match_in H. apply apply_mask_idem.
Qed.

Lemma ParseCIDR_ones s n :
  ParseCIDR s = Ok n → IPNet_Ones n <= 8 * Z.of_nat (length (IPNet_IP n)).
Proof.
  unfold ParseCIDR. intros H. repeat split_match_in H.
  rewrite apply_mask_length. by apply bool_decide_eq_true in Heqb.
Qed.

(** A shorter mask keeps a part of what a longer one keeps. *)
Lemma mask_byte_le a b i : a <= b → Z.land (mask_byte b i) (mask_byte a i) = mask_byte a i.
Proof.
  intros Hab. unfold mask_byte.
  set (kb := Z.min 8 (Z.max 0 (b - 8 * Z.of_nat i))).
  set (ka := Z.min 8 (Z.max 0 (a - 8 * Z.of_nat i))).
  assert (0 <= ka /\ ka <= kb /\ kb <= 8) as (Ha & Hk & Hb) by (unfold ka, kb; lia).
  clearbody ka kb. clear Hab.
  assert (kb = 0 \/ kb = 1 \/ kb = 2 \/ kb = 3 \/ kb = 4 \/ kb = 5 \/ kb = 6 \/ kb = 7 \/ kb = 8)
    as Hcase by lia.
  assert (ka = 0 \/ ka = 1 \/ ka = 2 \/ ka = 3 \/ ka = 4 \/ ka = 5 \/ ka = 6 \/ ka = 7 \/ ka = 8)
    as Hcase' by lia.
  destruct_or! Hcase; destruct_or! Hcase'; subst; first [reflexivity | lia].
Qed.

Lemma apply_mask_le a b ip : a <= b → apply_mask a (apply_mask b ip) = apply_mask a ip.
Proof.
  intros Hab. unfold apply_mask. apply list_eq. intros i. rewrite !list_lookup_imap.
  destruct (ip !! i); simpl; [|done]. by rewrite <- Z.land_assoc, mask_byte_le.
Qed.

Lemma IPNet_Contains_iff n ip :
  IPNet_Contains n ip = true ↔
  let x := default ip (To4 ip) in
  length x = length (network_number n).1 ∧
  apply_mask (network_number n).2 (network_number n).1 = apply_mask (network_number n).2 x.
Proof.
  unfold IPNet_Contains. destruct (network_number n) as [nn ones]. simpl.
  by rewrite andb_true_iff, !bool_decide_eq_true.
Qed.

Lemma network_number_IP n : (network_number n).1 = default (IPNet_IP n) (To4 (IPNet_IP n)).
Proof. unfold network_number. by destruct (To4 _); [case_bool_decide|]. Qed.

(** A network with a longer mask whose address lies in another network is a
    part of it. *)
Lemma IPNet_Contains_trans p q ip :
  length (IPNet_IP p) = length (IPNet_IP q) → IPNet_Contains q (IPNet_IP p) = true →
  IPNet_Ones q <= IPNet_Ones p → IPNet_Contains p ip = true → IPNet_Contains q ip = true.
Proof.
  rewrite !IPNet_Contains_iff. cbn zeta. intros Hlen [Hl Hm] Hones [Hl' Hm'].
  rewrite <- network_number_IP in Hl, Hm. split; [congruence|].
  assert ((network_number q).2 <= (network_number p).2) as Hle.
  { clear Hm Hm' Hl'. revert Hl. unfold network_number. rewrite Hlen.
    unfold To4. rewrite Hlen. repeat case_bool_decide; simpl; rewrite ?length_drop; lia. }
  rewrite Hm. rewrite <- (apply_mask_le _ _ (network_number p).1 Hle), Hm', apply_mask_le; done.
Qed.
