(* ===== verification/Json.v ===== *)
(** * JSON values (Go's [encoding/json])

    The tree a JSON text denotes and what decoding it into Go values does.
    The text syntax itself is the class [JsonText], whose law [JsonLaws] says
    that parsing a printed value gives the value back.  A number is kept as its literal. *)

From S2P Require Import Prelude GoString.

Inductive json :=
  | JNull
  | JBool (b : bool)
  | JNum (literal : string)
  | JStr (s : string)
  | JArr (items : list json)
  | JObj (fields : list (string * json)).

Class JsonText := {
  json_parse : string → result json;
  json_print : json → string
}.

(** Printing and parsing back. *)
Class JsonLaws `{JsonText} := {
  json_parse_print v : json_parse (json_print v) = Ok v
}.

(** A key of a decoded [map[string]any]: the last of equal keys wins. *)
Fixpoint obj_key (fields : list (string * json)) (key : string) : option json :=
  match fields with
  | [] => None
  | (k, v) :: fields =>
      match obj_key fields key with
      | Some v' => Some v'
      | None => if bool_decide (k = key) then Some v else None
      end
  end.

(** A struct field: keys match up to letter case. *)
Fixpoint obj_field (fields : list (string * json)) (name : string) : option json :=
  match fields with
  | [] => None
  | (k, v) :: fields =>
      match obj_field fields name with
      | Some v' => Some v'
      | None => if EqualFold k name then Some v else None
      end
  end.

Definition type_error (what : string) : goerr :=
  errors_New ("json: cannot unmarshal into Go value of type " +:+ what).

(** Decoding into a [string] variable: [null] and a missing field leave the
    zero value. *)
Definition decode_string (v : option json) : result string :=
  match v with
  | None | Some JNull => Ok ""
  | Some (JStr s) => Ok s
  | Some _ => Err (type_error "string")
  end.

(** Decoding into a slice. *)
Definition decode_array (v : option json) : result (list json) :=
  match v with
  | None | Some JNull => Ok []
  | Some (JArr l) => Ok l
  | Some _ => Err (type_error "slice")
  end.

(** Decoding into a struct or a map: the fields of the object. *)
Definition decode_object (v : json) : result (list (string * json)) :=
  match v with
  | JNull => Ok []
  | JObj fields => Ok fields
  | _ => Err (type_error "struct")
  end.

Fixpoint mapM_result {A B} (f : A → result B) (l : list A) : result (list B) :=
  match l with
  | [] => Ok []
  | x :: l =>
      match f x with
      | Err e => Err e
      | Ok y => match mapM_result f l with Err e => Err e | Ok ys => Ok (y :: ys) end
      end
  end.

Lemma mapM_result_Ok {A B} (f : A → result B) l ys :
  mapM_result f l = Ok ys ↔ Forall2 (λ x y, f x = Ok y) l ys.
Proof.
  revert ys. induction l as [|x l IH]; intros ys; cbn [mapM_result].
  - split; [intros [= <-]; constructor|]. by intros ->%Forall2_nil_inv_l.
  - split.
    + destruct (f x) as [y|] eqn:Hx; [|done]. destruct (mapM_result f l) as [ys'|]; [|done].
      intros [= <-]. constructor; [done|]. by apply IH.
    + intros (y & ys' & Hx & Hl & ->)%Forall2_cons_inv_l. rewrite Hx.
      apply IH in Hl. by rewrite Hl.
Qed.
