(* ===== verification/NodeConfig.v ===== *)
(** * The node's own configuration ([src/config/config.go])

    [Load] reads the environment (after godotenv has added the .env file to
    it) and falls back to defaults.  Parsing a UUID is a parameter. *)

From Stdlib Require Import Ascii.
From stdpp Require Import pretty.
From S2P Require Import Prelude GoString GoNet.
Local Open Scope Z_scope.

(** ** What the loader uses of [strconv] *)

(** [strconv.ParseBool]. *)
Definition ParseBool (s : string) : option bool :=
  if bool_decide (s ∈ ["1"; "t"; "T"; "TRUE"; "true"; "True"]) then Some true
  else if bool_decide (s ∈ ["0"; "f"; "F"; "FALSE"; "false"; "False"]) then Some false
  else None.

Fixpoint digits (acc : Z) (s : string) : option Z :=
  match s with
  | "" => Some acc
  | String a s => match digit_val a with Some d => digits (acc * 10 + d) s | None => None end
  end.

(** [strconv.Atoi]: an optional sign, decimal digits, 64-bit range. *)
Definition Atoi (s : string) : option Z :=
  let '(neg, ds) :=
    match s with
    | String "-"%char s' => (true, s')
    | String "+"%char s' => (false, s')
    | _ => (false, s)
    end in
  if bool_decide (ds = "") then None
  else match digits 0 ds with
       | Some n =>
           let n := if neg then - n else n in
           if bool_decide (- 2 ^ 63 <= n < 2 ^ 63) then Some n else None
       | None => None
       end.

Section NodeConfig.
Context {UUID : Type} (uuid_Nil : UUID) (uuid_Parse : string → result UUID).

Record NodeConfig := mkNodeConfig {
  ServicePort : Z;
  NodeHost : string;
  XrayExecutablePath : string;
  XrayAssetsPath : string;
  SslCertFile : string;
  SslKeyFile : string;
  ApiKey : UUID;
  ServiceProtocol : string;
  Debug : bool;
  GeneratedConfigPath : string;
  LogBufferSize : Z;
  StartupLogTailSize : Z;
  StatsUpdateIntervalSeconds : Z;
  StatsCleanupIntervalSeconds : Z;
  WGHostRouting : bool;
  WGNATOutputInterface : string;
  WGNATEgressOnly : bool;
  WGNATDisable : bool;
  WGRouteTable : string;
  WGRouteOutInterface : string
}.

Implicit Types env : gmap string string.

Definition GetEnv env (key fallback : string) : string := default fallback (env !! key).
Definition GetEnvAsBool env (name : string) (defaultVal : bool) : bool :=
  default defaultVal (ParseBool (GetEnv env name "")).
Definition GetEnvAsInt env (name : string) (defaultVal : Z) : Z :=
  default defaultVal (Atoi (GetEnv env name "")).
Definition GetEnvAsUUID env (name : string) : result UUID :=
  match uuid_Parse (GetEnv env name "") with Ok u => Ok u | Err e => Err e end.

(** One octet of [ipPattern]: 25[0-5], 2[0-4][0-9] or [01]?[0-9][0-9]?. *)
Definition pattern_octet (s : string) : bool :=
  match mapM digit_val (String.list_ascii_of_string s) with
  | Some [_] | Some [_; _] => true
  | Some [a; b; c] =>
      bool_decide (a <= 1) || (bool_decide (a = 2) &&
        (bool_decide (b <= 4) || (bool_decide (b = 5) && bool_decide (c <= 5))))
  | _ => false
  end.

(** [re.MatchString]: four octets separated by dots. *)
Definition ip_pattern (s : string) : bool :=
  let parts := Split s "." in
  bool_decide (length parts = 4%nat) && forallb pattern_octet parts.

(** The error of the UUID is only logged. *)
Definition Load env : NodeConfig :=
  let logBufferSize := GetEnvAsInt env "LOG_BUFFER_SIZE" 10000 in
  let logBufferSize := if logBufferSize <=? 0 then 1 else logBufferSize in
  let apiKey := match GetEnvAsUUID env "API_KEY" with Ok u => u | Err _ => uuid_Nil end in
  let nodeHostStr := GetEnv env "NODE_HOST" "0.0.0.0" in
  let nodeHost := if ip_pattern nodeHostStr then nodeHostStr else "127.0.0.1" in
  mkNodeConfig
    (GetEnvAsInt env "SERVICE_PORT" 62050)
    nodeHost
    (GetEnv env "XRAY_EXECUTABLE_PATH" "/usr/local/bin/xray")
    (GetEnv env "XRAY_ASSETS_PATH" "/usr/local/share/xray")
    (GetEnv env "SSL_CERT_FILE" "/var/lib/pg-node/certs/ssl_cert.pem")
    (GetEnv env "SSL_KEY_FILE" "/var/lib/pg-node/certs/ssl_key.pem")
    apiKey
    (GetEnv env "SERVICE_PROTOCOL" "grpc")
    (GetEnvAsBool env "DEBUG" false)
    (GetEnv env "GENERATED_CONFIG_PATH" "/var/lib/pg-node/generated/")
    logBufferSize
    (GetEnvAsInt env "STARTUP_LOG_TAIL_SIZE" 200)
    (GetEnvAsInt env "STATS_UPDATE_INTERVAL_SECONDS" 10)
    (GetEnvAsInt env "STATS_CLEANUP_INTERVAL_SECONDS" 300)
    (GetEnvAsBool env "PG_NODE_WG_HOST_ROUTING" true)
    (GetEnv env "PG_NODE_WG_NAT_OUTPUT_INTERFACE" "")
    (GetEnvAsBool env "PG_NODE_WG_NAT_EGRESS_ONLY" true)
    (GetEnvAsBool env "PG_NODE_WG_NAT_DISABLE" false)
    (GetEnv env "PG_NODE_WG_ROUTE_TABLE" "")
    (GetEnv env "PG_NODE_WG_ROUTE_OUT_INTERFACE" "").

(** [NewTestConfig]. *)
Definition NewTestConfig env (generatedConfigPath : string) (key : UUID) : NodeConfig :=
  let c := Load env in
  mkNodeConfig (ServicePort c) (NodeHost c) (XrayExecutablePath c) (XrayAssetsPath c)
    (SslCertFile c) (SslKeyFile c) key (ServiceProtocol c) (Debug c) generatedConfigPath
    (LogBufferSize c) (StartupLogTailSize c) (StatsUpdateIntervalSeconds c)
    (StatsCleanupIntervalSeconds c) (WGHostRouting c) (WGNATOutputInterface c)
    (WGNATEgressOnly c) (WGNATDisable c) (WGRouteTable c) (WGRouteOutInterface c).

(** ** Facts *)

Lemma mapM_digits_range l ds : mapM digit_val l = Some ds → Forall (λ d, 0 <= d <= 9) ds.
Proof.
  intros Hm. apply mapM_Some in Hm. induction Hm as [|a d l ds Ha _ IH]; constructor; [|done].
  unfold digit_val in Ha. case_bool_decide; simplify_eq. lia.
Qed.

(** Printing an integer and reading it back. *)
Lemma digit_val_char (d : N) : (d < 10)%N → digit_val (pretty_N_char d) = Some (Z.of_N d).
Proof.
  intros Hd. assert (d ∈ (N.of_nat <$> seq 0 10)) as Hin.
  { apply list_elem_of_fmap. exists (N.to_nat d). split; [lia|]. apply elem_of_seq. lia. }
  assert (Forall (λ d, digit_val (pretty_N_char d) = Some (Z.of_N d)) (N.of_nat <$> seq 0 10)) as Hall
    by (repeat constructor; reflexivity).
  rewrite Forall_forall in Hall. by apply Hall.
Qed.

Lemma digits_pretty_go (x : N) (s : string) :
  ∃ k, 0 <= k ∧ ∀ acc, digits acc (pretty_N_go x s) = digits (acc * 10 ^ k + Z.of_N x) s.
Proof.
  revert s. induction (N.lt_wf_0 x) as [x _ IH]; intros s. destruct (decide (x = 0%N)) as [->|Hx].
  { exists 0. split; [done|]. intros acc. rewrite pretty_N_go_0. f_equal. lia. }
  rewrite pretty_N_go_step by lia.
  destruct (IH (x `div` 10)%N ltac:(apply N.div_lt; lia) (String (pretty_N_char (x `mod` 10)) s)) as (k & Hk & Hd).
  exists (Z.succ k). split; [lia|]. intros acc. rewrite Hd. cbn [digits].
  rewrite digit_val_char by (apply N.mod_lt; lia). f_equal. rewrite Z.pow_succ_r by done.
  pose proof (N.div_mod x 10 ltac:(lia)). nia.
Qed.

Lemma digits_pretty_N (x : N) : digits 0 (pretty x) = Some (Z.of_N x).
Proof.
  unfold pretty, pretty_N. case_decide as Hx; [by subst x|].
  destruct (digits_pretty_go x "") as (k & _ & Hd). by rewrite Hd.
Qed.

Lemma pretty_N_nonempty (x : N) : pretty x ≠ "".
Proof. intros Hx. pose proof (digits_pretty_N x) as Hd. rewrite Hx in Hd. unfold pretty, pretty_N in Hx. case_decide; [done|]. injection Hd. lia. Qed.

Lemma pretty_N_unsigned (x : N) a s : pretty x = String a s → a ≠ "-"%char ∧ a ≠ "+"%char.
Proof.
  intros Hx. pose proof (digits_pretty_N x) as Hd. rewrite Hx in Hd. by split; intros ->.
Qed.

Lemma Atoi_Itoa (z : Z) : in64 z → Atoi (Itoa z) = Some z.
Proof.
  intros Hz. unfold Itoa. assert (∀ n : positive, Atoi (pretty (Npos n)) = if bool_decide (- 2 ^ 63 <= Z.pos n < 2 ^ 63) then Some (Z.pos n) else None) as Hpos.
  { intros n. unfold Atoi. pose proof (digits_pretty_N (Npos n)) as Hd. pose proof (pretty_N_nonempty (Npos n)) as Hne.
    destruct (pretty (Npos n)) as [|a s] eqn:Hp; [done|]. destruct (pretty_N_unsigned _ _ _ Hp) as [Hm Hpl].
    assert (match a with "-"%char => (true, s) | "+"%char => (false, s) | _ => (false, String a s) end = (false, String a s)) as Hsign.
    { destruct a as [[] [] [] [] [] [] [] []]; done. }
    change (match String a s with String "-"%char s' => (true, s') | String "+"%char s' => (false, s') | _ => (false, String a s) end)
      with (match a with "-"%char => (true, s) | "+"%char => (false, s) | _ => (false, String a s) end).
    rewrite Hsign, bool_decide_eq_false_2, Hd by done. done. }
  destruct z as [|n|n]; [reflexivity| |].
  - change (pretty (Z.pos n)) with (pretty (Npos n)). rewrite Hpos. by rewrite bool_decide_eq_true_2.
  - change (pretty (Z.neg n)) with (String "-" (pretty (Npos n))). unfold Atoi.
    rewrite bool_decide_eq_false_2 by apply pretty_N_nonempty. rewrite digits_pretty_N. by rewrite bool_decide_eq_true_2.
Qed.

(** The value a digit string denotes. *)
Fixpoint digits_value (acc : Z) (ds : list Z) : Z :=
  match ds with [] => acc | d :: ds => digits_value (acc * 10 + d) ds end.

Lemma pattern_octet_value s ds :
  mapM digit_val (String.list_ascii_of_string s) = Some ds →
  pattern_octet s = true ↔ (1 <= length ds <= 3)%nat ∧ digits_value 0 ds <= 255.
Proof.
  intros Hm. pose proof (mapM_digits_range _ _ Hm) as Hr. unfold pattern_octet. rewrite Hm.
  destruct ds as [|a [|b [|c [|d ds]]]]; rewrite ?Forall_cons in Hr; simpl.
  - split; [done|lia].
  - split; [lia|done].
  - split; [lia|done].
  - rewrite orb_true_iff, andb_true_iff, orb_true_iff, andb_true_iff, !bool_decide_eq_true. lia.
  - split; [done|lia].
Qed.
End NodeConfig.

(** ** Properties *)

(** Whatever the environment, a loaded configuration has a log buffer of at
    least one line and a host that is a dotted quad of octets up to 255. *)
Theorem load_sane {UUID : Type} (uuid_Nil : UUID) (uuid_Parse : string → result UUID)
    (env : gmap string string) :
  let c := Load uuid_Nil uuid_Parse env in
  1 <= LogBufferSize c ∧
  length (Split (NodeHost c) ".") = 4%nat ∧
  ∀ s, s ∈ Split (NodeHost c) "." →
    ∃ ds, mapM digit_val (String.list_ascii_of_string s) = Some ds ∧
      (1 <= length ds <= 3)%nat ∧ digits_value 0 ds <= 255.
Proof.
  cbn zeta. unfold Load. cbn [LogBufferSize NodeHost]. split.
  { destruct (Z.leb_spec (GetEnvAsInt env "LOG_BUFFER_SIZE" 10000) 0); lia. }
  assert (∀ h, ip_pattern h = true → length (Split h ".") = 4%nat ∧
    ∀ s, s ∈ Split h "." → ∃ ds, mapM digit_val (String.list_ascii_of_string s) = Some ds ∧
      (1 <= length ds <= 3)%nat ∧ digits_value 0 ds <= 255) as Hp.
  { intros h. unfold ip_pattern. rewrite andb_true_iff, bool_decide_eq_true, forallb_forall.
    intros [Hlen Hall]. split; [done|]. intros s Hs%list_elem_of_In%Hall.
    destruct (mapM digit_val (String.list_ascii_of_string s)) as [ds|] eqn:Hm.
    - exists ds. split; [done|]. by apply (pattern_octet_value s ds Hm).
    - unfold pattern_octet in Hs. by rewrite Hm in Hs. }
  destruct (ip_pattern (GetEnv env "NODE_HOST" "0.0.0.0")) eqn:Hh; [by apply Hp|].
  by apply Hp; vm_compute.
Qed.

Example load_defaults :
  let c := Load tt (λ _, Ok tt) (<["LOG_BUFFER_SIZE" := "-3"]> (<["NODE_HOST" := "::1"]> ∅)) in
  (LogBufferSize c, NodeHost c, StatsUpdateIntervalSeconds c, WGHostRouting c)
  = (1, "127.0.0.1", 10, true).
Proof. vm_compute. reflexivity. Qed.
