(* ===== verification/Backends.v ===== *)
(** * The interface of a proxy backend ([src/backend/backend.go])

    The controller and the two servers talk to a backend through the Go
    interface [backend.Backend], and to one that can route through
    [backend.RoutingBackend].  Here the interface is a type class over a type
    [B] of handles (what the Go interface value points to) and a type [W] of
    worlds (everything the backends own: their objects, the kernel, the
    processes), with the constructors that [StartBackend] calls.  A client's
    theorems need only the laws of [BackendLaws]: which steps may start or
    stop which backend. *)

From S2P Require Import Prelude Messages.

(** ** Operations *)

Record RoutingBackend (W : Type) := {
  rb_ListRoutingRules : eff W (list RoutingRule);
  rb_GetBalancerInfo : string → eff W BalancerInfoResponse;
  rb_TestRoute : TestRouteRequest → eff W RouteResult;
  rb_AddRoutingRule : string → bool → eff W unit;
  rb_RemoveRoutingRule : string → eff W unit;
  rb_OverrideBalancerTarget : string → string → eff W unit
}.
Arguments rb_ListRoutingRules {W} _.
Arguments rb_GetBalancerInfo {W} _.
Arguments rb_TestRoute {W} _.
Arguments rb_AddRoutingRule {W} _.
Arguments rb_RemoveRoutingRule {W} _.
Arguments rb_OverrideBalancerTarget {W} _.

Class Backends (B W : Type) := {
  be_Started : B → W → bool;
  be_Version : B → W → string;
  be_Shutdown : B → W → W;
  be_SyncUser : B → option User → eff W unit;
  be_SyncUsers : B → list (option User) → eff W unit;
  be_UpdateUsers : B → list (option User) → eff W unit;
  be_GetSysStats : B → eff W BackendStatsResponse;
  be_GetStats : B → StatRequest → eff W StatResponse;
  be_GetOutboundsLatency : B → LatencyRequest → eff W LatencyResponse;
  be_GetUserOnlineStats : B → string → eff W OnlineStatResponse;
  be_GetUserOnlineIpListStats : B → string → eff W StatsOnlineIpListResponse;
  (** the type assertion [b.(backend.RoutingBackend)] *)
  be_routing : B → option (RoutingBackend W);
  (** [xray.NewConfig] and [xray.New] *)
  XrayConfig : Type;
  xray_NewConfig : string → list string → result XrayConfig;
  xray_New : XrayConfig → list (option User) → Z → Z → eff W B;
  (** [wireguard.NewConfig] and [wireguard.New] *)
  WireguardConfig : Type;
  wireguard_NewConfig : string → result WireguardConfig;
  wireguard_New : WireguardConfig → list (option User) → eff W B
}.

(** A step that starts no backend. *)
Definition starts_none `{Backends B W} (w w' : W) : Prop :=
  ∀ b, be_Started b w' = true → be_Started b w = true.

(** From a world with [ok], a constructor starts at most the backend it
    returns, and keeps [ok]. *)
Definition starts_only `{Backends B W} (ok : W → Prop) (m : eff W B) : Prop := ∀ w, ok w →
  match m w with
  | (Ok b, w') => ok w' ∧ ∀ b', be_Started b' w' = true → b' = b ∨ be_Started b' w = true
  | (Err _, w') => ok w' ∧ starts_none w w'
  end.

(** [be_ok] is the backends' own invariant of their world. *)
Class BackendLaws (B W : Type) `{Backends B W} := {
  be_ok : W → Prop;
  shutdown_ok b w : be_ok w → be_ok (be_Shutdown b w);
  shutdown_stops b w : be_ok w → be_Started b (be_Shutdown b w) = false;
  shutdown_starts_none b w : be_ok w → starts_none w (be_Shutdown b w);
  xray_New_starts cfg users p q : starts_only be_ok (xray_New cfg users p q);
  wireguard_New_starts cfg users : starts_only be_ok (wireguard_New cfg users)
}.

#[export] Instance starts_none_preorder `{Backends B W} : PreOrder starts_none.
Proof. split; [intros w b Hb; exact Hb|intros u v w Huv Hvw b Hb; auto]. Qed.
