(* ===== verification/Chunks.v ===== *)
(** * Chunked user payloads ([src/controller/users_chunk.go])

    The assembly of the chunks both servers receive, and the receiving loops'
    shared step.  The chunks' indexes are 64-bit unsigned integers. *)

From S2P Require Import Prelude GoString Messages.

#[local] Open Scope Z_scope.

Notation chunk_map := (gmap Z (list (option User))).

Definition missing_chunk (i : Z) : goerr := errors_New ("missing chunk index " +:+ Itoa i).

(** The loop [for i := 0; i <= lastIndex; i++].  The fuel counts the chunks
    that can still be found: the loop stops at the first index that is absent,
    so it takes at most one turn more than there are chunks. *)
Fixpoint assemble (fuel : nat) (chunks : chunk_map) (lastIndex i : Z) (users : list (option User))
    : result (list (option User)) :=
  if negb (i <=? lastIndex) then Ok users
  else
    match chunks !! i with
    | None => Err (missing_chunk i)
    | Some chunkUsers =>
        match fuel with
        | O => Err (go_panic "more turns than chunks")
        | S fuel => assemble fuel chunks lastIndex ((i + 1) mod 2 ^ 64) (users ++ chunkUsers)
        end
    end.

Definition BuildUsersFromChunks (chunks : chunk_map) (lastIndex : Z) (sawLast : bool)
    : result (list (option User)) :=
  if negb sawLast then Err (errors_New "missing final chunk indicator")
  else
    match assemble (size chunks) chunks lastIndex 0 [] with
    | Err e => Err e
    | Ok users => match users with [] => Err (errors_New "no users received") | _ => Ok users end
    end.

(** [chunks[chunk.GetIndex()] = append(chunks[chunk.GetIndex()], chunk.GetUsers()...)]. *)
Definition add_chunk (chunks : chunk_map) (chunk : UsersChunk) : chunk_map :=
  let i := UsersChunk_Index chunk in
  <[i := default [] (chunks !! i) ++ UsersChunk_Users chunk]> chunks.

(** What the loops have received: the chunks, the last index, the end mark. *)
Record received := mkReceived { rc_chunks : chunk_map; rc_last : Z; rc_saw : bool }.
Definition nothing_received : received := mkReceived ∅ 0 false.

Definition receive (r : received) (chunk : UsersChunk) : received :=
  mkReceived (add_chunk (rc_chunks r) chunk)
    (if UsersChunk_Last chunk then UsersChunk_Index chunk else rc_last r)
    (rc_saw r || UsersChunk_Last chunk).

(** ** Lemmas *)

(** The users of index [i] among chunks, in the order they came. *)
Definition users_at (cs : list UsersChunk) (i : Z) : list (option User) :=
  filter (λ c, UsersChunk_Index c = i) cs ≫= UsersChunk_Users.

Lemma users_at_none cs i : i ∉ UsersChunk_Index <$> cs → users_at cs i = [].
Proof.
  induction cs as [|c cs IH]; [done|]. rewrite fmap_cons, not_elem_of_cons. intros [Hc Hcs].
  unfold users_at. rewrite filter_cons_False by congruence. by apply IH.
Qed.

Lemma users_at_cons c cs i :
  users_at (c :: cs) i =
  (if decide (UsersChunk_Index c = i) then UsersChunk_Users c else []) ++ users_at cs i.
Proof.
  unfold users_at. case_decide; [by rewrite filter_cons_True, bind_cons|by rewrite filter_cons_False].
Qed.

Lemma add_chunks_lookup cs (m : chunk_map) i :
  foldl add_chunk m cs !! i =
  if bool_decide (i ∈ UsersChunk_Index <$> cs)
  then Some (default [] (m !! i) ++ users_at cs i) else m !! i.
Proof.
  revert m. induction cs as [|c cs IH]; intros m; [done|].
  cbn [foldl]. rewrite fmap_cons, IH, users_at_cons. unfold add_chunk.
  destruct (decide (UsersChunk_Index c = i)) as [<-|Hne].
  - rewrite lookup_insert_eq, (bool_decide_eq_true_2 (_ ∈ _ :: _)) by set_solver.
    cbn [default from_option]. case_bool_decide; [by rewrite (assoc_L (++))|].
    by rewrite users_at_none, app_nil_r by done.
  - rewrite lookup_insert_ne by done. cbn [app].
    destruct (decide (i ∈ UsersChunk_Index <$> cs)).
    + by rewrite !bool_decide_eq_true_2 by set_solver.
    + by rewrite !bool_decide_eq_false_2 by set_solver.
Qed.

(** The loop over indexes that are all present. *)
Lemma assemble_all n fuel (chunks : chunk_map) i users :
  (n <= fuel)%nat → 0 <= i → i + Z.of_nat n < 2 ^ 64 →
  (∀ j, i <= j < i + Z.of_nat n → is_Some (chunks !! j)) →
  assemble fuel chunks (i + Z.of_nat n - 1) i users =
  Ok (users ++ mjoin ((λ j, default [] (chunks !! j)) <$> seqZ i (Z.of_nat n))).
Proof.
  revert fuel i users. induction n as [|n IH]; intros fuel i users Hf Hi Hw Hall.
  - destruct fuel; cbn [assemble]; rewrite (proj2 (Z.leb_gt _ _)) by lia; cbn; by rewrite app_nil_r.
  - destruct fuel as [|fuel]; [lia|]. cbn [assemble].
    rewrite (proj2 (Z.leb_le _ _)) by lia. cbn [negb].
    destruct (Hall i ltac:(lia)) as [us Hus]. rewrite Hus, Z.mod_small by lia.
    replace (i + Z.of_nat (S n) - 1) with (i + 1 + Z.of_nat n - 1) by lia.
    rewrite IH by (try lia; intros j Hj; apply Hall; lia).
    rewrite (seqZ_cons i) by lia. replace (Z.pred (Z.of_nat (S n))) with (Z.of_nat n) by lia.
    cbn. by rewrite Hus, <- (assoc_L (++)).
Qed.

(** The loop stops at the first index that is absent. *)
Lemma assemble_missing n fuel (chunks : chunk_map) last i users :
  (n <= fuel)%nat → 0 <= i → i + Z.of_nat n <= last < 2 ^ 64 →
  (∀ j, i <= j < i + Z.of_nat n → is_Some (chunks !! j)) → chunks !! (i + Z.of_nat n) = None →
  assemble fuel chunks last i users = Err (missing_chunk (i + Z.of_nat n)).
Proof.
  revert fuel i users. induction n as [|n IH]; intros fuel i users Hf Hi Hw Hall Hno.
  - replace (i + Z.of_nat 0) with i in * by lia.
    destruct fuel; cbn [assemble]; rewrite (proj2 (Z.leb_le _ _)) by lia; cbn [negb]; by rewrite Hno.
  - destruct fuel as [|fuel]; [lia|]. cbn [assemble].
    rewrite (proj2 (Z.leb_le _ _)) by lia. cbn [negb].
    destruct (Hall i ltac:(lia)) as [us ->]. rewrite Z.mod_small by lia.
    replace (i + Z.of_nat (S n)) with (i + 1 + Z.of_nat n) in * by lia.
    apply IH; try lia; [|done]. intros j Hj. apply Hall. lia.
Qed.

(** A run of indexes that are all present is no longer than the map. *)
Lemma run_length (chunks : chunk_map) (n : nat) :
  (∀ j, 0 <= j < Z.of_nat n → is_Some (chunks !! j)) → (n <= size chunks)%nat.
Proof.
  intros Hall. rewrite <- size_dom.
  assert (list_to_set (seqZ 0 (Z.of_nat n)) ⊆ dom chunks) as Hsub.
  { intros j Hj%elem_of_list_to_set%elem_of_seqZ. apply elem_of_dom, Hall. lia. }
  apply subseteq_size in Hsub. rewrite size_list_to_set, length_seqZ in Hsub by apply NoDup_seqZ. lia.
Qed.

Definition all_present (chunks : chunk_map) (last : Z) : Prop :=
  ∀ i, 0 <= i <= last → is_Some (chunks !! i).

(** Either every index up to the last one is present, or there is a first
    index that is not. *)
Lemma first_missing (chunks : chunk_map) (last : Z) : 0 <= last →
  all_present chunks last ∨
  ∃ n, Z.of_nat n <= last ∧ (∀ j, 0 <= j < Z.of_nat n → is_Some (chunks !! j)) ∧ chunks !! Z.of_nat n = None.
Proof.
  intros Hl. assert (∀ m, (∀ j, 0 <= j < Z.of_nat m → is_Some (chunks !! j)) ∨
    ∃ n, Z.of_nat n < Z.of_nat m ∧ (∀ j, 0 <= j < Z.of_nat n → is_Some (chunks !! j)) ∧
         chunks !! Z.of_nat n = None) as Hm.
  { induction m as [|m [IH|(n & Hn & Hr)]]; [left; lia| |right; exists n; split; [lia|done]].
    destruct (chunks !! Z.of_nat m) eqn:Hc; [left|right; exists m; split; [lia|done]].
    intros j Hj. destruct (decide (j = Z.of_nat m)) as [->|]; [by rewrite Hc|apply IH; lia]. }
  destruct (Hm (Z.to_nat (last + 1))) as [Hall|(n & Hn & Hr)]; [left|right; exists n; split; [lia|done]].
  intros i Hi. apply Hall. lia.
Qed.

(** The users of the chunks [0 .. last] in index order. *)
Definition in_order (f : Z → list (option User)) (last : Z) : list (option User) :=
  mjoin (f <$> seqZ 0 (last + 1)).

Lemma assemble_spec (chunks : chunk_map) (last : Z) :
  0 <= last < 2 ^ 64 → Z.of_nat (size chunks) < 2 ^ 64 →
  (all_present chunks last ∧
   assemble (size chunks) chunks last 0 [] = Ok (in_order (λ i, default [] (chunks !! i)) last)) ∨
  (∃ i, 0 <= i <= last ∧ chunks !! i = None ∧
   assemble (size chunks) chunks last 0 [] = Err (missing_chunk i)).
Proof.
  intros Hl Hs. destruct (first_missing chunks last ltac:(lia)) as [Hall|(n & Hn & Hr & Hno)].
  - left. split; [done|]. pose proof (run_length chunks (Z.to_nat (last + 1))) as Hle.
    assert (Z.to_nat (last + 1) <= size chunks)%nat as Hfuel by (apply Hle; intros j ?; apply Hall; lia).
    pose proof (assemble_all (Z.to_nat (last + 1)) (size chunks) chunks 0 [] Hfuel) as Ha.
    rewrite Z2Nat.id in Ha by lia. replace (0 + (last + 1) - 1) with last in Ha by lia.
    rewrite Ha; [done|lia|lia|]. intros j Hj. apply Hall. lia.
  - right. exists (Z.of_nat n). split_and!; [lia|lia|done|].
    apply (assemble_missing n _ chunks last 0 []); try lia; [by apply run_length|done..].
Qed.

(** What the receiving loops hold after some chunks. *)
Lemma receive_all cs : 
  foldl receive nothing_received cs =
  mkReceived (foldl add_chunk ∅ cs)
    (foldl (λ l c, if UsersChunk_Last c then UsersChunk_Index c else l) 0 cs)
    (existsb UsersChunk_Last cs).
Proof.
  induction cs as [|c cs IH] using rev_ind; [done|].
  by rewrite !foldl_app, IH, existsb_app; cbn; rewrite orb_false_r.
Qed.

Lemma add_chunks_size cs : (size (foldl add_chunk ∅ cs) <= length cs)%nat.
Proof.
  induction cs as [|c cs IH] using rev_ind; [done|]. rewrite foldl_app, length_app. cbn.
  unfold add_chunk at 1. destruct (foldl add_chunk ∅ cs !! UsersChunk_Index c) eqn:Hc.
  - rewrite map_size_insert_Some by done. lia.
  - rewrite map_size_insert_None by done. lia.
Qed.

(** ** Properties *)

(** C14: whatever order the chunks of an upload arrive in, once the chunk marked
    last has come with index n the users are those of the chunks 0 to n in
    index order, when every index is present and there is a user; otherwise
    the upload is refused, and a missing index is named. *)
Theorem chunked_upload_reassembles (cs : list UsersChunk) (final : UsersChunk)
    (Hcs : Forall (λ c, UsersChunk_Last c = false) cs) (Hfinal : UsersChunk_Last final = true)
    (Hn : 0 <= UsersChunk_Index final < 2 ^ 64) (Hlen : Z.of_nat (length cs) < 2 ^ 64 - 1) :
  let all := cs ++ [final] in
  let r := foldl receive nothing_received all in
  let n := UsersChunk_Index final in
  let complete := ∀ i, 0 <= i <= n → i ∈ UsersChunk_Index <$> all in
  match BuildUsersFromChunks (rc_chunks r) (rc_last r) (rc_saw r) with
  | Ok users => complete ∧ users = in_order (users_at all) n ∧ users ≠ []
  | Err e =>
      (∃ i, 0 <= i <= n ∧ i ∉ UsersChunk_Index <$> all ∧ e = missing_chunk i) ∨
      (complete ∧ in_order (users_at all) n = [] ∧ e = errors_New "no users received")
  end.
Proof.
  intros all r n complete.
  assert (∀ i, rc_chunks r !! i =
    if bool_decide (i ∈ UsersChunk_Index <$> all) then Some (users_at all i) else None) as Hlook.
  { intros i. unfold r. rewrite receive_all. cbn [rc_chunks]. rewrite add_chunks_lookup.
    by rewrite lookup_empty. }
  assert (rc_last r = n ∧ rc_saw r = true) as [-> ->].
  { unfold r, all. rewrite receive_all. cbn [rc_last rc_saw]. rewrite foldl_app, existsb_app. cbn. rewrite Hfinal. split; [done|].
    by rewrite orb_true_r. }
  assert (Z.of_nat (size (rc_chunks r)) < 2 ^ 64) as Hsize.
  { unfold r. rewrite receive_all. cbn [rc_chunks]. pose proof (add_chunks_size all) as Hs.
    assert (length all = length cs + 1)%nat as Hal by (unfold all; by rewrite length_app). lia. }
  assert (∀ i, is_Some (rc_chunks r !! i) ↔ i ∈ UsersChunk_Index <$> all) as Hpres.
  { intros i. rewrite Hlook. case_bool_decide as Hi; [naive_solver|].
    split; [intros [? ?]; done|done]. }
  unfold BuildUsersFromChunks. cbn [negb].
  destruct (assemble_spec (rc_chunks r) n Hn Hsize) as [[Hall ->]|(i & Hi & Hno & ->)].
  - assert (complete) as Hc by (intros i Hi; apply Hpres, Hall, Hi).
    replace (in_order (λ i, default [] (rc_chunks r !! i)) n) with (in_order (users_at all) n).
    2: { unfold in_order. f_equal. apply list_fmap_ext. intros j i Hi. rewrite Hlook.
         apply list_elem_of_lookup_2, elem_of_seqZ in Hi. by rewrite bool_decide_eq_true_2 by (apply Hc; lia). }
    destruct (in_order (users_at all) n) eqn:He; [right; done|done].
  - left. exists i. split_and!; [lia|lia| |done]. rewrite <- Hpres, Hno. by intros [? ?].
Qed.

Lemma chunked_upload_reassembles_witness :
  let u e := Some {| User_Email := e; User_Proxies := None; User_Inbounds := [] |} in
  let c i us l := {| UsersChunk_Users := us; UsersChunk_Index := i; UsersChunk_Last := l |} in
  let all := [c 1 [u "c"] false; c 0 [u "a"] false; c 0 [u "b"] false] ++ [c 2 [u "d"] true] in
  let r := foldl receive nothing_received all in
  BuildUsersFromChunks (rc_chunks r) (rc_last r) (rc_saw r) = Ok [u "a"; u "b"; u "c"; u "d"] ∧
  [u "a"; u "b"; u "c"; u "d"] = in_order (users_at all) 2.
Proof.
  intros u c all r.
  pose proof (chunked_upload_reassembles [c 1 [u "c"] false; c 0 [u "a"] false; c 0 [u "b"] false]
    (c 2 [u "d"] true) ltac:(repeat constructor) eq_refl ltac:(cbn; lia) ltac:(cbn; lia)) as Ht.
  assert (BuildUsersFromChunks (rc_chunks r) (rc_last r) (rc_saw r) = Ok [u "a"; u "b"; u "c"; u "d"]) as He
    by (vm_compute; reflexivity).
  split; [exact He|]. cbv zeta in Ht. fold all in Ht. fold r in Ht. rewrite He in Ht. exact (proj1 (proj2 Ht)).
Defined.
