(* ===== verification/Controller.v ===== *)
(** * The controller ([src/controller/controller.go], [src/pkg/netutil])

    The object both servers embed: it owns the current backend, the two ports
    it hands to an Xray backend, the time of the last request and the
    background jobs of the current session.  Its methods run against a world
    [Wd] of backends (the class [Backends]); [time.Now], the random source and
    the ports that are free are arguments.  Every method below is the critical
    section its Go text takes under [c.mu]; [Disconnect], which releases the
    lock half way, is given in its four sections, which Control.v interleaves
    with the other threads. *)

From S2P Require Import Prelude Messages NodeConfig Backends.

#[local] Open Scope Z_scope.

(** ** Free ports (netutil.go) *)

Fixpoint find_port (fuel : nat) (isPortFree : Z → bool) (port : Z) : Z :=
  match fuel with
  | O => port
  | S fuel => if isPortFree port then port else find_port fuel isPortFree (port + 1)
  end.

(** [rand.Intn(50000)] gives [rnd]; the loop ends at port 65536 at the latest. *)
Definition FindFreePort (isPortFree : Z → bool) (rnd : Z) : Z :=
  let apiPort := rnd + 10000 in
  find_port (Z.to_nat (65536 - apiPort)) isPortFree apiPort.

(** ** State *)

(** What a [go] statement of [Connect] leaves running, with its context. *)
Inductive job := RecordSystemStats (ctx : nat) | KeepAliveTracker (ctx : nat) (keepAlive : Z).

#[export] Instance job_eq_dec : EqDecision job.
Proof. solve_decision. Defined.

Section Controller.
Context {UUID B Wd : Type} `{!Backends B Wd}.
Notation NodeConfig := (@NodeConfig UUID).

(** [cancelFunc] is the context it cancels; contexts are numbered in the order
    [context.WithCancel] makes them. *)
Record Controller := mkController {
  c_backend : option B;
  c_cfg : NodeConfig;
  c_apiPort : Z;
  c_metricPort : Z;
  c_lastRequest : Z;
  c_stats : option SystemStatsResponse;
  c_cancelFunc : nat;
  c_cancelled : gset nat;
  c_jobs : list job
}.

(** The controller and the backends. *)
Definition CS : Type := Controller * Wd.

Definition NodeVersion : string := "0.6.0".

Definition set_backend (b : option B) (c : Controller) : Controller :=
  mkController b (c_cfg c) (c_apiPort c) (c_metricPort c) (c_lastRequest c) (c_stats c)
    (c_cancelFunc c) (c_cancelled c) (c_jobs c).
Definition set_lastRequest (now : Z) (c : Controller) : Controller :=
  mkController (c_backend c) (c_cfg c) (c_apiPort c) (c_metricPort c) now (c_stats c)
    (c_cancelFunc c) (c_cancelled c) (c_jobs c).
Definition set_ports (api metric : Z) (c : Controller) : Controller :=
  mkController (c_backend c) (c_cfg c) api metric (c_lastRequest c) (c_stats c)
    (c_cancelFunc c) (c_cancelled c) (c_jobs c).
Definition set_stats (st : option SystemStatsResponse) (c : Controller) : Controller :=
  mkController (c_backend c) (c_cfg c) (c_apiPort c) (c_metricPort c) (c_lastRequest c) st
    (c_cancelFunc c) (c_cancelled c) (c_jobs c).
Definition set_session (ctx : nat) (cancelled : gset nat) (jobs : list job) (c : Controller)
    : Controller :=
  mkController (c_backend c) (c_cfg c) (c_apiPort c) (c_metricPort c) (c_lastRequest c) (c_stats c)
    ctx cancelled jobs.

Definition modify_c (f : Controller → Controller) : eff CS unit := modify (λ s, (f s.1, s.2)).

(** A method of a backend, run from the controller. *)
Definition backend {A} (m : eff Wd A) : eff CS A := on snd (λ w s, (s.1, w)) m.

(** ** Methods *)

(** [New]: the context it makes is cancelled by no one. *)
Definition Controller_New (cfg : NodeConfig) (isPortFree : Z → bool) (rnd1 rnd2 : Z) : Controller :=
  mkController None cfg (FindFreePort isPortFree rnd1) (FindFreePort isPortFree rnd2) 0 None 0 ∅ [].

Definition Controller_ApiKey (c : Controller) : UUID := ApiKey (c_cfg c).

Definition Controller_Backend (c : Controller) : option B := c_backend c.

(** The [keepAlive] parameter is a uint64; the product of durations wraps. *)
Definition Controller_Connect (now keepAlive : Z) (c : Controller) : Controller :=
  let cancelled := {[ c_cancelFunc c ]} ∪ c_cancelled c in
  let ctx := S (c_cancelFunc c) in
  let jobs := c_jobs c ++ [RecordSystemStats ctx] ++
              (if 0 <? keepAlive then [KeepAliveTracker ctx (seconds keepAlive)] else []) in
  set_session ctx cancelled jobs (set_lastRequest now c).

(** The sections of [Disconnect]: cancel the session, read the backend (under
    the lock), shut it down (no lock), forget it and draw new ports (under the
    lock). *)
Definition disconnect_cancel (c : Controller) : Controller :=
  set_session (c_cancelFunc c) ({[ c_cancelFunc c ]} ∪ c_cancelled c) (c_jobs c) c.
Definition disconnect_shutdown (b : option B) (w : Wd) : Wd :=
  match b with Some b => be_Shutdown b w | None => w end.
Definition disconnect_clear (isPortFree : Z → bool) (rnd1 rnd2 : Z) (c : Controller) : Controller :=
  set_ports (FindFreePort isPortFree rnd1) (FindFreePort isPortFree rnd2) (set_backend None c).

Definition Controller_Disconnect (isPortFree : Z → bool) (rnd1 rnd2 : Z) (s : CS) : CS :=
  let c := disconnect_cancel s.1 in
  let backend := c_backend c in
  (disconnect_clear isPortFree rnd1 rnd2 c, disconnect_shutdown backend s.2).

Definition Controller_NewRequest (now : Z) (c : Controller) : Controller := set_lastRequest now c.

Definition Controller_StartBackend (data : Backend) : eff CS unit :=
  s ← get;
  match Backend_Type data with
  | BackendType_XRAY =>
      config ← lift (xray_NewConfig (Backend_Config data) (Backend_ExcludeInbounds data));
      newBackend ← backend (xray_New config (Backend_Users data) (c_apiPort s.1) (c_metricPort s.1));
      modify_c (set_backend (Some newBackend))
  | BackendType_WIREGUARD =>
      config ← lift (wireguard_NewConfig (Backend_Config data));
      newBackend ← backend (wireguard_New config (Backend_Users data));
      modify_c (set_backend (Some newBackend))
  | BackendType_other _ => throw (errors_New "invalid backend type")
  end.

(** One tick of [keepAliveTracker]: is the session to be disconnected? *)
Definition keepAlive_expired (now keepAlive : Z) (c : Controller) : bool :=
  keepAlive <=? now - c_lastRequest c.

(** [collect] of [recordSystemStats], when the sampling succeeds. *)
Definition record_stats (st : SystemStatsResponse) (c : Controller) : Controller :=
  set_stats (Some st) c.

Definition zero_stats : SystemStatsResponse :=
  {| SystemStatsResponse_MemTotal := 0; SystemStatsResponse_MemUsed := 0;
     SystemStatsResponse_CpuCores := 0; SystemStatsResponse_CpuUsage := 0;
     SystemStatsResponse_IncomingBandwidthSpeed := 0;
     SystemStatsResponse_OutgoingBandwidthSpeed := 0; SystemStatsResponse_Uptime := 0 |}.

Definition with_uptime (uptime : Z) (st : SystemStatsResponse) : SystemStatsResponse :=
  {| SystemStatsResponse_MemTotal := SystemStatsResponse_MemTotal st;
     SystemStatsResponse_MemUsed := SystemStatsResponse_MemUsed st;
     SystemStatsResponse_CpuCores := SystemStatsResponse_CpuCores st;
     SystemStatsResponse_CpuUsage := SystemStatsResponse_CpuUsage st;
     SystemStatsResponse_IncomingBandwidthSpeed := SystemStatsResponse_IncomingBandwidthSpeed st;
     SystemStatsResponse_OutgoingBandwidthSpeed := SystemStatsResponse_OutgoingBandwidthSpeed st;
     SystemStatsResponse_Uptime := uptime |}.

(** The last sample, with the backend's own uptime when there is a backend
    that answers. *)
Definition Controller_SystemStats : eff CS SystemStatsResponse := λ s,
  let response := default zero_stats (c_stats s.1) in
  match c_backend s.1 with
  | None => (Ok response, s)
  | Some b =>
      match be_GetSysStats b s.2 with
      | (Err _, w) => (Ok response, (s.1, w))
      | (Ok backendStats, w) =>
          (Ok (with_uptime (BackendStatsResponse_Uptime backendStats) response), (s.1, w))
      end
  end.

Definition Controller_BaseInfoResponse (s : CS) : BaseInfoResponse :=
  match c_backend s.1 with
  | None =>
      {| BaseInfoResponse_Started := false; BaseInfoResponse_CoreVersion := "";
         BaseInfoResponse_NodeVersion := NodeVersion |}
  | Some b =>
      {| BaseInfoResponse_Started := be_Started b s.2;
         BaseInfoResponse_CoreVersion := be_Version b s.2;
         BaseInfoResponse_NodeVersion := NodeVersion |}
  end.

Definition Controller_OutboundsLatency (request : LatencyRequest) : eff CS LatencyResponse := λ s,
  match c_backend s.1 with
  | None => (Ok [], s)
  | Some b => backend (be_GetOutboundsLatency b request) s
  end.

(** [ApplyChunkedUserUpdate]. *)
Definition ApplyChunkedUserUpdate (back : B) (users : list (option User)) : eff CS unit :=
  backend (be_UpdateUsers back users).

(** ** Lemmas *)

Lemma find_port_spec fuel free port :
  port <= find_port fuel free port <= port + Z.of_nat fuel ∧
  (find_port fuel free port < port + Z.of_nat fuel → free (find_port fuel free port) = true).
Proof.
  revert port. induction fuel as [|fuel IH]; intros port; cbn [find_port]; [lia|].
  destruct (free port) eqn:Hf; [split; [lia|done]|].
  destruct (IH (port + 1)) as [Hr Hfree]. split; [lia|]. intros. apply Hfree. lia.
Qed.

Lemma backend_eq {A} (m : eff Wd A) c w : backend m (c, w) = let '(r, w') := m w in (r, (c, w')).
Proof. unfold backend, on. cbn. by destruct (m w). Qed.

(** [StartBackend] either makes a backend and installs it, or changes nothing
    of the controller. *)
Lemma StartBackend_spec data c w :
  match Controller_StartBackend data (c, w) with
  | (Ok _, (c', w')) => ∃ b, c' = set_backend (Some b) c ∧
      ((∃ cfg, xray_New cfg (Backend_Users data) (c_apiPort c) (c_metricPort c) w = (Ok b, w')) ∨
       (∃ cfg, wireguard_New cfg (Backend_Users data) w = (Ok b, w')))
  | (Err _, (c', w')) => c' = c ∧
      (w' = w ∨
       (∃ cfg e, xray_New cfg (Backend_Users data) (c_apiPort c) (c_metricPort c) w = (Err e, w')) ∨
       (∃ cfg e, wireguard_New cfg (Backend_Users data) w = (Err e, w')))
  end.
Proof.
  unfold Controller_StartBackend, get, mbind, eff_bind. cbn [fst snd].
  destruct (Backend_Type data); cbn.
  - destruct (xray_NewConfig _ _) as [cfg|]; [|by auto]. rewrite backend_eq.
    destruct (xray_New _ _ _ _ w) as [[b|e] w'] eqn:He; cbn; [|by eauto 6]. eauto 6.
  - destruct (wireguard_NewConfig _) as [cfg|]; [|by auto]. rewrite backend_eq.
    destruct (wireguard_New _ _ w) as [[b|e] w'] eqn:He; cbn; [|by eauto 6]. eauto 6.
  - by auto.
Qed.

(** With the laws: a successful start starts at most the backend installed, a
    failed one starts none. *)
Lemma StartBackend_starts `{!BackendLaws B Wd} data c w : be_ok w →
  match Controller_StartBackend data (c, w) with
  | (Ok _, (c', w')) => be_ok w' ∧ ∃ b, c' = set_backend (Some b) c ∧
      ∀ b', be_Started b' w' = true → b' = b ∨ be_Started b' w = true
  | (Err _, (c', w')) => be_ok w' ∧ c' = c ∧ starts_none w w'
  end.
Proof.
  intros Hw. pose proof (StartBackend_spec data c w) as Hs.
  pose proof (λ cfg, xray_New_starts cfg (Backend_Users data) (c_apiPort c) (c_metricPort c) w Hw) as Hx.
  pose proof (λ cfg, wireguard_New_starts cfg (Backend_Users data) w Hw) as Hwg.
  destruct (Controller_StartBackend data (c, w)) as [[?|e] [c' w']].
  - destruct Hs as (b & -> & [[cfg Hn]|[cfg Hn]]); [specialize (Hx cfg)|specialize (Hwg cfg)];
      rewrite Hn in *; destruct Hx || destruct Hwg; (split; [done|]); exists b; by split.
  - destruct Hs as (-> & [->|[(cfg & e' & Hn)|(cfg & e' & Hn)]]); [done|specialize (Hx cfg)|specialize (Hwg cfg)];
      rewrite Hn in *; tauto.
Qed.
End Controller.

Arguments Controller : clear implicits.
