(* ===== verification/Rpc.v ===== *)
(** * The gRPC server ([src/controller/rpc])

    The interceptors every call passes through, and one handler per method of
    the node service.  [rpc_call A] lists the methods with their requests;
    [rpc_serve] runs one the way the server does: logging, API key, backend
    status for the methods of [backendMethods], handler.  A stream is the list
    of the messages received and the error that ends it. *)

From S2P Require Import Prelude GoString Helper Messages NodeConfig Backends Chunks Controller.

#[local] Open Scope Z_scope.

(** What a handler reads of its surroundings: the clock, the ports that can be
    bound, and the random source. *)
Record environ := mkEnviron { e_now : Z; e_free : Z → bool; e_rnd1 : Z; e_rnd2 : Z }.

(** What the loop of [GetLogs] meets: a line of the log channel with the
    outcome of sending it, the closing of the channel, the client leaving. *)
Inductive log_event := LogLine (line : string) (sent : option goerr) | LogClosed | ClientGone.

Section Rpc.
Context {UUID B Wd : Type} `{!EqDecision UUID} `{!Backends B Wd} `{Grpc}.
Context (uuid_Parse : string → result UUID).
Notation Controller := (@Controller UUID B).
Notation CS := (@CS UUID B Wd).

(** ** The session check (middleware.go) *)

(** The metadata of a call, when it has any. *)
Definition metadata : Type := option (gmap string (list string)).

Definition rpc_validateApiKey (md : metadata) (c : Controller) : result unit :=
  match md with
  | None => Err (status_Error Unauthenticated "missing metadata")
  | Some md =>
      match md !! "x-api-key" with
      | None | Some [] => Err (status_Error Unauthenticated "missing x-api-key header")
      | Some (apiKeyHeader :: _) =>
          match uuid_Parse apiKeyHeader with
          | Err _ => Err (status_Error InvalidArgument "invalid api key format: must be a valid UUID")
          | Ok key =>
              if bool_decide (key ≠ Controller_ApiKey c)
              then Err (status_Error PermissionDenied "api key mismatch") else Ok ()
          end
      end
  end.

Definition validateApiKeyMiddleware {A} (md : metadata) (handler : eff CS A) : eff CS A := λ s,
  match rpc_validateApiKey md s.1 with
  | Err e => (Err e, s)
  | Ok _ => handler s
  end.

Definition checkBackendStatus (s : CS) : result unit :=
  match Controller_Backend s.1 with
  | None => Err (status_Error Unavailable "backend not initialized")
  | Some back =>
      if negb (be_Started back s.2) then Err (status_Error Unavailable "core is not started yet")
      else Ok ()
  end.

Definition CheckBackendMiddleware {A} (handler : eff CS A) : eff CS A := λ s,
  match checkBackendStatus s with
  | Err e => (Err e, s)
  | Ok _ => handler s
  end.

(** The call is counted as a request when it succeeds. *)
Definition LoggingInterceptor {A} (env : environ) (handler : eff CS A) : eff CS A := λ s,
  match handler s with
  | (Ok a, (c, w)) => (Ok a, (Controller_NewRequest (e_now env) c, w))
  | failed => failed
  end.

Definition backendMethods : list string :=
  ["GetStats"; "GetUserOnlineStats"; "GetUserOnlineIpListStats"; "GetBackendStats";
   "GetSystemStats"; "Stop"; "SyncUser"; "SyncUsers"; "SyncUsersChunked"; "GetLogs";
   "ListRoutingRules"; "GetBalancerInfo"; "TestRoute"; "AddRoutingRule"; "RemoveRoutingRule";
   "OverrideBalancerTarget"].

(** The interceptors are chained outermost first. *)
Definition ConditionalMiddleware {A} (env : environ) (md : metadata) (method : string)
    (handler : eff CS A) : eff CS A :=
  LoggingInterceptor env
    (validateApiKeyMiddleware md
       (if slices_Contains backendMethods method then CheckBackendMiddleware handler else handler)).

(** The same for the methods with a stream, which answer nothing but an error
    (or the message [SendAndClose] sent). *)
Definition validateApiKeyStreamMiddleware {A} (md : metadata) (handler : eff CS A) : eff CS A := λ s,
  match rpc_validateApiKey md s.1 with
  | Err e => (Err e, s)
  | Ok _ => handler s
  end.

Definition CheckBackendStreamMiddleware {A} (handler : eff CS A) : eff CS A := λ s,
  match checkBackendStatus s with
  | Err e => (Err e, s)
  | Ok _ => handler s
  end.

Definition LoggingStreamInterceptor {A} (env : environ) (handler : eff CS A) : eff CS A := λ s,
  match handler s with
  | (Ok a, (c, w)) => (Ok a, (Controller_NewRequest (e_now env) c, w))
  | failed => failed
  end.

Definition ConditionalStreamMiddleware {A} (env : environ) (md : metadata) (method : string)
    (handler : eff CS A) : eff CS A :=
  LoggingStreamInterceptor env
    (validateApiKeyStreamMiddleware md
       (if slices_Contains backendMethods method then CheckBackendStreamMiddleware handler else handler)).

(** ** Sessions (base.go) *)

Definition rpc_disconnect (env : environ) : eff CS unit :=
  modify (Controller_Disconnect (e_free env) (e_rnd1 env) (e_rnd2 env)).

Definition rpc_Start (env : environ) (data : Backend) : eff CS BaseInfoResponse :=
  s ← get;
  _ ← match Controller_Backend s.1 with
      | Some _ => rpc_disconnect env
      | None => mret ()
      end;
  _ ← Controller_StartBackend data;
  _ ← modify_c (Controller_Connect (e_now env) (Backend_KeepAlive data));
  s ← get;
  mret (Controller_BaseInfoResponse s).

Definition rpc_Stop (env : environ) : eff CS unit := rpc_disconnect env.

Definition rpc_GetBaseInfo : eff CS BaseInfoResponse := s ← get; mret (Controller_BaseInfoResponse s).

(** ** Statistics (stats.go) *)

Definition rpc_backend : eff CS B :=
  s ← get;
  match Controller_Backend s.1 with
  | None => throw (status_Error Unavailable "backend not initialized")
  | Some b => mret b
  end.

Definition rpc_GetStats (request : StatRequest) : eff CS StatResponse :=
  b ← rpc_backend; map_err InterceptNotFound (backend (be_GetStats b request)).

Definition rpc_GetUserOnlineStats (request : StatRequest) : eff CS OnlineStatResponse :=
  b ← rpc_backend;
  map_err InterceptNotFound (backend (be_GetUserOnlineStats b (StatRequest_Name request))).

Definition rpc_GetUserOnlineIpListStats (request : StatRequest) : eff CS StatsOnlineIpListResponse :=
  b ← rpc_backend;
  map_err InterceptNotFound (backend (be_GetUserOnlineIpListStats b (StatRequest_Name request))).

Definition rpc_GetBackendStats : eff CS BackendStatsResponse :=
  b ← rpc_backend; backend (be_GetSysStats b).

Definition rpc_GetOutboundsLatency (request : LatencyRequest) : eff CS LatencyResponse :=
  Controller_OutboundsLatency request.

Definition rpc_GetSystemStats : eff CS SystemStatsResponse := Controller_SystemStats.

(** ** Users (user.go) *)

(** The error of [Recv], whatever it is, ends the stream with a reply. *)
Fixpoint rpc_sync_each (b : B) (users : list User) (sendAndClose : result unit) : eff CS unit :=
  match users with
  | [] => lift sendAndClose
  | user :: users =>
      if bool_decide (User_Email user = "") then throw (errors_New "email is required")
      else
        _ ← map_err (λ e, status_Error Internal ("failed to update user: " +:+ err_text e))
              (backend (be_SyncUser b (Some user)));
        rpc_sync_each b users sendAndClose
  end.

Definition rpc_SyncUser (users : list User) (sendAndClose : result unit) : eff CS unit :=
  b ← rpc_backend; rpc_sync_each b users sendAndClose.

Definition rpc_SyncUsers (users : list (option User)) : eff CS unit :=
  b ← rpc_backend; backend (be_SyncUsers b users).

(** The loop reads up to the chunk marked last, or to the end of the stream. *)
Fixpoint rpc_receive (r : received) (chunks : list UsersChunk) (ending : goerr) : result received :=
  match chunks with
  | [] =>
      if errors_Is ending StdEOF then Ok r
      else Err (status_Error Internal ("failed to receive chunk: " +:+ err_text ending))
  | chunk :: chunks =>
      let r := receive r chunk in
      if UsersChunk_Last chunk then Ok r else rpc_receive r chunks ending
  end.

Definition rpc_SyncUsersChunked (chunks : list UsersChunk) (ending : goerr)
    (sendAndClose : result unit) : eff CS unit :=
  r ← lift (rpc_receive nothing_received chunks ending);
  users ← map_err (λ e, status_Error InvalidArgument (err_text e))
            (lift (BuildUsersFromChunks (rc_chunks r) (rc_last r) (rc_saw r)));
  b ← rpc_backend;
  _ ← map_err (λ e, status_Error Internal ("failed to update users: " +:+ err_text e))
        (ApplyChunkedUserUpdate b users);
  lift sendAndClose.

(** ** Logs (log.go) *)

(** The lines sent, and how the loop ends. *)
Fixpoint rpc_log_loop (events : list log_event) : list string * result unit :=
  match events with
  | [] | ClientGone :: _ => ([], Ok ())
  | LogClosed :: _ => ([], Err (errors_New "log channel closed"))
  | LogLine line sent :: events =>
      match sent with
      | Some e => ([], Err (wrapf "failed to send log" e))
      | None => let '(lines, r) := rpc_log_loop events in (line :: lines, r)
      end
  end.

Definition rpc_GetLogs (events : list log_event) : eff CS unit :=
  _ ← rpc_backend; lift (rpc_log_loop events).2.

(** ** Routing (routing.go) *)

Definition no_routing : goerr :=
  status_Error Unimplemented "routing is only supported by the xray backend".

Definition rpc_routingBackend : eff CS (RoutingBackend Wd) :=
  b ← rpc_backend;
  match be_routing b with
  | None => throw no_routing
  | Some rb => mret rb
  end.

Definition rpc_ListRoutingRules : eff CS (list RoutingRule) :=
  rb ← rpc_routingBackend; map_err InterceptNotFound (backend (rb_ListRoutingRules rb)).
Definition rpc_GetBalancerInfo (tag : string) : eff CS BalancerInfoResponse :=
  rb ← rpc_routingBackend; map_err InterceptNotFound (backend (rb_GetBalancerInfo rb tag)).
Definition rpc_TestRoute (request : TestRouteRequest) : eff CS RouteResult :=
  rb ← rpc_routingBackend; map_err InterceptNotFound (backend (rb_TestRoute rb request)).
Definition rpc_AddRoutingRule (request : AddRoutingRuleRequest) : eff CS unit :=
  rb ← rpc_routingBackend;
  backend (rb_AddRoutingRule rb (AddRoutingRuleRequest_Rule request)
             (negb (AddRoutingRuleRequest_ShouldReset request))).
Definition rpc_RemoveRoutingRule (ruleTag : string) : eff CS unit :=
  rb ← rpc_routingBackend; map_err InterceptNotFound (backend (rb_RemoveRoutingRule rb ruleTag)).
Definition rpc_OverrideBalancerTarget (request : OverrideBalancerTargetRequest) : eff CS unit :=
  rb ← rpc_routingBackend;
  map_err InterceptNotFound
    (backend (rb_OverrideBalancerTarget rb (OverrideBalancerTargetRequest_BalancerTag request)
                (OverrideBalancerTargetRequest_Target request))).

(** ** The service *)

Inductive rpc_call : Type → Type :=
  | RpcStart (data : Backend) : rpc_call BaseInfoResponse
  | RpcStop : rpc_call unit
  | RpcGetBaseInfo : rpc_call BaseInfoResponse
  | RpcGetStats (request : StatRequest) : rpc_call StatResponse
  | RpcGetUserOnlineStats (request : StatRequest) : rpc_call OnlineStatResponse
  | RpcGetUserOnlineIpListStats (request : StatRequest) : rpc_call StatsOnlineIpListResponse
  | RpcGetBackendStats : rpc_call BackendStatsResponse
  | RpcGetOutboundsLatency (request : LatencyRequest) : rpc_call LatencyResponse
  | RpcGetSystemStats : rpc_call SystemStatsResponse
  | RpcSyncUser (users : list User) (sendAndClose : result unit) : rpc_call unit
  | RpcSyncUsers (users : list (option User)) : rpc_call unit
  | RpcSyncUsersChunked (chunks : list UsersChunk) (ending : goerr) (sendAndClose : result unit)
      : rpc_call unit
  | RpcGetLogs (events : list log_event) : rpc_call unit
  | RpcListRoutingRules : rpc_call (list RoutingRule)
  | RpcGetBalancerInfo (tag : string) : rpc_call BalancerInfoResponse
  | RpcTestRoute (request : TestRouteRequest) : rpc_call RouteResult
  | RpcAddRoutingRule (request : AddRoutingRuleRequest) : rpc_call unit
  | RpcRemoveRoutingRule (ruleTag : string) : rpc_call unit
  | RpcOverrideBalancerTarget (request : OverrideBalancerTargetRequest) : rpc_call unit.

(** The last part of the full method name. *)
Definition rpc_method {A} (call : rpc_call A) : string :=
  match call with
  | RpcStart _ => "Start" | RpcStop => "Stop" | RpcGetBaseInfo => "GetBaseInfo"
  | RpcGetStats _ => "GetStats" | RpcGetUserOnlineStats _ => "GetUserOnlineStats"
  | RpcGetUserOnlineIpListStats _ => "GetUserOnlineIpListStats"
  | RpcGetBackendStats => "GetBackendStats" | RpcGetOutboundsLatency _ => "GetOutboundsLatency"
  | RpcGetSystemStats => "GetSystemStats" | RpcSyncUser _ _ => "SyncUser"
  | RpcSyncUsers _ => "SyncUsers" | RpcSyncUsersChunked _ _ _ => "SyncUsersChunked"
  | RpcGetLogs _ => "GetLogs" | RpcListRoutingRules => "ListRoutingRules"
  | RpcGetBalancerInfo _ => "GetBalancerInfo" | RpcTestRoute _ => "TestRoute"
  | RpcAddRoutingRule _ => "AddRoutingRule" | RpcRemoveRoutingRule _ => "RemoveRoutingRule"
  | RpcOverrideBalancerTarget _ => "OverrideBalancerTarget"
  end.

Definition rpc_handler {A} (env : environ) (call : rpc_call A) : eff CS A :=
  match call with
  | RpcStart data => rpc_Start env data
  | RpcStop => rpc_Stop env
  | RpcGetBaseInfo => rpc_GetBaseInfo
  | RpcGetStats request => rpc_GetStats request
  | RpcGetUserOnlineStats request => rpc_GetUserOnlineStats request
  | RpcGetUserOnlineIpListStats request => rpc_GetUserOnlineIpListStats request
  | RpcGetBackendStats => rpc_GetBackendStats
  | RpcGetOutboundsLatency request => rpc_GetOutboundsLatency request
  | RpcGetSystemStats => rpc_GetSystemStats
  | RpcSyncUser users reply => rpc_SyncUser users reply
  | RpcSyncUsers users => rpc_SyncUsers users
  | RpcSyncUsersChunked chunks ending reply => rpc_SyncUsersChunked chunks ending reply
  | RpcGetLogs events => rpc_GetLogs events
  | RpcListRoutingRules => rpc_ListRoutingRules
  | RpcGetBalancerInfo tag => rpc_GetBalancerInfo tag
  | RpcTestRoute request => rpc_TestRoute request
  | RpcAddRoutingRule request => rpc_AddRoutingRule request
  | RpcRemoveRoutingRule ruleTag => rpc_RemoveRoutingRule ruleTag
  | RpcOverrideBalancerTarget request => rpc_OverrideBalancerTarget request
  end.

(** The methods with a stream in the service's description. *)
Definition rpc_streams {A} (call : rpc_call A) : bool :=
  match call with RpcSyncUser _ _ | RpcSyncUsersChunked _ _ _ | RpcGetLogs _ => true | _ => false end.

(** The server has one interceptor for each kind of method. *)
Definition rpc_serve {A} (env : environ) (md : metadata) (call : rpc_call A) : eff CS A :=
  if rpc_streams call then ConditionalStreamMiddleware env md (rpc_method call) (rpc_handler env call)
  else ConditionalMiddleware env md (rpc_method call) (rpc_handler env call).

(** ** Lemmas *)

(** The two chains of interceptors let the same calls through. *)
Lemma rpc_serve_eq {A} env md (call : rpc_call A) :
  rpc_serve env md call = ConditionalMiddleware env md (rpc_method call) (rpc_handler env call).
Proof. unfold rpc_serve. by destruct (rpc_streams call). Qed.

(** A session is valid when the first x-api-key of the metadata parses to the
    configured key. *)
Definition rpc_authorized (md : metadata) (c : Controller) : Prop :=
  ∃ m header rest, md = Some m ∧ m !! "x-api-key" = Some (header :: rest) ∧
    uuid_Parse header = Ok (Controller_ApiKey c).

Lemma rpc_validateApiKey_spec md c :
  match rpc_validateApiKey md c with
  | Ok _ => rpc_authorized md c
  | Err e => ¬ rpc_authorized md c ∧
      status_Code e ∈ [Unauthenticated; InvalidArgument; PermissionDenied]
  end.
Proof.
  unfold rpc_validateApiKey, rpc_authorized.
  assert (∀ c' msg, c' ∈ [Unauthenticated; InvalidArgument; PermissionDenied] →
    status_Code (status_Error c' msg) ∈ [Unauthenticated; InvalidArgument; PermissionDenied]) as Hc
    by (intros c' msg Hc; rewrite status_Code_Error; [done|set_solver]).
  repeat case_match; simplify_eq;
    try (split; [intros (? & ? & ? & ? & ? & ?); simplify_eq|apply Hc; set_solver]).
  - eexists _, _, _. split_and!; [done..|]. apply bool_decide_eq_false_1, dec_stable in H5. congruence.
  - apply bool_decide_eq_true_1 in H5. congruence.
  - congruence.
Qed.
End Rpc.

Arguments rpc_call : clear implicits.
