(* ===== verification/Rest.v ===== *)
(** * The HTTP server ([src/controller/rest])

    The router's middleware and one handler per route.  A request is its API
    key header and its body; a reply is what the handler writes.  Message
    decoding ([proto.Unmarshal]) is a parameter.  [rest_serve] runs a route
    the way the router chains its middleware: API key, tracking of successful
    requests, recovery from panics, and the backend check for the private
    routes. *)

From Stdlib Require Import Ascii.
From S2P Require Import Prelude GoString Base64 Helper Messages NodeConfig Backends Chunks Controller Rpc.

#[local] Open Scope Z_scope.

(** ** Requests and replies *)

(** [b_end] is what reading after the last byte reports: [io.EOF] at the
    normal end. *)
Record http_body := mkBody { b_data : string; b_end : goerr }.

Record http_request := mkRequest { r_key : string; r_body : http_body }.

(** A message, an error status with its text, a panic, or a handler that
    returns having written nothing. *)
Inductive http (A : Type) :=
  | HttpOk (a : A)
  | HttpError (code : Z) (text : string)
  | HttpPanic
  | HttpSilent (a : A).
Arguments HttpOk {A} a.
Arguments HttpError {A} code text.
Arguments HttpPanic {A}.
Arguments HttpSilent {A} a.

(** The status the wrapped response writer has seen. *)
Definition http_status {A} (r : http A) : Z :=
  match r with
  | HttpOk _ => 200
  | HttpError code _ => code
  | HttpPanic => 500
  | HttpSilent _ => 0
  end.

(** The messages a body can hold. *)
Class Proto := {
  Unmarshal_Backend : string → result Backend;
  Unmarshal_User : string → result User;
  Unmarshal_Users : string → result (list (option User));
  Unmarshal_UsersChunk : string → result UsersChunk;
  Unmarshal_StatRequest : string → result StatRequest;
  Unmarshal_LatencyRequest : string → result LatencyRequest;
  Unmarshal_BalancerInfoRequest : string → result string;
  Unmarshal_TestRouteRequest : string → result TestRouteRequest;
  Unmarshal_AddRoutingRuleRequest : string → result AddRoutingRuleRequest;
  Unmarshal_RemoveRoutingRuleRequest : string → result string;
  Unmarshal_OverrideBalancerTargetRequest : string → result OverrideBalancerTargetRequest
}.

(** [io.ReadAll]. *)
Definition ReadAll (b : http_body) : result string :=
  if errors_Is (b_end b) StdEOF then Ok (b_data b) else Err (b_end b).

(** [ReadProtoBody]. *)
Definition ReadProtoBody {M} (unmarshal : string → result M) (b : http_body) : result M :=
  match ReadAll b with
  | Err e => Err e
  | Ok data => unmarshal data
  end.

(** ** Length-prefixed chunks *)

Definition io_ErrUnexpectedEOF : goerr := errors_New "unexpected EOF".
Definition varint_overflow : goerr := errors_New "binary: varint overflows a 64-bit integer".

(** [binary.ReadUvarint]: [n] bytes may still follow, [x] has been read, the
    next seven bits have weight [w]; the remaining input is returned. *)
Fixpoint read_uvarint (n : nat) (ending : goerr) (first : bool) (x w : Z) (input : string)
    : result Z * string :=
  match n with
  | O => (Err varint_overflow, input)
  | S n =>
      match input with
      | "" => (Err (if negb first && errors_Is ending StdEOF then io_ErrUnexpectedEOF else ending), "")
      | String a input =>
          let b := byte_of a in
          if b <? 128 then
            if (n =? 0)%nat && (1 <? b) then (Err varint_overflow, input)
            else (Ok (x + b * w), input)
          else read_uvarint n ending false (x + (b - 128) * w) (w * 128) input
      end
  end.
Definition ReadUvarint (ending : goerr) (input : string) : result Z * string :=
  read_uvarint 10 ending true 0 1 input.

(** [io.ReadFull] of [size] bytes. *)
Definition ReadFull (ending : goerr) (size : Z) (input : string) : result string * string :=
  if size <=? Z.of_nat (String.length input)
  then (Ok (take_str (Z.to_nat size) input), drop_str (Z.to_nat size) input)
  else
    (Err (if errors_Is ending StdEOF
          then if bool_decide (input = "") then ending else io_ErrUnexpectedEOF
          else ending), "").

Section Rest.
Context {UUID B Wd : Type} `{!EqDecision UUID} `{!Backends B Wd} `{Grpc} `{Proto}.
Context (uuid_Parse : string → result UUID).
Notation Controller := (@Controller UUID B).
Notation CS := (@CS UUID B Wd).

Definition rest (A : Type) : Type := CS → http A * CS.

(** [http.Error(w, err.Error(), code)], unless the call panicked. *)
Definition http_Error {A} (code : Z) (e : goerr) : http A :=
  if errors_Is e Panicked then HttpPanic else HttpError code (err_text e).

(** A call whose error is answered with [code e]. *)
Definition reply {A} (code : goerr → Z) (m : eff CS A) : rest A := λ s,
  match m s with
  | (Ok a, s') => (HttpOk a, s')
  | (Err e, s') => (http_Error (code e) e, s')
  end.

(** [s.Backend().Method(...)]: a nil backend panics. *)
Definition rest_backend {A} (f : B → rest A) : rest A := λ s,
  match Controller_Backend s.1 with
  | None => (HttpPanic, s)
  | Some b => f b s
  end.

Definition with_body {M A} (unmarshal : string → result M) (b : http_body) (f : M → rest A) : rest A :=
  λ s,
  match ReadProtoBody unmarshal b with
  | Err e => (HttpError 400 (err_text e), s)
  | Ok m => f m s
  end.

(** ** Middleware (middleware.go) *)

Definition rest_validateApiKey {A} (req : http_request) (next : rest A) : rest A := λ s,
  if bool_decide (r_key req = "") then (HttpError 401 "missing x-api-key header", s)
  else
    match uuid_Parse (r_key req) with
    | Err _ => (HttpError 422 "invalid api key format: must be a valid UUID", s)
    | Ok key =>
        if bool_decide (key ≠ Controller_ApiKey s.1) then (HttpError 403 "api key mismatch", s)
        else next s
    end.

Definition checkBackendMiddleware {A} (next : rest A) : rest A := λ s,
  match Controller_Backend s.1 with
  | None => (HttpError 500 "backend not initialized", s)
  | Some back =>
      if negb (be_Started back s.2) then (HttpError 503 "core is not started yet", s) else next s
  end.

Definition trackSuccessfulRequest {A} (env : environ) (next : rest A) : rest A := λ s,
  let '(r, (c, w)) := next s in
  if (200 <=? http_status r) && (http_status r <? 300)
  then (r, (Controller_NewRequest (e_now env) c, w)) else (r, (c, w)).

(** [middleware.Recoverer]. *)
Definition Recoverer {A} (next : rest A) : rest A := λ s,
  match next s with
  | (HttpPanic, s') => (HttpError 500 "", s')
  | r => r
  end.

(** ** Sessions (base.go) *)

Definition rest_Base : rest BaseInfoResponse := λ s, (HttpOk (Controller_BaseInfoResponse s), s).

Definition rest_disconnect (env : environ) (s : CS) : CS :=
  Controller_Disconnect (e_free env) (e_rnd1 env) (e_rnd2 env) s.

Definition rest_Start (env : environ) (b : http_body) : rest BaseInfoResponse :=
  with_body Unmarshal_Backend b (λ data s,
    let s := match Controller_Backend s.1 with Some _ => rest_disconnect env s | None => s end in
    match Controller_StartBackend data s with
    | (Err e, s) => (http_Error 503 e, s)
    | (Ok _, (c, w)) =>
        let s := (Controller_Connect (e_now env) (Backend_KeepAlive data) c, w) in
        (HttpOk (Controller_BaseInfoResponse s), s)
    end).

Definition rest_Stop (env : environ) : rest unit := λ s, (HttpOk (), rest_disconnect env s).

(** ** Statistics (stats.go) *)

Definition grpc_http (e : goerr) : Z := GrpcCodeToHTTP (status_Code e).

Definition rest_GetStats (b : http_body) : rest StatResponse :=
  with_body Unmarshal_StatRequest b (λ request, rest_backend (λ back,
    reply grpc_http (map_err InterceptNotFound (backend (be_GetStats back request))))).

Definition rest_GetUserOnlineStat (b : http_body) : rest OnlineStatResponse :=
  with_body Unmarshal_StatRequest b (λ request, rest_backend (λ back,
    reply grpc_http (map_err InterceptNotFound
      (backend (be_GetUserOnlineStats back (StatRequest_Name request)))))).

Definition rest_GetUserOnlineIpListStats (b : http_body) : rest StatsOnlineIpListResponse :=
  with_body Unmarshal_StatRequest b (λ request, rest_backend (λ back,
    reply grpc_http (map_err InterceptNotFound
      (backend (be_GetUserOnlineIpListStats back (StatRequest_Name request)))))).

Definition rest_GetBackendStats : rest BackendStatsResponse :=
  rest_backend (λ back, reply grpc_http (backend (be_GetSysStats back))).

Definition rest_GetOutboundsLatency (b : http_body) : rest LatencyResponse :=
  with_body Unmarshal_LatencyRequest b (λ request,
    reply (λ _, 502) (Controller_OutboundsLatency request)).

Definition rest_GetSystemStats : rest SystemStatsResponse := reply grpc_http Controller_SystemStats.

(** ** Users (user.go) *)

Definition rest_SyncUser (b : http_body) : rest unit := λ s,
  match ReadAll b with
  | Err _ => (HttpError 400 "Failed to read request body", s)
  | Ok body =>
      match Unmarshal_User body with
      | Err _ => (HttpError 400 "Failed to decode user", s)
      | Ok user =>
          if bool_decide (User_Email user = "") then (HttpError 400 "email is required", s)
          else rest_backend (λ back, reply (λ _, 500) (backend (be_SyncUser back (Some user)))) s
      end
  end.

Definition rest_SyncUsers (b : http_body) : rest unit := λ s,
  match ReadAll b with
  | Err _ => (HttpError 400 "Failed to read request body", s)
  | Ok body =>
      match Unmarshal_Users body with
      | Err _ => (HttpError 400 "Failed to decode user", s)
      | Ok users => rest_backend (λ back, reply (λ _, 500) (backend (be_SyncUsers back users))) s
      end
  end.

(** The longest slice of bytes the allocator of Go's 64-bit platforms can be
    asked for: [make([]byte, size)] panics beyond it.  (A smaller one that the
    machine's memory does not hold ends the program.) *)
Definition maxAlloc : Z := 2 ^ 48.

(** The reading loop.  Every turn consumes at least one byte, so the length of
    the input is fuel enough. *)
Fixpoint rest_receive (fuel : nat) (ending : goerr) (r : received) (input : string) : http received :=
  match fuel with
  | O => HttpPanic
  | S fuel =>
      match ReadUvarint ending input with
      | (Err err, _) =>
          if errors_Is err StdEOF then HttpOk r
          else HttpError 400 ("failed to read chunk length: " +:+ err_text err)
      | (Ok size, input) =>
          if size =? 0 then rest_receive fuel ending r input
          else if maxAlloc <? size then HttpPanic
          else
            match ReadFull ending size input with
            | (Err err, _) => HttpError 400 ("failed to read chunk payload: " +:+ err_text err)
            | (Ok payload, input) =>
                match Unmarshal_UsersChunk payload with
                | Err err => HttpError 400 ("failed to decode chunk: " +:+ err_text err)
                | Ok chunk =>
                    let r := receive r chunk in
                    if UsersChunk_Last chunk then HttpOk r else rest_receive fuel ending r input
                end
            end
      end
  end.

Definition rest_chunks (b : http_body) : http received :=
  rest_receive (S (String.length (b_data b))) (b_end b) nothing_received (b_data b).

Definition rest_SyncUsersChunked (b : http_body) : rest unit := λ s,
  match rest_chunks b with
  | HttpOk r | HttpSilent r =>
      match BuildUsersFromChunks (rc_chunks r) (rc_last r) (rc_saw r) with
      | Err e => (HttpError 400 (err_text e), s)
      | Ok users => rest_backend (λ back, reply (λ _, 500) (ApplyChunkedUserUpdate back users)) s
      end
  | HttpError code text => (HttpError code text, s)
  | HttpPanic => (HttpPanic, s)
  end.

(** ** Logs (log.go) *)

(** The lines written before the loop returns. *)
Fixpoint rest_log_loop (events : list log_event) : list string :=
  match events with
  | LogLine line None :: events => line :: rest_log_loop events
  | _ => []
  end.

Definition rest_GetLogs (flusher : bool) (events : list log_event) : rest (list string) :=
  if negb flusher then λ s, (HttpError 500 "Streaming unsupported", s)
  else rest_backend (λ _ s,
    match rest_log_loop events with
    | [] => (HttpSilent [], s)
    | lines => (HttpOk lines, s)
    end).

(** ** Routing (routing.go) *)

Definition writeRoutingError {A} (err : goerr) : http A :=
  let err := InterceptNotFound err in http_Error (grpc_http err) err.

Definition routing_reply {A} (m : eff Wd A) : rest A := λ s,
  match backend m s with
  | (Ok a, s') => (HttpOk a, s')
  | (Err e, s') => (writeRoutingError e, s')
  end.

(** The type assertion fails on a nil interface too. *)
Definition asRoutingBackend (b : option B) : result (RoutingBackend Wd) :=
  match b ≫= be_routing with Some rb => Ok rb | None => Err no_routing end.

Definition rest_routingBackend {A} (f : RoutingBackend Wd → rest A) : rest A := λ s,
  match asRoutingBackend (Controller_Backend s.1) with
  | Err e => (writeRoutingError e, s)
  | Ok rb => f rb s
  end.

Definition rest_ListRoutingRules : rest (list RoutingRule) :=
  rest_routingBackend (λ rb, routing_reply (rb_ListRoutingRules rb)).
Definition rest_GetBalancerInfo (b : http_body) : rest BalancerInfoResponse :=
  rest_routingBackend (λ rb, with_body Unmarshal_BalancerInfoRequest b (λ tag,
    routing_reply (rb_GetBalancerInfo rb tag))).
Definition rest_TestRoute (b : http_body) : rest RouteResult :=
  rest_routingBackend (λ rb, with_body Unmarshal_TestRouteRequest b (λ request,
    routing_reply (rb_TestRoute rb request))).
Definition rest_AddRoutingRule (b : http_body) : rest unit :=
  rest_routingBackend (λ rb, with_body Unmarshal_AddRoutingRuleRequest b (λ request,
    routing_reply (rb_AddRoutingRule rb (AddRoutingRuleRequest_Rule request)
                     (negb (AddRoutingRuleRequest_ShouldReset request))))).
Definition rest_RemoveRoutingRule (b : http_body) : rest unit :=
  rest_routingBackend (λ rb, with_body Unmarshal_RemoveRoutingRuleRequest b (λ ruleTag,
    routing_reply (rb_RemoveRoutingRule rb ruleTag))).
Definition rest_OverrideBalancerTarget (b : http_body) : rest unit :=
  rest_routingBackend (λ rb, with_body Unmarshal_OverrideBalancerTargetRequest b (λ request,
    routing_reply (rb_OverrideBalancerTarget rb (OverrideBalancerTargetRequest_BalancerTag request)
                     (OverrideBalancerTargetRequest_Target request)))).

(** ** The router (service.go) *)

Inductive rest_call : Type → Type :=
  | RestStart : rest_call BaseInfoResponse
  | RestBase : rest_call BaseInfoResponse
  | RestStop : rest_call unit
  | RestGetLogs (flusher : bool) (events : list log_event) : rest_call (list string)
  | RestGetStats : rest_call StatResponse
  | RestGetOutboundsLatency : rest_call LatencyResponse
  | RestGetUserOnlineStat : rest_call OnlineStatResponse
  | RestGetUserOnlineIpListStats : rest_call StatsOnlineIpListResponse
  | RestGetBackendStats : rest_call BackendStatsResponse
  | RestGetSystemStats : rest_call SystemStatsResponse
  | RestSyncUser : rest_call unit
  | RestSyncUsers : rest_call unit
  | RestSyncUsersChunked : rest_call unit
  | RestListRoutingRules : rest_call (list RoutingRule)
  | RestAddRoutingRule : rest_call unit
  | RestRemoveRoutingRule : rest_call unit
  | RestGetBalancerInfo : rest_call BalancerInfoResponse
  | RestOverrideBalancerTarget : rest_call unit
  | RestTestRoute : rest_call RouteResult.

(** The method and path of each route. *)
Definition rest_route {A} (call : rest_call A) : string * string :=
  match call with
  | RestStart => ("POST", "/start") | RestBase => ("GET", "/info") | RestStop => ("PUT", "/stop")
  | RestGetLogs _ _ => ("GET", "/logs") | RestGetStats => ("GET", "/stats/")
  | RestGetOutboundsLatency => ("GET", "/stats/latency")
  | RestGetUserOnlineStat => ("GET", "/stats/user/online")
  | RestGetUserOnlineIpListStats => ("GET", "/stats/user/online_ip")
  | RestGetBackendStats => ("GET", "/stats/backend") | RestGetSystemStats => ("GET", "/stats/system")
  | RestSyncUser => ("PUT", "/user/sync") | RestSyncUsers => ("PUT", "/users/sync")
  | RestSyncUsersChunked => ("PUT", "/users/sync/chunked")
  | RestListRoutingRules => ("GET", "/routing/rules") | RestAddRoutingRule => ("PUT", "/routing/rules")
  | RestRemoveRoutingRule => ("DELETE", "/routing/rules")
  | RestGetBalancerInfo => ("POST", "/routing/balancer")
  | RestOverrideBalancerTarget => ("PUT", "/routing/balancer/override")
  | RestTestRoute => ("POST", "/routing/test")
  end.

(** All routes but these two are behind [checkBackendMiddleware]. *)
Definition rest_private {A} (call : rest_call A) : bool :=
  match call with RestStart | RestBase => false | _ => true end.

Definition rest_handler {A} (env : environ) (b : http_body) (call : rest_call A) : rest A :=
  match call with
  | RestStart => rest_Start env b
  | RestBase => rest_Base
  | RestStop => rest_Stop env
  | RestGetLogs flusher events => rest_GetLogs flusher events
  | RestGetStats => rest_GetStats b
  | RestGetOutboundsLatency => rest_GetOutboundsLatency b
  | RestGetUserOnlineStat => rest_GetUserOnlineStat b
  | RestGetUserOnlineIpListStats => rest_GetUserOnlineIpListStats b
  | RestGetBackendStats => rest_GetBackendStats
  | RestGetSystemStats => rest_GetSystemStats
  | RestSyncUser => rest_SyncUser b
  | RestSyncUsers => rest_SyncUsers b
  | RestSyncUsersChunked => rest_SyncUsersChunked b
  | RestListRoutingRules => rest_ListRoutingRules
  | RestAddRoutingRule => rest_AddRoutingRule b
  | RestRemoveRoutingRule => rest_RemoveRoutingRule b
  | RestGetBalancerInfo => rest_GetBalancerInfo b
  | RestOverrideBalancerTarget => rest_OverrideBalancerTarget b
  | RestTestRoute => rest_TestRoute b
  end.

Definition rest_serve {A} (env : environ) (req : http_request) (call : rest_call A) : rest A :=
  rest_validateApiKey req
    (trackSuccessfulRequest env
       (Recoverer
          (let next := rest_handler env (r_body req) call in
           if rest_private call then checkBackendMiddleware next else next))).
End Rest.

Arguments rest_call : clear implicits.
