(* ===== verification/NodeToy.v ===== *)
(** * A concrete node for witnesses

    Instances of the interfaces the servers use: gRPC statuses as numbers in
    the error chain, backends as numbered objects that run until they are shut
    down, one-line message decoders, API keys as strings. *)

From S2P Require Import Prelude GoString Helper Messages NodeConfig Backends Chunks Controller Rpc Rest.

#[local] Open Scope Z_scope.

(** ** Statuses *)

Definition code_num (c : Code) : Z :=
  match c with
  | codes_OK => 0 | Canceled => 1 | Unknown => 2 | InvalidArgument => 3 | DeadlineExceeded => 4
  | NotFound => 5 | AlreadyExists => 6 | PermissionDenied => 7 | ResourceExhausted => 8
  | FailedPrecondition => 9 | Aborted => 10 | OutOfRange => 11 | Unimplemented => 12 | Internal => 13
  | Unavailable => 14 | DataLoss => 15 | Unauthenticated => 16
  end.

Definition all_codes : list Code :=
  [codes_OK; Canceled; Unknown; InvalidArgument; DeadlineExceeded; NotFound; AlreadyExists;
   PermissionDenied; ResourceExhausted; FailedPrecondition; Aborted; OutOfRange; Unimplemented;
   Internal; Unavailable; DataLoss; Unauthenticated].

Fixpoint chain_code (l : list sentinel) : Code :=
  match l with
  | [] => Unknown
  | GrpcStatus n :: _ =>
      match all_codes !! Z.to_nat n with
      | None | Some codes_OK => Unknown
      | Some c => c
      end
  | _ :: l => chain_code l
  end.

Definition toy_status (c : Code) (msg : string) : goerr :=
  GoErr ("rpc error: code = " +:+ Itoa (code_num c) +:+ " desc = " +:+ msg) [GrpcStatus (code_num c)].

#[export, refine] Instance toy_grpc : Grpc :=
  {| status_Error := toy_status; status_Code e := chain_code (err_chain e) |}.
Proof.
  - by intros [] msg Hc.
  - intros e. induction (err_chain e) as [|s l IH]; [done|]. destruct s; try apply IH.
    cbn [chain_code]. by repeat case_match.
  - intros e He. induction (err_chain e) as [|s l IH]; [done|].
    destruct s; try (apply IH; intros n Hn; apply (He n); set_solver). exfalso. apply (He code). set_solver.
  - intros c msg. unfold toy_status. cbn [err_text].
    exists ("rpc error: code = " +:+ Itoa (code_num c) +:+ " desc = ").
    by rewrite !(string_app_assoc _ _ msg).
Defined.

(** ** Backends *)

Record toy_world := mkToy {
  tw_next : nat;
  tw_running : gset nat;
  tw_users : gmap nat (list (option User))
}.

Definition toy_start (w : toy_world) (users : list (option User)) : result nat * toy_world :=
  (Ok (tw_next w),
   mkToy (S (tw_next w)) ({[ tw_next w ]} ∪ tw_running w) (<[tw_next w := users]> (tw_users w))).

Definition toy_set_users (b : nat) (users : list (option User)) : eff toy_world unit := λ w,
  (Ok (), mkToy (tw_next w) (tw_running w) (<[b := users]> (tw_users w))).

Definition toy_no_stats : BackendStatsResponse :=
  {| BackendStatsResponse_NumGoroutine := 1; BackendStatsResponse_NumGc := 0;
     BackendStatsResponse_Alloc := 0; BackendStatsResponse_TotalAlloc := 0;
     BackendStatsResponse_Sys := 0; BackendStatsResponse_Mallocs := 0;
     BackendStatsResponse_Frees := 0; BackendStatsResponse_LiveObjects := 0;
     BackendStatsResponse_PauseTotalNs := 0; BackendStatsResponse_Uptime := 7 |}.

Definition toy_routing : RoutingBackend toy_world :=
  {| rb_ListRoutingRules := mret [{| RoutingRule_OutboundTag := "direct"; RoutingRule_RuleTag := "r" |}];
     rb_GetBalancerInfo tag := throw (errors_New ("balancer " +:+ tag +:+ " not found."));
     rb_TestRoute _ := throw (errors_New "no route");
     rb_AddRoutingRule _ _ := throw (errors_New "outbound not found.");
     rb_RemoveRoutingRule _ := mret ();
     rb_OverrideBalancerTarget _ _ := mret () |}.

#[export] Instance toy_backends : Backends nat toy_world := {|
  be_Started b w := bool_decide (b ∈ tw_running w);
  be_Version _ _ := "toy";
  be_Shutdown b w := mkToy (tw_next w) (tw_running w ∖ {[ b ]}) (tw_users w);
  be_SyncUser b u := toy_set_users b [u];
  be_SyncUsers := toy_set_users;
  be_UpdateUsers := toy_set_users;
  be_GetSysStats _ := mret toy_no_stats;
  be_GetStats _ r := throw (errors_New (StatRequest_Name r +:+ " not found."));
  be_GetOutboundsLatency _ _ := mret [];
  be_GetUserOnlineStats _ email :=
    mret {| OnlineStatResponse_Name := email; OnlineStatResponse_Value := 1 |};
  be_GetUserOnlineIpListStats _ email := throw (errors_New "not available");
  be_routing _ := Some toy_routing;
  XrayConfig := string;
  xray_NewConfig c _ := if bool_decide (c = "") then Err (errors_New "empty config") else Ok c;
  xray_New _ users _ _ w := toy_start w users;
  WireguardConfig := string;
  wireguard_NewConfig c := Ok c;
  wireguard_New _ users w := toy_start w users
|}.

#[export, refine] Instance toy_laws : BackendLaws nat toy_world := {| be_ok _ := True |}.
Proof.
  - done.
  - intros b w _. apply bool_decide_eq_false_2. set_solver.
  - intros b w _ b'. cbn. rewrite !bool_decide_eq_true. set_solver.
  - intros cfg users p q w _. cbn. split; [done|]. intros b'. rewrite !bool_decide_eq_true. set_solver.
  - intros cfg users w _. cbn. split; [done|]. intros b'. rewrite !bool_decide_eq_true. set_solver.
Defined.

(** ** Messages and keys *)

Definition toy_chunk (s : string) : result UsersChunk :=
  match s with
  | String i (String l rest) =>
      Ok {| UsersChunk_Users :=
              [Some {| User_Email := rest; User_Proxies := None; User_Inbounds := [] |}];
            UsersChunk_Index := Base64.byte_of i - 48; UsersChunk_Last := bool_decide (String l "" = "L") |}
  | _ => Err (errors_New "short chunk")
  end.

#[export] Instance toy_proto : Proto := {|
  Unmarshal_Backend s :=
    Ok {| Backend_Type := BackendType_XRAY; Backend_Config := s; Backend_Users := [];
          Backend_KeepAlive := 0; Backend_ExcludeInbounds := [] |};
  Unmarshal_User s := Ok {| User_Email := s; User_Proxies := None; User_Inbounds := [] |};
  Unmarshal_Users s :=
    Ok [Some {| User_Email := s; User_Proxies := None; User_Inbounds := [] |}];
  Unmarshal_UsersChunk := toy_chunk;
  Unmarshal_StatRequest s :=
    Ok {| StatRequest_Name := s; StatRequest_Reset := false; StatRequest_Type := StatType_UserStat |};
  Unmarshal_LatencyRequest s := Ok s;
  Unmarshal_BalancerInfoRequest s := Ok s;
  Unmarshal_TestRouteRequest s := Err (errors_New "cannot parse");
  Unmarshal_AddRoutingRuleRequest s :=
    Ok {| AddRoutingRuleRequest_Rule := s; AddRoutingRuleRequest_ShouldReset := false |};
  Unmarshal_RemoveRoutingRuleRequest s := Ok s;
  Unmarshal_OverrideBalancerTargetRequest s :=
    Ok {| OverrideBalancerTargetRequest_BalancerTag := s; OverrideBalancerTargetRequest_Target := s |}
|}.

Definition toy_uuid (s : string) : result string :=
  if bool_decide (s = "bad") then Err (errors_New "invalid UUID") else Ok s.

Definition EOF_body (s : string) : http_body := mkBody s (GoErr "EOF" [StdEOF]).

Definition toy_env (now : Z) : environ := mkEnviron now (λ p, Z.even p) 1 2.

Definition toy_node_config : @NodeConfig string :=
  NodeConfig.Load "" toy_uuid {[ "API_KEY" := "secret" ]}.

Definition toy_idle : @CS string nat toy_world :=
  (Controller_New toy_node_config (λ _, true) 1 2, mkToy 0 ∅ ∅).

Definition toy_md (key : string) : metadata := Some {[ "x-api-key" := [key] ]}.

Definition toy_backend_msg (keepAlive : Z) : Backend :=
  {| Backend_Type := BackendType_XRAY; Backend_Config := "{}"; Backend_Users := [];
     Backend_KeepAlive := keepAlive; Backend_ExcludeInbounds := [] |}.

(** A node on which a client has started a backend. *)
Definition toy_running : @CS string nat toy_world :=
  (rpc_serve toy_uuid (toy_env 5) (toy_md "secret") (RpcStart (toy_backend_msg 0)) toy_idle).2.
