(* ===== verification/Servers.v ===== *)
(** * The two servers: access control, agreement, chunk framing

    Theorems about Rpc.v and Rest.v: no call has an effect without the API key
    and, where the code asks for it, a running backend; the HTTP routes answer
    what the gRPC methods answer, with the status [GrpcCodeToHTTP] gives; the
    length-prefixed chunk stream of the HTTP upload decodes to the chunks that
    were framed. *)

From Stdlib Require Import Ascii.
From S2P Require Import Prelude GoString Base64 Helper Messages NodeConfig Backends Chunks Controller Rpc Rest NodeToy.

#[local] Open Scope Z_scope.

Section Servers.
Context {UUID B Wd : Type} `{!EqDecision UUID} `{!Backends B Wd} `{Grpc} `{Proto}.
Context (uuid_Parse : string → result UUID).
Notation Controller := (@Controller UUID B).
Notation CS := (@CS UUID B Wd).

(** ** Access control *)

Definition running (s : CS) : Prop :=
  ∃ b, Controller_Backend s.1 = Some b ∧ be_Started b s.2 = true.

Definition rest_authorized (req : http_request) (c : Controller) : Prop :=
  r_key req ≠ "" ∧ uuid_Parse (r_key req) = Ok (Controller_ApiKey c).

Lemma checkBackendStatus_spec s :
  match checkBackendStatus s with
  | Ok _ => running s
  | Err e => ¬ running s ∧ status_Code e = Unavailable
  end.
Proof.
  unfold checkBackendStatus, running. destruct (Controller_Backend s.1) as [b|]; cbn.
  - destruct (be_Started b s.2) eqn:Hs; cbn; [eauto|].
    rewrite status_Code_Error by done. split; [|done]. intros (b' & [= <-] & ?). congruence.
  - rewrite status_Code_Error by done. split; [|done]. by intros (b' & ? & _).
Qed.

(** What the interceptors let through. *)
Lemma middleware_cases {A} env md method (h : eff CS A) s :
  (∃ e, ConditionalMiddleware uuid_Parse env md method h s = (Err e, s) ∧
     (rpc_authorized uuid_Parse md s.1 → method ∈ backendMethods ∧ ¬ running s)) ∨
  rpc_authorized uuid_Parse md s.1 ∧ (method ∈ backendMethods → running s) ∧
  ConditionalMiddleware uuid_Parse env md method h s = LoggingInterceptor env h s.
Proof.
  unfold ConditionalMiddleware, LoggingInterceptor at 1 2, validateApiKeyMiddleware.
  pose proof (rpc_validateApiKey_spec uuid_Parse md s.1) as Ha.
  destruct (rpc_validateApiKey _ md s.1); [|left; eexists; split; [done|by intros ?%Ha]].
  destruct (slices_Contains backendMethods method) eqn:Hm.
  - unfold CheckBackendMiddleware. pose proof (checkBackendStatus_spec s) as Hb. apply slices_Contains_true in Hm.
    destruct (checkBackendStatus s); [right; split_and!; [done..|]|left; eexists; split; [done|by destruct Hb]].
    by unfold LoggingInterceptor.
  - right. split_and!; [done| |by unfold LoggingInterceptor].
    apply slices_Contains_false in Hm. done.
Qed.

Lemma rest_gate_cases {A} env req (call : rest_call A) s :
  (∃ code text, rest_serve uuid_Parse env req call s = (HttpError code text, s) ∧
     (rest_authorized req s.1 → rest_private call = true ∧ ¬ running s)) ∨
  rest_authorized req s.1 ∧ (rest_private call = true → running s) ∧
  rest_serve uuid_Parse env req call s =
  trackSuccessfulRequest env (Recoverer (rest_handler env (r_body req) call)) s.
Proof.
  unfold rest_serve, rest_validateApiKey, rest_authorized.
  assert (∀ code text, (¬ (r_key req ≠ "" ∧ uuid_Parse (r_key req) = Ok (Controller_ApiKey s.1))) →
    ∃ code' text', (HttpError (A:=A) code text, s) = (HttpError code' text', s) ∧
      (r_key req ≠ "" ∧ uuid_Parse (r_key req) = Ok (Controller_ApiKey s.1) → rest_private call = true ∧ ¬ running s)) as Hno
    by (intros code text Hn; by exists code, text).
  case_bool_decide; [left; apply Hno; tauto|].
  destruct (uuid_Parse (r_key req)) as [key|]; [|left; apply Hno; naive_solver].
  case_bool_decide; [left; apply Hno; naive_solver|].
  subst key. destruct (rest_private call); [|by right]. unfold checkBackendMiddleware.
  unfold trackSuccessfulRequest at 1 2, Recoverer at 1 2, running.
  destruct (Controller_Backend s.1) as [b|]; [|left; destruct s; eexists _, _; split; [reflexivity|naive_solver]].
  destruct (be_Started b s.2) eqn:Hs; cbn; [|left; destruct s; eexists _, _; split; [reflexivity|]].
  - right. split_and!; eauto.
  - intros _. split; [done|]. intros (b' & [= <-] & ?). congruence.
Qed.

(** And what they do when they let a call through. *)
Lemma middleware_open {A} env md method (h : eff CS A) s :
  rpc_authorized uuid_Parse md s.1 → (method ∈ backendMethods → running s) →
  ConditionalMiddleware uuid_Parse env md method h s = LoggingInterceptor env h s.
Proof.
  intros Ha Hr. unfold ConditionalMiddleware, LoggingInterceptor, validateApiKeyMiddleware.
  pose proof (rpc_validateApiKey_spec uuid_Parse md s.1) as Hv.
  destruct (rpc_validateApiKey _ md s.1); [|by destruct Hv as [[] _]].
  destruct (slices_Contains _ _) eqn:Hm; [|done]. unfold CheckBackendMiddleware. apply slices_Contains_true in Hm.
  pose proof (checkBackendStatus_spec s) as Hb. destruct (checkBackendStatus s); [done|].
  destruct Hb as [[] _]. by apply Hr.
Qed.

Lemma rest_gate_open {A} env req (call : rest_call A) s :
  rest_authorized req s.1 → (rest_private call = true → running s) →
  rest_serve uuid_Parse env req call s =
  trackSuccessfulRequest env (Recoverer (rest_handler env (r_body req) call)) s.
Proof.
  intros [Hne Hk] Hrun. unfold rest_serve, rest_validateApiKey.
  rewrite bool_decide_eq_false_2, Hk by done. rewrite bool_decide_eq_false_2 by (intros Hn; by apply Hn).
  destruct (rest_private call); [|done]. destruct (Hrun eq_refl) as (b & Hb & Hs).
  unfold trackSuccessfulRequest, Recoverer, checkBackendMiddleware. by rewrite Hb, Hs.
Qed.

(** And when there is no backend, or it does not run. *)
Lemma middleware_closed {A} env md method (h : eff CS A) s :
  rpc_authorized uuid_Parse md s.1 → method ∈ backendMethods → ¬ running s →
  ∃ e, ConditionalMiddleware uuid_Parse env md method h s = (Err e, s) ∧ status_Code e = Unavailable.
Proof.
  intros Ha Hm Hn. unfold ConditionalMiddleware, LoggingInterceptor, validateApiKeyMiddleware.
  pose proof (rpc_validateApiKey_spec uuid_Parse md s.1) as Hv.
  destruct (rpc_validateApiKey _ md s.1); [|by destruct Hv as [[] _]].
  apply slices_Contains_true in Hm. rewrite Hm. unfold CheckBackendMiddleware.
  pose proof (checkBackendStatus_spec s) as Hb. destruct (checkBackendStatus s) as [|e]; [done|].
  exists e. split; [done|apply Hb].
Qed.

Lemma rest_gate_closed {A} env req (call : rest_call A) s :
  rest_authorized req s.1 → rest_private call = true → ¬ running s →
  ∃ text, rest_serve uuid_Parse env req call s =
    (HttpError (match Controller_Backend s.1 with None => 500 | Some _ => 503 end) text, s).
Proof.
  intros [Hne Hk] Hp Hn. unfold rest_serve, rest_validateApiKey. rewrite bool_decide_eq_false_2, Hk by done.
  rewrite bool_decide_eq_false_2 by (intros Hn'; by apply Hn'). rewrite Hp.
  unfold trackSuccessfulRequest, Recoverer, checkBackendMiddleware. unfold running in Hn.
  destruct (Controller_Backend s.1) as [b|]; [|destruct s; by eexists].
  destruct (be_Started b s.2) eqn:Hs; [exfalso; apply Hn; by exists b|]. destruct s; by eexists.
Qed.

(** ** Agreement *)

(** A gRPC call and an HTTP request for the same operation.  The calls whose
    answers differ by design (sessions, users, logs, latency) are left out;
    for AddRoutingRule see the end of the file. *)
Inductive same_call (b : http_body) : ∀ A, rpc_call A → rest_call A → Prop :=
  | Same_GetBaseInfo : same_call b _ RpcGetBaseInfo RestBase
  | Same_Stop : same_call b _ RpcStop RestStop
  | Same_GetStats req : ReadProtoBody Unmarshal_StatRequest b = Ok req →
      same_call b _ (RpcGetStats req) RestGetStats
  | Same_GetUserOnlineStats req : ReadProtoBody Unmarshal_StatRequest b = Ok req →
      same_call b _ (RpcGetUserOnlineStats req) RestGetUserOnlineStat
  | Same_GetUserOnlineIpListStats req : ReadProtoBody Unmarshal_StatRequest b = Ok req →
      same_call b _ (RpcGetUserOnlineIpListStats req) RestGetUserOnlineIpListStats
  | Same_GetBackendStats : same_call b _ RpcGetBackendStats RestGetBackendStats
  | Same_GetSystemStats : same_call b _ RpcGetSystemStats RestGetSystemStats
  | Same_ListRoutingRules : same_call b _ RpcListRoutingRules RestListRoutingRules
  | Same_GetBalancerInfo tag : ReadProtoBody Unmarshal_BalancerInfoRequest b = Ok tag →
      same_call b _ (RpcGetBalancerInfo tag) RestGetBalancerInfo
  | Same_TestRoute req : ReadProtoBody Unmarshal_TestRouteRequest b = Ok req →
      same_call b _ (RpcTestRoute req) RestTestRoute
  | Same_RemoveRoutingRule tag : ReadProtoBody Unmarshal_RemoveRoutingRuleRequest b = Ok tag →
      same_call b _ (RpcRemoveRoutingRule tag) RestRemoveRoutingRule
  | Same_OverrideBalancerTarget req :
      ReadProtoBody Unmarshal_OverrideBalancerTargetRequest b = Ok req →
      same_call b _ (RpcOverrideBalancerTarget req) RestOverrideBalancerTarget.

(** The servers ask for a backend for the same calls. *)
Lemma same_call_private b A (call : rpc_call A) (rcall : rest_call A) : same_call b A call rcall →
  rpc_method call ∈ backendMethods ↔ rest_private rcall = true.
Proof. intros []; rewrite <- (bool_decide_spec (_ ∈ _)); done. Qed.

(** The HTTP reply for an outcome of a gRPC handler. *)
Definition as_http {A} (r : result A) : http A :=
  match r with
  | Ok a => HttpOk a
  | Err e => if errors_Is e Panicked then HttpError 500 "" else HttpError (grpc_http e) (err_text e)
  end.

Lemma Recoverer_at {A} (next next' : CS → http A * CS) s :
  next s = next' s → Recoverer next s = Recoverer next' s.
Proof. unfold Recoverer. by intros ->. Qed.

Lemma recover_reply {A} (m : eff CS A) s :
  Recoverer (reply grpc_http m) s = (as_http (m s).1, (m s).2).
Proof.
  unfold Recoverer, reply, as_http, http_Error. destruct (m s) as [[a|e] s']; cbn; [done|].
  by destruct (errors_Is e Panicked).
Qed.

Definition noting_missing {A} (m : eff Wd A) : eff CS A := map_err InterceptNotFound (backend m).

Lemma routing_reply_eq {A} (m : eff Wd A) s :
  routing_reply m s = reply grpc_http (noting_missing m) s.
Proof.
  unfold routing_reply, reply, noting_missing, map_err, writeRoutingError.
  by destruct (backend m s) as [[a|e] s'].
Qed.

(** With a backend, both servers run the handler on it. *)
Lemma rpc_backend_run {A} (f : B → eff CS A) b s :
  Controller_Backend s.1 = Some b → (rpc_backend ≫= f) s = f b s.
Proof. intros Hb. unfold rpc_backend, get, mbind, eff_bind. by rewrite Hb. Qed.

Lemma rest_backend_run {A} (f : B → CS → http A * CS) b s :
  Controller_Backend s.1 = Some b → rest_backend f s = f b s.
Proof. intros Hb. unfold rest_backend. by rewrite Hb. Qed.

Lemma with_body_run {M A} (u : string → result M) b (f : M → CS → http A * CS) m s :
  ReadProtoBody u b = Ok m → with_body u b f s = f m s.
Proof. intros Hm. unfold with_body. by rewrite Hm. Qed.

(** The refusal of a backend that cannot route is not taken for a missing
    object. *)
Lemma no_routing_kept : InterceptNotFound no_routing = no_routing.
Proof.
  unfold InterceptNotFound, no_routing at 1. rewrite status_Error_suffix by (cbn; lia). done.
Qed.

Lemma routing_agree {A} (f : RoutingBackend Wd → eff Wd A) (g : RoutingBackend Wd → CS → http A * CS) s :
  running s → (∀ rb, g rb s = routing_reply (f rb) s) →
  Recoverer (rest_routingBackend g) s =
  (as_http ((rpc_routingBackend ≫= λ rb, noting_missing (f rb)) s).1,
   ((rpc_routingBackend ≫= λ rb, noting_missing (f rb)) s).2).
Proof.
  intros (b & Hb & _) Hg. rewrite <- recover_reply. apply Recoverer_at.
  unfold rest_routingBackend, asRoutingBackend, rpc_routingBackend, rpc_backend, reply, get, mbind, eff_bind.
  rewrite Hb. cbn. destruct (be_routing b) as [rb|]; cbn.
  - rewrite Hg, routing_reply_eq. done.
  - unfold writeRoutingError. by rewrite no_routing_kept.
Qed.

(** Behind the gates the two handlers do the same. *)
Lemma handlers_agree {A} env b (call : rpc_call A) (rcall : rest_call A) s :
  same_call b A call rcall → (rest_private rcall = true → running s) →
  Recoverer (rest_handler env b rcall) s = (as_http (rpc_handler env call s).1, (rpc_handler env call s).2).
Proof.
  intros Hsame Hrun. destruct Hsame; cbn [rest_handler rpc_handler]; cbn [rest_private] in Hrun;
    try specialize (Hrun eq_refl);
    try (apply routing_agree; [done|]; intros rb; by try (erewrite with_body_run by done)); [done|done|..];
    try (rewrite <- recover_reply; apply Recoverer_at;
         destruct Hrun as (bk & Hbk & _);
         unfold rest_GetStats, rpc_GetStats, rest_GetUserOnlineStat, rpc_GetUserOnlineStats,
           rest_GetUserOnlineIpListStats, rpc_GetUserOnlineIpListStats, rest_GetBackendStats,
           rpc_GetBackendStats;
         try (erewrite with_body_run by done); rewrite (rest_backend_run _ _ _ Hbk);
         unfold reply; by rewrite (rpc_backend_run _ _ _ Hbk)).
  apply recover_reply.
Qed.

(** A reply is tracked exactly when the gRPC outcome is a success. *)
Lemma as_http_tracked {A} (r : result A) :
  (200 <=? http_status (as_http r)) && (http_status (as_http r) <? 300) = is_ok r.
Proof.
  destruct r as [a|e]; [done|]. cbn. destruct (errors_Is e Panicked); [done|]. cbn.
  pose proof (GrpcCodeToHTTP_error _ (status_Code_not_OK e)). unfold grpc_http.
  destruct (Z.ltb_spec (GrpcCodeToHTTP (status_Code e)) 300); [lia|]. by rewrite andb_false_r.
Qed.
End Servers.

(** ** Chunk framing *)

(** The little-endian base-128 encoding, in at most [n] bytes. *)
Fixpoint put_uvarint (n : nat) (x : Z) : string :=
  match n with
  | O => ""
  | S n =>
      if x <? 128 then String (of_byte x) ""
      else String (of_byte (x mod 128 + 128)) (put_uvarint n (x / 128))
  end.
Definition PutUvarint (x : Z) : string := put_uvarint 10 x.

(** A chunk as the client frames it: its length, then its encoding. *)
Definition frame (payload : string) : string :=
  PutUvarint (Z.of_nat (String.length payload)) +:+ payload.

Lemma byte_of_of_byte x : 0 <= x < 256 → byte_of (of_byte x) = x.
Proof. intros Hx. unfold byte_of, of_byte. rewrite nat_ascii_embedding; lia. Qed.

(** What is left of 64 bits after [10 - n] bytes. *)
Lemma read_put_uvarint n ending first acc w x input :
  (n < 10)%nat → 0 <= x < 2 ^ (7 * Z.of_nat n + 1) →
  read_uvarint (S n) ending first acc w (put_uvarint (S n) x +:+ input) = (Ok (acc + x * w), input).
Proof.
  revert first acc w x. induction n as [|n IH]; intros first acc w x Hn Hx.
  - cbn in Hx. cbn [put_uvarint]. rewrite (proj2 (Z.ltb_lt _ _)) by lia.
    rewrite string_app_cons. cbn [read_uvarint]. rewrite byte_of_of_byte by lia.
    rewrite (proj2 (Z.ltb_lt _ _)) by lia. by rewrite (proj2 (Z.ltb_ge _ _)) by lia.
  - remember (S n) as m eqn:Hm. cbn [put_uvarint]. destruct (Z.ltb_spec x 128) as [Hlt|Hge].
    + rewrite string_app_cons. cbn [read_uvarint]. rewrite byte_of_of_byte by lia.
      rewrite (proj2 (Z.ltb_lt _ _)) by lia. subst m. done.
    + rewrite string_app_cons. cbn [read_uvarint].
      pose proof (Z.mod_pos_bound x 128 ltac:(lia)).
      rewrite byte_of_of_byte by lia. rewrite (proj2 (Z.ltb_ge _ _)) by lia.
      subst m. rewrite IH.
      * do 2 f_equal. pose proof (Z.div_mod x 128 ltac:(lia)). nia.
      * lia.
      * split; [apply Z.div_pos; lia|]. apply Z.div_lt_upper_bound; [lia|].
        change 128 with (2 ^ 7) at 1. rewrite <- Z.pow_add_r by lia.
        replace (7 + (7 * Z.of_nat n + 1)) with (7 * Z.of_nat (S n) + 1) by lia. apply Hx.
Qed.

Lemma ReadUvarint_PutUvarint ending x input : 0 <= x < 2 ^ 64 →
  ReadUvarint ending (PutUvarint x +:+ input) = (Ok x, input).
Proof.
  intros Hx. unfold ReadUvarint, PutUvarint. rewrite (read_put_uvarint 9) by (cbn; lia).
  do 2 f_equal. lia.
Qed.

Lemma take_str_app p q : take_str (String.length p) (p +:+ q) = p.
Proof. induction p as [|a p IH]; [by destruct q|]. rewrite string_app_cons. cbn. by rewrite IH. Qed.

Lemma ReadFull_app ending p input :
  ReadFull ending (Z.of_nat (String.length p)) (p +:+ input) = (Ok p, input).
Proof.
  unfold ReadFull. rewrite string_length_app, (proj2 (Z.leb_le _ _)) by lia.
  by rewrite Nat2Z.id, take_str_app, drop_str_app.
Qed.

Lemma PutUvarint_length x : (1 <= String.length (PutUvarint x))%nat.
Proof. unfold PutUvarint. cbn [put_uvarint]. destruct (x <? 128); cbn; lia. Qed.

Section Framing.
Context `{Grpc} `{Proto}.

(** A chunk with its encoding, which is empty for the chunk without fields. *)
Definition encodes (cp : UsersChunk * string) : Prop :=
  Unmarshal_UsersChunk cp.2 = Ok cp.1 ∧ Z.of_nat (String.length cp.2) <= maxAlloc.

Definition frames (cps : list (UsersChunk * string)) (tail : string) : string :=
  foldr (λ cp s, frame cp.2 +:+ s) tail cps.

(** What the HTTP loop gets of them: it skips empty frames. *)
Definition seen_chunks (cps : list (UsersChunk * string)) : list UsersChunk := (filter (λ cp, cp.2 ≠ "") cps).*1.

(** The HTTP loop on framed chunks does what the gRPC loop does on the chunks
    it sees; it stops at the chunk marked last. *)
Lemma framed_receive cps tail fuel ending r :
  Forall encodes cps → errors_Is ending StdEOF = true →
  tail = "" ∨ Exists (λ c, UsersChunk_Last c = true) (seen_chunks cps) →
  (String.length (frames cps tail) < fuel)%nat →
  match rpc_receive r (seen_chunks cps) ending with
  | Ok r' => rest_receive fuel ending r (frames cps tail) = HttpOk r'
  | Err _ => False
  end.
Proof.
  intros Hall Hend. revert fuel r. induction Hall as [|[c p] cps [Hun Hmax] _ IH]; intros fuel r Htail Hfuel.
  - destruct Htail as [->|Hno]; [|by inversion Hno]. cbn [seen_chunks filter list_filter fmap list_fmap rpc_receive frames foldr].
    rewrite Hend. destruct fuel as [|fuel]; [cbn in Hfuel; lia|].
    cbn [rest_receive]. unfold ReadUvarint. cbn. by rewrite Hend.
  - cbn [frames foldr fst snd] in *. fold (frames cps tail) in *. unfold frame in *.
    rewrite string_app_assoc in *. rewrite !string_length_app in Hfuel.
    pose proof (PutUvarint_length (Z.of_nat (String.length p))) as Hl.
    destruct fuel as [|fuel]; [lia|]. cbn [rest_receive].
    rewrite ReadUvarint_PutUvarint by (unfold maxAlloc in Hmax; lia).
    unfold seen_chunks in *. rewrite filter_cons in *. destruct (decide (p = "")) as [->|Hne].
    + rewrite decide_False in * by (intros Hn; by apply Hn). cbn [String.length Z.of_nat Z.eqb].
      apply IH; [done|lia].
    + rewrite decide_True in * by done. rewrite fmap_cons in *. cbn [fst snd rpc_receive] in *.
      assert (0 < Z.of_nat (String.length p)) by (destruct p; [done|cbn; lia]).
      rewrite (proj2 (Z.eqb_neq _ _)), (proj2 (Z.ltb_ge _ _)) by lia.
      rewrite ReadFull_app, Hun. cbn zeta. destruct (UsersChunk_Last c) eqn:Hlast; [done|]. apply IH; [|lia].
      destruct Htail as [?|Htail]; [by left|right]. apply Exists_cons in Htail as [?|?]; [congruence|done].
Qed.
End Framing.

Definition toy_req (body : string) : http_request := mkRequest "secret" (EOF_body body).

Lemma toy_is_running : running toy_running ∧
  rpc_authorized toy_uuid (toy_md "secret") toy_running.1 ∧
  ∀ body, rest_authorized toy_uuid (toy_req body) toy_running.1.
Proof.
  split_and!; [by exists 0%nat|by exists {[ "x-api-key" := ["secret"] ]}, "secret", []|by split].
Qed.

(** ** Properties *)

(** C12: on either server a call that changes anything came with the configured
    API key, and, unless it is one of the calls that need no backend, found a
    backend that is running; a call that is refused leaves the controller and
    the backends as they were. *)
Theorem effects_are_authorized {UUID B Wd : Type} `{!EqDecision UUID} `{!Backends B Wd} `{Grpc} `{Proto}
    (uuid_Parse : string → result UUID) (env : environ) (md : metadata) (req : http_request)
    (A A' : Type) (call : rpc_call A) (rcall : rest_call A') (s : @CS UUID B Wd) :
  ((rpc_serve uuid_Parse env md call s).2 ≠ s →
   rpc_authorized uuid_Parse md s.1 ∧ (rpc_method call ∈ backendMethods → running s)) ∧
  ((rest_serve uuid_Parse env req rcall s).2 ≠ s →
   rest_authorized uuid_Parse req s.1 ∧ (rest_private rcall = true → running s)).
Proof.
  split; intros Hchange.
  - rewrite rpc_serve_eq in Hchange.
    destruct (middleware_cases uuid_Parse env md (rpc_method call) (rpc_handler env call) s)
      as [(e & He & _)|(Ha & Hb & _)]; [by rewrite He in Hchange|done].
  - destruct (rest_gate_cases uuid_Parse env req rcall s) as [(c & t & He & _)|(Ha & Hb & _)];
      [by rewrite He in Hchange|done].
Qed.

Lemma effects_are_authorized_witness :
  let serve key := rpc_serve toy_uuid (toy_env 9) (toy_md key) (RpcSyncUsers [None]) toy_running in
  (serve "secret").2 ≠ toy_running ∧ rpc_authorized toy_uuid (toy_md "secret") toy_running.1 ∧
  running toy_running ∧ (serve "guess").2 = toy_running.
Proof.
  intros serve. assert ((serve "secret").2 ≠ toy_running) as Hne.
  { intros Heq. apply (f_equal (λ s, c_lastRequest s.1)) in Heq. vm_compute in Heq. discriminate Heq. }
  destruct (proj1 (effects_are_authorized toy_uuid (toy_env 9) (toy_md "secret")
    (mkRequest "" (EOF_body "")) _ _ (RpcSyncUsers [None]) RestBase toy_running) Hne) as [Ha _].
  split_and!; [exact Hne|exact Ha|exact (proj1 toy_is_running)|vm_compute; reflexivity].
Defined.

(** C13: for the operations both servers offer with the same meaning (base
    information, stopping, statistics and routing; not AddRoutingRule, latency,
    sessions, users and logs, which answer differently), an authorized HTTP
    request has the same effect as the authorized gRPC call and answers with the
    same message, or with the status [GrpcCodeToHTTP] gives the gRPC code and the
    same text, when a backend runs or the operation needs none.  When it needs one
    that does not run, both are refused and nothing happens: with the code
    Unavailable over gRPC, over HTTP with 503, as [GrpcCodeToHTTP] has it, for a
    backend that is stopped, but 500 when there is none. *)
Theorem rest_mirrors_rpc {UUID B Wd : Type} `{!EqDecision UUID} `{!Backends B Wd} `{Grpc} `{Proto}
    (uuid_Parse : string → result UUID) (env : environ) (md : metadata) (req : http_request)
    (A : Type) (call : rpc_call A) (rcall : rest_call A) (s : @CS UUID B Wd)
    (Hsame : same_call (r_body req) A call rcall)
    (Hmd : rpc_authorized uuid_Parse md s.1) (Hreq : rest_authorized uuid_Parse req s.1) :
  let '(r, s') := rpc_serve uuid_Parse env md call s in
  ((rest_private rcall = true → running s) → rest_serve uuid_Parse env req rcall s = (as_http r, s')) ∧
  (rest_private rcall = true → ¬ running s →
   s' = s ∧ (∃ e, r = Err e ∧ status_Code e = Unavailable) ∧
   ∃ text, rest_serve uuid_Parse env req rcall s =
     (HttpError (match Controller_Backend s.1 with None => 500 | Some _ => 503 end) text, s)).
Proof.
  rewrite rpc_serve_eq. pose proof (same_call_private _ _ _ _ Hsame) as Hpriv.
  destruct (ConditionalMiddleware _ env md _ _ s) as [r s'] eqn:Hrun. split.
  - intros Hneed. rewrite middleware_open in Hrun by (done || by rewrite Hpriv). rewrite rest_gate_open by done.
    unfold trackSuccessfulRequest, LoggingInterceptor in *.
    rewrite (handlers_agree env (r_body req) call rcall s Hsame) by done.
    pose proof (as_http_tracked (rpc_handler env call s).1) as Ht.
    destruct (rpc_handler env call s) as [[a|e] [c w]]; cbn [fst snd] in *; rewrite Ht; cbn; by injection Hrun as <- <-.
  - intros Hp Hn. destruct (middleware_closed uuid_Parse env md (rpc_method call) (rpc_handler env call) s) as (e & He & Hcode);
      [done|by rewrite Hpriv|done|]. rewrite He in Hrun. injection Hrun as <- <-.
    split; [done|]. split; [by exists e|]. by apply rest_gate_closed.
Qed.

Lemma rest_mirrors_rpc_witness :
  (rest_serve toy_uuid (toy_env 9) (toy_req "lb") RestGetBalancerInfo toy_running).1 =
  HttpError 404 "rpc error: code = 5 desc = balancer lb not found.".
Proof.
  pose proof (rest_mirrors_rpc toy_uuid (toy_env 9) (toy_md "secret") (toy_req "lb") _
    (RpcGetBalancerInfo "lb") RestGetBalancerInfo toy_running (Same_GetBalancerInfo (EOF_body "lb") "lb" eq_refl)
    (proj1 (proj2 toy_is_running)) (proj2 (proj2 toy_is_running) "lb")) as Ht.
  destruct (rpc_serve toy_uuid (toy_env 9) (toy_md "secret") (RpcGetBalancerInfo "lb") toy_running)
    as [r s'] eqn:Hr.
  assert (r = (rpc_serve toy_uuid (toy_env 9) (toy_md "secret") (RpcGetBalancerInfo "lb") toy_running).1)
    as Hr1 by (rewrite Hr; reflexivity).
  rewrite (proj1 Ht (λ _, proj1 toy_is_running)). cbn [fst]. rewrite Hr1. vm_compute. reflexivity.
Defined.

(** C15: an HTTP upload whose body is the concatenation of length-prefixed
    chunks is read as the gRPC stream of the same chunks, so both reach the same
    users, except that the HTTP loop skips a chunk that encodes to nothing (one
    without index, users and mark, which the gRPC loop records as an empty chunk
    0).  No chunk is longer than the 2^48 bytes Go allocates at most ([maxAlloc]);
    after chunks of which one is marked last anything may follow, which is not read;
    otherwise the body ends with the chunks. *)
Theorem framed_upload_is_the_stream `{Grpc} `{Proto} (cps : list (UsersChunk * string)) (tail : string)
    (Hpay : Forall encodes cps)
    (Htail : tail = "" ∨ Exists (λ c, UsersChunk_Last c = true) (seen_chunks cps)) :
  let body := EOF_body (frames cps tail) in
  match rpc_receive nothing_received (seen_chunks cps) (b_end body) with
  | Ok r => rest_chunks body = HttpOk r
  | Err _ => False
  end.
Proof. intros body. apply framed_receive; [done..|cbn; lia]. Qed.

Lemma framed_upload_is_the_stream_witness :
  let c i e l := {| UsersChunk_Users :=
    [Some {| User_Email := e; User_Proxies := None; User_Inbounds := [] |}];
    UsersChunk_Index := i; UsersChunk_Last := l |} in
  let cps := [(c 1 "bob" false, "1-bob"); (c 0 "eve" true, "0Leve")] in
  Forall encodes cps ∧
  ∃ r, rest_chunks (EOF_body (frame "1-bob" +:+ (frame "0Leve" +:+ "rubbish"))) = HttpOk r ∧ rc_last r = 0.
Proof.
  intros c cps. assert (Forall encodes cps) as Hpay by (repeat constructor; vm_compute; discriminate).
  assert (Exists (λ c, UsersChunk_Last c = true) (seen_chunks cps)) as Hlast by (right; left; reflexivity).
  split; [exact Hpay|]. pose proof (framed_upload_is_the_stream cps "rubbish" Hpay (or_intror Hlast)) as Ht.
  cbn [frames foldr cps snd] in Ht. exists (foldl receive nothing_received (fst <$> cps)). split; [exact Ht|reflexivity].
Defined.

(** ** Observations *)

(** An API_KEY that is missing or does not parse leaves the nil UUID as the
    node's key, and the nil UUID then opens every call. *)
Lemma nil_key_is_accepted {UUID B Wd : Type} `{!EqDecision UUID} `{!Backends B Wd} `{Grpc}
    (uuid_Nil : UUID) (uuid_Parse : string → result UUID) (env : gmap string string) free p q
    (Hbad : is_ok (uuid_Parse (GetEnv env "API_KEY" "")) = false)
    (Hnil : uuid_Parse "00000000-0000-0000-0000-000000000000" = Ok uuid_Nil) :
  rpc_authorized (B:=B) uuid_Parse (Some {[ "x-api-key" := ["00000000-0000-0000-0000-000000000000"] ]})
    (Controller_New (NodeConfig.Load uuid_Nil uuid_Parse env) free p q).
Proof.
  eexists _, _, []. split_and!; [done|by rewrite lookup_singleton|]. rewrite Hnil.
  unfold Controller_ApiKey, Controller_New, NodeConfig.Load, GetEnvAsUUID. cbn.
  by destruct (uuid_Parse (GetEnv env "API_KEY" "")).
Qed.

(** A chunk length above the allocator's limit makes the upload handler panic. *)
Lemma huge_chunk_panics : rest_chunks (EOF_body (PutUvarint (2 ^ 48 + 1))) = HttpPanic.
Proof. vm_compute. reflexivity. Qed.

(** AddRoutingRule reports a missing object as 404 over HTTP, with no code
    over gRPC. *)
Lemma add_rule_codes_differ :
  let req := {| AddRoutingRuleRequest_Rule := "x"; AddRoutingRuleRequest_ShouldReset := false |} in
  (match (rpc_serve toy_uuid (toy_env 9) (toy_md "secret") (RpcAddRoutingRule req) toy_running).1 with
   | Err e => status_Code e = Unknown
   | Ok _ => False
   end) ∧
  http_status (rest_serve toy_uuid (toy_env 9) (toy_req "x") RestAddRoutingRule toy_running).1 = 404.
Proof. split; vm_compute; reflexivity. Qed.
