(* ===== verification/Control.v ===== *)
(** * Threads of the controller: one backend at a time

    Start and Stop run under the control lock, but a keep-alive tracker calls
    [Disconnect] without it, and [Disconnect] gives the controller's lock back
    while it shuts the backend down.  Here the critical sections of Controller.v
    are the steps of threads: at most one control thread (the holder of the
    control lock), one thread per keep-alive tracker, and the environment (the
    other handlers and the backends' own jobs), which may stop backends, and
    restart the current one while no Start, Stop or expiry is under way.  The
    theorem is for runs in which expiries and requests do not overlap (those
    without keep-alive are among them); an overlap breaks it, as shown below. *)

From S2P Require Import Prelude Messages NodeConfig Backends Controller Helper Rpc Rest NodeToy.

#[local] Open Scope Z_scope.

Section Control.
Context {UUID B Wd : Type} `{!Backends B Wd}.
Notation Controller := (@Controller UUID B).
Notation CS := (@CS UUID B Wd).

(** ** Threads *)

(** The steps of [Disconnect], in order, and those of Start around them. *)
Inductive micro :=
  | MCancel
  | MRead
  | MShutdown
  | MClear (rnd1 rnd2 : Z)
  | MCheck (rnd1 rnd2 : Z)
  | MStart (data : Backend)
  | MConnect (now keepAlive : Z).

(** The local variable [backend] of [Disconnect] and the steps left. *)
Record thread := mkThread { t_backend : option B; t_prog : list micro }.

Definition disconnect_prog (rnd1 rnd2 : Z) : list micro := [MCancel; MRead; MShutdown; MClear rnd1 rnd2].
Definition start_prog (rnd1 rnd2 now : Z) (data : Backend) : list micro :=
  [MCheck rnd1 rnd2; MStart data; MConnect now (Backend_KeepAlive data)].

Definition exec (free : Z → bool) (m : micro) (s : CS) (t : thread) : CS * thread :=
  let '(c, w) := s in
  match m with
  | MCancel => ((disconnect_cancel c, w), t)
  | MRead => (s, mkThread (c_backend c) (t_prog t))
  | MShutdown => ((c, disconnect_shutdown (t_backend t) w), t)
  | MClear p q => ((disconnect_clear free p q c, w), t)
  | MCheck p q =>
      match c_backend c with
      | Some _ => (s, mkThread (t_backend t) (disconnect_prog p q ++ t_prog t))
      | None => (s, t)
      end
  | MStart data =>
      match Controller_StartBackend data s with
      | (Ok _, s) => (s, t)
      | (Err _, s) => (s, mkThread (t_backend t) [])
      end
  | MConnect now keepAlive => ((Controller_Connect now keepAlive c, w), t)
  end.

(** One step of a thread that has steps left. *)
Definition thread_step (free : Z → bool) (s : CS) (t : thread) : option (CS * thread) :=
  match t_prog t with
  | [] => None
  | m :: prog => Some (exec free m s (mkThread (t_backend t) prog))
  end.

(** A thread that runs alone. *)
Fixpoint run_alone (fuel : nat) (free : Z → bool) (s : CS) (t : thread) : CS * thread :=
  match fuel with
  | O => (s, t)
  | S fuel =>
      match thread_step free s t with
      | None => (s, t)
      | Some (s, t) => run_alone fuel free s t
      end
  end.

(** ** The system *)

Context `{!BackendLaws B Wd}.

(** [y_ka] holds the thread of each keep-alive tracker that is disconnecting,
    by its place in the controller's jobs. *)
Record sys := mkSys { y_s : CS; y_ctl : option thread; y_ka : gmap nat thread }.

Inductive request := ReqStart (data : Backend) | ReqStop.

Inductive action :=
  | ABegin (r : request) (now rnd1 rnd2 : Z)
  | ACtl
  | AEnd
  | ATick (i : nat) (now rnd1 rnd2 : Z)
  | AKeepAlive (i : nat)
  | ARequest (now : Z)
  | ASystemStats (st : SystemStatsResponse).

Definition act (free : Z → bool) (a : action) (y : sys) : option sys :=
  let '(c, w) := y_s y in
  match a, y_ctl y with
  | ABegin r now p q, None =>
      let prog := match r with ReqStart data => start_prog p q now data | ReqStop => disconnect_prog p q end in
      Some (mkSys (y_s y) (Some (mkThread None prog)) (y_ka y))
  | ACtl, Some t =>
      match thread_step free (y_s y) t with
      | Some (s, t) => Some (mkSys s (Some t) (y_ka y))
      | None => None
      end
  | AEnd, Some (mkThread _ []) => Some (mkSys (y_s y) None (y_ka y))
  | ATick i now p q, _ =>
      match c_jobs c !! i, y_ka y !! i with
      | Some (KeepAliveTracker _ keepAlive), None =>
          if keepAlive_expired now keepAlive c
          then Some (mkSys (y_s y) (y_ctl y) (<[i := mkThread None (disconnect_prog p q)]> (y_ka y)))
          else Some y
      | _, _ => None
      end
  | AKeepAlive i, _ =>
      match y_ka y !! i with
      | None => None
      | Some t =>
          match thread_step free (y_s y) t with
          | Some (s, t) => Some (mkSys s (y_ctl y) (<[i := t]> (y_ka y)))
          | None => Some (mkSys (y_s y) (y_ctl y) (delete i (y_ka y)))
          end
      end
  | ARequest now, _ => Some (mkSys (Controller_NewRequest now c, w) (y_ctl y) (y_ka y))
  | ASystemStats st, _ => Some (mkSys (record_stats st c, w) (y_ctl y) (y_ka y))
  | _, _ => None
  end.

Fixpoint acts (free : Z → bool) (l : list action) (y : sys) : option sys :=
  match l with
  | [] => Some y
  | a :: l => match act free a y with Some y => acts free l y | None => None end
  end.

(** No Start or Stop is under way and no tracker is disconnecting. *)
Definition idle (y : sys) : Prop := y_ctl y = None ∧ y_ka y = ∅.

(** What the backends and the other handlers may do: a health check or a user
    synchronisation restarts the session's backend. *)
Definition env_allowed (y : sys) (w' : Wd) : Prop :=
  (be_ok (y_s y).2 → be_ok w') ∧
  ∀ b, be_Started b w' = true →
    be_Started b (y_s y).2 = true ∨ (idle y ∧ c_backend (y_s y).1 = Some b).

(** The steps of the system when the actions obey [ok]. *)
Inductive sys_step (free : Z → bool) (ok : sys → action → Prop) (y : sys) : sys → Prop :=
  | step_act a y' : ok y a → act free a y = Some y' → sys_step free ok y y'
  | step_env w' : env_allowed y w' →
      sys_step free ok y (mkSys ((y_s y).1, w') (y_ctl y) (y_ka y)).

Definition initial (cfg : @NodeConfig UUID) (free : Z → bool) (p q : Z) (w : Wd) : sys :=
  mkSys (Controller_New cfg free p q, w) None ∅.

Definition reach (free : Z → bool) (ok : sys → action → Prop) (y0 y : sys) : Prop :=
  rtc (sys_step free ok) y0 y.

Lemma acts_reach free l y y' : acts free l y = Some y' → reach free (λ _ _, True) y y'.
Proof.
  revert y. induction l as [|a l IH]; intros y Hl; [injection Hl as ->; apply rtc_refl|].
  cbn [acts] in Hl. destruct (act free a y) as [y1|] eqn:Ha; [|done].
  eapply rtc_l; [by eapply step_act|]. by apply IH.
Qed.

(** ** A thread alone is the method *)

Lemma disconnect_alone free p q s b :
  run_alone 4 free s (mkThread b (disconnect_prog p q)) =
  (Controller_Disconnect free p q s, mkThread (c_backend s.1) []).
Proof. by destruct s. Qed.

Lemma start_alone env data s b :
  let '(r, s') := rpc_Start env data s in
  (run_alone 7 (e_free env) s (mkThread b (start_prog (e_rnd1 env) (e_rnd2 env) (e_now env) data))).1 = s'.
Proof.
  destruct s as [c w]. unfold rpc_Start, rpc_disconnect, get, modify, modify_c, mbind, eff_bind, mret, eff_ret.
  unfold start_prog, Controller_Backend. cbn [fst snd].
  destruct (c_backend c) as [b0|] eqn:Hb; cbn [run_alone thread_step t_prog t_backend exec]; rewrite Hb.
  - set (s1 := (disconnect_clear (e_free env) (e_rnd1 env) (e_rnd2 env) (disconnect_cancel c), be_Shutdown b0 w)).
    assert (Controller_Disconnect (e_free env) (e_rnd1 env) (e_rnd2 env) (c, w) = s1) as ->.
    { unfold s1, Controller_Disconnect. cbn. by rewrite Hb. }
    cbn [run_alone thread_step t_prog t_backend exec disconnect_prog app].
    change (c_backend (disconnect_cancel c)) with (c_backend c). rewrite Hb.
    cbn [disconnect_shutdown]. fold s1.
    by destruct (Controller_StartBackend data s1) as [[u|e] [c' w']].
  - cbn [run_alone thread_step t_prog t_backend exec].
    by destruct (Controller_StartBackend data (c, w)) as [[u|e] [c' w']].
Qed.

(** ** The invariant of runs in which requests and expiries do not overlap *)

Definition serial (y : sys) (a : action) : Prop :=
  match a with ABegin _ _ _ _ | ATick _ _ _ _ => idle y | _ => True end.

Definition tail_ok (k : list micro) : Prop :=
  k = [] ∨ ∃ data now keepAlive, k = [MStart data; MConnect now keepAlive].

(** What a thread that has the controller for itself may rely on before its
    next step. *)
Inductive thread_ok (c : Controller) (w : Wd) : thread → Prop :=
  | ok_done b : thread_ok c w (mkThread b [])
  | ok_connect b now d : thread_ok c w (mkThread b [MConnect now d])
  | ok_start b data now d : c_backend c = None → thread_ok c w (mkThread b [MStart data; MConnect now d])
  | ok_check b p q data now d : thread_ok c w (mkThread b [MCheck p q; MStart data; MConnect now d])
  | ok_cancel b p q k : tail_ok k → thread_ok c w (mkThread b (disconnect_prog p q ++ k))
  | ok_read b p q k : tail_ok k → thread_ok c w (mkThread b (MRead :: MShutdown :: MClear p q :: k))
  | ok_shutdown b p q k : tail_ok k → b = c_backend c →
      thread_ok c w (mkThread b (MShutdown :: MClear p q :: k))
  | ok_clear b p q k : tail_ok k → (∀ b', be_Started b' w = false) →
      thread_ok c w (mkThread b (MClear p q :: k)).

Definition sole (c : Controller) (w : Wd) : Prop :=
  ∀ b, be_Started b w = true → c_backend c = Some b.

(** At most one thread, the holder of the control lock or a tracker. *)
Definition ka_ok (y : sys) : Prop :=
  y_ka y = ∅ ∨ ∃ i t, y_ka y = {[i := t]} ∧ y_ctl y = None ∧ thread_ok (y_s y).1 (y_s y).2 t.

Record sys_inv (y : sys) : Prop := mkInv {
  inv_ok : be_ok (y_s y).2;
  inv_sole : sole (y_s y).1 (y_s y).2;
  inv_ctl : ∀ t, y_ctl y = Some t → thread_ok (y_s y).1 (y_s y).2 t;
  inv_ka : ka_ok y
}.

Lemma sole_none c w : sole c w → c_backend c = None → ∀ b, be_Started b w = false.
Proof. intros Hs Hn b. destruct (be_Started b w) eqn:Hb; [|done]. apply Hs in Hb. congruence. Qed.

Lemma tail_thread c w b k : tail_ok k → c_backend c = None → thread_ok c w (mkThread b k).
Proof. intros [->|(data & now & d & ->)] Hn; by constructor. Qed.

Lemma starts_none_stopped w w' b : starts_none w w' → be_Started b w = false → be_Started b w' = false.
Proof. intros Hs Hb. destruct (be_Started b w') eqn:Hb'; [|done]. apply Hs in Hb'. congruence. Qed.

(** The thread's facts survive what the environment does. *)
Lemma thread_ok_env c c' w w' t :
  c_backend c' = c_backend c → starts_none w w' → thread_ok c w t → thread_ok c' w' t.
Proof.
  intros Hc Hw [b|b now d|b data now d Hn|b p q data now d|b p q k Hk|b p q k Hk|b p q k Hk Hb|b p q k Hk Hf];
    constructor; try done; [congruence..|]. intros b'. by eapply starts_none_stopped.
Qed.

(** Start in two parts: the disconnection of an earlier client, the session. *)
Definition if_connected (env : environ) (s : CS) : CS :=
  match c_backend s.1 with
  | Some _ => Controller_Disconnect (e_free env) (e_rnd1 env) (e_rnd2 env) s
  | None => s
  end.

Definition start_session (env : environ) (data : Backend) : eff CS BaseInfoResponse :=
  _ ← Controller_StartBackend data;
  _ ← modify_c (Controller_Connect (e_now env) (Backend_KeepAlive data));
  s ← get;
  mret (Controller_BaseInfoResponse s).

Lemma start_eq env data s : rpc_Start env data s = start_session env data (if_connected env s).
Proof.
  unfold rpc_Start, rpc_disconnect, if_connected, Controller_Backend, get, modify.
  unfold mbind at 1 2, eff_bind at 1 2. by destruct (c_backend s.1).
Qed.


Lemma shutdown_alone c w b0 : be_ok w → sole c w → c_backend c = Some b0 →
  ∀ b, be_Started b (be_Shutdown b0 w) = false.
Proof.
  intros Hok Hs Hc b. destruct (be_Started b (be_Shutdown b0 w)) eqn:Hst; [|done].
  pose proof (Hs b (shutdown_starts_none b0 w Hok b Hst)). simplify_eq. by rewrite shutdown_stops in Hst.
Qed.

Lemma disconnect_sole env c w : be_ok w → sole c w →
  c_backend (if_connected env (c, w)).1 = None ∧
  be_ok (if_connected env (c, w)).2 ∧
  sole (if_connected env (c, w)).1 (if_connected env (c, w)).2.
Proof.
  intros Hok Hs. unfold if_connected. cbn [fst]. destruct (c_backend c) as [b0|] eqn:Hb; [|done].
  unfold Controller_Disconnect. cbn. rewrite Hb. cbn. split_and!; [done|by apply shutdown_ok|].
  intros b Hst. by rewrite (shutdown_alone c w b0 Hok Hs Hb) in Hst.
Qed.

(** A step of the thread that has the controller for itself. *)
Lemma ctl_step_ok free c w m b prog c' w' t' :
  be_ok w → sole c w → thread_ok c w (mkThread b (m :: prog)) →
  exec free m (c, w) (mkThread b prog) = ((c', w'), t') →
  be_ok w' ∧ sole c' w' ∧ thread_ok c' w' t'.
Proof.
  intros Hok Hs Ht He. inversion Ht as [| | | | | | |]; subst; cbn in He; simplify_eq.
  - split_and!; [done|done|constructor].
  - pose proof (StartBackend_starts data c w Hok) as Hst.
    destruct (Controller_StartBackend data (c, w)) as [[u|e] [c1 w1]]; simplify_eq.
    + destruct Hst as (Hok' & b1 & -> & Hb1). split_and!; [done| |constructor].
      intros b' Hb'. destruct (Hb1 b' Hb') as [->|Hold]; [done|].
      rewrite (sole_none c w Hs) in Hold by done. done.
    + destruct Hst as (Hok' & -> & Hw). split_and!; [done| |constructor].
      intros b' Hb'. by apply Hs, Hw.
  - destruct (c_backend c) eqn:Hb; simplify_eq; (split_and!; [done..|]); cbn.
    + apply ok_cancel. right. eauto.
    + by constructor.
  - split_and!; [done..|by constructor].
  - split_and!; [done..|by constructor].
  - assert (∀ b', be_Started b' (disconnect_shutdown (c_backend c') w) = false) as Hoff.
    { intros b'. destruct (be_Started b' (disconnect_shutdown (c_backend c') w)) eqn:Hb; [|done].
      unfold disconnect_shutdown in Hb. destruct (c_backend c') as [b0|] eqn:Hc.
      - by rewrite (shutdown_alone c' w b0 Hok Hs Hc) in Hb.
      - apply Hs in Hb. congruence. }
    assert (be_ok (disconnect_shutdown (c_backend c') w)) as Hok'
      by (unfold disconnect_shutdown; destruct (c_backend c'); [by apply shutdown_ok|done]).
    split_and!; [done| |by constructor]. intros b' Hb'. by rewrite Hoff in Hb'.
  - split_and!; [done| |by apply tail_thread]. intros b' Hb'. congruence.
Qed.

Lemma thread_step_ok free c w t s' t' :
  be_ok w → sole c w → thread_ok c w t → thread_step free (c, w) t = Some (s', t') →
  be_ok s'.2 ∧ sole s'.1 s'.2 ∧ thread_ok s'.1 s'.2 t'.
Proof.
  intros Hok Hs Ht He. destruct t as [b [|m prog]]; [done|]. cbn [thread_step t_prog t_backend] in He.
  destruct s' as [c' w']. apply (ctl_step_ok free c w m b prog c' w' t' Hok Hs Ht). by injection He.
Qed.

(** What changes neither the backend nor what runs keeps the invariant. *)
Lemma sys_inv_env y c' w' :
  be_ok w' → sole c' w' → c_backend c' = c_backend (y_s y).1 → starts_none (y_s y).2 w' →
  sys_inv y → sys_inv (mkSys (c', w') (y_ctl y) (y_ka y)).
Proof.
  intros Hok Hs Hc Hw [_ _ Hctl Hka]. split; cbn; [done|done| |].
  - intros t Ht. by eapply thread_ok_env, Hctl.
  - destruct Hka as [He|(i & t & Hi & Hn & Ht)]; [by left|]. right. exists i, t. split_and!; [done..|by eapply thread_ok_env].
Qed.

Lemma sys_inv_world free ok y w' : sys_inv y → env_allowed y w' →
  sys_step free ok y (mkSys ((y_s y).1, w') (y_ctl y) (y_ka y)) ∧ sys_inv (mkSys ((y_s y).1, w') (y_ctl y) (y_ka y)).
Proof.
  intros Hinv Henv. split; [by apply step_env|]. destruct Hinv as [Hbe Hs Hctl Hka], Henv as [Hok Hw].
  assert (sole (y_s y).1 w') as Hs'.
  { intros b Hb. destruct (Hw b Hb) as [Hb'|[_ Hb']]; [by apply Hs|done]. }
  destruct (decide (y_ctl y = None)) as [Hn|Hn]; [destruct (decide (y_ka y = ∅)) as [He|He]|].
  - split; cbn; [by apply Hok|done| |by left]. intros t Ht. congruence.
  - apply sys_inv_env; [by apply Hok|done|done| |done]. intros b Hb. by destruct (Hw b Hb) as [?|[[_ ?] _]].
  - apply sys_inv_env; [by apply Hok|done|done| |done]. intros b Hb. by destruct (Hw b Hb) as [?|[[? _] _]].
Qed.

Lemma sys_inv_act free a y y' : serial y a → act free a y = Some y' → sys_inv y → sys_inv y'.
Proof.
  intros Hok Ha Hinv. pose proof Hinv as [Hbe Hs Hc Hk]. destruct y as [[c w] ctl ka]. cbn in Hbe, Hs, Hc, Hok.
  destruct a as [r now p q| | |i now p q|i|now|st]; cbn [act y_s y_ctl y_ka] in Ha.
  - destruct Hok as [[= ->] [= ->]]. simplify_eq. split; cbn; [done|done| |by left].
    intros t [= <-]. destruct r as [data|]; [constructor|].
    rewrite <- (app_nil_r (disconnect_prog p q)). constructor. by left.
  - destruct ctl as [t|]; [|done]. destruct (thread_step free (c, w) t) as [[s' t']|] eqn:He; [|by destruct t as [? []]].
    assert (y' = mkSys s' (Some t') ka) as -> by (destruct t as [? []]; congruence).
    destruct (thread_step_ok free c w t s' t' Hbe Hs (Hc _ eq_refl) He) as (? & ? & ?).
    split; cbn; [done|done|by intros t0 [= <-]|]. destruct Hk as [?|(? & ? & _ & ? & _)]; [by left|done].
  - destruct ctl as [[b [|m prog]]|]; [|done|done]. simplify_eq. destruct Hk as [?|(? & ? & _ & ? & _)]; [|done].
    split; cbn; [done|done|by intros t [=]|by left].
  - destruct Hok as [[= ->] [= ->]]. rewrite lookup_empty in Ha.
    destruct (c_jobs c !! i) as [[|ctx d]|]; [done| |done]. destruct (keepAlive_expired now d c); simplify_eq; [|done].
    split; cbn; [done|done|by intros t [=]|]. right. exists i, (mkThread None (disconnect_prog p q)).
    split_and!; [apply insert_empty|done|]. rewrite <- (app_nil_r (disconnect_prog p q)). constructor. by left.
  - destruct Hk as [[= ->]|(j & t & [= ->] & [= ->] & Ht)]; [by rewrite lookup_empty in Ha; destruct ctl as [[? []]|]|].
    destruct (decide (j = i)) as [->|Hij]; [|by rewrite lookup_singleton_ne in Ha].
    rewrite lookup_singleton_eq in Ha. destruct (thread_step free (c, w) t) as [[s' t']|] eqn:He; simplify_eq.
    + destruct (thread_step_ok free c w t s' t' Hbe Hs Ht He) as (? & ? & ?).
      split; cbn; [done|done|by intros t0 [=]|]. right. exists i, t'. split_and!; [apply insert_singleton_eq|done..].
    + split; cbn; [done|done|by intros t0 [=]|left; apply delete_singleton_eq].
  - assert (y' = mkSys (Controller_NewRequest now c, w) ctl ka) as -> by (destruct ctl as [[? []]|]; congruence).
    by apply (sys_inv_env (mkSys (c, w) ctl ka)).
  - assert (y' = mkSys (record_stats st c, w) ctl ka) as -> by (destruct ctl as [[? []]|]; congruence).
    by apply (sys_inv_env (mkSys (c, w) ctl ka)).
Qed.

Lemma sys_inv_step free y y' : sys_step free serial y y' → sys_inv y → sys_inv y'.
Proof.
  intros [a y1 Hok Ha|w' Hw] Hinv; [by eapply sys_inv_act|]. by apply (sys_inv_world free serial).
Qed.

Lemma control_reach_inv free y y' : reach free serial y y' → sys_inv y → sys_inv y'.
Proof. induction 1 as [|y1 y2 y3 Hstep _ IH]; [done|]. intros Hi. apply IH. by eapply sys_inv_step. Qed.

Lemma initial_inv cfg free p q w :
  be_ok w → (∀ b, be_Started b w = false) → sys_inv (initial cfg free p q w).
Proof.
  intros Hok Hw. split; cbn; [done| |by intros t [=]|by left]. intros b Hb. by rewrite Hw in Hb.
Qed.

(** ** Without keep-alive every run is serial *)

Definition no_keepalive (a : action) : Prop :=
  match a with ABegin (ReqStart data) _ _ _ => Backend_KeepAlive data = 0 | _ => True end.

Definition no_trackers (c : Controller) : Prop :=
  ∀ i ctx keepAlive, c_jobs c !! i ≠ Some (KeepAliveTracker ctx keepAlive).

(** No step left arms a tracker. *)
Definition unarmed (prog : list micro) : Prop := ∀ now keepAlive, MConnect now keepAlive ∈ prog → keepAlive = 0.

Record trackless (y : sys) : Prop := mkTrackless {
  tl_jobs : no_trackers (y_s y).1;
  tl_ka : y_ka y = ∅;
  tl_ctl : ∀ t, y_ctl y = Some t → unarmed (t_prog t)
}.

Lemma connect_no_trackers now c : no_trackers c → no_trackers (Controller_Connect now 0 c).
Proof.
  intros Hj i ctx d. unfold Controller_Connect. cbn. rewrite lookup_app.
  destruct (c_jobs c !! i) eqn:Hi; [rewrite <- Hi; apply Hj|].
  by destruct (i - length (c_jobs c))%nat as [|[|?]].
Qed.

Lemma unarmed_cons m prog : unarmed (m :: prog) → unarmed prog.
Proof. intros Hu now d Hin. eapply Hu, list_elem_of_further, Hin. Qed.

Lemma unarmed_disconnect p q prog : unarmed prog → unarmed (disconnect_prog p q ++ prog).
Proof. intros Hu now d Hin. apply (Hu now d). set_solver. Qed.

Lemma start_backend_trackers data (c : Controller) w : c_jobs (Controller_StartBackend data (c, w)).2.1 = c_jobs c.
Proof.
  pose proof (StartBackend_spec data c w) as Hs. destruct (Controller_StartBackend data (c, w)) as [[u|e] [c' w']].
  - by destruct Hs as (b & -> & _).
  - by destruct Hs as (-> & _).
Qed.

Lemma exec_trackless free m b prog c w : no_trackers c → unarmed (m :: prog) →
  no_trackers (exec free m (c, w) (mkThread b prog)).1.1 ∧
  unarmed (t_prog (exec free m (c, w) (mkThread b prog)).2).
Proof.
  intros Hj Hu. pose proof (unarmed_cons _ _ Hu) as Hu'. destruct m; cbn; try done.
  - destruct (c_backend c); [|done]. split; [done|by apply unarmed_disconnect].
  - pose proof (start_backend_trackers data c w) as Ht.
    destruct (Controller_StartBackend data (c, w)) as [[u|e] [c1 w1]]; cbn in *.
    + split; [intros i; by rewrite Ht|done].
    + split; [intros i; by rewrite Ht|by intros ? ? ?%elem_of_nil].
  - rewrite (Hu now keepAlive) by apply list_elem_of_here. by split; [apply connect_no_trackers|].
Qed.

Lemma trackless_act free a y y' : no_keepalive a → act free a y = Some y' → trackless y → trackless y'.
Proof.
  intros Hok Ha [Hj Hk Hc]. destruct y as [[c w] ctl ka]. cbn in Hj, Hk, Hc. subst ka.
  destruct a as [r now p q| | |i now p q|i|now|st]; cbn [act y_s y_ctl y_ka] in Ha.
  - destruct ctl; [done|]. simplify_eq. split; [done..|]. cbn. intros t [= <-]. cbn.
    destruct r as [data|]; intros n d Hin;
      [unfold start_prog in Hin; cbn in Hok; rewrite Hok in Hin|]; set_solver.
  - destruct ctl as [[b [|m prog]]|]; [done| |done].
    destruct (exec_trackless free m b prog c w Hj (Hc _ eq_refl)) as [Hj' Hu'].
    cbn [thread_step t_prog t_backend] in Ha. destruct (exec free m (c, w) (mkThread b prog)) as [s' t'].
    simplify_eq. split; [done..|]. by intros t [= <-].
  - destruct ctl as [[b [|m prog]]|]; [|done|done]. by simplify_eq.
  - destruct (c_jobs c !! i) as [[|ctx d]|] eqn:Hi; [by destruct ctl as [[? []]|]| |by destruct ctl as [[? []]|]].
    by destruct (Hj i ctx d).
  - by destruct ctl as [[? []]|].
  - assert (y' = mkSys (Controller_NewRequest now c, w) ctl ∅) as -> by (destruct ctl as [[? []]|]; congruence). by split.
  - assert (y' = mkSys (record_stats st c, w) ctl ∅) as -> by (destruct ctl as [[? []]|]; congruence). by split.
Qed.

(** The requests of a node whose clients ask for no keep-alive never overlap
    an expiry: every interleaving of them is serial. *)
Lemma no_keepalive_serial free y y' :
  trackless y → reach free (λ _, no_keepalive) y y' → reach free serial y y'.
Proof.
  intros Ht Hr. induction Hr as [y|y1 y2 y3 Hstep _ IH]; [apply rtc_refl|].
  destruct Hstep as [a y2 Hok Ha|w' Hw].
  - eapply rtc_l; [eapply (step_act _ _ _ a); [|exact Ha]|by eapply IH, trackless_act].
    destruct Ht as [Hj Hk _]. destruct a as [r now p q| | |i now p q|i|now|st]; cbn; try done.
    + split; [|done]. destruct y1 as [[c w] [t|] ka]; [|done]. by destruct t as [? []].
    + cbn in Ha. destruct y1 as [[c w] ctl ka]; cbn in *. exfalso.
      destruct (c_jobs c !! i) as [[|ctx d]|] eqn:Hi; [by destruct ctl as [[? []]|]| |by destruct ctl as [[? []]|]].
      by destruct (Hj i ctx d).
  - eapply rtc_l; [by apply step_env|]. apply IH. by destruct Ht.
Qed.

Lemma initial_trackless cfg free p q w : trackless (initial cfg free p q w).
Proof. split; [by intros i ctx d|done|done]. Qed.
End Control.

(** ** Properties *)


(** A session that expires, one that follows and is replaced by a third, with
    the actions in order. *)
Definition toy_sessions : list action :=
  [ABegin (ReqStart (toy_backend_msg 1)) 5 1 2; ACtl; ACtl; ACtl; AEnd; ARequest 6;
   ATick 1 (6 * 10 ^ 9) 1 2; AKeepAlive 1; AKeepAlive 1; AKeepAlive 1; AKeepAlive 1; AKeepAlive 1;
   ABegin (ReqStart (toy_backend_msg 0)) 7 3 4; ACtl; ACtl; ACtl; AEnd;
   ABegin (ReqStart (toy_backend_msg 0)) 8 3 4; ACtl; ACtl; ACtl; ACtl; ACtl; ACtl; ACtl; AEnd].

Fixpoint acts_serial {UUID B Wd : Type} `{!Backends B Wd} (free : Z → bool) (l : list action) (y : @sys UUID B Wd) : Prop :=
  match l with
  | [] => True
  | a :: l => serial y a ∧ match act free a y with Some y => acts_serial free l y | None => True end
  end.

(** One request from beginning to end. *)
Lemma acts_serial_request {UUID B Wd : Type} `{!Backends B Wd} free a l (y : @sys UUID B Wd) :
  idle y → Forall (λ a, match a with ABegin _ _ _ _ | ATick _ _ _ _ => False | _ => True end) l →
  acts_serial free (a :: l) y.
Proof.
  intros Hi Hl. split; [by destruct a|]. destruct (act free a y) as [y1|]; [|done]. clear y Hi.
  revert y1. induction Hl as [|b l Hb _ IH]; intros y; [done|]. split; [by destruct b|]. destruct (act free b y); [apply IH|done].
Qed.

Lemma acts_reach_ok {UUID B Wd : Type} `{!Backends B Wd} free l (y y' : @sys UUID B Wd) `{!BackendLaws B Wd} :
  acts_serial free l y → acts free l y = Some y' → reach free serial y y'.
Proof.
  revert y. induction l as [|a l IH]; intros y Hok Hl; [injection Hl as ->; apply rtc_refl|].
  cbn [acts] in Hl. cbn [acts_serial] in Hok. destruct Hok as [Ha Hok].
  destruct (act free a y) as [y1|] eqn:Hy; [|done].
  eapply rtc_l; [by eapply step_act|]. by apply IH.
Qed.

Definition toy_sys : @sys string nat toy_world := initial toy_node_config Z.even 1 2 (mkToy 0 ∅ ∅).


(** A Start request on a node whose only running backend is the current
    one ends, when it succeeds, with a new current backend that is the only
    one running, and reports that backend; when it fails, with no backend at
    all. *)
Theorem start_replaces_backend {UUID B Wd : Type} `{!Backends B Wd} `{!BackendLaws B Wd}
    (env : environ) (data : Backend) (c : @Controller UUID B) (w : Wd) (Hok : be_ok w) (Hsole : sole c w) :
  match rpc_Start env data (c, w) with
  | (Ok info, (c', w')) => ∃ b, c_backend c' = Some b ∧ sole c' w' ∧
      BaseInfoResponse_Started info = be_Started b w' ∧ c_lastRequest c' = e_now env
  | (Err _, (c', w')) => c_backend c' = None ∧ ∀ b, be_Started b w' = false
  end.
Proof.
  rewrite start_eq. pose proof (disconnect_sole env c w Hok Hsole) as (Hn & Hok1 & Hs1).
  destruct (if_connected env (c, w)) as [c1 w1]. cbn [fst snd] in Hn, Hok1, Hs1.
  pose proof (StartBackend_starts data c1 w1 Hok1) as Hst.
  unfold start_session, modify_c, modify, get, mbind, eff_bind, mret, eff_ret.
  destruct (Controller_StartBackend data (c1, w1)) as [[u|e] [c2 w2]].
  - destruct Hst as (_ & b & -> & Hb). exists b. cbn. split_and!; [done| |done|done].
    intros b' Hb'. destruct (Hb b' Hb') as [->|Hold]; [done|]. by rewrite (sole_none c1 w1 Hs1 Hn) in Hold.
  - destruct Hst as (_ & -> & Hw). split; [done|]. intros b.
    eapply starts_none_stopped; [exact Hw|]. by apply (sole_none c1 w1).
Qed.

Lemma start_replaces_backend_witness :
  sole toy_running.1 toy_running.2 ∧
  match rpc_Start (toy_env 8) (toy_backend_msg 0) toy_running with
  | (Ok _, (c', w')) => ∃ b, c_backend c' = Some b ∧ sole c' w' ∧ tw_next w' = 2%nat
  | (Err _, _) => False
  end.
Proof.
  assert (sole toy_running.1 toy_running.2) as Hs.
  { assert (tw_running toy_running.2 = {[0%nat]} ∧ c_backend toy_running.1 = Some 0%nat) as [Hr Hc]
      by (split; vm_compute; reflexivity).
    intros b Hb. cbn in Hb. rewrite Hr in Hb. apply bool_decide_eq_true, elem_of_singleton in Hb.
    rewrite Hc, Hb. reflexivity. }
  split; [exact Hs|].
  assert (be_ok toy_running.2) as Hwok by exact I.
  pose proof (start_replaces_backend (toy_env 8) (toy_backend_msg 0) toy_running.1 toy_running.2 Hwok Hs) as Ht.
  rewrite <- surjective_pairing in Ht.
  assert (is_ok (rpc_Start (toy_env 8) (toy_backend_msg 0) toy_running).1 = true ∧
    tw_next (rpc_Start (toy_env 8) (toy_backend_msg 0) toy_running).2.2 = 2%nat) as [Hok Hn]
    by (split; vm_compute; reflexivity).
  destruct (rpc_Start (toy_env 8) (toy_backend_msg 0) toy_running) as [[info|e] [c' w']];
    [|discriminate Hok].
  destruct Ht as (b & Hb & Hs' & _). exists b. split_and!; [exact Hb|exact Hs'|exact Hn].
Defined.

(** ** Observations *)

(** A keep-alive tracker that has read the backend while a client replaces it
    forgets the new backend when it goes on: the new backend runs and the
    controller has none. *)
Definition race : list action :=
  [ABegin (ReqStart (toy_backend_msg 1)) 5 1 2; ACtl; ACtl; ACtl; AEnd;
   ATick 1 (6 * 10 ^ 9) 1 2; AKeepAlive 1; AKeepAlive 1; AKeepAlive 1;
   ABegin (ReqStart (toy_backend_msg 1)) (6 * 10 ^ 9) 1 2; ACtl; ACtl; ACtl; ACtl; ACtl; ACtl; ACtl; AEnd;
   AKeepAlive 1; AKeepAlive 1].

Lemma keep_alive_orphans_backend :
  ∃ y, reach Z.even (λ _ _, True) toy_sys y ∧ y_ctl y = None ∧ y_ka y = ∅ ∧
    c_backend (y_s y).1 = None ∧ be_Started 1%nat (y_s y).2 = true.
Proof.
  destruct (acts Z.even race toy_sys) as [y|] eqn:Hy; [|vm_compute in Hy; discriminate Hy].
  exists y. split; [by eapply acts_reach|]. vm_compute in Hy. injection Hy as <-. by vm_compute.
Qed.

(** A keep-alive of more than about 292 years overflows [time.Duration]: the
    session expires at once. *)
Lemma huge_keep_alive_expires (c : @Controller string nat) :
  keepAlive_expired (c_lastRequest c) (seconds 9223372037) c = true.
Proof. unfold keepAlive_expired. rewrite Z.sub_diag. reflexivity. Qed.

(** When no port from the random start on is free, the port handed out is not
    a port. *)
Lemma FindFreePort_range free rnd : 0 <= rnd < 50000 →
  10000 <= FindFreePort free rnd <= 65536 ∧
  (FindFreePort free rnd ≠ 65536 → free (FindFreePort free rnd) = true).
Proof.
  intros Hr. unfold FindFreePort.
  destruct (find_port_spec (Z.to_nat (65536 - (rnd + 10000))) free (rnd + 10000)) as [Hb Hf].
  split; [lia|]. intros Hne. apply Hf. lia.
Qed.

Lemma FindFreePort_exhausted : FindFreePort (λ _, false) 49999 = 65536.
Proof. vm_compute. reflexivity. Qed.
