(* ===== verification/WgTypes.v ===== *)
(** * The WireGuard control library and the kernel, as the backend uses them

    Keys, peer configurations and network devices belong to the awgctrl and
    netlink packages, which are not part of this repository: they are the
    classes [WgKeys] and [Kernel], whose laws state the documented behaviour
    the backend relies on.  [toy_keys] and [toy_kernel] are concrete instances
    that the witnesses compute with. *)

From Stdlib Require Import Ascii.
From S2P Require Import Prelude GoString GoNet.

(** ** Keys ([wgtypes.Key]) *)

(** A key prints as its standard base64 text, which parses back.  Parsing also
    accepts other spellings of the same key (line breaks, non-zero trailing
    bits), so it is not injective. *)
Class WgKeys := {
  Key : Type;
  Key_eq_dec :: EqDecision Key;
  Key_countable :: Countable Key;
  ParseKey : string → result Key;
  Key_String : Key → string;
  ParseKey_String k : ParseKey (Key_String k) = Ok k
}.

#[export] Instance Key_String_inj `{WgKeys} : Inj (=) (=) Key_String.
Proof.
  intros k k' Heq. pose proof (ParseKey_String k) as Hk.
  rewrite Heq, ParseKey_String in Hk. congruence.
Qed.

Section Devices.
Context `{WgKeys}.

(** [wgtypes.PeerConfig], the fields the backend sets; the keep-alive interval
    is in nanoseconds. *)
Record PeerConfig := mkPeerConfig {
  PC_PublicKey : Key;
  PC_Remove : bool;
  PC_PresharedKey : option Key;
  PC_PersistentKeepaliveInterval : option Z;
  PC_ReplaceAllowedIPs : bool;
  PC_AllowedIPs : list IPNet;
  PC_AdvancedSecurity : bool
}.

(** The obfuscation profile of an AmneziaWG device. *)
Record AwgProfile := mkAwgProfile {
  AWG_Jc : option Z; AWG_Jmin : option Z; AWG_Jmax : option Z;
  AWG_S1 : option Z; AWG_S2 : option Z; AWG_S3 : option Z; AWG_S4 : option Z;
  AWG_H1 : option string; AWG_H2 : option string; AWG_H3 : option string; AWG_H4 : option string;
  AWG_I1 : option string; AWG_I2 : option string; AWG_I3 : option string;
  AWG_I4 : option string; AWG_I5 : option string
}.

Definition no_profile : AwgProfile :=
  mkAwgProfile None None None None None None None None None None None None None None None None.

(** [wgtypes.Config]. *)
Record DeviceConfig := mkDeviceConfig {
  DC_PrivateKey : option Key;
  DC_ListenPort : option Z;
  DC_ReplacePeers : bool;
  DC_Peers : list PeerConfig;
  DC_Profile : AwgProfile
}.

(** [wgtypes.Peer], as [Device] reports it; times are nanoseconds since Go's
    zero time. *)
Record DevicePeer := mkDevicePeer {
  DP_PublicKey : Key;
  DP_LastHandshakeTime : Z;
  DP_EndpointIP : option string;
  DP_ReceiveBytes : Z;
  DP_TransmitBytes : Z
}.

(** ** What the kernel does with a configuration

    A device is seen as its peers and its cryptokey routing table, which maps
    each allowed network to the one peer it belongs to: giving a network to a
    peer takes it away from the peer that had it. *)

Record DeviceView := mkDeviceView {
  dv_peers : gset Key;
  dv_routes : gmap string Key
}.

Definition drop_routes (k : Key) (r : gmap string Key) : gmap string Key :=
  filter (λ ik, ik.2 ≠ k) r.

Definition add_routes (k : Key) (ips : list IPNet) (r : gmap string Key) : gmap string Key :=
  foldl (λ r ip, <[IPNet_String ip := k]> r) r ips.

Definition configure_peer (d : DeviceView) (c : PeerConfig) : DeviceView :=
  let k := PC_PublicKey c in
  if PC_Remove c then mkDeviceView (dv_peers d ∖ {[k]}) (drop_routes k (dv_routes d))
  else mkDeviceView ({[k]} ∪ dv_peers d)
         (add_routes k (PC_AllowedIPs c)
            (if PC_ReplaceAllowedIPs c then drop_routes k (dv_routes d) else dv_routes d)).

Definition no_peers : DeviceView := mkDeviceView ∅ ∅.

Definition configure_view (d : DeviceView) (c : DeviceConfig) : DeviceView :=
  foldl configure_peer (if DC_ReplacePeers c then no_peers else d) (DC_Peers c).

End Devices.

(** ** The kernel ([netlinkOps], [wgClient], [wgctrl.New]) *)

Inductive LinkKind := Link_wireguard | Link_amneziawg.

(** The operations act on the host's network state [K]; any of them can fail.
    [dev k name] is the device behind the link [name], if the link exists.  The
    laws are about successful calls and about calls that only read. *)
Class Kernel `{WgKeys} := {
  K : Type;
  Addr : Type;
  Addr_String : Addr → string;
  Link : Type;
  Link_Name : Link → string;
  Link_Statistics : Link → option (Z * Z);
  dev : K → string → option DeviceView;

  nl_ParseAddr : string → eff K Addr;
  nl_LinkAdd : LinkKind → string → eff K unit;
  nl_LinkByName : string → eff K Link;
  nl_AddrAdd : Link → Addr → eff K unit;
  nl_LinkSetUp : Link → eff K unit;
  nl_LinkDel : Link → eff K unit;
  client_New : eff K unit;
  client_ConfigureDevice : string → DeviceConfig → eff K unit;
  client_Device : string → eff K (list DevicePeer);
  client_Close : eff K unit;

  ParseAddr_dev s k : dev (nl_ParseAddr s k).2 = dev k;
  LinkByName_dev s k : dev (nl_LinkByName s k).2 = dev k;
  AddrAdd_dev l a k : dev (nl_AddrAdd l a k).2 = dev k;
  LinkSetUp_dev l k : dev (nl_LinkSetUp l k).2 = dev k;
  New_dev k : dev (client_New k).2 = dev k;
  Device_dev s k : dev (client_Device s k).2 = dev k;
  Close_dev k : dev (client_Close k).2 = dev k;

  LinkByName_Ok s k l k' : nl_LinkByName s k = (Ok l, k') → Link_Name l = s ∧ is_Some (dev k s);
  LinkByName_NotFound s k e k' :
    nl_LinkByName s k = (Err e, k') → errors_Is e LinkNotFound = true → dev k s = None;
  LinkAdd_Ok kd s k k' : nl_LinkAdd kd s k = (Ok (), k') → dev k' s = Some no_peers;
  LinkDel_Ok l k k' : nl_LinkDel l k = (Ok (), k') → dev k' (Link_Name l) = None;
  ConfigureDevice_Ok s c k k' :
    client_ConfigureDevice s c k = (Ok (), k') →
    ∃ d, dev k s = Some d ∧ dev k' s = Some (configure_view d c)
}.

(** ** Commands and files of the host

    [exec.Command(...).CombinedOutput()] and [Output()] return the output with
    or without an error; the [ip] and [nft] commands the backend runs do not touch WireGuard
    devices. *)
Class Host `{Kernel} := {
  exec_CombinedOutput : list string → K → string * option goerr * K;
  exec_Output : list string → K → string * option goerr * K;
  os_ReadFile : string → eff K string;
  os_WriteFile : string → string → eff K unit;
  exec_dev args k : dev (exec_CombinedOutput args k).2 = dev k;
  exec_Output_dev args k : dev (exec_Output args k).2 = dev k;
  ReadFile_dev f k : dev (os_ReadFile f k).2 = dev k;
  WriteFile_dev f s k : dev (os_WriteFile f s k).2 = dev k
}.

(** ** Lemmas on cryptokey routing *)

Section Routes.
Context `{WgKeys}.
Implicit Types r : gmap string Key.

Lemma add_routes_lookup k ips r s :
  add_routes k ips r !! s = if decide (s ∈ IPNet_String <$> ips) then Some k else r !! s.
Proof.
  unfold add_routes. induction ips as [|ip ips IH] using rev_ind.
  { by rewrite decide_False by set_solver. }
  rewrite foldl_snoc, lookup_insert, IH, fmap_app. simpl.
  destruct (decide (IPNet_String ip = s)); repeat case_decide; set_solver.
Qed.

Lemma drop_routes_lookup k r s :
  drop_routes k r !! s = r !! s ≫= λ k', if decide (k' = k) then None else Some k'.
Proof.
  unfold drop_routes. rewrite map_lookup_filter. destruct (r !! s) as [k'|]; simpl; [|done].
  repeat case_guard; repeat case_decide; simpl in *; naive_solver.
Qed.

Lemma configure_view_snoc d c cs k p rp pr :
  configure_view d (mkDeviceConfig k p rp (cs ++ [c]) pr)
  = configure_peer (configure_view d (mkDeviceConfig k p rp cs pr)) c.
Proof. unfold configure_view. simpl. by rewrite foldl_snoc. Qed.
End Routes.

(** ** A concrete instance of the key library *)

(** Keys are strings, printed with a leading ["K"]; the leading ["k"] is a
    second spelling of the same key, and anything else does not parse. *)
Definition toy_ParseKey (s : string) : result string :=
  match s with
  | String "K"%char k | String "k"%char k => Ok k
  | _ => Err (errors_New "wgtypes: failed to parse base64-encoded key")
  end.

#[local] Instance toy_keys : WgKeys := {
  Key := string;
  ParseKey := toy_ParseKey;
  Key_String k := String "K"%char k;
  ParseKey_String k := eq_refl
}.
