(* ===== verification/WgToy.v ===== *)
(** * A concrete kernel

    An instance of the classes of [WgTypes] whose operations compute, for the
    witnesses of theorems that assume a kernel: links are a map, and the
    operations named in [tk_faults] fail without effect (deleting a link never fails). *)

From S2P Require Import Prelude GoString GoNet WgTypes.

#[local] Existing Instance toy_keys.

Record toy_state := mkToy {
  tk_links : gmap string DeviceView;
  tk_report : list DevicePeer;
  tk_faults : list string;
  tk_files : gmap string string
}.

Definition set_links (k : toy_state) (l : gmap string DeviceView) : toy_state :=
  mkToy l (tk_report k) (tk_faults k) (tk_files k).

(** Run [ok] unless the operation is set to fail. *)
Definition toy_op {A} (name : string) (ok : eff toy_state A) : eff toy_state A := λ k,
  if slices_Contains (tk_faults k) name then (Err (GoErr (name +:+ " failed") [EPERM]), k) else ok k.

Definition toy_LinkByName (s : string) : eff toy_state string := λ k,
  match tk_links k !! s with
  | Some _ => (Ok s, k)
  | None => (Err (GoErr "Link not found" [LinkNotFound]), k)
  end.

Definition toy_LinkAdd (s : string) : eff toy_state unit :=
  toy_op "LinkAdd" (λ k,
    match tk_links k !! s with
    | Some _ => (Err (errors_New "file exists"), k)
    | None => (Ok (), set_links k (<[s := no_peers]> (tk_links k)))
    end).

Definition toy_Configure (s : string) (c : DeviceConfig) : eff toy_state unit :=
  toy_op "Configure" (λ k,
    match tk_links k !! s with
    | Some d => (Ok (), set_links k (<[s := configure_view d c]> (tk_links k)))
    | None => (Err (errors_New "no such device"), k)
    end).

#[local] Program Instance toy_kernel : Kernel := {
  K := toy_state;
  Addr := string;
  Addr_String a := a;
  Link := string;
  Link_Name l := l;
  Link_Statistics l := None;
  dev k := λ s, tk_links k !! s;
  nl_ParseAddr s := toy_op "ParseAddr" (mret s);
  nl_LinkAdd kd s := toy_LinkAdd s;
  nl_LinkByName := toy_LinkByName;
  nl_AddrAdd l a := toy_op "AddrAdd" (mret ());
  nl_LinkSetUp l := toy_op "LinkSetUp" (mret ());
  nl_LinkDel l := λ k, (Ok (), set_links k (delete l (tk_links k)));
  client_New := toy_op "New" (mret ());
  client_ConfigureDevice := toy_Configure;
  client_Device s := toy_op "Device" (λ k, (Ok (tk_report k), k));
  client_Close := toy_op "Close" (mret ())
}.
Next Obligation. intros. simpl. unfold toy_op. by case_match. Qed.
Next Obligation. intros. simpl. unfold toy_LinkByName. by case_match. Qed.
Next Obligation. intros. simpl. unfold toy_op. by case_match. Qed.
Next Obligation. intros. simpl. unfold toy_op. by case_match. Qed.
Next Obligation. intros. simpl. unfold toy_op. by case_match. Qed.
Next Obligation. intros. simpl. unfold toy_op. by case_match. Qed.
Next Obligation. intros. simpl. unfold toy_op. by case_match. Qed.
Next Obligation.
  unfold toy_LinkByName. intros s k l k' H. destruct (tk_links k !! s); simplify_eq. eauto.
Qed.
Next Obligation.
  unfold toy_LinkByName. intros s k e k' H _. simpl in *. by destruct (tk_links k !! s).
Qed.
Next Obligation.
  unfold toy_LinkAdd, toy_op. intros kd s k k' H.
  destruct (slices_Contains _ _); [done|]. destruct (tk_links k !! s); simplify_eq/=.
  by rewrite lookup_insert_eq.
Qed.
Next Obligation.
  intros l k k' H. simplify_eq/=. by rewrite lookup_delete_eq.
Qed.
Next Obligation.
  unfold toy_Configure, toy_op. intros s c k k' H.
  destruct (slices_Contains _ _); [done|]. destruct (tk_links k !! s) as [d|] eqn:Hd; simplify_eq/=.
  exists d. by rewrite lookup_insert_eq.
Qed.

#[local] Program Instance toy_host : Host := {
  exec_CombinedOutput args k := (default "" (tk_files k !! Join args " "), None, k);
  exec_Output args k := (default "" (tk_files k !! Join args " "), None, k);
  os_ReadFile f := λ k,
    match tk_files k !! f with
    | Some s => (Ok s, k)
    | None => (Err (errors_New "no such file"), k)
    end;
  os_WriteFile f s := λ k, (Ok (), mkToy (tk_links k) (tk_report k) (tk_faults k) (<[f := s]> (tk_files k)))
}.
Next Obligation. done. Qed.
Next Obligation. done. Qed.
Next Obligation. intros. simpl. by case_match. Qed.
Next Obligation. done. Qed.
