(* ===== verification/PeerStore.v ===== *)
(** * The peer store ([src/backend/wireguard/peer_store.go])

    The runtime roster of WireGuard peers: a map from public key to peer and
    an index from email to public key that is meant to be 1:1.  The abstract
    specification is a [roster], a map from email to peer; [roster] of a store
    is the abstraction function, and the operations refine [r_remove] and
    [r_upsert]. *)

From S2P Require Import Prelude GoString GoNet WgTypes.

Section PeerStore.
Context `{WgKeys}.

(** ** Data *)

Record PeerInfo := mkPeerInfo {
  PI_Email : string;
  PI_PublicKey : Key;
  PI_AllowedIPs : list IPNet
}.

#[global] Instance PeerInfo_eq_dec : EqDecision PeerInfo.
Proof. solve_decision. Defined.

(** The text a peer is filed under. *)
Definition peer_key (p : PeerInfo) : string := Key_String (PI_PublicKey p).

Record PeerStore := mkPeerStore {
  ps_peers : gmap string PeerInfo;
  ps_emailToKey : gmap string string
}.

Definition NewPeerStore : PeerStore := mkPeerStore ∅ ∅.

(** A copy of the peer and of its slice of networks: values do not alias
    here, so the copy is the value itself. *)
Definition clonePeerInfo (peer : option PeerInfo) : option PeerInfo :=
  match peer with
  | None => None
  | Some p => Some (mkPeerInfo (PI_Email p) (PI_PublicKey p) (PI_AllowedIPs p))
  end.

(** ** Operations *)

(** One iteration of [Init]'s loop, and of the loop of [ReplaceAll]. *)
Definition file_peer (ps : PeerStore) (peer : option PeerInfo) : PeerStore :=
  match clonePeerInfo peer with
  | None => ps
  | Some p =>
      mkPeerStore (<[peer_key p := p]> (ps_peers ps))
        (<[PI_Email p := peer_key p]> (ps_emailToKey ps))
  end.

Definition PeerStore_Init (ps : PeerStore) (peers : list (option PeerInfo)) : PeerStore :=
  foldl file_peer ps peers.

(** One iteration of the removal loop of [ApplyChanges]. *)
Definition remove_key (acc : PeerStore * list string) (key : string) : PeerStore * list string :=
  let '(ps, removed) := acc in
  match ps_peers ps !! key with
  | Some peer =>
      (mkPeerStore (delete key (ps_peers ps)) (delete (PI_Email peer) (ps_emailToKey ps)),
       removed ++ [key])
  | None => (ps, removed)
  end.

(** One iteration of the upsert loop of [ApplyChanges]. *)
Definition upsert_peer (ps : PeerStore) (peer : option PeerInfo) : PeerStore :=
  match clonePeerInfo peer with
  | None => ps
  | Some p =>
      let ps :=
        match ps_emailToKey ps !! PI_Email p with
        | Some oldKey =>
            if bool_decide (oldKey ≠ peer_key p)
            then mkPeerStore (delete oldKey (ps_peers ps)) (ps_emailToKey ps) else ps
        | None => ps
        end in
      let ps :=
        match ps_peers ps !! peer_key p with
        | Some existing =>
            if bool_decide (PI_Email existing ≠ PI_Email p)
            then mkPeerStore (ps_peers ps) (delete (PI_Email existing) (ps_emailToKey ps)) else ps
        | None => ps
        end in
      mkPeerStore (<[peer_key p := p]> (ps_peers ps))
        (<[PI_Email p := peer_key p]> (ps_emailToKey ps))
  end.

Definition PeerStore_ApplyChanges (ps : PeerStore) (removeKeys : list string)
    (upsertPeers : list (option PeerInfo)) : PeerStore * list string :=
  let '(ps, removed) := foldl remove_key (ps, []) removeKeys in
  (foldl upsert_peer ps upsertPeers, removed).

Definition PeerStore_ReplaceAll (ρ : map_range) (ps : PeerStore) (peers : list (option PeerInfo))
    : PeerStore * list string :=
  let new := foldl file_peer NewPeerStore peers in
  let removed :=
    foldl (λ removed oldKey,
             match ps_peers new !! oldKey with
             | Some _ => removed
             | None => removed ++ [oldKey]
             end) [] (range_of ρ (ps_peers ps)).*1 in
  (new, removed).

Definition PeerStore_GetByEmail (ps : PeerStore) (email : string) : option PeerInfo :=
  match ps_emailToKey ps !! email with
  | Some key => clonePeerInfo (ps_peers ps !! key)
  | None => None
  end.

Definition PeerStore_GetByKey (ps : PeerStore) (publicKey : string) : option PeerInfo :=
  clonePeerInfo (ps_peers ps !! publicKey).

Definition PeerStore_GetAll (ρ : map_range) (ps : PeerStore) : list PeerInfo :=
  (range_of ρ (ps_peers ps)).*2.

Definition PeerStore_GetEmailMap (ρ : map_range) (ps : PeerStore) : gmap string string :=
  foldl (λ snapshot kp, <[kp.1 := PI_Email kp.2]> snapshot) ∅ (range_of ρ (ps_peers ps)).

(** ** The invariant and the abstract roster *)

Definition store_ok (ps : PeerStore) : Prop :=
  (∀ k p, ps_peers ps !! k = Some p →
     peer_key p = k ∧ ps_emailToKey ps !! PI_Email p = Some k) ∧
  (∀ e k, ps_emailToKey ps !! e = Some k →
     ∃ p, ps_peers ps !! k = Some p ∧ PI_Email p = e).

Definition roster (ps : PeerStore) : gmap string PeerInfo :=
  omap (λ k, ps_peers ps !! k) (ps_emailToKey ps).

(** Removing the peer with key [k], whoever has it. *)
Definition r_remove (k : string) (r : gmap string PeerInfo) : gmap string PeerInfo :=
  filter (λ ep, peer_key ep.2 ≠ k) r.

(** Giving [p] to its user, and its key to nobody else. *)
Definition r_upsert (p : PeerInfo) (r : gmap string PeerInfo) : gmap string PeerInfo :=
  <[PI_Email p := p]> (r_remove (peer_key p) r).

(** ** Facts *)

Lemma clonePeerInfo_id p : clonePeerInfo p = p.
Proof. by destruct p as [[]|]. Qed.

Lemma GetByEmail_roster ps e : PeerStore_GetByEmail ps e = roster ps !! e.
Proof.
  unfold PeerStore_GetByEmail, roster. rewrite lookup_omap.
  destruct (ps_emailToKey ps !! e); simpl; by rewrite ?clonePeerInfo_id.
Qed.

Lemma GetByKey_eq ps k : PeerStore_GetByKey ps k = ps_peers ps !! k.
Proof. apply clonePeerInfo_id. Qed.

Lemma store_ok_new : store_ok NewPeerStore.
Proof. split; intros ??; simpl; by rewrite lookup_empty. Qed.

(** Under the invariant the two maps are one: a peer is found by its key
    exactly when it is found by its email. *)
Lemma roster_peers ps e p :
  store_ok ps → roster ps !! e = Some p ↔ ps_peers ps !! peer_key p = Some p ∧ PI_Email p = e.
Proof.
  intros [H1 H2]. unfold roster. rewrite lookup_omap, bind_Some. split.
  - intros (k & Hk & Hp). destruct (H2 _ _ Hk) as (q & Hq & <-).
    destruct (H1 _ _ Hp) as [<- ?]. naive_solver.
  - intros [Hp <-]. destruct (H1 _ _ Hp) as [_ He]. eauto.
Qed.

Lemma roster_email ps e p : store_ok ps → roster ps !! e = Some p → PI_Email p = e.
Proof. intros Hok. rewrite roster_peers by done. naive_solver. Qed.

Lemma peers_roster ps k p :
  store_ok ps → ps_peers ps !! k = Some p ↔ roster ps !! PI_Email p = Some p ∧ peer_key p = k.
Proof.
  intros Hok. rewrite roster_peers by done. split; [|naive_solver].
  intros Hp. destruct (proj1 Hok _ _ Hp) as [Hk _]. by rewrite Hk.
Qed.

(** No two users share a key. *)
Lemma roster_key_inj ps e e' p p' :
  store_ok ps → roster ps !! e = Some p → roster ps !! e' = Some p' →
  peer_key p = peer_key p' → e = e' ∧ p = p'.
Proof.
  intros Hok. rewrite !roster_peers by done. intros [Hp <-] [Hp' <-] Hk.
  rewrite Hk in Hp. naive_solver.
Qed.

Lemma remove_key_ok ps removed k :
  store_ok ps → store_ok (remove_key (ps, removed) k).1.
Proof.
  intros [H1 H2]. simpl. destruct (ps_peers ps !! k) as [p|] eqn:Hp; [|done].
  destruct (H1 _ _ Hp) as [Hk He]. split; simpl.
  - intros k' p'. rewrite lookup_delete_Some. intros [Hne Hp'].
    destruct (H1 _ _ Hp') as [? He']. split; [done|].
    rewrite lookup_delete_ne; [done|]. intros Heq. rewrite Heq in He. congruence.
  - intros e k'. rewrite lookup_delete_Some. intros [Hne He'].
    destruct (H2 _ _ He') as (q & Hq & Hqe). exists q. split; [|done].
    rewrite lookup_delete_ne; [done|]. intros ->. congruence.
Qed.

Lemma remove_key_roster ps removed k :
  store_ok ps → roster (remove_key (ps, removed) k).1 = r_remove k (roster ps).
Proof.
  intros Hok. pose proof (remove_key_ok ps removed k Hok) as Hok'.
  apply map_eq. intros e. apply option_eq. intros p.
  rewrite roster_peers by done. unfold r_remove.
  rewrite map_lookup_filter_Some, roster_peers by done. simpl.
  destruct (ps_peers ps !! k) as [q|] eqn:Hq; simpl; rewrite ?lookup_delete_Some; naive_solver.
Qed.

(** The conditions of an upsert only avoid work: it evicts the user's previous
    key and the key's previous user. *)
Lemma upsert_peer_eq ps p :
  upsert_peer ps (Some p) =
  mkPeerStore
    (<[peer_key p := p]>
       (from_option (λ old, delete old (ps_peers ps)) (ps_peers ps) (ps_emailToKey ps !! PI_Email p)))
    (<[PI_Email p := peer_key p]>
       (from_option (λ ex, delete (PI_Email ex) (ps_emailToKey ps)) (ps_emailToKey ps)
          (ps_peers ps !! peer_key p))).
Proof.
  unfold upsert_peer. rewrite clonePeerInfo_id.
  destruct (ps_emailToKey ps !! PI_Email p) as [old|] eqn:Hold; simpl.
  - case_bool_decide as Hne; simpl.
    + rewrite lookup_delete_ne by done.
      destruct (ps_peers ps !! peer_key p) as [ex|]; simpl; [|done].
      case_bool_decide as Hex; simpl; [done|].
      by rewrite Hex, insert_delete_eq.
    + subst old. rewrite insert_delete_eq.
      destruct (ps_peers ps !! peer_key p) as [ex|]; simpl; [|done].
      case_bool_decide as Hex; simpl; [done|].
      by rewrite Hex, insert_delete_eq.
  - destruct (ps_peers ps !! peer_key p) as [ex|]; simpl; [|done].
    case_bool_decide as Hex; simpl; [done|].
    by rewrite Hex, insert_delete_eq.
Qed.

Lemma delete_opt_Some {A} (o : option string) (m : gmap string A) k a :
  from_option (λ old, delete old m) m o !! k = Some a ↔ o ≠ Some k ∧ m !! k = Some a.
Proof. destruct o; simpl; rewrite ?lookup_delete_Some; naive_solver. Qed.

Lemma upsert_peers_Some ps p k q :
  ps_peers (upsert_peer ps (Some p)) !! k = Some q ↔
  (k = peer_key p ∧ q = p) ∨
  (k ≠ peer_key p ∧ ps_emailToKey ps !! PI_Email p ≠ Some k ∧ ps_peers ps !! k = Some q).
Proof.
  rewrite upsert_peer_eq. simpl. rewrite lookup_insert_Some, delete_opt_Some. naive_solver.
Qed.

Lemma upsert_emails_Some ps p e k :
  ps_emailToKey (upsert_peer ps (Some p)) !! e = Some k ↔
  (e = PI_Email p ∧ k = peer_key p) ∨
  (e ≠ PI_Email p ∧ PI_Email <$> ps_peers ps !! peer_key p ≠ Some e ∧
   ps_emailToKey ps !! e = Some k).
Proof.
  rewrite upsert_peer_eq. simpl. rewrite lookup_insert_Some.
  destruct (ps_peers ps !! peer_key p) as [ex|]; simpl; rewrite ?lookup_delete_Some; naive_solver.
Qed.

Lemma upsert_peer_ok ps p : store_ok ps → store_ok (upsert_peer ps p).
Proof.
  intros [H1 H2]. destruct p as [p|]; [|done]. split.
  - intros k q. rewrite upsert_peers_Some, upsert_emails_Some.
    intros [[-> ->]|(Hk & He & Hq)]; [naive_solver|]. destruct (H1 _ _ Hq) as [Hqk Hqe].
    split; [done|]. right. split_and!; [congruence| |done].
    destruct (ps_peers ps !! peer_key p) as [ex|] eqn:Hex; simpl; [|done].
    intros [= Heq]. destruct (H1 _ _ Hex) as [Hxk Hxe]. congruence.
  - intros e k. rewrite upsert_emails_Some.
    intros [[-> ->]|(He & Hex & Hk)].
    + exists p. rewrite upsert_peers_Some. naive_solver.
    + destruct (H2 _ _ Hk) as (q & Hq & <-). exists q. split; [|done].
      rewrite upsert_peers_Some. right. split_and!; [| |done].
      * intros ->. by rewrite Hq in Hex.
      * intros Hpe. destruct (H2 _ _ Hpe) as (q' & Hq' & Hqe). congruence.
Qed.

Lemma upsert_peer_roster ps p :
  store_ok ps → roster (upsert_peer ps (Some p)) = r_upsert p (roster ps).
Proof.
  intros Hok. pose proof (upsert_peer_ok ps (Some p) Hok) as Hok'.
  apply map_eq. intros e. apply option_eq. intros q.
  rewrite roster_peers, upsert_peers_Some by done. unfold r_upsert, r_remove.
  rewrite lookup_insert_Some, map_lookup_filter_Some, roster_peers by done. simpl.
  split.
  - intros [[[Hk ->]|(Hk & He & Hq)] <-]; [naive_solver|]. right. split_and!; [|done..].
    intros Hpe. destruct (proj1 Hok _ _ Hq) as [_ Hqe]. congruence.
  - intros [[<- <-]|(He & [Hq <-] & Hk)]; [naive_solver|]. split; [|done]. right.
    split_and!; [done| |done]. intros Hpe. destruct Hok as [H1 H2].
    destruct (H2 _ _ Hpe) as (q' & Hq' & Hqe). congruence.
Qed.

(** ** The loops *)

Lemma remove_keys_spec ps ks :
  store_ok ps →
  let r := foldl remove_key (ps, []) ks in
  store_ok r.1 ∧ roster r.1 = foldl (λ r k, r_remove k r) (roster ps) ks ∧
  NoDup r.2 ∧ (∀ k, k ∈ r.2 ↔ k ∈ ks ∧ is_Some (ps_peers ps !! k)) ∧
  (∀ k, ps_peers r.1 !! k = if decide (k ∈ ks) then None else ps_peers ps !! k).
Proof.
  intros Hok. induction ks as [|k ks IH] using rev_ind; cbn [foldl fst snd].
  - split_and!; [done|done|constructor|set_solver|]. intros k. by rewrite decide_False by set_solver.
  - rewrite !foldl_snoc. destruct (foldl remove_key (ps, []) ks) as [ps1 removed].
    cbn [fst snd] in IH. destruct IH as (Hok1 & Hr & Hnd & Hin & Hps). split_and!.
    + by apply remove_key_ok.
    + by rewrite remove_key_roster, Hr.
    + simpl. destruct (ps_peers ps1 !! k) as [q|] eqn:Hq; simpl; [|done].
      apply NoDup_app. split_and!; [done| |apply NoDup_singleton].
      intros k' Hk' ->%list_elem_of_singleton. apply Hin in Hk' as [Hk' _].
      rewrite Hps, decide_True in Hq; done.
    + intros k'. simpl. specialize (Hps k).
      destruct (ps_peers ps1 !! k) as [q|] eqn:Hq; simpl;
        rewrite !elem_of_app, Hin, !list_elem_of_singleton.
      * case_decide; [done|]. naive_solver.
      * split; [naive_solver|].
        intros [[?| ->] [q Hk']]; [eauto|]. case_decide; [eauto|congruence].
    + intros k'. simpl. pose proof (Hps k) as Hpk.
      destruct (ps_peers ps1 !! k) as [q|] eqn:Hq; simpl.
      * destruct (decide (k = k')) as [->|Hne].
        { rewrite lookup_delete_eq, decide_True by set_solver. done. }
        rewrite lookup_delete_ne, Hps by done. repeat case_decide; set_solver.
      * rewrite Hps. destruct (decide (k = k')) as [->|Hne]; [|repeat case_decide; set_solver].
        rewrite Hps in Hq. rewrite Hq. by rewrite decide_True by set_solver.
Qed.

Lemma upserts_spec ps ups :
  store_ok ps →
  store_ok (foldl upsert_peer ps ups) ∧
  roster (foldl upsert_peer ps ups) = foldl (λ r p, r_upsert p r) (roster ps) (omap id ups).
Proof.
  intros Hok. induction ups as [|p ups IH] using rev_ind; [done|].
  rewrite !foldl_snoc. destruct IH as [Hok1 Hr]. split; [by apply upsert_peer_ok|].
  rewrite omap_app, foldl_app, <- Hr. destruct p as [p|]; [|done]. by apply upsert_peer_roster.
Qed.

Lemma ApplyChanges_spec ps ks ups :
  store_ok ps →
  let r := PeerStore_ApplyChanges ps ks ups in
  store_ok r.1 ∧
  roster r.1 = foldl (λ r p, r_upsert p r) (foldl (λ r k, r_remove k r) (roster ps) ks) (omap id ups) ∧
  NoDup r.2 ∧ (∀ k, k ∈ r.2 ↔ k ∈ ks ∧ is_Some (ps_peers ps !! k)).
Proof.
  intros Hok. unfold PeerStore_ApplyChanges.
  pose proof (remove_keys_spec ps ks Hok) as (Hok1 & Hr1 & Hnd & Hin & _).
  destruct (foldl remove_key (ps, []) ks) as [ps1 removed]. cbn [fst snd] in *.
  destruct (upserts_spec ps1 ups Hok1) as [Hok2 Hr2]. by rewrite Hr2, Hr1.
Qed.

(** What the abstract operations do to one user. *)
Lemma r_removes_lookup r ks e :
  foldl (λ r k, r_remove k r) r ks !! e
  = r !! e ≫= λ p, if decide (peer_key p ∈ ks) then None else Some p.
Proof.
  induction ks as [|k ks IH] using rev_ind.
  - simpl. by destruct (r !! e).
  - rewrite foldl_snoc. unfold r_remove at 1. rewrite map_lookup_filter, IH.
    destruct (r !! e) as [p|]; simpl; [|done].
    destruct (decide (peer_key p ∈ ks)); simpl; [by rewrite decide_True by set_solver|].
    destruct (decide (peer_key p = k)) as [Hk|Hk].
    + rewrite decide_True by set_solver. by case_guard.
    + rewrite decide_False by set_solver. by case_guard.
Qed.

Lemma r_upserts_other r ups e :
  e ∉ PI_Email <$> ups →
  foldl (λ r p, r_upsert p r) r ups !! e
  = r !! e ≫= λ q, if decide (peer_key q ∈ peer_key <$> ups) then None else Some q.
Proof.
  induction ups as [|p ups IH] using rev_ind; intros He; [simpl; by destruct (r !! e)|].
  rewrite fmap_app in He. rewrite foldl_snoc. unfold r_upsert at 1, r_remove.
  rewrite lookup_insert_ne by set_solver. rewrite map_lookup_filter, IH by set_solver.
  destruct (r !! e) as [q|]; simpl; [|done]. rewrite fmap_app. simpl.
  repeat case_decide; simpl; try case_guard; simpl in *; set_solver.
Qed.

Lemma r_upserts_elem r ups p :
  NoDup (PI_Email <$> ups) → NoDup (peer_key <$> ups) → p ∈ ups →
  foldl (λ r p, r_upsert p r) r ups !! PI_Email p = Some p.
Proof.
  induction ups as [|q ups IH] using rev_ind; [set_solver|].
  rewrite !fmap_app. intros (He1 & He2 & _)%NoDup_app (Hk1 & Hk2 & _)%NoDup_app.
  rewrite foldl_snoc, elem_of_app, list_elem_of_singleton. unfold r_upsert at 1, r_remove.
  intros [Hp| ->]; [|apply lookup_insert_eq].
  rewrite lookup_insert_ne.
  - rewrite map_lookup_filter, IH by done. simpl. case_guard as Hg; [done|].
    destruct (Hk2 (peer_key p)); [by apply list_elem_of_fmap_2|].
    simpl. rewrite Hg. set_solver.
  - intros Heq. destruct (He2 (PI_Email p)); [by apply list_elem_of_fmap_2|].
    simpl. rewrite Heq. set_solver.
Qed.

(** ** Replacing everything *)

Lemma file_peers_eq ps l :
  foldl file_peer ps (Some <$> l) =
  mkPeerStore (insert_all peer_key l (ps_peers ps))
    (foldl (λ m p, <[PI_Email p := peer_key p]> m) (ps_emailToKey ps) l).
Proof.
  revert ps. induction l as [|p l IH]; intros ps; [by destruct ps|].
  change (foldl file_peer (file_peer ps (Some p)) (Some <$> l) = mkPeerStore
    (insert_all peer_key (p :: l) (ps_peers ps))
    (foldl (λ m p, <[PI_Email p := peer_key p]> m) (ps_emailToKey ps) (p :: l))).
  rewrite IH. unfold file_peer. rewrite clonePeerInfo_id. done.
Qed.

Lemma file_emails_Some l e k :
  foldl (λ m p, <[PI_Email p := peer_key p]> m) (∅ : gmap string string) l !! e = Some k →
  ∃ p, p ∈ l ∧ PI_Email p = e ∧ peer_key p = k.
Proof.
  induction l as [|p l IH] using rev_ind; [done|].
  rewrite foldl_snoc, lookup_insert_Some. set_solver.
Qed.

Lemma file_emails_elem l p :
  NoDup (PI_Email <$> l) → p ∈ l →
  foldl (λ m p, <[PI_Email p := peer_key p]> m) (∅ : gmap string string) l !! PI_Email p
  = Some (peer_key p).
Proof.
  induction l as [|q l IH] using rev_ind; [set_solver|].
  rewrite fmap_app, foldl_snoc, elem_of_app, list_elem_of_singleton.
  intros (He1 & He2 & _)%NoDup_app [Hp| ->]; [|apply lookup_insert_eq].
  rewrite lookup_insert_ne; [auto|]. intros Heq.
  destruct (He2 (PI_Email p)); [by apply list_elem_of_fmap_2|]. simpl. rewrite Heq. set_solver.
Qed.

Lemma file_peers_spec l :
  NoDup (PI_Email <$> l) → NoDup (peer_key <$> l) →
  let ps := foldl file_peer NewPeerStore (Some <$> l) in
  store_ok ps ∧ (∀ e p, roster ps !! e = Some p ↔ p ∈ l ∧ PI_Email p = e) ∧
  (∀ k, is_Some (ps_peers ps !! k) ↔ k ∈ peer_key <$> l).
Proof.
  intros He Hk. rewrite file_peers_eq. simpl.
  assert (Hps : ∀ k p, insert_all peer_key l (∅ : gmap string PeerInfo) !! k = Some p ↔
                       p ∈ l ∧ peer_key p = k).
  { intros k p. split.
    - intros [?|[_ Hx]]%insert_all_Some; [done|]. by rewrite lookup_empty in Hx.
    - intros [? <-]. by apply insert_all_elem. }
  assert (store_ok (mkPeerStore (insert_all peer_key l ∅)
    (foldl (λ m p, <[PI_Email p := peer_key p]> m) ∅ l))) as Hok.
  { split; simpl.
    - intros k p [Hp Hpk]%Hps. split; [done|]. rewrite <- Hpk. by apply file_emails_elem.
    - intros e k (p & Hp & <- & <-)%file_emails_Some. exists p. split; [|done]. by apply Hps. }
  split_and!; [done| |].
  - intros e p. rewrite roster_peers by done. simpl. rewrite Hps. naive_solver.
  - intros k. rewrite insert_all_is_Some, lookup_empty. split; [intros [?|[]]; done|auto].
Qed.

Lemma ReplaceAll_removed ρ ps peers k :
  k ∈ (PeerStore_ReplaceAll ρ ps peers).2 ↔
  is_Some (ps_peers ps !! k) ∧ ps_peers (foldl file_peer NewPeerStore peers) !! k = None.
Proof.
  unfold PeerStore_ReplaceAll. cbn [snd]. rewrite <- (elem_of_range_keys ρ).
  generalize (ps_peers (foldl file_peer NewPeerStore peers)) as new. intros new.
  induction (range_of ρ (ps_peers ps)).*1 as [|x l IH] using rev_ind; [set_solver|].
  rewrite foldl_snoc. destruct (new !! x) as [q|] eqn:Hx.
  - rewrite IH. set_solver.
  - rewrite !elem_of_app, IH, list_elem_of_singleton. naive_solver.
Qed.

Lemma GetEmailMap_eq ρ ps k : PeerStore_GetEmailMap ρ ps !! k = PI_Email <$> ps_peers ps !! k.
Proof.
  unfold PeerStore_GetEmailMap.
  assert (Hl : ∀ l : list (string * PeerInfo), NoDup l.*1 →
    foldl (λ (s : gmap string string) kp, <[kp.1 := PI_Email kp.2]> s) ∅ l !! k
    = PI_Email <$> (list_to_map l : gmap string PeerInfo) !! k).
  { induction l as [|[k' p] l IH] using rev_ind; intros Hnd; [done|].
    rewrite fmap_app in Hnd. pose proof Hnd as (Hnd1 & Hnd2 & _)%NoDup_app.
    rewrite foldl_snoc, lookup_insert, IH by done. simpl.
    rewrite list_to_map_app, lookup_union. destruct (decide (k' = k)) as [->|Hne].
    - rewrite (not_elem_of_list_to_map_1 l k). simpl. by rewrite lookup_insert_eq.
      intros Hk. destruct (Hnd2 k Hk). set_solver.
    - simpl. rewrite lookup_insert_ne, lookup_empty, (right_id_L None union) by done. done. }
  rewrite Hl by apply range_nodup. by rewrite range_to_map.
Qed.

Lemma elem_of_GetAll ρ ps p :
  store_ok ps → p ∈ PeerStore_GetAll ρ ps ↔ roster ps !! PI_Email p = Some p.
Proof.
  intros Hok. unfold PeerStore_GetAll. rewrite list_elem_of_fmap, roster_peers by done. split.
  - intros ([k q] & -> & Hq%elem_of_range). simpl. by destruct (proj1 Hok _ _ Hq) as [-> _].
  - intros [Hp _]. exists (peer_key p, p). split; [done|]. by apply elem_of_range.
Qed.

(** ** Runs of the store against the roster *)

Inductive store_op :=
  | OpApply (removeKeys : list string) (upserts : list (option PeerInfo))
  | OpReplace (peers : list PeerInfo).

Definition run_op (ρ : map_range) (ps : PeerStore) (op : store_op) : PeerStore :=
  match op with
  | OpApply ks ups => (PeerStore_ApplyChanges ps ks ups).1
  | OpReplace peers => (PeerStore_ReplaceAll ρ ps (Some <$> peers)).1
  end.

Definition spec_op (r : gmap string PeerInfo) (op : store_op) : gmap string PeerInfo :=
  match op with
  | OpApply ks ups =>
      foldl (λ r p, r_upsert p r) (foldl (λ r k, r_remove k r) r ks) (omap id ups)
  | OpReplace peers => list_to_map ((λ p, (PI_Email p, p)) <$> peers)
  end.

(** [ReplaceAll] and [Init] do not check their argument: each user and each
    key may occur in it once. *)
Definition op_ok (op : store_op) : Prop :=
  match op with
  | OpApply _ _ => True
  | OpReplace peers => NoDup (PI_Email <$> peers) ∧ NoDup (peer_key <$> peers)
  end.

#[global] Instance op_ok_dec op : Decision (op_ok op).
Proof. destruct op; simpl; apply _. Defined.

Lemma run_op_spec ρ ps op :
  op_ok op → store_ok ps → store_ok (run_op ρ ps op) ∧ roster (run_op ρ ps op) = spec_op (roster ps) op.
Proof.
  destruct op as [ks ups|peers]; simpl.
  - intros _ Hok. destruct (ApplyChanges_spec ps ks ups Hok) as (? & ? & _). done.
  - intros [He Hk] _. destruct (file_peers_spec peers He Hk) as (Hok & Hr & _). split; [done|].
    apply map_eq. intros e. apply option_eq. intros p. rewrite Hr.
    rewrite <- elem_of_list_to_map by (rewrite <- list_fmap_compose; done).
    rewrite list_elem_of_fmap. naive_solver.
Qed.

Lemma run_ops_spec ρ first ops :
  Forall op_ok (OpReplace first :: ops) →
  let start := PeerStore_Init NewPeerStore (Some <$> first) in
  store_ok (foldl (run_op ρ) start ops) ∧
  roster (foldl (run_op ρ) start ops) = foldl spec_op (spec_op ∅ (OpReplace first)) ops.
Proof.
  intros Hops start. apply Forall_cons in Hops as [Hfirst Hops].
  destruct (run_op_spec ρ NewPeerStore (OpReplace first) Hfirst store_ok_new) as [Hok Hr].
  change (run_op ρ NewPeerStore (OpReplace first)) with start in *.
  induction ops as [|op ops IH] using rev_ind; [by split|].
  apply Forall_app in Hops as [Hops [Hop _]%Forall_cons]. rewrite !foldl_snoc.
  destruct (IH Hops) as [Hok' <-]. exact (run_op_spec ρ _ op Hop Hok').
Qed.
End PeerStore.

(** ** Properties *)

(** C35: over any run of [ApplyChanges] and [ReplaceAll] from a store set up by
    [Init], the store implements the abstract roster of peers by email: lookups
    by email read the roster, lookups by public key and the email map describe
    the same peers, and no two users ever share a key; provided the lists given
    to [Init] and [ReplaceAll], which do not check them, name each user once and
    each key once ([ApplyChanges] takes any list). *)
Theorem peer_store_refines_roster `{WgKeys} (ρ : map_range) (first : list PeerInfo) (ops : list store_op)
    (Hops : Forall op_ok (OpReplace first :: ops)) :
  let ps := foldl (run_op ρ) (PeerStore_Init NewPeerStore (Some <$> first)) ops in
  let r := foldl spec_op (list_to_map ((λ p, (PI_Email p, p)) <$> first)) ops in
  (∀ e, PeerStore_GetByEmail ps e = r !! e) ∧
  (∀ k p, PeerStore_GetByKey ps k = Some p ↔ r !! PI_Email p = Some p ∧ peer_key p = k) ∧
  (∀ ρ' k, PeerStore_GetEmailMap ρ' ps !! k = PI_Email <$> PeerStore_GetByKey ps k) ∧
  (∀ e e' p p', r !! e = Some p → r !! e' = Some p' → peer_key p = peer_key p' → e = e').
Proof.
  intros ps r. destruct (run_ops_spec ρ first ops Hops) as [Hok Hr]. fold ps in Hok, Hr.
  change (roster ps = r) in Hr. rewrite <- Hr. split_and!.
  - apply GetByEmail_roster.
  - intros k p. rewrite GetByKey_eq. by apply peers_roster.
  - intros ρ' k. by rewrite GetEmailMap_eq, GetByKey_eq.
  - intros e e' p p' Hp Hp' Hk. by destruct (roster_key_inj ps e e' p p').
Qed.

Lemma peer_store_refines_roster_witness :
  let p e k := @mkPeerInfo toy_keys e k [] in
  let first := [p "a" "9"; p "z" "8"] in
  let ops := [OpApply [] [Some (p "a" "1"); None; Some (p "b" "2")];
              OpReplace [p "b" "2"; p "c" "3"];
              OpApply ["K3"; "K9"] [Some (p "d" "2")]] in
  let ps := foldl (run_op std_range) (PeerStore_Init NewPeerStore (Some <$> first)) ops in
  Forall op_ok (OpReplace first :: ops) ∧
  PeerStore_GetByEmail ps "d" = Some (p "d" "2") ∧ PeerStore_GetByEmail ps "b" = None.
Proof.
  intros p first ops ps. assert (Forall op_ok (OpReplace first :: ops)) as Hok by (apply (bool_decide_unpack _); vm_compute; exact I).
  split; [exact Hok|]. unfold ps. split; rewrite (proj1 (peer_store_refines_roster std_range first ops Hok)); reflexivity.
Defined.

(** [ApplyChanges] on a well-formed store reports exactly the keys it
    removed, gives every upserted user the upserted peer, and leaves every
    other user's peer alone unless its key was removed or went to another
    user. *)
Theorem apply_changes_users `{WgKeys} (ps : PeerStore) (ks : list string) (ups : list PeerInfo)
    (Hok : store_ok ps) (He : NoDup (PI_Email <$> ups)) (Hk : NoDup (peer_key <$> ups)) :
  let r := PeerStore_ApplyChanges ps ks (Some <$> ups) in
  store_ok r.1 ∧
  NoDup r.2 ∧ (∀ k, k ∈ r.2 ↔ k ∈ ks ∧ is_Some (PeerStore_GetByKey ps k)) ∧
  (∀ p, p ∈ ups → PeerStore_GetByEmail r.1 (PI_Email p) = Some p) ∧
  (∀ e, e ∉ PI_Email <$> ups →
     PeerStore_GetByEmail r.1 e =
     PeerStore_GetByEmail ps e ≫= λ q,
       if decide (peer_key q ∈ ks ∨ peer_key q ∈ peer_key <$> ups) then None else Some q).
Proof.
  intros r. destruct (ApplyChanges_spec ps ks (Some <$> ups) Hok) as (Hok' & Hr & Hnd & Hin).
  fold r in Hok', Hr, Hnd, Hin.
  assert (omap id (Some <$> ups) = ups) as Hid by (clear; induction ups; by f_equal/=).
  rewrite Hid in Hr. split_and!; [done|done| | |].
  - intros k. by rewrite GetByKey_eq.
  - intros p Hp. rewrite GetByEmail_roster, Hr. by apply r_upserts_elem.
  - intros e Hne. rewrite !GetByEmail_roster, Hr, r_upserts_other, r_removes_lookup by done.
    destruct (roster ps !! e) as [q|]; simpl; [|done].
    repeat case_decide; simpl; repeat case_decide; naive_solver.
Qed.

Lemma apply_changes_users_witness :
  let p e k := @mkPeerInfo toy_keys e k [] in
  let ps := PeerStore_Init NewPeerStore [Some (p "a" "1"); Some (p "b" "2")] in
  let ups := [p "c" "2"] in
  (store_ok ps ∧ NoDup (PI_Email <$> ups) ∧ NoDup (peer_key <$> ups)) ∧
  PeerStore_GetByEmail (PeerStore_ApplyChanges ps ["K7"] (Some <$> ups)).1 "a" = Some (p "a" "1").
Proof.
  intros p ps ups.
  assert (store_ok ps) as Hok by (apply (file_peers_spec [p "a" "1"; p "b" "2"]);
    apply (bool_decide_unpack _); vm_compute; exact I).
  assert (NoDup (PI_Email <$> ups)) as He by apply NoDup_singleton.
  assert (NoDup (peer_key <$> ups)) as Hk by apply NoDup_singleton.
  split; [done|]. destruct (apply_changes_users ps ["K7"] ups Hok He Hk) as (_ & _ & _ & _ & Ho).
  rewrite Ho by (apply (bool_decide_unpack _); vm_compute; exact I). reflexivity.
Defined.
