(* ===== verification/WgConfig.v ===== *)
(** * The WireGuard configuration ([src/backend/wireguard/config.go])

    [NewConfig] fills in defaults and validates an AmneziaWG profile;
    [InterfaceNetworks] are the address ranges the interface serves; the keys
    are parsed once and cached.  Decoding JSON into the struct is a parameter,
    as is the profile validation of the awgctrl library. *)

From S2P Require Import Prelude GoString GoNet WgTypes.

(** [wgtypes.Config.Validate]. *)
Class AwgLib := { Validate : AwgProfile → result unit }.

Section WgConfig.
Context `{WgKeys}.

Record LatencyConfig := mkLatencyConfig {
  LC_TestURL : string;
  LC_TimeoutSeconds : Z
}.

Record Config := mkConfig {
  InterfaceName : string;
  PrivateKey : string;
  PreSharedKey : string;
  ListenPort : Z;
  Address : list string;
  Config_Latency : option LatencyConfig;
  AmneziaWG : bool;
  Config_Jc : option Z; Config_Jmin : option Z; Config_Jmax : option Z;
  Config_S1 : option Z; Config_S2 : option Z; Config_S3 : option Z; Config_S4 : option Z;
  Config_H1 : string; Config_H2 : string; Config_H3 : string; Config_H4 : string;
  Config_I1 : string; Config_I2 : string; Config_I3 : string; Config_I4 : string; Config_I5 : string;
  privateKeyValue : option Key;      (** [None] stands for [privateKeySet = false] *)
  presharedKeyValue : option (option Key)
}.

Definition set_names (c : Config) (name : string) (port : Z) (lat : LatencyConfig) : Config :=
  mkConfig name (PrivateKey c) (PreSharedKey c) port (Address c) (Some lat) (AmneziaWG c)
    (Config_Jc c) (Config_Jmin c) (Config_Jmax c) (Config_S1 c) (Config_S2 c) (Config_S3 c) (Config_S4 c) (Config_H1 c) (Config_H2 c) (Config_H3 c) (Config_H4 c)
    (Config_I1 c) (Config_I2 c) (Config_I3 c) (Config_I4 c) (Config_I5 c) (privateKeyValue c) (presharedKeyValue c).

Definition set_cache (c : Config) (pk : option Key) (psk : option (option Key)) : Config :=
  mkConfig (InterfaceName c) (PrivateKey c) (PreSharedKey c) (ListenPort c) (Address c)
    (Config_Latency c) (AmneziaWG c)
    (Config_Jc c) (Config_Jmin c) (Config_Jmax c) (Config_S1 c) (Config_S2 c) (Config_S3 c) (Config_S4 c) (Config_H1 c) (Config_H2 c) (Config_H3 c) (Config_H4 c)
    (Config_I1 c) (Config_I2 c) (Config_I3 c) (Config_I4 c) (Config_I5 c) pk psk.

(** ** The AmneziaWG profile *)

Definition optionalStringPointer (value : string) : option string :=
  if bool_decide (TrimSpace value = "") then None else Some value.

Definition profile_of (c : Config) : AwgProfile :=
  mkAwgProfile (Config_Jc c) (Config_Jmin c) (Config_Jmax c) (Config_S1 c) (Config_S2 c) (Config_S3 c) (Config_S4 c)
    (Some (Config_H1 c)) (Some (Config_H2 c)) (Some (Config_H3 c)) (Some (Config_H4 c))
    (optionalStringPointer (Config_I1 c)) (optionalStringPointer (Config_I2 c)) (optionalStringPointer (Config_I3 c))
    (optionalStringPointer (Config_I4 c)) (optionalStringPointer (Config_I5 c)).

Definition is_nil {A} (o : option A) : bool := match o with None => true | Some _ => false end.

Definition buildAmneziaDeviceConfig `{AwgLib} (c : option Config) : result AwgProfile :=
  match c with
  | None => Err (errors_New "AmneziaWG configuration is missing")
  | Some c =>
      if negb (AmneziaWG c) then Err (errors_New "AmneziaWG configuration is missing")
      else if is_nil (Config_Jc c) || is_nil (Config_Jmin c) || is_nil (Config_Jmax c) ||
              is_nil (Config_S1 c) || is_nil (Config_S2 c) || is_nil (Config_S3 c) || is_nil (Config_S4 c)
      then Err (errors_New "AmneziaWG requires Jc, Jmin, Jmax, and S1-S4 parameters")
      else if bool_decide (Config_H1 c = "") || bool_decide (Config_H2 c = "") ||
              bool_decide (Config_H3 c = "") || bool_decide (Config_H4 c = "")
      then Err (errors_New "AmneziaWG requires H1-H4 headers")
      else
        let awgConfig := profile_of c in
        match Validate awgConfig with
        | Err e => Err (wrapf "invalid AmneziaWG profile" e)
        | Ok _ => Ok awgConfig
        end
  end.

(** ** Loading *)

Definition default_test_url : string := "https://www.gstatic.com/generate_204".

Definition latency_defaults (l : option LatencyConfig) : LatencyConfig :=
  let l := default (mkLatencyConfig "" 0) l in
  let url := if bool_decide (TrimSpace (LC_TestURL l) = "") then default_test_url else LC_TestURL l in
  let timeout := if (LC_TimeoutSeconds l <=? 0)%Z then 5%Z else LC_TimeoutSeconds l in
  mkLatencyConfig url timeout.

Definition NewConfig `{AwgLib} (json_Unmarshal : string → result Config) (config : string)
    : result Config :=
  match json_Unmarshal config with
  | Err e => Err (wrapf "failed to unmarshal config" e)
  | Ok c =>
      let name := if bool_decide (InterfaceName c = "") then "wg0" else InterfaceName c in
      let port := if (ListenPort c <=? 0)%Z then 51820%Z else ListenPort c in
      let c := set_names c name port (latency_defaults (Config_Latency c)) in
      if AmneziaWG c then
        match buildAmneziaDeviceConfig (Some c) with
        | Err e => Err e
        | Ok _ => Ok c
        end
      else Ok c
  end.

(** ** Address ranges *)

Definition address_net (addr : string) : option IPNet :=
  let addr := TrimSpace addr in
  if bool_decide (addr = "") then None
  else match ParseCIDR addr with Ok ipNet => Some ipNet | Err _ => None end.

Definition InterfaceNetworks (c : option Config) : list IPNet :=
  match c with None => [] | Some c => omap address_net (Address c) end.

(** ** Keys *)

(** The two reads of the cache, before and after taking the write lock, see
    the same value when nothing runs in between, and the second finds what a
    concurrent call stored otherwise. *)
Definition GetPrivateKey : eff Config Key := λ c,
  match privateKeyValue c with
  | Some key => (Ok key, c)
  | None =>
      if bool_decide (PrivateKey c = "") then (Err (errors_New "private key is empty"), c)
      else match ParseKey (PrivateKey c) with
           | Err e => (Err e, c)
           | Ok key => (Ok key, set_cache c (Some key) (presharedKeyValue c))
           end
  end.

Definition GetPreSharedKey : eff Config (option Key) := λ c,
  match presharedKeyValue c with
  | Some psk => (Ok psk, c)
  | None =>
      if bool_decide (PreSharedKey c = "") then (Ok None, set_cache c (privateKeyValue c) (Some None))
      else match ParseKey (PreSharedKey c) with
           | Err e => (Err e, c)
           | Ok key => (Ok (Some key), set_cache c (privateKeyValue c) (Some (Some key)))
           end
  end.

(** [psk, _ := config.GetPreSharedKey()]: callers drop the error and go on
    without a pre-shared key. *)
Definition psk_of (c : Config) : option Key :=
  match (GetPreSharedKey c).1 with Ok psk => psk | Err _ => None end.

Definition GenerateKeyPair (GeneratePrivateKey : result Key) (PublicKey : Key → Key)
    : result (string * string) :=
  match GeneratePrivateKey with
  | Err e => Err e
  | Ok privKey => Ok (Key_String privKey, Key_String (PublicKey privKey))
  end.

(** ** Facts *)

(** What the text fields of a configuration say about its keys; the caches
    agree with it in every configuration the program builds. *)
Definition cache_ok (c : Config) : Prop :=
  (∀ k, privateKeyValue c = Some k → PrivateKey c ≠ "" ∧ ParseKey (PrivateKey c) = Ok k) ∧
  (∀ psk, presharedKeyValue c = Some psk →
     match psk with
     | None => PreSharedKey c = ""
     | Some k => PreSharedKey c ≠ "" ∧ ParseKey (PreSharedKey c) = Ok k
     end).

Lemma GetPrivateKey_cache c : cache_ok c → cache_ok (GetPrivateKey c).2.
Proof.
  intros Hok. unfold GetPrivateKey.
  destruct (privateKeyValue c) as [k0|] eqn:Hc; [exact Hok|].
  case_bool_decide as Hne; [exact Hok|].
  destruct (ParseKey (PrivateKey c)) as [k|e] eqn:Hk; [|exact Hok].
  destruct Hok. split; simpl; [|done]. naive_solver.
Qed.

Lemma GetPreSharedKey_cache c : cache_ok c → cache_ok (GetPreSharedKey c).2.
Proof.
  intros Hok. unfold GetPreSharedKey.
  destruct (presharedKeyValue c) as [k0|] eqn:Hc; [exact Hok|].
  case_bool_decide as Hne; [destruct Hok; split; simpl; [done|naive_solver]|].
  destruct (ParseKey (PreSharedKey c)) as [k|e] eqn:Hk; [|exact Hok].
  destruct Hok. split; simpl; [done|]. naive_solver.
Qed.

(** Reading a key again gives the same answer, and never changes the text
    fields. *)
Lemma GetPrivateKey_again c : (GetPrivateKey (GetPrivateKey c).2).1 = (GetPrivateKey c).1.
Proof.
  unfold GetPrivateKey at 2 3. destruct (privateKeyValue c) eqn:Hc; cbn.
  { unfold GetPrivateKey. by rewrite Hc. }
  case_bool_decide as Hne; cbn; [unfold GetPrivateKey; by rewrite Hc, bool_decide_true|].
  destruct (ParseKey (PrivateKey c)) eqn:Hk; cbn; [done|].
  unfold GetPrivateKey. by rewrite Hc, bool_decide_false, Hk.
Qed.

Lemma GetPreSharedKey_again c : (GetPreSharedKey (GetPreSharedKey c).2).1 = (GetPreSharedKey c).1.
Proof.
  unfold GetPreSharedKey at 2 3. destruct (presharedKeyValue c) eqn:Hc; cbn.
  { unfold GetPreSharedKey. by rewrite Hc. }
  case_bool_decide as Hne; cbn; [done|].
  destruct (ParseKey (PreSharedKey c)) eqn:Hk; cbn; [done|].
  unfold GetPreSharedKey. by rewrite Hc, bool_decide_false, Hk.
Qed.

Lemma psk_of_cached c : psk_of (GetPreSharedKey c).2 = psk_of c.
Proof. unfold psk_of. by rewrite GetPreSharedKey_again. Qed.

Lemma elem_of_InterfaceNetworks c n :
  n ∈ InterfaceNetworks (Some c) ↔
  ∃ a, a ∈ Address c ∧ TrimSpace a ≠ "" ∧ ParseCIDR (TrimSpace a) = Ok n.
Proof.
  simpl. rewrite list_elem_of_omap. unfold address_net. split.
  - intros (a & Ha & Hn). exists a. case_bool_decide; [done|]. split_match_in Hn. naive_solver.
  - intros (a & Ha & Hne & Hn). exists a. rewrite bool_decide_false by done. by rewrite Hn.
Qed.
End WgConfig.
