(* ===== verification/WgUsers.v ===== *)
(** * From users to peers ([src/backend/wireguard/user_common.go])

    What a user list asks of an interface: [normalizeUsers] keeps the last
    complete entry of each user, [collectDesiredPeers] turns it into peers,
    and [buildSyncDiff] compares them with the store.  Loops over maps take
    the order they visit them in. *)

From S2P Require Import Prelude Messages GoString GoNet WgTypes PeerStore WgConfig.

Section WgUsers.
Context `{WgKeys}.

(** ** Peer configurations *)

(** [keepAlive]: a keep-alive interval of zero, which turns it off. *)
Definition keepAlive : option Z := Some 0%Z.

Definition buildAddConfig (publicKey : Key) (allowedIPs : list IPNet) (presharedKey : option Key)
    : PeerConfig :=
  mkPeerConfig publicKey false presharedKey keepAlive false allowedIPs false.

Definition buildRemoveConfig (publicKey : Key) : PeerConfig :=
  mkPeerConfig publicKey true None None false [] false.

Definition set_advanced (enabled : bool) (c : PeerConfig) : PeerConfig :=
  mkPeerConfig (PC_PublicKey c) (PC_Remove c) (PC_PresharedKey c)
    (PC_PersistentKeepaliveInterval c) (PC_ReplaceAllowedIPs c) (PC_AllowedIPs c) enabled.

Definition setPeerAdvancedSecurity (peers : list PeerConfig) (enabled : bool) : list PeerConfig :=
  set_advanced enabled <$> peers.

(** [config.ReplaceAllowedIPs = true]. *)
Definition set_replace (c : PeerConfig) : PeerConfig :=
  mkPeerConfig (PC_PublicKey c) (PC_Remove c) (PC_PresharedKey c)
    (PC_PersistentKeepaliveInterval c) true (PC_AllowedIPs c) (PC_AdvancedSecurity c).

Definition buildAddConfigFromPeerInfo (peer : PeerInfo) (presharedKey : option Key)
    : result PeerConfig :=
  match PI_AllowedIPs peer with
  | [] => Err (errors_New ("peer " +:+ PI_Email peer +:+ " has no allowed IPs"))
  | _ => Ok (buildAddConfig (PI_PublicKey peer) (PI_AllowedIPs peer) presharedKey)
  end.

(** ** Normalising the request *)

Definition user_complete (user : option User) : bool :=
  match user with
  | None => false
  | Some _ =>
      negb (bool_decide (GetEmail user = "")) &&
      match GetProxies user with
      | None => false
      | Some _ =>
          match GetWireguard (GetProxies user) with
          | None => false
          | Some _ =>
              negb (bool_decide (GetPublicKey (GetWireguard (GetProxies user)) = "")) &&
              negb (bool_decide (GetPeerIps (GetWireguard (GetProxies user)) = []))
          end
      end
  end.

(** [lastByEmail] after the first loop. *)
Definition lastByEmail (users : list (option User)) : gmap string User :=
  foldl (λ m user,
           match user with
           | Some u => if user_complete user then <[User_Email u := u]> m else m
           | None => m
           end) ∅ users.

Definition normalizeUsers (ρ : map_range) (users : list (option User)) : list User :=
  (range_of ρ (lastByEmail users)).*2.

Definition shouldIncludeUserInInterface (user : User) (interfaceName : string) : bool :=
  slices_Contains (GetInbounds (Some user)) interfaceName.

(** ** Desired peers *)

Record DesiredPeer := mkDesiredPeer {
  DP_Email : string;
  DP_RawKey : string;
  DP_ParsedKey : Key;
  DP_AllowedIPNets : list IPNet
}.

Definition peerIPAllowedOnInterface (peerNet : IPNet) (ifaceNets : list IPNet) : bool :=
  match ifaceNets with
  | [] => true
  | _ =>
      existsb (λ pool,
        bool_decide (length (IPNet_IP peerNet) = length (IPNet_IP pool)) &&
        IPNet_Contains pool (IPNet_IP peerNet) &&
        ((Mask_Size pool).1 <=? (Mask_Size peerNet).1)%Z) ifaceNets
  end.

Definition dup_ip_error (ip email email' : string) : goerr :=
  errors_New ("duplicate wireguard allowed IP " +:+ ip +:+ " assigned to users " +:+ email
              +:+ " and " +:+ email').

(** The loop over a user's peer IPs: the networks collected, whether an IP did
    not parse (the loop stops there), and [seenIPs]. *)
Fixpoint collect_ips (email : string) (ifaceNets : list IPNet) (peerIps : list string)
    (seenIPs : gmap string string) (acc : list IPNet)
    : result (list IPNet * bool * gmap string string) :=
  match peerIps with
  | [] => Ok (acc, false, seenIPs)
  | peerIp :: peerIps =>
      match ParseCIDR peerIp with
      | Err _ => Ok (acc, true, seenIPs)
      | Ok ipNet =>
          if negb (peerIPAllowedOnInterface ipNet ifaceNets)
          then collect_ips email ifaceNets peerIps seenIPs acc
          else
            let canonicalIP := IPNet_String ipNet in
            match seenIPs !! canonicalIP with
            | Some existingEmail =>
                if bool_decide (existingEmail ≠ email)
                then Err (dup_ip_error canonicalIP existingEmail email)
                else collect_ips email ifaceNets peerIps
                       (<[canonicalIP := email]> seenIPs) (acc ++ [ipNet])
            | None =>
                collect_ips email ifaceNets peerIps
                  (<[canonicalIP := email]> seenIPs) (acc ++ [ipNet])
            end
      end
  end.

Definition dup_key_error (key email email' : string) : goerr :=
  errors_New ("wireguard public key " +:+ key +:+ " is assigned to multiple users: " +:+ email
              +:+ " and " +:+ email').

(** One iteration of the loop of [collectDesiredPeers]. *)
Definition collect_user (config : Config) (acc : gmap string DesiredPeer * gmap string string)
    (user : User) : result (gmap string DesiredPeer * gmap string string) :=
  let '(desiredPeers, seenIPs) := acc in
  if negb (shouldIncludeUserInInterface user (InterfaceName config)) then Ok acc
  else
    let email := GetEmail (Some user) in
    let publicKey := GetPublicKey (GetWireguard (GetProxies (Some user))) in
    let peerIps := GetPeerIps (GetWireguard (GetProxies (Some user))) in
    match ParseKey publicKey with
    | Err _ => Ok acc
    | Ok parsedKey =>
        match collect_ips email (InterfaceNetworks (Some config)) peerIps seenIPs [] with
        | Err e => Err e
        | Ok (allowedIPNets, hasInvalidIP, seenIPs) =>
            if hasInvalidIP || bool_decide (allowedIPNets = []) then Ok (desiredPeers, seenIPs)
            else
              let put := <[publicKey := mkDesiredPeer email publicKey parsedKey allowedIPNets]>
                           desiredPeers in
              match desiredPeers !! publicKey with
              | Some existing =>
                  if bool_decide (DP_Email existing ≠ email)
                  then Err (dup_key_error publicKey (DP_Email existing) email)
                  else Ok (put, seenIPs)
              | None => Ok (put, seenIPs)
              end
        end
    end.

Fixpoint collect_users (config : Config) (acc : gmap string DesiredPeer * gmap string string)
    (users : list User) : result (gmap string DesiredPeer * gmap string string) :=
  match users with
  | [] => Ok acc
  | user :: users =>
      match collect_user config acc user with
      | Err e => Err e
      | Ok acc => collect_users config acc users
      end
  end.

Definition collectDesiredPeers (config : Config) (users : list User)
    : result (gmap string DesiredPeer) :=
  match collect_users config (∅, ∅) users with
  | Ok (desiredPeers, _) => Ok desiredPeers
  | Err e => Err e
  end.

(** ** Comparing with the store *)

Record SyncDiff := mkSyncDiff {
  SD_RemoveKeys : list string;
  SD_UpsertPeers : list PeerInfo;
  SD_PeerConfigs : list PeerConfig;
  SD_TargetPeers : gmap string PeerInfo;
  SD_Changed : bool
}.

(** The comparison of two peers' networks: same length, same texts in order. *)
Definition same_nets (a b : list IPNet) : bool :=
  bool_decide (length a = length b) &&
  forallb (λ ab, bool_decide (IPNet_String ab.1 = IPNet_String ab.2)) (zip a b).

Definition target_of (desired : DesiredPeer) : PeerInfo :=
  mkPeerInfo (DP_Email desired) (DP_ParsedKey desired) (DP_AllowedIPNets desired).

(** The loop state: [removeSet], [upsertByKey], [peerConfigs]. *)
Record diff_state := mkDiff {
  ds_removeSet : gmap string PeerInfo;
  ds_upsertByKey : gmap string PeerInfo;
  ds_configs : list PeerConfig
}.

(** One iteration over [existingPeers]. *)
Definition existing_step (psk : option Key) (targetPeers : gmap string PeerInfo)
    (s : diff_state) (ke : string * PeerInfo) : diff_state :=
  let '(key, existing) := ke in
  match targetPeers !! key with
  | None => mkDiff (<[key := existing]> (ds_removeSet s)) (ds_upsertByKey s) (ds_configs s)
  | Some target =>
      let ipnetsEqual := same_nets (PI_AllowedIPs existing) (PI_AllowedIPs target) in
      if bool_decide (PI_Email existing ≠ PI_Email target) || negb ipnetsEqual then
        if negb ipnetsEqual then
          match buildAddConfigFromPeerInfo target psk with
          | Err _ => s
          | Ok config =>
              mkDiff (ds_removeSet s) (<[key := target]> (ds_upsertByKey s))
                (ds_configs s ++ [set_replace config])
          end
        else mkDiff (ds_removeSet s) (<[key := target]> (ds_upsertByKey s)) (ds_configs s)
      else s
  end.

(** One iteration over [targetPeers]. *)
Definition target_step (psk : option Key) (existingPeers : gmap string PeerInfo)
    (s : diff_state) (kt : string * PeerInfo) : diff_state :=
  let '(key, target) := kt in
  match existingPeers !! key with
  | Some _ => s
  | None =>
      match buildAddConfigFromPeerInfo target psk with
      | Err _ => s
      | Ok config =>
          mkDiff (ds_removeSet s) (<[key := target]> (ds_upsertByKey s)) (ds_configs s ++ [config])
      end
  end.

(** A key that does not parse is skipped. *)
Definition buildRemoveConfigsForPeers (ρ : map_range) (removeSet : gmap string PeerInfo)
    : list string * list PeerConfig :=
  foldl (λ acc key,
           match ParseKey key with
           | Err _ => acc
           | Ok publicKey => (acc.1 ++ [key], acc.2 ++ [buildRemoveConfig publicKey])
           end) ([], []) (sort_Strings (range_of ρ removeSet).*1).

(** [sort.Strings] of the keys of [upsertByKey], and the peers in that order. *)
Definition upserts_in_order (ρ : map_range) (upsertByKey : gmap string PeerInfo) : list PeerInfo :=
  omap (λ key, upsertByKey !! key) (sort_Strings (range_of ρ upsertByKey).*1).

(** The method reads the pre-shared key through the configuration's cache; an
    unreadable one counts as none.  It never returns an error. *)
Definition buildSyncDiff (σ : nat → map_range) (existingPeers : gmap string PeerInfo)
    (desiredPeers : gmap string DesiredPeer) : eff Config SyncDiff := λ config,
  let targetPeers := target_of <$> desiredPeers in
  let psk := psk_of config in
  let s := foldl (existing_step psk targetPeers) (mkDiff ∅ ∅ []) (range_of (σ 0) existingPeers) in
  let s := foldl (target_step psk existingPeers) s (range_of (σ 1) targetPeers) in
  let peerConfigs := setPeerAdvancedSecurity (ds_configs s) (AmneziaWG config) in
  let '(removeKeys, removeConfigs) := buildRemoveConfigsForPeers (σ 2) (ds_removeSet s) in
  let upsertPeers := upserts_in_order (σ 3) (ds_upsertByKey s) in
  let changed := bool_decide (removeKeys ≠ []) || bool_decide (upsertPeers ≠ []) in
  (Ok (mkSyncDiff removeKeys upsertPeers (peerConfigs ++ removeConfigs) targetPeers changed),
   (GetPreSharedKey config).2).

(** ** Full snapshots *)

(** The configurations, and the keys of [appliedKeys]. *)
Definition buildTargetPeerConfigs (ρ : map_range) (targetPeers : gmap string PeerInfo)
    (presharedKey : option Key) : list PeerConfig * gset string :=
  foldl (λ acc key,
           match targetPeers !! key with
           | None => acc
           | Some target =>
               match buildAddConfigFromPeerInfo target presharedKey with
               | Err _ => acc
               | Ok config => (acc.1 ++ [config], {[key]} ∪ acc.2)
               end
           end) ([], ∅) (sort_Strings (range_of ρ targetPeers).*1).

Definition filterUpsertsByAppliedKeys (upserts : list PeerInfo) (appliedKeys : gset string)
    : list PeerInfo :=
  if bool_decide (size appliedKeys = length upserts) then upserts
  else filter (λ p, peer_key p ∈ appliedKeys) upserts.

End WgUsers.
