(* ===== verification/WgPlan.v ===== *)
(** * What a user list plans ([src/backend/wireguard/user_common.go])

    Reference descriptions of the planning functions of [WgUsers], free of loop
    state and of map order: [wants] is the peer a user asks for, [claims] the
    networks it occupies, and [collectDesiredPeers] succeeds exactly when no
    two users clash. *)

From S2P Require Import Prelude Messages GoString GoNet WgTypes PeerStore WgConfig WgUsers.

Section Normalise.
Context `{WgKeys}.
Implicit Types users : list (option User).

(** ** Normalisation *)

(** [u] is the last complete entry of its email. *)
Definition last_entry users (u : User) : Prop :=
  ∃ l1 l2, users = l1 ++ Some u :: l2 ∧ user_complete (Some u) = true ∧
    ∀ v, Some v ∈ l2 → user_complete (Some v) = true → User_Email v ≠ User_Email u.

Lemma lastByEmail_snoc users u :
  lastByEmail (users ++ [u]) =
  match u with
  | Some v => if user_complete u then <[User_Email v := v]> (lastByEmail users) else lastByEmail users
  | None => lastByEmail users
  end.
Proof. unfold lastByEmail. by rewrite foldl_snoc. Qed.

Lemma lastByEmail_email users e u : lastByEmail users !! e = Some u → User_Email u = e.
Proof.
  induction users as [|v users IH] using rev_ind; [done|].
  rewrite lastByEmail_snoc. destruct v as [v|]; [|done].
  destruct (user_complete (Some v)); [|done]. rewrite lookup_insert_Some. naive_solver.
Qed.

Lemma last_entry_snoc users u v :
  last_entry (users ++ [v]) u ↔
  (v = Some u ∧ user_complete v = true) ∨
  (last_entry users u ∧ (user_complete v = true → GetEmail v ≠ User_Email u)).
Proof.
  split.
  - intros (l1 & l2 & Heq & Hc & Hlast). destruct l2 as [|w l2 _] using rev_ind.
    + apply app_inj_tail in Heq as [-> ->]. by left.
    + rewrite app_comm_cons, app_assoc in Heq. apply app_inj_tail in Heq as [-> ->]. right. split.
      * exists l1, l2. split_and!; [done|done|]. intros x Hx. apply Hlast. set_solver.
      * intros Hw. destruct w as [w|]; [|done]. apply Hlast; [set_solver|done].
  - intros [[-> Hc]|[(l1 & l2 & -> & Hc & Hlast) Hv]].
    + exists users, []. split_and!; [done|done|]. set_solver.
    + exists l1, (l2 ++ [v]). split_and!; [by rewrite <- app_assoc|done|].
      intros x [Hx|Hx%list_elem_of_singleton]%elem_of_app Hxc; [by apply Hlast|]. subst v. by apply Hv.
Qed.

Lemma lastByEmail_Some users u :
  lastByEmail users !! User_Email u = Some u ↔ last_entry users u.
Proof.
  induction users as [|v users IH] using rev_ind.
  { split; [done|]. intros ([|] & l2 & ? & _); done. }
  rewrite lastByEmail_snoc, last_entry_snoc. destruct v as [v|]; [|rewrite IH; naive_solver].
  destruct (user_complete (Some v)) eqn:Hv.
  - rewrite lookup_insert_Some, IH. simpl. naive_solver.
  - rewrite IH. naive_solver.
Qed.

Lemma elem_of_normalizeUsers ρ users u : u ∈ normalizeUsers ρ users ↔ last_entry users u.
Proof.
  unfold normalizeUsers. rewrite list_elem_of_fmap, <- lastByEmail_Some. split.
  - intros ([e u'] & -> & Hu%elem_of_range). simpl.
    by rewrite (lastByEmail_email _ _ _ Hu).
  - intros Hu. exists (User_Email u, u). split; [done|]. by apply elem_of_range.
Qed.

Lemma normalizeUsers_emails ρ users : NoDup (User_Email <$> normalizeUsers ρ users).
Proof.
  unfold normalizeUsers. rewrite <- list_fmap_compose.
  replace ((User_Email ∘ snd) <$> range_of ρ (lastByEmail users)) with (range_of ρ (lastByEmail users)).*1.
  - apply range_nodup.
  - apply list_fmap_ext. intros i [e u] Hi. simpl.
    apply list_elem_of_lookup_2, elem_of_range in Hi. symmetry. by eapply lastByEmail_email.
Qed.

Lemma normalizeUsers_perm ρ ρ' users : normalizeUsers ρ users ≡ₚ normalizeUsers ρ' users.
Proof. unfold normalizeUsers. by rewrite (range_perm ρ), (range_perm ρ'). Qed.

End Normalise.

Section Plan.
Context `{WgKeys} (config : Config).

(** ** What one user asks for *)

(** The networks of the leading IPs that parse and lie on the interface, and
    whether some IP did not parse. *)
Fixpoint ip_scan (ips : list string) : list IPNet * bool :=
  match ips with
  | [] => ([], false)
  | ip :: ips =>
      match ParseCIDR ip with
      | Err _ => ([], true)
      | Ok n =>
          let '(nets, bad) := ip_scan ips in
          if peerIPAllowedOnInterface n (InterfaceNetworks (Some config))
          then (n :: nets, bad) else (nets, bad)
      end
  end.

Definition raw_key (u : User) : string := GetPublicKey (GetWireguard (GetProxies (Some u))).
Definition raw_ips (u : User) : list string := GetPeerIps (GetWireguard (GetProxies (Some u))).

Definition readable (u : User) : bool :=
  shouldIncludeUserInInterface u (InterfaceName config) && is_ok (ParseKey (raw_key u)).

Definition claims (u : User) : list string :=
  if readable u then IPNet_String <$> (ip_scan (raw_ips u)).1 else [].

Definition wants (u : User) : option DesiredPeer :=
  if negb (shouldIncludeUserInInterface u (InterfaceName config)) then None
  else match ParseKey (raw_key u) with
       | Err _ => None
       | Ok k =>
           let '(nets, bad) := ip_scan (raw_ips u) in
           if bad || bool_decide (nets = []) then None
           else Some (mkDesiredPeer (User_Email u) (raw_key u) k nets)
       end.

(** No network and no key text belongs to two users. *)
Definition conflict_free (users : list User) : Prop :=
  (∀ u v ip, u ∈ users → v ∈ users → ip ∈ claims u → ip ∈ claims v → User_Email u = User_Email v) ∧
  (∀ u v p q, u ∈ users → v ∈ users → wants u = Some p → wants v = Some q →
     raw_key u = raw_key v → User_Email u = User_Email v).

(** ** The loops against the reference *)

Definition claim_all (email : string) (nets : list IPNet) (seen : gmap string string)
    : gmap string string :=
  foldl (λ m n, <[IPNet_String n := email]> m) seen nets.

Definition clear_for (email : string) (nets : list IPNet) (seen : gmap string string) : Prop :=
  ∀ n e, n ∈ nets → seen !! IPNet_String n = Some e → e = email.

Lemma claim_all_lookup email nets seen ip :
  claim_all email nets seen !! ip
  = if decide (ip ∈ IPNet_String <$> nets) then Some email else seen !! ip.
Proof.
  unfold claim_all. induction nets as [|n nets IH] using rev_ind.
  { by rewrite decide_False by set_solver. }
  rewrite foldl_snoc, lookup_insert, IH, fmap_app. simpl.
  destruct (decide (IPNet_String n = ip)); repeat case_decide; set_solver.
Qed.

Lemma collect_ips_spec email ips seen acc :
  let '(nets, bad) := ip_scan ips in
  match collect_ips email (InterfaceNetworks (Some config)) ips seen acc with
  | Ok r => clear_for email nets seen ∧ r = (acc ++ nets, bad, claim_all email nets seen)
  | Err _ => ¬ clear_for email nets seen
  end.
Proof.
  revert seen acc. induction ips as [|ip ips IH]; intros seen acc; cbn [ip_scan collect_ips].
  { split; [by intros ?? ?%elem_of_nil|]. by rewrite app_nil_r. }
  destruct (ParseCIDR ip) as [n|e] eqn:Hip; [|split; [by intros ?? ?%elem_of_nil|by rewrite app_nil_r]].
  destruct (ip_scan ips) as [nets bad].
  destruct (peerIPAllowedOnInterface n _); cbn [negb]; [|apply IH].
  assert (clear_for email (n :: nets) seen ↔
    (∀ e, seen !! IPNet_String n = Some e → e = email) ∧
    clear_for email nets (<[IPNet_String n := email]> seen)) as Hclear.
  { unfold clear_for. split.
    - intros Hc. split; [intros e; apply Hc; set_solver|]. intros n' e Hn'.
      rewrite lookup_insert_Some. intros [[_ ->]|[_ ?]]; [done|]. eapply Hc; [|done]. set_solver.
    - intros [Hn Hc] n' e [->|Hn']%elem_of_cons He; [by apply Hn|].
      destruct (decide (IPNet_String n' = IPNet_String n)) as [Heq|Hne]; [apply Hn; by rewrite <- Heq|].
      apply (Hc n' e Hn'). by rewrite lookup_insert_ne. }
  specialize (IH (<[IPNet_String n := email]> seen) (acc ++ [n])).
  destruct (seen !! IPNet_String n) as [e|] eqn:Hseen.
  - case_bool_decide as Hne.
    + rewrite Hclear. naive_solver.
    + destruct (collect_ips _ _ _ _ _) as [r|]; rewrite Hclear.
      * destruct IH as [Hc ->]. split; [naive_solver|]. by rewrite <- app_assoc.
      * naive_solver.
  - destruct (collect_ips _ _ _ _ _) as [r|]; rewrite Hclear.
    + destruct IH as [Hc ->]. split; [naive_solver|]. by rewrite <- app_assoc.
    + naive_solver.
Qed.

Lemma wants_Some u p :
  wants u = Some p →
  DP_Email p = User_Email u ∧ DP_RawKey p = raw_key u ∧ ParseKey (raw_key u) = Ok (DP_ParsedKey p) ∧
  ip_scan (raw_ips u) = (DP_AllowedIPNets p, false) ∧ DP_AllowedIPNets p ≠ [] ∧
  claims u = IPNet_String <$> DP_AllowedIPNets p ∧
  shouldIncludeUserInInterface u (InterfaceName config) = true.
Proof.
  unfold wants, claims, readable. intros Hw.
  destruct (shouldIncludeUserInInterface u _); [|done]. simpl in *.
  destruct (ParseKey (raw_key u)) as [k|]; [|done]. simpl.
  destruct (ip_scan (raw_ips u)) as [nets bad]. destruct bad; [done|]. simpl in *.
  case_bool_decide; simplify_eq/=. done.
Qed.

(** The loop invariant of [collectDesiredPeers]. *)
Definition collected (done : list User) (acc : gmap string DesiredPeer * gmap string string) : Prop :=
  conflict_free done ∧
  (∀ ip e, acc.2 !! ip = Some e ↔ ∃ u, u ∈ done ∧ ip ∈ claims u ∧ User_Email u = e) ∧
  (∀ k p, acc.1 !! k = Some p ↔ ∃ u, u ∈ done ∧ wants u = Some p ∧ raw_key u = k).

Lemma collected_nil : collected [] (∅, ∅).
Proof. repeat split; simpl; set_solver. Qed.

(** Adding a user whose claims are clear and whose key is free. *)
Lemma collected_snoc done d s u d' s' :
  collected done (d, s) →
  (∀ ip e, ip ∈ claims u → s !! ip = Some e → e = User_Email u) →
  (∀ p q, wants u = Some p → d !! raw_key u = Some q → DP_Email q = User_Email u) →
  (∀ ip e, s' !! ip = Some e ↔ s !! ip = Some e ∨ ip ∈ claims u ∧ User_Email u = e) →
  (∀ k p, d' !! k = Some p ↔ d !! k = Some p ∨ wants u = Some p ∧ raw_key u = k) →
  collected (done ++ [u]) (d', s').
Proof.
  intros ((Hc1 & Hc2) & Hs & Hd) Hclaim Hkey Hs' Hd'. simpl in *. split; [split|split].
  - intros v w ip. rewrite !elem_of_app, !list_elem_of_singleton.
    intros [Hv| ->] [Hw| ->] Hiv Hiw; [by eapply Hc1| | |done].
    + apply (Hclaim ip); [done|]. apply Hs. eauto.
    + symmetry. apply (Hclaim ip); [done|]. apply Hs. eauto.
  - intros v w p q. rewrite !elem_of_app, !list_elem_of_singleton.
    intros [Hv| ->] [Hw| ->] Hp Hq Hk; [by eapply Hc2| | |done].
    + destruct (wants_Some _ _ Hp) as [<- _]. apply (Hkey q p); [done|]. apply Hd. eauto.
    + destruct (wants_Some _ _ Hq) as [<- _]. symmetry. apply (Hkey p q); [done|]. apply Hd. eauto.
  - intros ip e. simpl. rewrite Hs', Hs. set_solver.
  - intros k p. simpl. rewrite Hd', Hd. set_solver.
Qed.

Lemma collect_user_spec done acc u :
  NoDup (User_Email <$> done ++ [u]) → collected done acc →
  match collect_user config acc u with
  | Ok acc' => collected (done ++ [u]) acc'
  | Err _ => ¬ conflict_free (done ++ [u])
  end.
Proof.
  rewrite fmap_app. intros (_ & Hu & _)%NoDup_app Hinv. destruct acc as [d s].
  assert (Hfresh : ∀ v, v ∈ done → User_Email v ≠ User_Email u).
  { intros v Hv Heq. apply (Hu (User_Email v)); [by apply list_elem_of_fmap_2|]. set_solver. }
  unfold collect_user. fold (raw_key u) (raw_ips u).
  change (GetEmail (Some u)) with (User_Email u).
  pose proof Hinv as (_ & Hs & Hd). simpl in Hs, Hd.
  destruct (shouldIncludeUserInInterface u (InterfaceName config)) eqn:Hinc; cbn [negb].
  2: { apply (collected_snoc done d s); [done|..]; unfold claims, wants, readable;
       rewrite Hinc; simpl; set_solver. }
  destruct (ParseKey (raw_key u)) as [k|e] eqn:Hk.
  2: { apply (collected_snoc done d s); [done|..]; unfold claims, wants, readable;
       rewrite Hinc, Hk; simpl; set_solver. }
  pose proof (collect_ips_spec (User_Email u) (raw_ips u) s []) as Hips.
  assert (Hcl : claims u = IPNet_String <$> (ip_scan (raw_ips u)).1).
  { unfold claims, readable. by rewrite Hinc, Hk. }
  assert (Hwt : wants u = let '(nets, bad) := ip_scan (raw_ips u) in
    if bad || bool_decide (nets = []) then None
    else Some (mkDesiredPeer (User_Email u) (raw_key u) k nets)).
  { unfold wants. by rewrite Hinc, Hk. }
  destruct (ip_scan (raw_ips u)) as [nets bad]. simpl in Hcl.
  destruct (collect_ips _ _ _ _ _) as [r|e].
  - destruct Hips as [Hclear ->]. simpl.
    assert (Hclear' : ∀ ip e, ip ∈ claims u → s !! ip = Some e → e = User_Email u).
    { intros ip e. rewrite Hcl, list_elem_of_fmap. intros (n & -> & Hn). by apply Hclear. }
    assert (Hs' : ∀ ip e, claim_all (User_Email u) nets s !! ip = Some e ↔
      s !! ip = Some e ∨ ip ∈ claims u ∧ User_Email u = e).
    { intros ip e. rewrite claim_all_lookup, Hcl. case_decide as Hin; [|naive_solver].
      split; [naive_solver|]. intros [He|[_ ->]]; [|done]. f_equal. symmetry.
      apply (Hclear' ip); [by rewrite Hcl|done]. }
    destruct (bad || bool_decide (nets = [])) eqn:Hbad.
    + apply (collected_snoc done d s); [done..| |done|]; rewrite Hwt; naive_solver.
    + assert (Hfree : ∀ q, d !! raw_key u = Some q → DP_Email q ≠ User_Email u).
      { intros q (v & Hv & Hw & _)%Hd. destruct (wants_Some _ _ Hw) as [-> _]. by apply Hfresh. }
      destruct (d !! raw_key u) as [q|] eqn:Hq.
      * rewrite bool_decide_true by auto. intros [_ Hc2]. apply (Hfree q); [done|].
        apply Hd in Hq as (v & Hv & Hw & Hvk). destruct (wants_Some _ _ Hw) as [-> _].
        apply (Hc2 v u _ _ ltac:(set_solver) ltac:(set_solver) Hw Hwt Hvk).
      * apply (collected_snoc done d s); [done..| |done|]; rewrite Hwt; [by rewrite Hq|].
        intros k' p. rewrite lookup_insert_Some. split; [naive_solver|].
        intros [?|?]; [|naive_solver]. right. split; [|done]. intros <-. by rewrite Hq in *.
  - intros [Hc1 _]. apply Hips. intros n e' Hn (v & Hv & Hcv & <-)%Hs.
    apply (Hc1 v u (IPNet_String n)); [set_solver..|done|].
    rewrite Hcl. by apply list_elem_of_fmap_2.
Qed.

Lemma conflict_free_sub l l' : l ⊆ l' → conflict_free l' → conflict_free l.
Proof. intros Hsub [H1 H2]. split; intros; [eapply H1|eapply H2]; eauto. Qed.

Lemma collect_users_spec done acc users :
  NoDup (User_Email <$> done ++ users) → collected done acc →
  match collect_users config acc users with
  | Ok acc' => collected (done ++ users) acc'
  | Err _ => ¬ conflict_free (done ++ users)
  end.
Proof.
  revert done acc. induction users as [|u users IH]; intros done acc Hnd Hinv; cbn [collect_users].
  { by rewrite app_nil_r. }
  assert (Hnd' : NoDup (User_Email <$> done ++ [u])).
  { rewrite fmap_app. rewrite fmap_app in Hnd. simpl in Hnd.
    rewrite (cons_middle _ _ _), app_assoc in Hnd. by apply NoDup_app in Hnd as [? _]. }
  pose proof (collect_user_spec done acc u Hnd' Hinv) as Hstep.
  rewrite cons_middle, app_assoc in Hnd |- *.
  destruct (collect_user config acc u) as [acc'|e].
  - by apply IH.
  - intros Hc. apply Hstep. eapply conflict_free_sub; [|done]. set_solver.
Qed.

(** [collectDesiredPeers] succeeds exactly on clash-free requests, with the
    peers the users want. *)
Lemma collectDesiredPeers_spec users :
  NoDup (User_Email <$> users) →
  match collectDesiredPeers config users with
  | Ok d => conflict_free users ∧
      ∀ k p, d !! k = Some p ↔ ∃ u, u ∈ users ∧ wants u = Some p ∧ raw_key u = k
  | Err _ => ¬ conflict_free users
  end.
Proof.
  intros Hnd. unfold collectDesiredPeers.
  pose proof (collect_users_spec [] (∅, ∅) users Hnd collected_nil) as Hspec. simpl in Hspec.
  destruct (collect_users config (∅, ∅) users) as [[d s]|e]; [|done].
  destruct Hspec as (Hc & _ & Hd). done.
Qed.
End Plan.

(** ** Properties *)

(** C36: planning does not depend on the order Go visits the map of users in:
    whatever the two orders, both runs succeed with the same peers or both
    refuse the request. *)
Theorem planning_ignores_map_order `{WgKeys} (ρ ρ' : map_range) (config : Config)
    (users : list (option User)) :
  match collectDesiredPeers config (normalizeUsers ρ users),
        collectDesiredPeers config (normalizeUsers ρ' users) with
  | Ok d, Ok d' => d = d'
  | Err _, Err _ => True
  | _, _ => False
  end.
Proof.
  pose proof (collectDesiredPeers_spec config _ (normalizeUsers_emails ρ users)) as H1.
  pose proof (collectDesiredPeers_spec config _ (normalizeUsers_emails ρ' users)) as H2.
  pose proof (normalizeUsers_perm ρ ρ' users) as Hp.
  destruct (collectDesiredPeers config (normalizeUsers ρ users)) as [d|e],
    (collectDesiredPeers config (normalizeUsers ρ' users)) as [d'|e']; [| | |done].
  - destruct H1 as [_ H1], H2 as [_ H2]. apply map_eq. intros k. apply option_eq. intros p.
    rewrite H1, H2. by setoid_rewrite Hp.
  - destruct H1 as [Hc _]. apply H2. eapply conflict_free_sub; [|done]. intros u. by rewrite Hp.
  - destruct H2 as [Hc _]. apply H1. eapply conflict_free_sub; [|done]. intros u. by rewrite Hp.
Qed.

(** C37: a request is accepted exactly when no network is asked for by two
    users and no key text by two that get a peer, counting the last complete
    entry of each user (and, of an entry with an unreadable address, the networks
    before it); then every user whose entry is readable gets the peer it asks
    for, nobody else gets one, and no network belongs to two peers of different
    users. *)
Theorem desired_peers_exact `{WgKeys} (ρ : map_range) (config : Config)
    (users : list (option User)) :
  let no_clash :=
    (∀ u v ip, last_entry users u → last_entry users v → ip ∈ claims config u → ip ∈ claims config v →
       User_Email u = User_Email v) ∧
    (∀ u v p q, last_entry users u → last_entry users v → wants config u = Some p → wants config v = Some q →
       raw_key u = raw_key v → User_Email u = User_Email v) in
  match collectDesiredPeers config (normalizeUsers ρ users) with
  | Ok d =>
      no_clash ∧
      (∀ u p, last_entry users u → wants config u = Some p → d !! raw_key u = Some p) ∧
      (∀ k p, d !! k = Some p →
         ∃ u, last_entry users u ∧ wants config u = Some p ∧ raw_key u = k) ∧
      (∀ k k' p p' n n', d !! k = Some p → d !! k' = Some p' →
         n ∈ DP_AllowedIPNets p → n' ∈ DP_AllowedIPNets p' → IPNet_String n = IPNet_String n' →
         DP_Email p = DP_Email p')
  | Err _ => ¬ no_clash
  end.
Proof.
  intros no_clash. assert (conflict_free config (normalizeUsers ρ users) ↔ no_clash) as Hiff.
  { unfold conflict_free, no_clash. by setoid_rewrite elem_of_normalizeUsers. }
  pose proof (collectDesiredPeers_spec config _ (normalizeUsers_emails ρ users)) as Hs.
  destruct (collectDesiredPeers config (normalizeUsers ρ users)) as [d|e]; [|by rewrite <- Hiff].
  destruct Hs as [Hc Hd]. rewrite <- Hiff. split; [done|]. destruct Hc as [Hc _]. split_and!.
  - intros u p Hu Hw. apply Hd. exists u. by rewrite elem_of_normalizeUsers.
  - intros k p (u & Hu & Hw & Hk)%Hd. exists u. by rewrite <- (elem_of_normalizeUsers ρ).
  - intros k k' p p' n n' (u & Hu & Hw & _)%Hd (u' & Hu' & Hw' & _)%Hd Hn Hn' Heq.
    destruct (wants_Some _ _ _ Hw) as (-> & _ & _ & _ & _ & Hcl & _).
    destruct (wants_Some _ _ _ Hw') as (-> & _ & _ & _ & _ & Hcl' & _).
    apply (Hc u u' (IPNet_String n)); [done..| |].
    + rewrite Hcl. by apply list_elem_of_fmap_2.
    + rewrite Hcl', Heq. by apply list_elem_of_fmap_2.
Qed.

(** C38: an address accepted for an interface with networks of its own stays
    inside them: every address of an allowed peer network belongs to one of the
    interface's networks.  An interface that lists no network accepts every
    address. *)
Theorem allowed_peer_ip_contained (peerNet : IPNet) (ifaceNets : list IPNet)
    (Hok : peerIPAllowedOnInterface peerNet ifaceNets = true) :
  (ifaceNets = [] ∧ ∀ other, peerIPAllowedOnInterface other ifaceNets = true) ∨
  ∃ pool, pool ∈ ifaceNets ∧
    ∀ ip, IPNet_Contains peerNet ip = true → IPNet_Contains pool ip = true.
Proof.
  unfold peerIPAllowedOnInterface in *. destruct ifaceNets as [|n0 l]; [by left|right].
  apply existsb_exists in Hok as (pool & Hin & Hpool).
  rewrite !andb_true_iff, bool_decide_eq_true, Z.leb_le in Hpool.
  destruct Hpool as [[Hlen Hc] Hones]. exists pool. split; [by apply list_elem_of_In|].
  intros ip Hip. by eapply IPNet_Contains_trans.
Qed.

Lemma allowed_peer_ip_contained_witness :
  let peer := mkIPNet [10; 0; 3; 7]%Z 32 in
  let pools := [mkIPNet [10; 9; 0; 0]%Z 24; mkIPNet [10; 0; 0; 0]%Z 16] in
  peerIPAllowedOnInterface peer pools = true ∧
  ∃ pool, pool ∈ pools ∧ ∀ ip, IPNet_Contains peer ip = true → IPNet_Contains pool ip = true.
Proof.
  intros peer pools. assert (peerIPAllowedOnInterface peer pools = true) as Hok by (vm_compute; reflexivity).
  split; [done|]. destruct (allowed_peer_ip_contained peer pools Hok) as [[Hno _]|Hin]; [discriminate Hno|exact Hin].
Defined.
