(* ===== verification/WgReconcile.v ===== *)
(** * Reconciling the store and the kernel ([src/backend/wireguard/user_common.go])

    What [buildSyncDiff] and [buildTargetPeerConfigs] compute, described
    without loops, and what the kernel's device looks like after the
    configurations they build.  [agree] says that a device has exactly the
    peers of a roster, each routing exactly its networks. *)

From S2P Require Import Prelude Messages GoString GoNet WgTypes PeerStore WgConfig WgUsers WgPlan.

Section Reconcile.
Context `{WgKeys}.
Implicit Types (E T : gmap string PeerInfo) (psk : option Key).

(** ** Descriptions of the configurations *)

Definition texts (p : PeerInfo) : list string := IPNet_String <$> PI_AllowedIPs p.

Definition keyed (m : gmap string PeerInfo) : Prop := ∀ k p, m !! k = Some p → peer_key p = k.

Definition add_config psk (t : PeerInfo) : PeerConfig :=
  buildAddConfig (PI_PublicKey t) (PI_AllowedIPs t) psk.

Definition changed_nets E (t : PeerInfo) : bool :=
  match E !! peer_key t with
  | Some ex => negb (same_nets (PI_AllowedIPs ex) (PI_AllowedIPs t))
  | None => true
  end.

Lemma same_nets_true a b : same_nets a b = true ↔ IPNet_String <$> a = IPNet_String <$> b.
Proof.
  unfold same_nets. rewrite andb_true_iff, bool_decide_eq_true.
  revert b. induction a as [|x a IH]; intros [|y b]; simpl; try naive_solver lia.
  rewrite andb_true_iff, bool_decide_eq_true. specialize (IH b). split.
  - intros [Hl [Hx Hf]]. f_equal; [done|]. apply IH. split; [lia|done].
  - intros [= Hx Hf]. apply IH in Hf as [? ?]. split_and!; [lia|done..].
Qed.

Lemma buildAddConfigFromPeerInfo_Ok t psk :
  PI_AllowedIPs t ≠ [] → buildAddConfigFromPeerInfo t psk = Ok (add_config psk t).
Proof. unfold buildAddConfigFromPeerInfo, add_config. by destruct (PI_AllowedIPs t). Qed.

(** ** The loops of [buildSyncDiff] *)

Definition existing_config psk T (ke : string * PeerInfo) : option PeerConfig :=
  match T !! ke.1 with
  | Some t => if same_nets (PI_AllowedIPs ke.2) (PI_AllowedIPs t) then None
              else Some (set_replace (add_config psk t))
  | None => None
  end.

Definition target_config psk E (kt : string * PeerInfo) : option PeerConfig :=
  match E !! kt.1 with Some _ => None | None => Some (add_config psk kt.2) end.

Definition must_upsert T (ke : string * PeerInfo) (t : PeerInfo) : Prop :=
  T !! ke.1 = Some t ∧ (PI_Email ke.2 ≠ PI_Email t ∨ texts ke.2 ≠ texts t).

Lemma existing_loop psk T (l : list (string * PeerInfo)) :
  (∀ k t, T !! k = Some t → PI_AllowedIPs t ≠ []) → NoDup l.*1 →
  let s := foldl (existing_step psk T) (mkDiff ∅ ∅ []) l in
  (∀ k p, ds_removeSet s !! k = Some p ↔ (k, p) ∈ l ∧ T !! k = None) ∧
  (∀ k t, ds_upsertByKey s !! k = Some t ↔ ∃ ex, (k, ex) ∈ l ∧ must_upsert T (k, ex) t) ∧
  ds_configs s = omap (existing_config psk T) l.
Proof.
  intros Hne. induction l as [|[k ex] l IH] using rev_ind; intros Hnd.
  { simpl. split_and!; [set_solver|set_solver|done]. }
  rewrite fmap_app in Hnd. apply NoDup_app in Hnd as (Hnd & Hk & _).
  assert (Hfresh : ∀ p, (k, p) ∉ l).
  { intros p Hp. apply (Hk k); [apply list_elem_of_fmap; by exists (k, p)|set_solver]. }
  cbn zeta. rewrite foldl_snoc, omap_app.
  destruct (IH Hnd) as (Hr & Hu & Hc).
  set (s := foldl (existing_step psk T) (mkDiff ∅ ∅ []) l) in *. clearbody s.
  assert (Hmem : ∀ k' p, (k', p) ∈ l ++ [(k, ex)] ↔ (k', p) ∈ l ∨ k' = k ∧ p = ex).
  { intros k' p. rewrite elem_of_app, list_elem_of_singleton. naive_solver. }
  setoid_rewrite Hmem. simpl. unfold existing_config at 2. simpl.
  destruct (T !! k) as [t|] eqn:Ht.
  - rewrite (buildAddConfigFromPeerInfo_Ok t) by eauto.
    pose proof (same_nets_true (PI_AllowedIPs ex) (PI_AllowedIPs t)) as Hsn.
    destruct (same_nets (PI_AllowedIPs ex) (PI_AllowedIPs t)); simpl.
    + rewrite orb_false_r, app_nil_r. case_bool_decide as He; simpl.
      * split_and!; [intros; rewrite Hr; naive_solver| |done].
        intros k' t'. rewrite lookup_insert_Some, Hu. unfold must_upsert, texts. naive_solver.
      * split_and!; [intros; rewrite Hr; naive_solver| |done].
        intros k' t'. rewrite Hu. unfold must_upsert, texts. naive_solver.
    + rewrite orb_true_r. simpl. rewrite Hc.
      split_and!; [intros; rewrite Hr; naive_solver| |done].
      intros k' t'. rewrite lookup_insert_Some, Hu. unfold must_upsert, texts. naive_solver.
  - simpl. rewrite app_nil_r. split_and!; [| |done].
    + intros k' p. rewrite lookup_insert_Some, Hr. naive_solver.
    + intros k' t'. rewrite Hu. unfold must_upsert. naive_solver.
Qed.

Lemma target_loop psk E (l : list (string * PeerInfo)) s0 :
  (∀ k t, (k, t) ∈ l → PI_AllowedIPs t ≠ []) → NoDup l.*1 →
  (∀ k t, (k, t) ∈ l → E !! k = None → ds_upsertByKey s0 !! k = None) →
  let s := foldl (target_step psk E) s0 l in
  ds_removeSet s = ds_removeSet s0 ∧
  (∀ k t, ds_upsertByKey s !! k = Some t ↔
     ds_upsertByKey s0 !! k = Some t ∨ (k, t) ∈ l ∧ E !! k = None) ∧
  ds_configs s = ds_configs s0 ++ omap (target_config psk E) l.
Proof.
  intros Hne Hnd Hfree. induction l as [|[k t] l IH] using rev_ind.
  { simpl. rewrite app_nil_r. split_and!; [done|set_solver|done]. }
  rewrite fmap_app in Hnd. apply NoDup_app in Hnd as (Hnd & Hk & _).
  cbn zeta. rewrite foldl_snoc, omap_app.
  destruct IH as (Hr & Hu & Hc); 
    [intros k' t' ?; apply (Hne k' t'); set_solver|done|intros k' t' ?; apply (Hfree k' t'); set_solver|].
  set (s := foldl (target_step psk E) s0 l) in *. clearbody s.
  assert (Hmem : ∀ k' p, (k', p) ∈ l ++ [(k, t)] ↔ (k', p) ∈ l ∨ k' = k ∧ p = t).
  { intros k' p. rewrite elem_of_app, list_elem_of_singleton. naive_solver. }
  assert (Hfresh : ∀ p, (k, p) ∉ l).
  { intros p Hp. apply (Hk k); [apply list_elem_of_fmap; by exists (k, p)|set_solver]. }
  setoid_rewrite Hmem. simpl. unfold target_config at 2. simpl.
  destruct (E !! k) as [ex|] eqn:HE; simpl.
  - rewrite app_nil_r. split_and!; [done| |done]. intros k' t'. rewrite Hu. naive_solver.
  - rewrite (buildAddConfigFromPeerInfo_Ok t) by (apply (Hne k); set_solver). simpl.
    rewrite Hc, app_assoc. split_and!; [done| |done].
    intros k' t'. rewrite lookup_insert_Some, Hu.
    specialize (Hfree k t ltac:(set_solver) HE). naive_solver.
Qed.

Lemma buildRemoveConfigs_spec ρ (m : gmap string PeerInfo) :
  keyed m →
  let r := buildRemoveConfigsForPeers ρ m in
  r.1 = sort_Strings (range_of ρ m).*1 ∧
  (∀ c, c ∈ r.2 ↔ ∃ k p, m !! k = Some p ∧ c = buildRemoveConfig (PI_PublicKey p)).
Proof.
  intros Hm. unfold buildRemoveConfigsForPeers.
  assert (Hl : ∀ k, k ∈ sort_Strings (range_of ρ m).*1 ↔ is_Some (m !! k)).
  { intros k. by rewrite elem_of_sort_Strings, elem_of_range_keys. }
  assert (Hparse : ∀ k p, m !! k = Some p → ParseKey k = Ok (PI_PublicKey p)).
  { intros k p Hp. rewrite <- (Hm _ _ Hp). apply ParseKey_String. }
  revert Hl. generalize (sort_Strings (range_of ρ m).*1) as l. intros l Hl. cbn zeta.
  assert (Hgen : ∀ l', l' ⊆ l →
    let r := foldl (λ acc key,
           match ParseKey key with
           | Err _ => acc
           | Ok publicKey => (acc.1 ++ [key], acc.2 ++ [buildRemoveConfig publicKey])
           end) ([], []) l' in
    r.1 = l' ∧ ∀ c, c ∈ r.2 ↔ ∃ k p, k ∈ l' ∧ m !! k = Some p ∧ c = buildRemoveConfig (PI_PublicKey p)).
  { induction l' as [|k l' IH] using rev_ind; intros Hsub; [simpl; set_solver|].
    cbn zeta. rewrite foldl_snoc. destruct IH as [IH1 IH2]; [set_solver|].
    destruct (proj1 (Hl k) ltac:(set_solver)) as [p Hp]. rewrite (Hparse _ _ Hp). simpl.
    rewrite IH1. split; [done|]. intros c. rewrite elem_of_app, IH2, list_elem_of_singleton.
    set_solver. }
  destruct (Hgen l) as [H1 H2]; [done|]. split; [done|]. intros c. rewrite H2.
  split; [naive_solver|]. intros (k & p & Hp & ->). exists k, p. by rewrite Hl.
Qed.

(** ** [buildSyncDiff] as a whole *)

Definition upsert_needed E (t : PeerInfo) : Prop :=
  match E !! peer_key t with
  | Some ex => PI_Email ex ≠ PI_Email t ∨ texts ex ≠ texts t
  | None => True
  end.

Definition change_config psk E (t : PeerInfo) : PeerConfig :=
  match E !! peer_key t with
  | Some _ => set_replace (add_config psk t)
  | None => add_config psk t
  end.

Record diff_ok (c : Config) E T (d : SyncDiff) : Prop := {
  diff_target : SD_TargetPeers d = T;
  diff_removes : ∀ k, k ∈ SD_RemoveKeys d ↔ is_Some (E !! k) ∧ T !! k = None;
  diff_upserts : ∀ t, t ∈ SD_UpsertPeers d ↔ T !! peer_key t = Some t ∧ upsert_needed E t;
  diff_upserts_nodup : NoDup (peer_key <$> SD_UpsertPeers d);
  diff_changed : SD_Changed d = true ↔ SD_RemoveKeys d ≠ [] ∨ SD_UpsertPeers d ≠ [];
  diff_configs : ∃ adds removes,
    SD_PeerConfigs d = adds ++ removes ∧ NoDup (PC_PublicKey <$> adds) ∧
    (∀ x, x ∈ adds ↔ ∃ t, T !! peer_key t = Some t ∧ changed_nets E t = true ∧
       x = set_advanced (AmneziaWG c) (change_config (psk_of c) E t)) ∧
    (∀ x, x ∈ removes ↔ ∃ k p, E !! k = Some p ∧ T !! k = None ∧
       x = buildRemoveConfig (PI_PublicKey p))
}.

Lemma upserts_in_order_spec ρ (m : gmap string PeerInfo) :
  keyed m →
  peer_key <$> upserts_in_order ρ m = sort_Strings (range_of ρ m).*1 ∧
  (∀ t, t ∈ upserts_in_order ρ m ↔ m !! peer_key t = Some t).
Proof.
  intros Hm. unfold upserts_in_order. split.
  - assert (Hl : ∀ k, k ∈ sort_Strings (range_of ρ m).*1 → is_Some (m !! k)).
    { intros k. by rewrite elem_of_sort_Strings, elem_of_range_keys. }
    induction (sort_Strings (range_of ρ m).*1) as [|k l IH]; [done|].
    destruct (Hl k) as [p Hp]; [set_solver|]. simpl. rewrite Hp. simpl.
    f_equal; [by apply Hm|]. apply IH. intros k' Hk'. apply Hl. by apply elem_of_cons; right.
  - intros t. rewrite list_elem_of_omap. split.
    + intros (k & _ & Hk). by rewrite (Hm _ _ Hk).
    + intros Ht. exists (peer_key t). by rewrite elem_of_sort_Strings, elem_of_range_keys, Ht.
Qed.

Lemma config_keys_nodup {A} (key : A → string) (f : A → option PeerConfig) (l : list A) :
  NoDup (key <$> l) → (∀ x c, x ∈ l → f x = Some c → Key_String (PC_PublicKey c) = key x) →
  NoDup (PC_PublicKey <$> omap f l).
Proof.
  intros Hnd Hf. induction l as [|x l IH]; [constructor|]. simpl in *.
  apply NoDup_cons in Hnd as [Hx Hnd]. destruct (f x) as [c|] eqn:Hfx; [|apply IH; set_solver].
  simpl. apply NoDup_cons. split; [|apply IH; set_solver].
  intros (c' & Hc' & (y & Hy & Hfy)%list_elem_of_omap)%list_elem_of_fmap.
  apply Hx. apply list_elem_of_fmap. exists y. split; [|done].
  rewrite <- (Hf x c), Hc', (Hf y c'); set_solver.
Qed.

Lemma change_config_key psk E t : PC_PublicKey (change_config psk E t) = PI_PublicKey t.
Proof. unfold change_config. by destruct (E !! peer_key t). Qed.

Lemma change_config_ips psk E t : PC_AllowedIPs (change_config psk E t) = PI_AllowedIPs t.
Proof. unfold change_config. by destruct (E !! peer_key t). Qed.

Lemma diff_adds psk E T ρ ρ' :
  keyed T →
  let adds := omap (existing_config psk T) (range_of ρ E) ++
              omap (target_config psk E) (range_of ρ' T) in
  NoDup (PC_PublicKey <$> adds) ∧
  ∀ x, x ∈ adds ↔
    ∃ t, T !! peer_key t = Some t ∧ changed_nets E t = true ∧ x = change_config psk E t.
Proof.
  intros HT. cbn zeta. split.
  - rewrite fmap_app. apply NoDup_app. split_and!.
    + apply (config_keys_nodup fst); [apply range_nodup|]. unfold existing_config.
      intros [k ex] c _ Hc. simpl in *. destruct (T !! k) as [t|] eqn:Ht; [|done].
      destruct (same_nets _ _); simplify_eq/=. by apply HT.
    + intros key (c & -> & ([k ex] & Hk & Hc)%list_elem_of_omap)%list_elem_of_fmap
        (c' & Heq & ([k' t'] & Hk' & Hc')%list_elem_of_omap)%list_elem_of_fmap.
      apply elem_of_range in Hk, Hk'. unfold existing_config, target_config in *. simpl in *.
      destruct (T !! k) as [t|] eqn:Ht; [|done]. destruct (same_nets _ _); [done|].
      destruct (E !! k') eqn:HE; [done|]. simplify_eq/=.
      apply HT in Ht, Hk'. unfold peer_key in *. congruence.
    + apply (config_keys_nodup fst); [apply range_nodup|]. unfold target_config.
      intros [k t] c Hk Hc. apply elem_of_range in Hk. simpl in *.
      destruct (E !! k); simplify_eq/=. by apply HT.
  - intros x. rewrite elem_of_app, !list_elem_of_omap. split.
    + intros [([k ex] & Hk & Hc)|([k t] & Hk & Hc)]; apply elem_of_range in Hk;
        unfold existing_config, target_config in *; simpl in *.
      * destruct (T !! k) as [t|] eqn:Ht; [|done]. pose proof (HT _ _ Ht) as Htk.
        destruct (same_nets _ _) eqn:Hsn; simplify_eq. exists t.
        unfold changed_nets, change_config. by rewrite Hk, Hsn.
      * pose proof (HT _ _ Hk) as Htk. destruct (E !! k) eqn:HE; simplify_eq. exists t.
        unfold changed_nets, change_config. by rewrite HE.
    + intros (t & Ht & Hch & ->). unfold changed_nets, change_config in *.
      destruct (E !! peer_key t) as [ex|] eqn:HE.
      * left. exists (peer_key t, ex). rewrite elem_of_range. split; [done|].
        unfold existing_config. simpl. rewrite Ht.
        destruct (same_nets _ _); [by simpl in Hch|done].
      * right. exists (peer_key t, t). rewrite elem_of_range. split; [done|].
        unfold target_config. simpl. by rewrite HE.
Qed.

Lemma buildSyncDiff_spec σ E D c :
  let T := target_of <$> D in
  keyed E → keyed T → (∀ k t, T !! k = Some t → PI_AllowedIPs t ≠ []) →
  ∃ d, buildSyncDiff σ E D c = (Ok d, (GetPreSharedKey c).2) ∧ diff_ok c E T d.
Proof.
  intros T HE HT Hne. unfold buildSyncDiff. fold T.
  destruct (existing_loop (psk_of c) T (range_of (σ 0) E) Hne (range_nodup _ _)) as (Hr1 & Hu1 & Hc1).
  set (s1 := foldl (existing_step (psk_of c) T) (mkDiff ∅ ∅ []) (range_of (σ 0) E)) in *.
  destruct (target_loop (psk_of c) E (range_of (σ 1) T) s1) as (Hr2 & Hu2 & Hc2).
  { intros k t Hk%elem_of_range. by eapply Hne. }
  { apply range_nodup. }
  { intros k t _ HEk. apply eq_None_not_Some. intros [x Hx].
    apply Hu1 in Hx as (ex & Hex%elem_of_range & _). congruence. }
  set (s2 := foldl (target_step (psk_of c) E) s1 (range_of (σ 1) T)) in *.
  assert (Hrem : ∀ k p, ds_removeSet s2 !! k = Some p ↔ E !! k = Some p ∧ T !! k = None).
  { intros k p. by rewrite Hr2, Hr1, elem_of_range. }
  assert (Hups : ∀ k t, ds_upsertByKey s2 !! k = Some t ↔ T !! k = Some t ∧ upsert_needed E t).
  { intros k t. rewrite Hu2, Hu1, elem_of_range. setoid_rewrite elem_of_range.
    unfold must_upsert, upsert_needed. simpl. split.
    - intros [(ex & Hex & Ht & Hd)|[Ht HEk]]; (split; [done|]); rewrite (HT _ _ Ht).
      + by rewrite Hex.
      + by rewrite HEk.
    - intros [Ht Hd]. rewrite (HT _ _ Ht) in Hd. destruct (E !! k) as [ex|] eqn:Hex; [|by right].
      left. by exists ex. }
  assert (keyed (ds_removeSet s2)) as Hkr by (intros k p [Hp _]%Hrem; by apply HE).
  assert (keyed (ds_upsertByKey s2)) as Hku by (intros k p [Hp _]%Hups; by apply HT).
  destruct (buildRemoveConfigs_spec (σ 2) _ Hkr) as [Hrk Hrc].
  destruct (buildRemoveConfigsForPeers (σ 2) (ds_removeSet s2)) as [rk rc]. simpl in Hrk, Hrc.
  destruct (upserts_in_order_spec (σ 3) _ Hku) as [Huk Hue].
  destruct (diff_adds (psk_of c) E T (σ 0) (σ 1) HT) as [Hadd1 Hadd2].
  eexists. split; [reflexivity|]. split; cbn -[bool_decide].
  - done.
  - intros k. rewrite Hrk, elem_of_sort_Strings, elem_of_range_keys. unfold is_Some.
    setoid_rewrite Hrem. naive_solver.
  - intros t. by rewrite Hue, Hups.
  - rewrite Huk, sort_Strings_nodup. apply range_nodup.
  - by rewrite orb_true_iff, !bool_decide_eq_true.
  - rewrite Hc2, Hc1. eexists _, rc. split; [reflexivity|]. unfold setPeerAdvancedSecurity.
    split_and!.
    + rewrite <- list_fmap_compose. done.
    + intros x. rewrite list_elem_of_fmap. setoid_rewrite Hadd2. naive_solver.
    + intros x. rewrite Hrc. setoid_rewrite Hrem. naive_solver.
Qed.
End Reconcile.
