(* ===== verification/WgAgree.v ===== *)
(** * When the kernel agrees with the roster

    [agree d r]: the device has exactly the peers of the roster, and its
    cryptokey routing table sends each network of each peer to that peer and
    nothing else anywhere.  A full snapshot establishes it and a partial
    reconciliation keeps it. *)

From S2P Require Import Prelude Messages GoString GoNet WgTypes PeerStore WgConfig WgUsers WgPlan WgReconcile.

Section Agree.
Context `{WgKeys}.
Implicit Types (E T r : gmap string PeerInfo) (psk : option Key) (d : DeviceView).

Record agree d r : Prop := {
  agree_peers : ∀ key, key ∈ dv_peers d ↔ ∃ e p, r !! e = Some p ∧ PI_PublicKey p = key;
  agree_routes : ∀ ip key, dv_routes d !! ip = Some key ↔
    ∃ e p, r !! e = Some p ∧ PI_PublicKey p = key ∧ ip ∈ texts p
}.

(** In a roster the kernel agrees with, no network belongs to two keys. *)
Lemma agree_exclusive d r e e' p p' ip :
  agree d r → r !! e = Some p → r !! e' = Some p' → ip ∈ texts p → ip ∈ texts p' →
  PI_PublicKey p = PI_PublicKey p'.
Proof.
  intros [_ Hr] Hp Hp' Hi Hi'.
  assert (dv_routes d !! ip = Some (PI_PublicKey p)) as H1 by (apply Hr; eauto).
  assert (dv_routes d !! ip = Some (PI_PublicKey p')) as H2 by (apply Hr; eauto).
  congruence.
Qed.

(** ** Adding and removing peers *)

Definition adds_ok d (cs : list PeerConfig) : Prop :=
  NoDup (PC_PublicKey <$> cs) ∧
  (∀ c, c ∈ cs → PC_Remove c = false) ∧
  (∀ c, c ∈ cs → PC_ReplaceAllowedIPs c = true ∨
     ∀ ip, dv_routes d !! ip ≠ Some (PC_PublicKey c)) ∧
  (∀ c c' ip, c ∈ cs → c' ∈ cs → ip ∈ IPNet_String <$> PC_AllowedIPs c →
     ip ∈ IPNet_String <$> PC_AllowedIPs c' → PC_PublicKey c = PC_PublicKey c').

Lemma NoDup_fmap_unique {A B} (f : A → B) l x y :
  NoDup (f <$> l) → x ∈ l → y ∈ l → f x = f y → x = y.
Proof.
  intros Hnd [i Hi]%list_elem_of_lookup [j Hj]%list_elem_of_lookup Hxy.
  assert (i = j) as ->.
  { eapply (NoDup_lookup (f <$> l)); [done| |]; rewrite list_lookup_fmap, ?Hi, ?Hj; simpl; by rewrite ?Hxy. }
  congruence.
Qed.

Lemma adds_view d cs :
  adds_ok d cs →
  let d' := foldl configure_peer d cs in
  (∀ key, key ∈ dv_peers d' ↔ key ∈ PC_PublicKey <$> cs ∨ key ∈ dv_peers d) ∧
  (∀ ip key, dv_routes d' !! ip = Some key ↔
     (∃ c, c ∈ cs ∧ PC_PublicKey c = key ∧ ip ∈ IPNet_String <$> PC_AllowedIPs c) ∨
     ((∀ c, c ∈ cs → ip ∉ IPNet_String <$> PC_AllowedIPs c) ∧
      key ∉ PC_PublicKey <$> cs ∧ dv_routes d !! ip = Some key)).
Proof.
  induction cs as [|c cs IH] using rev_ind.
  { intros _. simpl. split; [set_solver|]. intros ip key. split; [|set_solver].
    intros Hr. right. split_and!; [set_solver|set_solver|done]. }
  intros (Hnd & Hadd & Hrep & Hex). cbn zeta.
  assert (Hok : adds_ok d cs).
  { rewrite fmap_app in Hnd. apply NoDup_app in Hnd as (Hnd & _).
    split_and!; [done|intros; apply Hadd; set_solver|intros; apply Hrep; set_solver|].
    intros x y ip Hx Hy. apply Hex; set_solver. }
  destruct (IH Hok) as [Hp Hr]. rewrite foldl_snoc.
  set (d1 := foldl configure_peer d cs) in *. clearbody d1.
  assert (Hc : c ∈ cs ++ [c]) by set_solver.
  assert (Hfresh : PC_PublicKey c ∉ PC_PublicKey <$> cs).
  { rewrite fmap_app in Hnd. apply NoDup_app in Hnd as (_ & Hnd & _). set_solver. }
  unfold configure_peer. rewrite (Hadd c Hc). simpl. split.
  { intros key. rewrite elem_of_union, elem_of_singleton, Hp, fmap_app, elem_of_app. set_solver. }
  assert (Hold : ∀ ip key,
    (if PC_ReplaceAllowedIPs c then drop_routes (PC_PublicKey c) (dv_routes d1) else dv_routes d1) !! ip
      = Some key ↔ key ≠ PC_PublicKey c ∧ dv_routes d1 !! ip = Some key).
  { intros ip key. destruct (PC_ReplaceAllowedIPs c) eqn:Hrp.
    - rewrite drop_routes_lookup. destruct (dv_routes d1 !! ip); simpl; [|naive_solver].
      case_decide; naive_solver.
    - split; [|naive_solver]. intros Hd1. split; [|done]. intros ->.
      apply Hr in Hd1 as [(c' & Hc' & Heq & _)|(_ & _ & Hd)].
      + apply Hfresh. rewrite <- Heq. by apply list_elem_of_fmap_2.
      + destruct (Hrep c Hc) as [?|Hno]; [congruence|]. by apply (Hno ip). }
  intros ip key. rewrite add_routes_lookup. case_decide as Hin.
  - split.
    + intros [= <-]. left. by exists c.
    + intros [(c' & Hc' & <- & Hip)|(Hno & _)]; [|by destruct (Hno c Hc)].
      f_equal. by eapply Hex.
  - rewrite Hold, Hr. setoid_rewrite elem_of_app. setoid_rewrite list_elem_of_singleton.
    rewrite fmap_app, not_elem_of_app. simpl. rewrite list_elem_of_singleton. split.
    + intros (Hne & [(c' & Hc' & Hk & Hip)|(Hno & Hk & Hd)]); [left; exists c'; auto|].
      right. split_and!; [|done|done|done]. intros c' [Hc'| ->]; [by apply Hno|done].
    + intros [(c' & [Hc'| ->] & Hk & Hip)|(Hno & [Hk Hk'] & Hd)]; [|done|].
      * split; [|left; exists c'; auto]. intros ->. apply Hfresh. rewrite <- Hk. by apply list_elem_of_fmap_2.
      * split; [done|]. right. split_and!; [|done|done]. intros c' Hc'. apply Hno. by left.
Qed.

Lemma removes_view d cs :
  (∀ c, c ∈ cs → PC_Remove c = true) →
  let d' := foldl configure_peer d cs in
  (∀ key, key ∈ dv_peers d' ↔ key ∈ dv_peers d ∧ key ∉ PC_PublicKey <$> cs) ∧
  (∀ ip key, dv_routes d' !! ip = Some key ↔
     dv_routes d !! ip = Some key ∧ key ∉ PC_PublicKey <$> cs).
Proof.
  induction cs as [|c cs IH] using rev_ind; intros Hrm; cbn zeta; [simpl; set_solver|].
  destruct IH as [Hp Hr]; [intros; apply Hrm; set_solver|]. rewrite foldl_snoc.
  set (d1 := foldl configure_peer d cs) in *. clearbody d1.
  unfold configure_peer. rewrite (Hrm c) by set_solver. simpl. split.
  - intros key. rewrite fmap_app, elem_of_difference, Hp. simpl. set_solver.
  - intros ip key. specialize (Hr ip key). rewrite fmap_app, not_elem_of_app. simpl.
    rewrite list_elem_of_singleton, drop_routes_lookup.
    destruct (dv_routes d1 !! ip) as [k'|]; simpl; [|naive_solver]. case_decide; naive_solver.
Qed.

(** ** A full snapshot *)

Lemma agree_full cs r :
  adds_ok no_peers cs →
  (∀ c, c ∈ cs → ∃ e p, r !! e = Some p ∧ PI_PublicKey p = PC_PublicKey c ∧
     texts p = IPNet_String <$> PC_AllowedIPs c) →
  (∀ e p, r !! e = Some p → ∃ c, c ∈ cs ∧ PI_PublicKey p = PC_PublicKey c ∧
     texts p = IPNet_String <$> PC_AllowedIPs c) →
  agree (foldl configure_peer no_peers cs) r.
Proof.
  intros Hok H1 H2. destruct (adds_view no_peers cs Hok) as [Hp Hr]. split.
  - intros key. rewrite Hp, list_elem_of_fmap. simpl. split.
    + intros [(c & -> & Hc)|Hx]; [|set_solver]. destruct (H1 c Hc) as (e & p & ? & ? & _). eauto.
    + intros (e & p & He & <-). left. destruct (H2 e p He) as (c & Hc & Hk & _). by exists c.
  - intros ip key. rewrite Hr. simpl. setoid_rewrite lookup_empty. split.
    + intros [(c & Hc & <- & Hip)|(_ & _ & ?)]; [|done].
      destruct (H1 c Hc) as (e & p & He & Hk & Ht). exists e, p. by rewrite Ht.
    + intros (e & p & He & <- & Hip). left. destruct (H2 e p He) as (c & Hc & Hk & Ht).
      exists c. by rewrite <- Ht.
Qed.

(** ** A full snapshot of peers that may share networks

    Each peer is there; a network is routed to one of the peers that have it. *)

Record rebuilt d r : Prop := {
  rebuilt_peers : ∀ key, key ∈ dv_peers d ↔ ∃ e p, r !! e = Some p ∧ PI_PublicKey p = key;
  rebuilt_routes : ∀ ip key, dv_routes d !! ip = Some key → ∃ e p, r !! e = Some p ∧ PI_PublicKey p = key ∧ ip ∈ texts p;
  rebuilt_all : ∀ e p ip, r !! e = Some p → ip ∈ texts p → is_Some (dv_routes d !! ip)
}.

(** No network belongs to two peers of the roster. *)
Definition exclusive r : Prop :=
  ∀ e e' p p' ip, r !! e = Some p → r !! e' = Some p' → ip ∈ texts p → ip ∈ texts p' →
    PI_PublicKey p = PI_PublicKey p'.

Lemma rebuilt_agree d r : rebuilt d r → exclusive r → agree d r.
Proof.
  intros [Hp Hr Ha] Hex. split; [done|]. intros ip key. split; [apply Hr|].
  intros (e & p & He & <- & Hip). destruct (Ha e p ip He Hip) as [k Hk]. rewrite Hk. f_equal.
  destruct (Hr ip k Hk) as (e' & p' & He' & <- & Hip'). by eapply Hex.
Qed.

Lemma snapshot_view cs : NoDup (PC_PublicKey <$> cs) → (∀ c, c ∈ cs → PC_Remove c = false) →
  let d := foldl configure_peer no_peers cs in
  (∀ key, key ∈ dv_peers d ↔ key ∈ PC_PublicKey <$> cs) ∧
  (∀ ip key, dv_routes d !! ip = Some key → ∃ c, c ∈ cs ∧ PC_PublicKey c = key ∧ ip ∈ IPNet_String <$> PC_AllowedIPs c) ∧
  (∀ c ip, c ∈ cs → ip ∈ IPNet_String <$> PC_AllowedIPs c → is_Some (dv_routes d !! ip)).
Proof.
  induction cs as [|c cs IH] using rev_ind; [intros _ _; cbn; split_and!; [set_solver|done|set_solver]|].
  rewrite fmap_app, NoDup_app. intros (Hnd & Hc & _) Hadd. destruct IH as (Hp & Hr & Ha); [done|intros; apply Hadd; set_solver|].
  cbn zeta. rewrite foldl_snoc. set (d := foldl configure_peer no_peers cs) in *. clearbody d.
  assert (PC_PublicKey c ∉ PC_PublicKey <$> cs) as Hfresh by set_solver.
  assert (∀ ip, (if PC_ReplaceAllowedIPs c then drop_routes (PC_PublicKey c) (dv_routes d) else dv_routes d) !! ip = dv_routes d !! ip) as Hsame.
  { intros ip. destruct (PC_ReplaceAllowedIPs c); [|done]. rewrite drop_routes_lookup.
    destruct (dv_routes d !! ip) as [k|] eqn:Hk; [|done]. cbn. case_decide as Heq; [|done]. subst k.
    destruct (Hr ip _ Hk) as (c' & Hc' & Heq & _). exfalso. apply Hfresh. rewrite <- Heq. by apply list_elem_of_fmap_2. }
  unfold configure_peer. rewrite (Hadd c) by set_solver. cbn [dv_peers dv_routes]. split_and!.
  - intros key. rewrite elem_of_union, elem_of_singleton, Hp, elem_of_app. set_solver.
  - intros ip key. rewrite add_routes_lookup, Hsame. case_decide as Hip.
    + intros [= <-]. exists c. set_solver.
    + intros Hk. destruct (Hr ip key Hk) as (c' & Hc' & ? & ?). exists c'. set_solver.
  - intros c' ip Hc' Hip. rewrite add_routes_lookup, Hsame. case_decide; [by eexists|].
    apply elem_of_app in Hc' as [Hc'|Hc']; [by apply (Ha c')|set_solver].
Qed.
End Agree.
