(* ===== verification/WgManager.v ===== *)
(** * The interface manager ([src/backend/wireguard/manager.go])

    Creating, configuring and deleting the kernel interface.  [wgClient] and
    [netlinkOps] are Go interfaces over the awgctrl and netlink packages: the
    class [Kernel].  A method is an [eff K] on the host's network state; the
    mutex makes each one atomic. *)

From S2P Require Import Prelude GoString GoNet WgTypes WgToy WgConfig.

Section WgManager.
Context `{Kernel} `{AwgLib}.

(** ** Data *)

(** [m_client] says whether the control client is open; the netlink and
    configure functions of a manager are always the defaults. *)
Record Manager := mkManager {
  m_client : bool;
  iFaceName : string;
  amneziaWG : bool;
  awgConfig : AwgProfile
}.

Definition NewManager (interfaceName : string) : eff K Manager :=
  _ ← map_err (wrapf "failed to create wgctrl client") client_New;
  mret (mkManager true interfaceName false no_profile).

Definition NewAmneziaManager (interfaceName : string) (config : option Config) : eff K Manager :=
  if match config with None => true | Some c => negb (AmneziaWG c) end
  then throw (errors_New "AmneziaWG manager requires an AmneziaWG configuration")
  else
    awgConfig ← lift (buildAmneziaDeviceConfig config);
    _ ← map_err (wrapf "failed to create AmneziaWG control client") client_New;
    mret (mkManager true interfaceName true awgConfig).

(** ** Helpers *)

Definition wrapPermissionDeniedError (action : string) (err : goerr) : goerr :=
  if errors_Is err EPERM || errors_Is err EACCES
  then wrapf (action +:+ ": permission denied; WireGuard requires CAP_NET_ADMIN and kernel support on the host (if running in Docker, add NET_ADMIN and ensure the wireguard kernel module is available on the host)") err
  else err.

Definition buildInitialWGConfig (privateKey : Key) (listenPort : Z) (peers : list PeerConfig)
    : DeviceConfig :=
  match peers with
  | [] => mkDeviceConfig (Some privateKey) (Some listenPort) false [] no_profile
  | _ => mkDeviceConfig (Some privateKey) (Some listenPort) true peers no_profile
  end.

Definition mergeAmneziaDeviceConfig (dst : DeviceConfig) (src : AwgProfile) : DeviceConfig :=
  mkDeviceConfig (DC_PrivateKey dst) (DC_ListenPort dst) (DC_ReplacePeers dst) (DC_Peers dst) src.

Definition not_initialized : goerr := errors_New "wgctrl client is not initialized".

(** [cleanupExistingInterface]: a missing link is not an error. *)
Definition cleanupExistingInterface (m : Manager) : eff K unit :=
  r ← try (nl_LinkByName (iFaceName m));
  match r with
  | Err err => if errors_Is err LinkNotFound then mret () else throw (wrapf "link lookup" err)
  | Ok link =>
      map_err (λ e, wrapf "link delete" (wrapPermissionDeniedError "deleting wireguard interface" e))
        (nl_LinkDel link)
  end.

(** [defer func() { if cleanupOnError { _ = cleanup() } }()] around [body],
    which clears [cleanupOnError] when it gets to its end. *)
Definition with_cleanup (cleanup body : eff K unit) : eff K unit := λ k,
  match body k with
  | (Ok x, k') => (Ok x, k')
  | (Err e, k') => (Err e, (cleanup k').2)
  end.

Fixpoint parse_addrs (serverIPs : list string) : eff K (list Addr) :=
  match serverIPs with
  | [] => mret []
  | ipStr :: serverIPs =>
      addr ← map_err (wrapf ("failed to parse address " +:+ ipStr)) (nl_ParseAddr ipStr);
      addrs ← parse_addrs serverIPs;
      mret (addr :: addrs)
  end.

(** ** Operations *)

(** What runs once the link exists: configure it, assign its addresses, bring
    it up. *)
Definition setup_link (m : Manager) (privateKey : Key) (listenPort : Z) (addrs : list Addr)
    (peers : list PeerConfig) : eff K unit :=
  let config := buildInitialWGConfig privateKey listenPort peers in
  let config := if amneziaWG m then mergeAmneziaDeviceConfig config (awgConfig m) else config in
  _ ← map_err (λ e, wrapf "failed to configure device"
                      (wrapPermissionDeniedError "configuring wireguard device" e))
        (client_ConfigureDevice (iFaceName m) config);
  link2 ← map_err (wrapf "failed to get link") (nl_LinkByName (iFaceName m));
  _ ← for_each (λ addr,
        map_err (λ e, wrapf ("failed to add address " +:+ Addr_String addr)
                        (wrapPermissionDeniedError "assigning wireguard interface address" e))
          (nl_AddrAdd link2 addr)) addrs;
  map_err (λ e, wrapf "failed to bring up interface"
                  (wrapPermissionDeniedError "bringing wireguard interface up" e))
    (nl_LinkSetUp link2).

Definition link_kind (m : Manager) : LinkKind :=
  if amneziaWG m then Link_amneziawg else Link_wireguard.

Definition link_add_error (m : Manager) (err : goerr) : goerr :=
  if amneziaWG m
  then wrapf ("failed to create AmneziaWG interface " +:+ Quote (iFaceName m) +:+
         "; ensure the host kernel has the AmneziaWG module installed and loaded (modprobe amneziawg)") err
  else wrapf "failed to add link" (wrapPermissionDeniedError "creating wireguard interface" err).

Definition Manager_InitializeWithPeers (m : Manager) (privateKey : Key) (listenPort : Z)
    (serverIPs : list string) (peers : list PeerConfig) : eff K unit :=
  if negb (m_client m) then throw not_initialized
  else
    addrs ← parse_addrs serverIPs;
    _ ← map_err (wrapf "failed to cleanup existing interface") (cleanupExistingInterface m);
    _ ← map_err (link_add_error m) (nl_LinkAdd (link_kind m) (iFaceName m));
    with_cleanup (cleanupExistingInterface m) (setup_link m privateKey listenPort addrs peers).

Definition Manager_ApplyPeers (m : Manager) (peers : list PeerConfig) : eff K unit :=
  match peers with
  | [] => mret ()
  | _ =>
      if negb (m_client m) then throw not_initialized
      else client_ConfigureDevice (iFaceName m) (mkDeviceConfig None None false peers no_profile)
  end.

Definition Manager_ApplyPeersReplaceAll (m : Manager) (peers : list PeerConfig) : eff K unit :=
  if negb (m_client m) then throw not_initialized
  else client_ConfigureDevice (iFaceName m) (mkDeviceConfig None None true peers no_profile).

Definition Manager_ApplyConfig (m : Manager) (config : DeviceConfig) : eff K unit :=
  if negb (m_client m) then throw not_initialized
  else
    let config := if amneziaWG m then mergeAmneziaDeviceConfig config (awgConfig m) else config in
    client_ConfigureDevice (iFaceName m) config.

Definition Manager_GetDevice (m : Manager) : eff K (list DevicePeer) :=
  if negb (m_client m) then throw not_initialized else client_Device (iFaceName m).

(** [errors.Join] of a non-empty list. *)
Definition errors_Join (errs : list goerr) : goerr :=
  GoErr (Join (err_text <$> errs) newline) (errs ≫= err_chain).

(** Both steps always run; the client is gone afterwards. *)
Definition Manager_Close : eff (Manager * K) unit := λ mk,
  let '(m, k) := mk in
  let m' := mkManager false (iFaceName m) (amneziaWG m) (awgConfig m) in
  let '(errs, k) :=
    if m_client m then
      match client_Close k with
      | (Err e, k) => ([wrapf "client close" e], k)
      | (Ok _, k) => ([], k)
      end
    else ([], k) in
  let '(errs, k) :=
    match cleanupExistingInterface m' k with
    | (Err e, k) => (errs ++ [e], k)
    | (Ok _, k) => (errs, k)
    end in
  match errs with
  | [] => (Ok (), (m', k))
  | _ => (Err (errors_Join errs), (m', k))
  end.

(** The [uint64] link counters are converted to [int64]. *)
Definition Manager_GetInterfaceStats (m : Manager) : eff K (Z * Z) :=
  link ← map_err (wrapf "failed to get link") (nl_LinkByName (iFaceName m));
  match Link_Statistics link with
  | None => mret (0, 0)%Z
  | Some (rx, tx) => mret (wrap64 rx, wrap64 tx)
  end.

(** ** Facts *)

Lemma cleanup_Ok m k k' : cleanupExistingInterface m k = (Ok (), k') → dev k' (iFaceName m) = None.
Proof.
  unfold cleanupExistingInterface, mbind, eff_bind, try.
  destruct (nl_LinkByName (iFaceName m) k) as [[link|e] k1] eqn:Hl.
  - rewrite map_err_Ok. intros Hd. apply LinkByName_Ok in Hl as [<- _]. by eapply LinkDel_Ok.
  - destruct (errors_Is e LinkNotFound) eqn:He; [|done]. intros [= <-].
    pose proof (LinkByName_dev (iFaceName m) k) as Hdev. rewrite Hl in Hdev. simpl in Hdev.
    rewrite Hdev. by eapply LinkByName_NotFound.
Qed.

Definition same_dev (k k' : K) : Prop := dev k' = dev k.

#[local] Instance same_dev_preorder : PreOrder same_dev.
Proof. split; [by intros k|]. unfold same_dev. congruence. Qed.

Lemma parse_addrs_dev l : preserves same_dev (parse_addrs l).
Proof.
  induction l as [|a l IH]; [intros k; reflexivity|]. cbn [parse_addrs].
  apply preserves_bind; [apply _| |intros addr].
  - apply preserves_map_err. intros k. apply ParseAddr_dev.
  - apply preserves_bind; [apply _|done|]. intros addrs k. reflexivity.
Qed.

Lemma setup_tail_dev (m : Manager) addrs :
  preserves same_dev
    (link2 ← map_err (wrapf "failed to get link") (nl_LinkByName (iFaceName m));
     _ ← for_each (λ addr,
           map_err (λ e, wrapf ("failed to add address " +:+ Addr_String addr)
                           (wrapPermissionDeniedError "assigning wireguard interface address" e))
             (nl_AddrAdd link2 addr)) addrs;
     map_err (λ e, wrapf "failed to bring up interface"
                     (wrapPermissionDeniedError "bringing wireguard interface up" e))
       (nl_LinkSetUp link2)).
Proof.
  apply preserves_bind; [apply _| |intros link2].
  - apply preserves_map_err. intros k. apply LinkByName_dev.
  - apply preserves_bind; [apply _| |intros _].
    + apply preserves_for_each; [apply _|]. intros a _. apply preserves_map_err.
      intros k. apply AddrAdd_dev.
    + apply preserves_map_err. intros k. apply LinkSetUp_dev.
Qed.

Lemma initial_view m pk port peers :
  configure_view no_peers
    (let c := buildInitialWGConfig pk port peers in
     if amneziaWG m then mergeAmneziaDeviceConfig c (awgConfig m) else c)
  = foldl configure_peer no_peers peers.
Proof. unfold buildInitialWGConfig, configure_view. by destruct (amneziaWG m), peers. Qed.

Lemma setup_link_Ok m pk port addrs peers k k' :
  dev k (iFaceName m) = Some no_peers →
  setup_link m pk port addrs peers k = (Ok (), k') →
  dev k' (iFaceName m) = Some (foldl configure_peer no_peers peers).
Proof.
  intros Hk Hs. unfold setup_link in Hs. apply bind_Ok in Hs as ([] & k1 & Hc & Ht).
  rewrite map_err_Ok in Hc. apply ConfigureDevice_Ok in Hc as (d & Hd & Hk1).
  rewrite Hk in Hd. simplify_eq. rewrite initial_view in Hk1.
  pose proof (setup_tail_dev m addrs k1) as Htail. rewrite Ht in Htail.
  unfold same_dev in Htail. simpl in Htail. by rewrite Htail.
Qed.

Lemma Initialize_Ok m pk port ips peers k k' :
  Manager_InitializeWithPeers m pk port ips peers k = (Ok (), k') →
  dev k' (iFaceName m) = Some (foldl configure_peer no_peers peers).
Proof.
  unfold Manager_InitializeWithPeers. destruct (m_client m); simpl; [|done].
  intros (addrs & k1 & _ & (u & k2 & _ & (v & k3 & Ha & Hs)%bind_Ok)%bind_Ok)%bind_Ok.
  rewrite map_err_Ok in Ha. destruct v. apply LinkAdd_Ok in Ha.
  unfold with_cleanup in Hs. destruct (setup_link _ _ _ _ _ k3) as [[[]|e] k4] eqn:Hl; simplify_eq.
  by eapply setup_link_Ok.
Qed.

(** Deleting links works and a failed [LinkAdd] adds nothing. *)
Definition reliable_links : Prop :=
  (∀ l k, (nl_LinkDel l k).1 = Ok ()) ∧
  (∀ s k e k', nl_LinkByName s k = (Err e, k') → errors_Is e LinkNotFound = true) ∧
  (∀ kd s k e k', nl_LinkAdd kd s k = (Err e, k') → dev k' = dev k).

Lemma cleanup_reliable m k :
  reliable_links → dev (cleanupExistingInterface m k).2 (iFaceName m) = None.
Proof.
  intros (Hdel & Hby & _). apply (cleanup_Ok m k).
  rewrite (surjective_pairing (cleanupExistingInterface m k)) at 1. f_equal.
  unfold cleanupExistingInterface, mbind, eff_bind, try.
  destruct (nl_LinkByName (iFaceName m) k) as [[link|e] k1] eqn:Hl.
  - unfold map_err. specialize (Hdel link k1). destruct (nl_LinkDel link k1) as [[[]|] k2]; done.
  - by rewrite (Hby _ _ _ _ Hl).
Qed.

Lemma Initialize_Err m pk port ips peers k e k' :
  reliable_links →
  Manager_InitializeWithPeers m pk port ips peers k = (Err e, k') →
  dev k' (iFaceName m) = None ∨ dev k' = dev k.
Proof.
  intros Hrel. unfold Manager_InitializeWithPeers. destruct (m_client m); simpl.
  2: { intros [_ ->]%throw_eq. by right. }
  intros [Hp|(addrs & k1 & Hp & [Hc|(u & k2 & Hc & [Ha|(v & k3 & Ha & Hs)]%bind_Err)]%bind_Err)]%bind_Err.
  - right. pose proof (parse_addrs_dev ips k) as Hd. by rewrite Hp in Hd.
  - left. apply map_err_Err in Hc as (e' & _ & Hc).
    pose proof (cleanup_reliable m k1 Hrel) as Hd. by rewrite Hc in Hd.
  - left. rewrite map_err_Ok in Hc. apply map_err_Err in Ha as (e' & _ & Ha).
    destruct Hrel as (_ & _ & Hadd). rewrite (Hadd _ _ _ _ _ Ha). destruct u. by eapply cleanup_Ok.
  - left. unfold with_cleanup in Hs.
    destruct (setup_link _ _ _ _ _ k3) as [[[]|e''] k4]; simplify_eq.
    by apply cleanup_reliable.
Qed.

(** Closing twice, or closing after a failure, is harmless: the client is gone
    and, when links can be deleted, so is the interface. *)
Lemma Close_client mk : m_client (Manager_Close mk).2.1 = false.
Proof.
  destruct mk as [m k]. unfold Manager_Close.
  destruct (m_client m); [destruct (client_Close k) as [[|] ?]|];
    destruct (cleanupExistingInterface _ _) as [[|] ?]; repeat case_match; by simplify_eq/=.
Qed.

Lemma Close_reliable m k :
  reliable_links → dev (Manager_Close (m, k)).2.2 (iFaceName m) = None.
Proof.
  intros Hrel. unfold Manager_Close.
  set (m' := mkManager false (iFaceName m) (amneziaWG m) (awgConfig m)).
  assert (Hc : ∀ k, dev (cleanupExistingInterface m' k).2 (iFaceName m) = None)
    by (intros k0; apply (cleanup_reliable m' k0 Hrel)).
  destruct (m_client m); [destruct (client_Close k) as [[|] k1]|];
    match goal with |- context [cleanupExistingInterface m' ?k] =>
      specialize (Hc k); destruct (cleanupExistingInterface m' k) as [[|] ?] end;
    repeat case_match; by simplify_eq/=.
Qed.
(** ** Which interfaces there are

    Links come and go by adding and deleting them only. *)
Record tidy_kernel : Prop := mkTidy {
  tidy_reliable : reliable_links;
  tidy_add kd s k s' : s' ≠ s → is_Some (dev (nl_LinkAdd kd s k).2 s') → is_Some (dev k s');
  tidy_del l k s : is_Some (dev (nl_LinkDel l k).2 s) → is_Some (dev k s);
  tidy_configure n c k s : is_Some (dev (client_ConfigureDevice n c k).2 s) → is_Some (dev k s)
}.

(** No link but [name], if it is one, is new. *)
Definition adds_at_most (name : option string) (k k' : K) : Prop :=
  ∀ s, Some s ≠ name → is_Some (dev k' s) → is_Some (dev k s).
Notation adds_no_link := (adds_at_most None).

#[export] Instance adds_at_most_preorder name : PreOrder (adds_at_most name).
Proof. split; [by intros k s|]. intros k1 k2 k3 H12 H23 s Hs Hk. by apply H12, H23. Qed.

Lemma same_dev_adds name k k' : dev k' = dev k → adds_at_most name k k'.
Proof. intros Hd s _. by rewrite Hd. Qed.

Lemma same_dev_preserves {A} name (m : eff K A) : preserves same_dev m → preserves (adds_at_most name) m.
Proof. intros Hm k. apply same_dev_adds, Hm. Qed.

Section Tidy.
Context (tidy : tidy_kernel).

Lemma configure_adds name n c : preserves (adds_at_most name) (client_ConfigureDevice n c).
Proof. intros k s _. by apply tidy_configure. Qed.

Lemma cleanup_adds name m : preserves (adds_at_most name) (cleanupExistingInterface m).
Proof.
  unfold cleanupExistingInterface. apply preserves_bind; [apply _| |intros [link|e]].
  - intros k. apply same_dev_adds. pose proof (LinkByName_dev (iFaceName m) k) as Hd.
    unfold try. by destruct (nl_LinkByName (iFaceName m) k).
  - apply preserves_map_err. intros k s _. by apply tidy_del.
  - intros k. destruct (errors_Is e LinkNotFound); reflexivity.
Qed.

Lemma ApplyPeers_adds m peers : preserves adds_no_link (Manager_ApplyPeers m peers).
Proof. unfold Manager_ApplyPeers. destruct peers; [|destruct (negb (m_client m))]; [intros k; reflexivity..|apply configure_adds]. Qed.

Lemma ApplyPeersReplaceAll_adds m peers : preserves adds_no_link (Manager_ApplyPeersReplaceAll m peers).
Proof. unfold Manager_ApplyPeersReplaceAll. destruct (negb (m_client m)); [intros k; reflexivity|apply configure_adds]. Qed.

Lemma Close_adds m k : adds_no_link k (Manager_Close (m, k)).2.2.
Proof.
  unfold Manager_Close. set (m' := mkManager false (iFaceName m) (amneziaWG m) (awgConfig m)).
  pose proof (λ k, cleanup_adds None m' k) as Hc.
  destruct (m_client m); [pose proof (Close_dev k) as Hk; destruct (client_Close k) as [[|] k1]|];
    match goal with |- context [cleanupExistingInterface m' ?k] =>
      specialize (Hc k); destruct (cleanupExistingInterface m' k) as [[|] ?] end;
    repeat case_match; simplify_eq/=; try done; etrans; try exact Hc; by apply same_dev_adds.
Qed.

Lemma Initialize_adds m pk port ips peers :
  preserves (adds_at_most (Some (iFaceName m))) (Manager_InitializeWithPeers m pk port ips peers).
Proof.
  unfold Manager_InitializeWithPeers. destruct (negb (m_client m)); [intros k; reflexivity|].
  apply preserves_bind; [apply _|apply same_dev_preserves, parse_addrs_dev|intros addrs].
  apply preserves_bind; [apply _|apply preserves_map_err, cleanup_adds|intros _].
  apply preserves_bind; [apply _| |intros _].
  - apply preserves_map_err. intros k s Hs. apply tidy_add; [done|congruence].
  - intros k. unfold with_cleanup.
    assert (adds_at_most (Some (iFaceName m)) k (setup_link m pk port addrs peers k).2) as Hs.
    { revert k. change (preserves (adds_at_most (Some (iFaceName m))) (setup_link m pk port addrs peers)).
      apply preserves_bind; [apply _|apply preserves_map_err, configure_adds|intros _].
      apply same_dev_preserves, setup_tail_dev. }
    destruct (setup_link _ _ _ _ _ k) as [[[]|e] k']; [exact Hs|]. etrans; [exact Hs|apply cleanup_adds].
Qed.
End Tidy.

Lemma GetDevice_dev m k : dev (Manager_GetDevice m k).2 = dev k.
Proof. unfold Manager_GetDevice. destruct (negb (m_client m)); [done|apply Device_dev]. Qed.

Lemma GetInterfaceStats_dev m : preserves same_dev (Manager_GetInterfaceStats m).
Proof.
  unfold Manager_GetInterfaceStats. apply preserves_bind; [apply _| |intros link].
  - apply preserves_map_err. intros k. apply LinkByName_dev.
  - by destruct (Link_Statistics link) as [[]|].
Qed.
End WgManager.

(** ** Properties *)

(** Setting up an interface is all or nothing: a success leaves the device
    with exactly the peer snapshot it was given, whatever was there before,
    and a failure leaves either no such interface or the host as it was, when
    links can be looked up and deleted. *)
Theorem initialize_all_or_nothing `{Kernel} (m : Manager) (pk : Key) (port : Z)
    (ips : list string) (peers : list PeerConfig) (k k' : K) (r : result unit)
    (Hrel : reliable_links)
    (Hrun : Manager_InitializeWithPeers m pk port ips peers k = (r, k')) :
  match r with
  | Ok _ => dev k' (iFaceName m) = Some (foldl configure_peer no_peers peers)
  | Err _ => dev k' (iFaceName m) = None ∨ dev k' = dev k
  end.
Proof. destruct r as [[]|e]; [by eapply Initialize_Ok|by eapply Initialize_Err]. Qed.

Lemma toy_reliable : @reliable_links toy_keys toy_kernel.
Proof.
  split_and!; simpl.
  - done.
  - unfold toy_LinkByName. intros s k e k'. case_match; intros; by simplify_eq.
  - unfold toy_LinkAdd, toy_op. intros _ s k e k'. repeat case_match; intros; by simplify_eq.
Qed.

Lemma toy_tidy : @tidy_kernel toy_keys toy_kernel.
Proof.
  split; [exact toy_reliable| | |]; simpl.
  - unfold toy_LinkAdd, toy_op. intros _ s k s' Hne. repeat case_match; simpl; [done..|]. by rewrite lookup_insert_ne.
  - intros l k s. rewrite lookup_delete_is_Some. tauto.
  - unfold toy_Configure, toy_op. intros n c k s. repeat case_match; simpl; [done| |done].
    rewrite lookup_insert_is_Some. intros [<-|[_ ?]]; [by eexists|done].
Qed.

Lemma initialize_all_or_nothing_witness :
  let m := mkManager true "wg0" false no_profile in
  let peer := @mkPeerConfig toy_keys "1" false None None false [mkIPNet [10; 0; 0; 2]%Z 32] false in
  let old := <["wg0" := @no_peers toy_keys]> ∅ in
  let k := mkToy old [] ["AddrAdd"] ∅ in
  let run := @Manager_InitializeWithPeers toy_keys toy_kernel m "pk" 51820 ["10.0.0.1/24"] [peer] k in
  run.1 ≠ Ok () ∧ @reliable_links toy_keys toy_kernel ∧
  (@dev toy_keys toy_kernel run.2 "wg0" = None ∨
   @dev toy_keys toy_kernel run.2 = @dev toy_keys toy_kernel k).
Proof.
  intros m peer old k run. pose proof toy_reliable as Hrel.
  split; [vm_compute; discriminate|]. split; [exact Hrel|].
  exact (@initialize_all_or_nothing toy_keys toy_kernel m "pk" 51820 ["10.0.0.1/24"] [peer]
    k run.2 run.1 Hrel (surjective_pairing run)).
Defined.
