(* ===== verification/HostRouting.v ===== *)
(** * Host routing ([src/backend/wireguard/host_routing_linux.go, defaultroute_linux.go])

    The nftables rules, policy routes and IP forwarding that let WireGuard
    traffic leave the host.  The [ip] and [nft] programs and the [/proc] files
    are the class [Host]; what the backend asks of them, and how it reads
    their answers, is modelled. *)

From Stdlib Require Import Ascii.
From S2P Require Import Prelude GoString Json WgTypes NodeConfig.

Section HostRouting.
Context `{Host} `{JsonText} {UUID : Type}.
Notation NodeConfig := (@NodeConfig UUID).

Definition ipv4ForwardPath : string := "/proc/sys/net/ipv4/ip_forward".
Definition nftTableFamily : string := "ip".
Definition nftTableName : string := "pg_node_wg_nat".
Definition nftPostroutingChain : string := "postrouting".
Definition nftForwardChain : string := "forward".
Definition nftRuleCommentPrefix : string := "pg_node_wg ".

Definition envTruthy (s : string) : bool :=
  let v := TrimSpace s in
  bool_decide (v = "1") || EqualFold v "true" || EqualFold v "yes".

(** ** Running commands *)

(** [runIP] and [runNFT]. *)
Definition run_command (prog : string) (args : list string) : eff K string := λ k,
  let '(out, err, k) := exec_CombinedOutput (prog :: args) k in
  match err with
  | Some e =>
      (Err (GoErr (prog +:+ " " +:+ Join args " " +:+ ": " +:+ err_text e +:+ ": " +:+ TrimSpace out)
              (err_chain e)), k)
  | None => (Ok out, k)
  end.
Definition runIP (args : list string) : eff K unit := _ ← run_command "ip" args; mret ().
Definition runNFT (args : list string) : eff K unit := _ ← run_command "nft" args; mret ().

Definition ipRuleExists (err : goerr) : bool := Contains (err_text err) "File exists".
Definition ipRuleMissing (err : goerr) : bool :=
  let msg := err_text err in
  Contains msg "No such" || Contains msg "not found" || Contains msg "does not exist".
Definition nftAlreadyExists (err : goerr) : bool := Contains (err_text err) "File exists".

(** [if err := m; err != nil && !fine(err) { return err }]. *)
Definition ignoring (fine : goerr → bool) (m : eff K unit) : eff K unit :=
  r ← try m;
  match r with
  | Ok _ => mret ()
  | Err e => if fine e then mret () else throw e
  end.

(** ** Policy routing *)

Record policyRouteConfig := mkPolicyRoute {
  pr_wgIface : string;
  pr_outIface : string;
  pr_table : string
}.

Definition parsePolicyRoute (cfg : option NodeConfig) (wgIface : string)
    : option policyRouteConfig :=
  match cfg with
  | None => None
  | Some cfg =>
      let table := TrimSpace (WGRouteTable cfg) in
      let outIface := TrimSpace (WGRouteOutInterface cfg) in
      if bool_decide (table = "") || bool_decide (outIface = "") then None
      else Some (mkPolicyRoute wgIface outIface table)
  end.

Definition policyRoute_apply (p : policyRouteConfig) : eff K unit :=
  _ ← ignoring ipRuleExists (runIP ["rule"; "add"; "iif"; pr_wgIface p; "lookup"; pr_table p]);
  ignoring ipRuleExists
    (runIP ["route"; "add"; "default"; "dev"; pr_outIface p; "table"; pr_table p]).

(** [errors.Join] is nil when nothing failed. *)
Definition join_errors (errs : list goerr) : result unit :=
  match errs with
  | [] => Ok ()
  | _ => Err (GoErr (Join (err_text <$> errs) newline) (errs ≫= err_chain))
  end.

(** [if err := m; err != nil && !fine(err) { errs = append(errs, err) }]. *)
Definition collect_err (fine : goerr → bool) (m : eff K unit) (errs : list goerr) : eff K (list goerr) :=
  r ← try m;
  match r with
  | Ok _ => mret errs
  | Err e => if fine e then mret errs else mret (errs ++ [e])
  end.

Definition policyRoute_cleanup (p : policyRouteConfig) : eff K unit :=
  errs ← collect_err ipRuleMissing
    (runIP ["route"; "del"; "default"; "dev"; pr_outIface p; "table"; pr_table p]) [];
  errs ← collect_err ipRuleMissing
    (runIP ["rule"; "del"; "iif"; pr_wgIface p; "lookup"; pr_table p]) errs;
  lift (join_errors errs).

(** ** nftables rules and their comments *)

Record nftBaseChain := mkChain { ch_family : string; ch_table : string; ch_name : string }.

Definition nftString (s : string) : string := Quote s.

Definition nftMasqueradeRuleArgs (wgIface outputIface : string) (egressOnly : bool) : list string :=
  if egressOnly then ["oifname"; nftString outputIface; "masquerade"]
  else ["iifname"; nftString wgIface; "oifname"; nftString outputIface; "masquerade"].

Definition nftOwnerCommentPrefix (ownerID : string) : string :=
  nftRuleCommentPrefix +:+ "owner=" +:+ ownerID +:+ " ".

Definition nftForwardRuleComment (ownerID wgIface outputIface : string) (outbound : bool) : string :=
  let direction := if outbound then "outbound" else "return" in
  nftRuleCommentPrefix +:+ "owner=" +:+ ownerID +:+ " type=forward iface=" +:+ wgIface +:+
    " out=" +:+ outputIface +:+ " direction=" +:+ direction.

Definition nftNATRuleComment (ownerID wgIface outputIface : string) (egressOnly : bool) : string :=
  let scope := if egressOnly then "egress" else "interface" in
  nftRuleCommentPrefix +:+ "owner=" +:+ ownerID +:+ " type=nat iface=" +:+ wgIface +:+
    " out=" +:+ outputIface +:+ " scope=" +:+ scope.

(** The handle of one listed rule, if its comment has the prefix. *)
Definition line_handle (commentPrefix line : string) : option string :=
  if negb (Contains line commentPrefix) then None
  else match Cut line "# handle " with
       | None => None
       | Some (before, handle) =>
           if bool_decide (TrimSpace before = "") then None else head (Fields handle)
       end.

Definition nftRuleHandlesWithComment (data commentPrefix : string) : list string :=
  omap (line_handle commentPrefix) (Split data newline).

Definition removeNFTRulesWithCommentPrefix (chain : nftBaseChain) (commentPrefix : string)
    : eff K unit :=
  out ← run_command "nft" ["-a"; "list"; "chain"; ch_family chain; ch_table chain; ch_name chain];
  for_each (λ handle,
    runNFT ["delete"; "rule"; ch_family chain; ch_table chain; ch_name chain; "handle"; handle])
    (nftRuleHandlesWithComment out commentPrefix).

Definition insertNFTForwardRule (chain : nftBaseChain) (wgIface outputIface ownerID : string)
    (outbound : bool) : eff K unit :=
  let comment := nftForwardRuleComment ownerID wgIface outputIface outbound in
  let args := ["insert"; "rule"; ch_family chain; ch_table chain; ch_name chain] in
  runNFT (args ++
    if outbound
    then ["iifname"; nftString wgIface; "oifname"; nftString outputIface; "accept";
          "comment"; nftString comment]
    else ["iifname"; nftString outputIface; "oifname"; nftString wgIface; "ct"; "state";
          "established,related"; "accept"; "comment"; nftString comment]).

Definition ensureNFTMasquerade (wgIface outputIface : string) (egressOnly : bool) (ownerID : string)
    : eff K unit :=
  _ ← ignoring nftAlreadyExists (runNFT ["add"; "table"; nftTableFamily; nftTableName]);
  _ ← ignoring nftAlreadyExists (runNFT
        ["add"; "chain"; nftTableFamily; nftTableName; nftPostroutingChain;
         "{"; "type"; "nat"; "hook"; "postrouting"; "priority"; "100"; ";"; "policy"; "accept"; ";"; "}"]);
  _ ← removeNFTRulesWithCommentPrefix
        (mkChain nftTableFamily nftTableName nftPostroutingChain) (nftOwnerCommentPrefix ownerID);
  runNFT (["add"; "rule"; nftTableFamily; nftTableName; nftPostroutingChain] ++
          nftMasqueradeRuleArgs wgIface outputIface egressOnly ++
          ["comment"; nftString (nftNATRuleComment ownerID wgIface outputIface egressOnly)]).

(** ** The forward chains of the ruleset *)

Definition nftForwardFamilySupported (family : string) : bool :=
  bool_decide (family = "ip") || bool_decide (family = "inet").

Record nftListChain := mkListChain { lc_family : string; lc_table : string; lc_name : string; lc_hook : string }.

(** Decoding a rule set item's ["chain"] object. *)
Definition decode_chain (v : json) : result nftListChain :=
  match decode_object v with
  | Err e => Err e
  | Ok fields =>
      match decode_string (obj_field fields "family"), decode_string (obj_field fields "table"),
            decode_string (obj_field fields "name"), decode_string (obj_field fields "hook") with
      | Ok f, Ok t, Ok n, Ok h => Ok (mkListChain f t n h)
      | _, _, _, _ => Err (type_error "string")
      end
  end.

Fixpoint forward_chains (items : list (list (string * json))) : result (list nftBaseChain) :=
  match items with
  | [] => Ok []
  | item :: items =>
      match obj_key item "chain" with
      | None => forward_chains items
      | Some raw =>
          match decode_chain raw with
          | Err e => Err (wrapf "parse nft chain" e)
          | Ok chain =>
              match forward_chains items with
              | Err e => Err e
              | Ok chains =>
                  if bool_decide (lc_hook chain ≠ nftForwardChain) ||
                     negb (nftForwardFamilySupported (lc_family chain))
                  then Ok chains
                  else Ok (mkChain (lc_family chain) (lc_table chain) (lc_name chain) :: chains)
              end
          end
      end
  end.

Definition parseNFTForwardBaseChains (data : string) : result (list nftBaseChain) :=
  let items :=
    match json_parse data with
    | Err e => Err e
    | Ok v =>
        match decode_object v with
        | Err e => Err e
        | Ok fields =>
            match decode_array (obj_field fields "nftables") with
            | Err e => Err e
            | Ok l => mapM_result decode_object l
            end
        end
    end in
  match items with
  | Err e => Err (wrapf "parse nft ruleset" e)
  | Ok items => forward_chains items
  end.

Definition nftForwardBaseChains : eff K (list nftBaseChain) :=
  out ← run_command "nft" ["-j"; "list"; "ruleset"];
  lift (parseNFTForwardBaseChains out).

Definition ensureNFTForwarding (wgIface outputIface ownerID : string) : eff K unit :=
  chains ← nftForwardBaseChains;
  for_each (λ chain,
    _ ← removeNFTRulesWithCommentPrefix chain (nftOwnerCommentPrefix ownerID);
    _ ← insertNFTForwardRule chain wgIface outputIface ownerID false;
    insertNFTForwardRule chain wgIface outputIface ownerID true) chains.

Definition ensureIPv4Forwarding : eff K unit :=
  out ← map_err (wrapf ("read " +:+ ipv4ForwardPath)) (os_ReadFile ipv4ForwardPath);
  if bool_decide (TrimSpace out = "1") then mret ()
  else map_err (wrapf ("write " +:+ ipv4ForwardPath))
         (os_WriteFile ipv4ForwardPath ("1" +:+ newline)).

(** ** The owner of a rule *)

Definition owner_char (r : ascii) : bool :=
  let n := nat_of_ascii r in
  bool_decide (97 ≤ n ≤ 122)%nat || bool_decide (65 ≤ n ≤ 90)%nat || bool_decide (48 ≤ n ≤ 57)%nat ||
  bool_decide (r = "_")%char || bool_decide (r = "-")%char || bool_decide (r = ".")%char.

Fixpoint sanitize_chars (s : string) : string :=
  match s with
  | "" => ""
  | String r s => String (if owner_char r then r else "_")%char (sanitize_chars s)
  end.

(** On ASCII text, where a rune is a byte. *)
Definition sanitizeNFTOwnerPart (s : string) : string :=
  let s := TrimSpace s in
  if bool_decide (s = "") then "wg"
  else let b := sanitize_chars s in if bool_decide (b = "") then "wg" else b.

(** [random] is the hexadecimal text of eight random bytes, if the system had
    any; otherwise the clock is used. *)
Definition newHostRoutingOwnerID (pid : Z) (random : option string) (unixNano : Z) (wgIface : string)
    : string :=
  match random with
  | None => sanitizeNFTOwnerPart wgIface +:+ "_" +:+ Itoa pid +:+ "_" +:+ Itoa unixNano
  | Some b => sanitizeNFTOwnerPart wgIface +:+ "_" +:+ Itoa pid +:+ "_" +:+ b
  end.

(** ** The default route *)

(** One row of [/proc/net/route], split into fields. *)
Definition default_row (line : string) : option string :=
  match Fields line with
  | iface :: dest :: _ =>
      if bool_decide (iface = "Iface") then None
      else if bool_decide (dest = "00000000") then Some iface else None
  | _ => None
  end.

Fixpoint first_some {A B} (f : A → option B) (l : list A) : option B :=
  match l with
  | [] => None
  | x :: l => match f x with Some y => Some y | None => first_some f l end
  end.

Definition parseDefaultIfaceFromProcNetRoute (data : string) : option string :=
  first_some default_row (Split data newline).

(** The device of the first route that [ip -4 -j route show default] lists. *)
Definition route_dev (out : string) : option string :=
  match json_parse (TrimSpace out) with
  | Err _ => None
  | Ok v =>
      match decode_array (Some v) with
      | Err _ => None
      | Ok l =>
          match mapM_result (λ r, match decode_object r with
                                  | Err e => Err e
                                  | Ok fields => decode_string (obj_field fields "dev")
                                  end) l with
          | Ok (d :: _) => let dev := TrimSpace d in if bool_decide (dev = "") then None else Some dev
          | _ => None
          end
      end
  end.

Definition linuxDefaultRouteInterfaceIPv4 : K → option string * K := λ k,
  let '(out, err, k) := exec_Output ["ip"; "-4"; "-j"; "route"; "show"; "default"] k in
  let from_ip := match err with Some _ => None | None => route_dev out end in
  match from_ip with
  | Some dev => (Some dev, k)
  | None =>
      match os_ReadFile "/proc/net/route" k with
      | (Ok out, k) => (parseDefaultIfaceFromProcNetRoute out, k)
      | (Err _, k) => (None, k)
      end
  end.

(** ** Applying and undoing *)

(** [_ = m], or a failure that is only logged. *)
Definition ignore_err {A} (m : eff K A) : K → K := λ k, (m k).2.

Definition cleanupLinuxHostRouting (ownerID : string) : eff K unit :=
  errs ← collect_err (λ _, false)
    (removeNFTRulesWithCommentPrefix (mkChain nftTableFamily nftTableName nftPostroutingChain)
       (nftOwnerCommentPrefix ownerID)) [];
  r ← try nftForwardBaseChains;
  errs ← match r with
         | Err e => mret (errs ++ [e])
         | Ok chains =>
             foldl (λ m chain, errs ← m;
                      collect_err (λ _, false)
                        (removeNFTRulesWithCommentPrefix chain (nftOwnerCommentPrefix ownerID)) errs)
               (mret errs) chains
         end;
  lift (join_errors errs).

(** What the closure returned by [applyLinuxHostRouting] remembers. *)
Record RoutingHandle := mkRoutingHandle {
  rh_policyRoute : option policyRouteConfig;
  rh_ownerID : string
}.

Definition wg_iface (wgInterfaceName : string) : string :=
  let wgIf := TrimSpace wgInterfaceName in if bool_decide (wgIf = "") then "wg0" else wgIf.

(** The egress interface: the configured one, else the default route's, else
    eth0. *)
Definition nat_egress (cfg : option NodeConfig) : K → string * K := λ k,
  let outIf := match cfg with Some c => TrimSpace (WGNATOutputInterface c) | None => "" end in
  if bool_decide (outIf = "") then
    let '(d, k) := linuxDefaultRouteInterfaceIPv4 k in (default "eth0" d, k)
  else (outIf, k).

(** Every failure is logged and the set-up goes on. *)
Definition applyLinuxHostRouting (ownerID : string) (cfg : option NodeConfig)
    (wgInterfaceName : string) : K → option RoutingHandle * K := λ k,
  if match cfg with Some c => negb (WGHostRouting c) | None => false end then (None, k)
  else
    let wgIf := wg_iface wgInterfaceName in
    let '(outIf, k) := nat_egress cfg k in
    let natDisabled := match cfg with Some c => WGNATDisable c | None => false end in
    let egressOnly := match cfg with Some c => WGNATEgressOnly c | None => true end in
    let k := ignore_err ensureIPv4Forwarding k in
    let k := if negb natDisabled
             then ignore_err (ensureNFTMasquerade wgIf outIf egressOnly ownerID) k else k in
    let k := ignore_err (ensureNFTForwarding wgIf outIf ownerID) k in
    let policyRoute := parsePolicyRoute cfg wgIf in
    let k := match policyRoute with Some p => ignore_err (policyRoute_apply p) k | None => k end in
    (Some (mkRoutingHandle policyRoute ownerID), k).

(** The returned closure. *)
Definition undo_host_routing (h : RoutingHandle) : K → K := λ k,
  let k := match rh_policyRoute h with Some p => ignore_err (policyRoute_cleanup p) k | None => k end in
  ignore_err (cleanupLinuxHostRouting (rh_ownerID h)) k.

(** ** Host routing leaves WireGuard devices alone *)

Definition keeps_dev (k k' : K) : Prop := dev k' = dev k.

#[local] Instance keeps_dev_preorder : PreOrder keeps_dev.
Proof. split; [by intros k|]. unfold keeps_dev. congruence. Qed.

Lemma try_preserves {A} (m : eff K A) : preserves keeps_dev m → preserves keeps_dev (try m).
Proof. intros Hm k. specialize (Hm k). unfold try. by destruct (m k). Qed.

Lemma run_command_dev prog args : preserves keeps_dev (run_command prog args).
Proof.
  intros k. unfold run_command. pose proof (exec_dev (prog :: args) k) as Hd.
  destruct (exec_CombinedOutput (prog :: args) k) as [[out [e|]] k']; exact Hd.
Qed.

Lemma ret_dev {A} (a : A) : preserves keeps_dev (mret a).
Proof. intros k. reflexivity. Qed.

Lemma throw_dev {A} e : preserves keeps_dev (throw (A:=A) e).
Proof. intros k. reflexivity. Qed.

#[local] Hint Resolve run_command_dev ret_dev throw_dev try_preserves : dev.

Ltac keep_dev :=
  repeat first
    [ progress intros
    | apply preserves_bind; [apply _| |]
    | apply preserves_map_err
    | apply preserves_for_each; [apply _|]
    | apply run_command_dev | apply ret_dev | apply throw_dev | apply try_preserves
    | apply preserves_pure; apply _
    | (intros ?; apply ReadFile_dev) | (intros ?; apply WriteFile_dev)
    | match goal with |- preserves _ (if ?b then _ else _) => destruct b end
    | match goal with |- preserves _ (match ?x with _ => _ end) => destruct x end ].

Lemma ignoring_dev fine m : preserves keeps_dev m → preserves keeps_dev (ignoring fine m).
Proof. intros Hm. unfold ignoring. keep_dev. done. Qed.

Lemma collect_err_dev fine m errs :
  preserves keeps_dev m → preserves keeps_dev (collect_err fine m errs).
Proof. intros Hm. unfold collect_err. keep_dev. done. Qed.

Lemma remove_rules_dev chain prefix : preserves keeps_dev (removeNFTRulesWithCommentPrefix chain prefix).
Proof. unfold removeNFTRulesWithCommentPrefix, runNFT. keep_dev. Qed.

Lemma chains_dev : preserves keeps_dev nftForwardBaseChains.
Proof. unfold nftForwardBaseChains. keep_dev. Qed.

Lemma forwarding_dev wgIf outIf owner : preserves keeps_dev (ensureNFTForwarding wgIf outIf owner).
Proof.
  unfold ensureNFTForwarding, insertNFTForwardRule, runNFT.
  apply preserves_bind; [apply _|apply chains_dev|]. intros chains.
  apply preserves_for_each; [apply _|]. intros chain _.
  apply preserves_bind; [apply _|apply remove_rules_dev|]. keep_dev.
Qed.

Lemma masquerade_dev wgIf outIf b owner : preserves keeps_dev (ensureNFTMasquerade wgIf outIf b owner).
Proof.
  unfold ensureNFTMasquerade, runNFT.
  repeat (apply preserves_bind; [apply _| |intros _]);
    first [apply ignoring_dev | apply remove_rules_dev | idtac]; keep_dev.
Qed.

Lemma default_route_dev k : dev (linuxDefaultRouteInterfaceIPv4 k).2 = dev k.
Proof.
  unfold linuxDefaultRouteInterfaceIPv4.
  pose proof (exec_Output_dev ["ip"; "-4"; "-j"; "route"; "show"; "default"] k) as Hd.
  destruct (exec_Output _ k) as [[out err] k1]. simpl in Hd.
  destruct (match err with Some _ => None | None => route_dev out end); [done|].
  pose proof (ReadFile_dev "/proc/net/route" k1) as Hr.
  destruct (os_ReadFile "/proc/net/route" k1) as [[|] k2]; simpl in *; congruence.
Qed.

Lemma apply_routing_dev owner cfg name k : dev (applyLinuxHostRouting owner cfg name k).2 = dev k.
Proof.
  unfold applyLinuxHostRouting. destruct (match cfg with Some c => negb (WGHostRouting c) | None => false end); [done|].
  assert (dev (nat_egress cfg k).2 = dev k) as He.
  { unfold nat_egress. case_bool_decide; [|done]. pose proof (default_route_dev k) as Hd.
    by destruct (linuxDefaultRouteInterfaceIPv4 k). }
  destruct (nat_egress cfg k) as [outIf k1]. simpl in He.
  assert (Hi : preserves keeps_dev ensureIPv4Forwarding).
  { unfold ensureIPv4Forwarding. keep_dev. }
  assert (Hp : ∀ p, preserves keeps_dev (policyRoute_apply p)).
  { intros p. unfold policyRoute_apply, runIP.
    apply preserves_bind; [apply _| |intros _]; apply ignoring_dev; keep_dev. }
  assert (Hk : ∀ A (m : eff K A) k0, preserves keeps_dev m → dev (ignore_err m k0) = dev k0).
  { intros A m k0 Hm. apply (Hm k0). }
  cbn [snd]. destruct (parsePolicyRoute cfg (wg_iface name)) as [p|];
    rewrite ?(Hk _ (policyRoute_apply p)) by apply Hp; rewrite Hk by apply forwarding_dev;
    (destruct (negb _); rewrite ?(Hk _ (ensureNFTMasquerade _ _ _ _)) by apply masquerade_dev);
    by rewrite Hk.
Qed.

Lemma undo_routing_dev h k : dev (undo_host_routing h k) = dev k.
Proof.
  assert (Hk : ∀ A (m : eff K A) k0, preserves keeps_dev m → dev (ignore_err m k0) = dev k0).
  { intros A m k0 Hm. apply (Hm k0). }
  assert (Hp : ∀ p, preserves keeps_dev (policyRoute_cleanup p)).
  { intros p. unfold policyRoute_cleanup, runIP.
    apply preserves_bind; [apply _|apply collect_err_dev; keep_dev|intros errs].
    apply preserves_bind; [apply _|apply collect_err_dev; keep_dev|intros errs']. keep_dev. }
  assert (Hc : preserves keeps_dev (cleanupLinuxHostRouting (rh_ownerID h))).
  { unfold cleanupLinuxHostRouting.
    apply preserves_bind; [apply _|apply collect_err_dev, remove_rules_dev|]. intros errs.
    apply preserves_bind; [apply _|apply try_preserves, chains_dev|]. intros r.
    apply preserves_bind; [apply _| |intros; keep_dev].
    destruct r as [chains|e]; [|keep_dev].
    induction chains as [|c chains IH] using rev_ind; [keep_dev|]. rewrite foldl_snoc.
    apply preserves_bind; [apply _|done|]. intros errs'. apply collect_err_dev, remove_rules_dev. }
  unfold undo_host_routing. rewrite Hk by done.
  destruct (rh_policyRoute h); [by rewrite Hk|done].
Qed.
End HostRouting.
