(* ===== verification/WireGuard.v ===== *)
(** * The WireGuard backend ([src/backend/wireguard])

    [WireGuard] (wireguard.go), the user operations (user.go,
    user_full_sync.go, user_partial_sync.go), statistics (stats.go), the
    background job (jobs.go) and the log channel (log.go).  A method is an
    [eff W] on the backend and the host's network state.  [syncMu] serialises
    the user operations and [Restart], so each is one atomic step; [σ] gives
    the order of every loop over a map. *)

From S2P Require Import Prelude Messages Tracker GoString GoNet Json NodeConfig WgTypes PeerStore WgConfig WgUsers WgManager HostRouting.

Section WireGuard.
Context `{Host} `{JsonText} `{AwgLib} {UUID : Type}.
Notation NodeConfig := (@NodeConfig UUID).

(** ** Data *)

Inductive lifecycleState := lifecycleStopped | lifecycleStarting | lifecycleRunning.

#[global] Instance lifecycleState_eq_dec : EqDecision lifecycleState.
Proof. solve_decision. Defined.

(** [wg_tickers] are the running tickers' periods; [wg_logChan] the lines
    waiting in the log channel, [None] once it is closed. *)
Record WireGuard := mkWG {
  wg_config : option Config;
  wg_cfg : NodeConfig;
  wg_manager : option Manager;
  wg_statsTracker : Tracker;
  wg_peerStore : PeerStore;
  wg_tickers : option (Z * Z);
  wg_logChan : option (list string);
  wg_cancelled : bool;
  wg_startTime : Z;
  wg_version : string;
  wg_state : lifecycleState;
  wg_interfaceStats : InterfaceCountersTracker;
  wg_shutdownDone : bool;
  wg_lastStatsErrAt : Z;
  wg_hostRouting : option RoutingHandle
}.

Definition set_config (c : option Config) (w : WireGuard) : WireGuard :=
  mkWG c (wg_cfg w) (wg_manager w) (wg_statsTracker w) (wg_peerStore w) (wg_tickers w)
    (wg_logChan w) (wg_cancelled w) (wg_startTime w) (wg_version w) (wg_state w)
    (wg_interfaceStats w) (wg_shutdownDone w) (wg_lastStatsErrAt w) (wg_hostRouting w).
Definition set_peers (t : Tracker) (s : PeerStore) (w : WireGuard) : WireGuard :=
  mkWG (wg_config w) (wg_cfg w) (wg_manager w) t s (wg_tickers w)
    (wg_logChan w) (wg_cancelled w) (wg_startTime w) (wg_version w) (wg_state w)
    (wg_interfaceStats w) (wg_shutdownDone w) (wg_lastStatsErrAt w) (wg_hostRouting w).
Definition set_log (l : option (list string)) (w : WireGuard) : WireGuard :=
  mkWG (wg_config w) (wg_cfg w) (wg_manager w) (wg_statsTracker w) (wg_peerStore w) (wg_tickers w)
    l (wg_cancelled w) (wg_startTime w) (wg_version w) (wg_state w)
    (wg_interfaceStats w) (wg_shutdownDone w) (wg_lastStatsErrAt w) (wg_hostRouting w).
Definition set_counters (i : InterfaceCountersTracker) (w : WireGuard) : WireGuard :=
  mkWG (wg_config w) (wg_cfg w) (wg_manager w) (wg_statsTracker w) (wg_peerStore w) (wg_tickers w)
    (wg_logChan w) (wg_cancelled w) (wg_startTime w) (wg_version w) (wg_state w)
    i (wg_shutdownDone w) (wg_lastStatsErrAt w) (wg_hostRouting w).
Definition set_lastErr (t : Z) (w : WireGuard) : WireGuard :=
  mkWG (wg_config w) (wg_cfg w) (wg_manager w) (wg_statsTracker w) (wg_peerStore w) (wg_tickers w)
    (wg_logChan w) (wg_cancelled w) (wg_startTime w) (wg_version w) (wg_state w)
    (wg_interfaceStats w) (wg_shutdownDone w) t (wg_hostRouting w).

Definition errWireGuardNotStarted : goerr := errors_New "wireguard not started".
Definition errWireGuardManagerNotInitialized : goerr := errors_New "wireguard manager not initialized".

(** The backend and the host. *)
Definition W : Type := WireGuard * K.

Definition nil_config {A} : eff W A :=
  throw nil_deref.

(** A method of the manager, run from the backend. *)
Definition host {A} (m : eff K A) : eff W A := on snd (λ k s, (s.1, k)) m.
Definition modify_wg (f : WireGuard → WireGuard) : eff W unit := modify (λ s, (f s.1, s.2)).

(** ** Logs *)

Inductive logSeverity := logSeverityInfo | logSeverityWarning | logSeverityError.

Definition severity_text (s : logSeverity) : string :=
  match s with
  | logSeverityInfo => "Info" | logSeverityWarning => "Warning" | logSeverityError => "Error"
  end.

(** [timestamp] is the current time in the log format. *)
Definition formatWireGuardLogLine (timestamp : string) (severity : logSeverity) (message : string)
    : string :=
  timestamp +:+ " [" +:+ severity_text severity +:+ "] " +:+ message.

(** A full channel drops the line. *)
Definition emitLogLocked (timestamp : string) (severity : logSeverity) (message : string)
    (w : WireGuard) : WireGuard :=
  match wg_logChan w with
  | None => w
  | Some lines =>
      if (Z.of_nat (length lines) <? LogBufferSize (wg_cfg w))%Z
      then set_log (Some (lines ++ [formatWireGuardLogLine timestamp severity message])) w
      else w
  end.

(** ** Lifecycle checks *)

Definition lifecycleReadinessError (state : lifecycleState) : option goerr :=
  match state with
  | lifecycleRunning => None
  | _ => Some errWireGuardNotStarted
  end.

Definition ensureRunningWithManagerLocked : eff W Manager := λ s,
  match lifecycleReadinessError (wg_state s.1) with
  | Some e => (Err e, s)
  | None =>
      match wg_manager s.1 with
      | None => (Err errWireGuardManagerNotInitialized, s)
      | Some m => (Ok m, s)
      end
  end.

Definition WireGuard_Started (w : WireGuard) : bool := bool_decide (wg_state w = lifecycleRunning).
Definition WireGuard_Version (w : WireGuard) : string := wg_version w.
Definition WireGuard_Logs (w : WireGuard) : option (list string) := wg_logChan w.

(** ** The peers of the store *)

(** [GetAll] filed by key again. *)
Definition buildExistingPeersByKeySnapshot (ρ : map_range) (ps : PeerStore) : gmap string PeerInfo :=
  foldl (λ m p, <[peer_key p := p]> m) ∅ (PeerStore_GetAll ρ ps).

(** [touchedEmails] is a set, visited in the order [ρ]. *)
Definition buildExistingPeersSubsetForTouched (ρ : map_range) (touchedEmails : gmap string unit)
    (ps : PeerStore) : gmap string PeerInfo :=
  foldl (λ m e,
           match PeerStore_GetByEmail ps e with
           | Some peer => <[peer_key peer := peer]> m
           | None => m
           end) ∅ (range_of ρ touchedEmails).*1.

(** [for _, key := range removedKeys { wg.statsTracker.RemoveStats(key) }]. *)
Definition remove_stats (keys : list string) (t : Tracker) : Tracker :=
  foldl Tracker_RemoveStats t keys.

(** Reads of the pre-shared key and the sync diff go through the cache of the
    configuration. *)
Definition with_config {A} (m : eff Config A) : eff W A := λ s,
  match wg_config s.1 with
  | None => nil_config s
  | Some c => let '(r, c) := m c in (r, (set_config (Some c) s.1, s.2))
  end.

(** [psk, _ := wg.config.GetPreSharedKey()]. *)
Definition read_psk : eff Config (option Key) := λ c, (Ok (psk_of c), (GetPreSharedKey c).2).

(** ** Full synchronisation (user_full_sync.go) *)

Definition syncUsersFull (σ : nat → map_range) (users : list (option User)) : eff W unit :=
  let normalizedUsers := normalizeUsers (σ 0) users in
  s ← get;
  let existingByKey := buildExistingPeersByKeySnapshot (σ 1) (wg_peerStore s.1) in
  desiredPeers ← with_config (λ c, (collectDesiredPeers c normalizedUsers, c));
  diff ← with_config (buildSyncDiff (λ i, σ (10 + i)) existingByKey desiredPeers);
  if negb (SD_Changed diff) then mret ()
  else
    psk ← with_config read_psk;
    awg ← with_config (λ c, (Ok (AmneziaWG c), c));
    let '(peerConfigs, appliedKeys) := buildTargetPeerConfigs (σ 2) (SD_TargetPeers diff) psk in
    let peerConfigs := setPeerAdvancedSecurity peerConfigs awg in
    manager ← ensureRunningWithManagerLocked;
    _ ← map_err (wrapf "failed to apply full peer snapshot")
          (host (Manager_ApplyPeersReplaceAll manager peerConfigs));
    let validTargetPeers :=
      (filter (λ kp, kp.1 ∈ appliedKeys) (range_of (σ 3) (SD_TargetPeers diff))).*2 in
    modify_wg (λ w,
      let '(ps, removedKeys) :=
        PeerStore_ReplaceAll (σ 4) (wg_peerStore w) (Some <$> validTargetPeers) in
      set_peers (remove_stats removedKeys (wg_statsTracker w)) ps w).

(** ** Partial reconciliation (user_partial_sync.go) *)

Definition key_taken_error (key owner : string) : goerr :=
  errors_New ("wireguard public key " +:+ key +:+ " is already assigned to user " +:+ owner).

(** The first desired peer, in the order visited, whose key belongs to a user
    that the request does not touch. *)
Fixpoint check_owners (currentOwners : gmap string string) (touchedEmails : gmap string unit)
    (l : list (string * DesiredPeer)) : result unit :=
  match l with
  | [] => Ok ()
  | (key, desired) :: l =>
      match currentOwners !! key with
      | None => check_owners currentOwners touchedEmails l
      | Some currentOwner =>
          if bool_decide (currentOwner = DP_Email desired) then check_owners currentOwners touchedEmails l
          else match touchedEmails !! currentOwner with
               | None => Err (key_taken_error key currentOwner)
               | Some _ => check_owners currentOwners touchedEmails l
               end
      end
  end.

Definition touched_emails (users : list User) : gmap string unit :=
  foldl (λ m u, <[User_Email u := ()]> m) ∅ users.

Definition syncUsersPartialReconcile (σ : nat → map_range) (users : list (option User)) : eff W unit :=
  let normalizedUsers := normalizeUsers (σ 0) users in
  let touchedEmails := touched_emails normalizedUsers in
  s ← get;
  let existingSubset := buildExistingPeersSubsetForTouched (σ 1) touchedEmails (wg_peerStore s.1) in
  desiredPeers ← with_config (λ c, (collectDesiredPeers c normalizedUsers, c));
  let currentOwners := PeerStore_GetEmailMap (σ 2) (wg_peerStore s.1) in
  _ ← lift (check_owners currentOwners touchedEmails (range_of (σ 3) desiredPeers));
  diff ← with_config (buildSyncDiff (λ i, σ (10 + i)) existingSubset desiredPeers);
  _ ← (if bool_decide (SD_PeerConfigs diff = []) then mret ()
       else
         manager ← ensureRunningWithManagerLocked;
         map_err (wrapf "failed to apply peer changes")
           (host (Manager_ApplyPeers manager (SD_PeerConfigs diff))));
  modify_wg (λ w,
    let '(ps, removedKeys) :=
      PeerStore_ApplyChanges (wg_peerStore w) (SD_RemoveKeys diff) (Some <$> SD_UpsertPeers diff) in
    set_peers (remove_stats removedKeys (wg_statsTracker w)) ps w).

(** ** Restart and shutdown (wireguard.go) *)

Definition key_le (p q : PeerInfo) : Prop := String.le (peer_key p) (peer_key q).
#[global] Instance key_le_dec : RelDecision key_le.
Proof. intros p q. unfold key_le. apply _. Defined.

Fixpoint restart_configs (orderedPeers : list PeerInfo) (presharedKey : option Key)
    : result (list PeerConfig) :=
  match orderedPeers with
  | [] => Ok []
  | peer :: orderedPeers =>
      if bool_decide (PI_AllowedIPs peer = [])
      then Err (errors_New ("peer " +:+ PI_Email peer +:+ " has no allowed IPs"))
      else
        match restart_configs orderedPeers presharedKey with
        | Err e => Err e
        | Ok configs => Ok (buildAddConfig (PI_PublicKey peer) (PI_AllowedIPs peer) presharedKey :: configs)
        end
  end.

Definition buildPeerConfigsForRestart (peers : list PeerInfo) (presharedKey : option Key)
    : result (list PeerConfig) :=
  restart_configs (merge_sort key_le peers) presharedKey.

Definition restart_msg : string := "dynamically reconfiguring wireguard interface".
Definition restarted_msg : string := "wireguard interface reconfigured successfully without downtime".

Definition restartLocked (σ : nat → map_range) (timestamp : string) : eff W unit :=
  s ← get;
  match wg_config s.1 with
  | None => throw (errors_New "wireguard config not initialized")
  | Some cfg =>
      privateKey ← map_err (wrapf "failed to get private key") (with_config GetPrivateKey);
      let listenPort := ListenPort cfg in
      let allPeers := PeerStore_GetAll (σ 0) (wg_peerStore s.1) in
      psk ← with_config read_psk;
      peerConfigs ← map_err (wrapf "failed to build restart peer configs")
                      (lift (buildPeerConfigsForRestart allPeers psk));
      let peerConfigs := setPeerAdvancedSecurity peerConfigs (AmneziaWG cfg) in
      manager ← ensureRunningWithManagerLocked;
      _ ← modify_wg (emitLogLocked timestamp logSeverityInfo restart_msg);
      let config := mkDeviceConfig (Some privateKey) (Some listenPort) true peerConfigs no_profile in
      _ ← map_err (wrapf "failed to reconfigure interface during restart")
            (host (Manager_ApplyConfig manager config));
      modify_wg (emitLogLocked timestamp logSeverityInfo restarted_msg)
  end.

Definition WireGuard_Restart (σ : nat → map_range) (timestamp : string) : eff W unit :=
  restartLocked σ timestamp.

(** Closing the manager: an error is only logged. *)
Definition close_manager (timestamp : string) (s : W) : W :=
  match wg_manager s.1 with
  | None => s
  | Some m =>
      let '(r, (_, k)) := Manager_Close (m, s.2) in
      let w := match r with
               | Err e => emitLogLocked timestamp logSeverityError
                            ("error closing manager: " +:+ err_text e) s.1
               | Ok _ => s.1
               end in
      (w, k)
  end.

Definition shutdownLocked (timestamp : string) (s : W) : W :=
  let '(w, k) := s in
  let k := match wg_hostRouting w with Some h => undo_host_routing h k | None => k end in
  let '(w, k) := close_manager timestamp (w, k) in
  let w := mkWG (wg_config w) (wg_cfg w) None (wg_statsTracker w) (wg_peerStore w) None
             (wg_logChan w) true (wg_startTime w) "" lifecycleStopped
             (wg_interfaceStats w) (wg_shutdownDone w) (wg_lastStatsErrAt w) None in
  let w := emitLogLocked timestamp logSeverityInfo "wireguard shutdown complete" w in
  (set_log None w, k).

(** [shutdownOnce.Do]. *)
Definition WireGuard_Shutdown (timestamp : string) (s : W) : W :=
  if wg_shutdownDone s.1 then s
  else
    let '(w, k) := shutdownLocked timestamp s in
    (mkWG (wg_config w) (wg_cfg w) (wg_manager w) (wg_statsTracker w) (wg_peerStore w) (wg_tickers w)
       (wg_logChan w) (wg_cancelled w) (wg_startTime w) (wg_version w) (wg_state w)
       (wg_interfaceStats w) true (wg_lastStatsErrAt w) (wg_hostRouting w), k).

(** ** User operations (user.go) *)

Definition WireGuard_SyncUser (σ : nat → map_range) (user : option User) : eff W unit :=
  match user with
  | None => throw (errors_New "user is nil")
  | Some _ => syncUsersPartialReconcile σ [user]
  end.

Definition WireGuard_SyncUsers (σ : nat → map_range) (users : list (option User)) : eff W unit :=
  syncUsersFull σ users.

Definition WireGuard_UpdateUsers (σ : nat → map_range) (users : list (option User)) : eff W unit :=
  syncUsersPartialReconcile σ users.

Definition WireGuard_UpdateUsersAndRestart (σ : nat → map_range) (timestamp : string)
    (users : list (option User)) : eff W unit :=
  _ ← syncUsersPartialReconcile σ users;
  restartLocked (λ i, σ (100 + i)) timestamp.

(** ** Creation (wireguard.go) *)

(** The second field of the first line of [wg --version]. *)
Definition getWireGuardVersion : K → string * K := λ k,
  let '(output, err, k) := exec_Output ["wg"; "--version"] k in
  match err with
  | Some _ => ("unknown", k)
  | None =>
      match Split output newline with
      | firstLine :: _ =>
          match Fields (TrimSpace firstLine) with
          | _ :: version :: _ => (version, k)
          | _ => ("unknown", k)
          end
      | [] => ("unknown", k)
      end
  end.

(** [time.NewTicker] panics on a period that is not positive. *)
Definition initStatsTickers (cfg : NodeConfig) : result (Z * Z) :=
  let updateInterval := seconds (StatsUpdateIntervalSeconds cfg) in
  let cleanupInterval := seconds (StatsCleanupIntervalSeconds cfg) in
  if (updateInterval <=? 0)%Z || (cleanupInterval <=? 0)%Z
  then Err (go_panic "non-positive interval for NewTicker")
  else Ok (updateInterval, cleanupInterval).

Definition start_msg (name : string) : string :=
  "WireGuard interface " +:+ name +:+ " initialized successfully".

Definition newWithManagerFactory (σ : nat → map_range) (now : Z) (timestamp ownerID : string)
    (cfg : NodeConfig) (wgConfig : option Config) (users : list (option User))
    (managerFactory : string → eff K Manager) : eff K WireGuard := λ k,
  let '(version, k) := getWireGuardVersion k in
  match wgConfig with
  | None => (Err (errors_New "wireguard config string must not be empty or nil"), k)
  | Some c =>
      match GetPrivateKey c with
      | (Err e, _) => (Err (wrapf "invalid wireguard private key" e), k)
      | (Ok privateKey, c) =>
          let normalizedUsers := normalizeUsers (σ 0) users in
          let existing := buildExistingPeersByKeySnapshot (σ 1) NewPeerStore in
          match collectDesiredPeers c normalizedUsers with
          | Err e => (Err (wrapf "failed to collect desired peers" e), k)
          | Ok desired =>
              match buildSyncDiff (λ i, σ (10 + i)) existing desired c with
              | (Err e, _) => (Err (wrapf "failed to build sync diff" e), k)
              | (Ok diff, c) =>
                  let psk := psk_of c in
                  let c := (GetPreSharedKey c).2 in
                  let '(peerConfigs, appliedKeys) :=
                    buildTargetPeerConfigs (σ 2) (SD_TargetPeers diff) psk in
                  let peerConfigs := setPeerAdvancedSecurity peerConfigs (AmneziaWG c) in
                  match managerFactory (InterfaceName c) k with
                  | (Err e, k) => (Err (wrapf "failed to create manager" e), k)
                  | (Ok manager, k) =>
                      match Manager_InitializeWithPeers manager privateKey (ListenPort c) (Address c)
                              peerConfigs k with
                      | (Err e, k) =>
                          (Err (wrapf "failed to initialize interface" e),
                           (Manager_Close (manager, k)).2.2)
                      | (Ok _, k) =>
                          let '(routing, k) :=
                            applyLinuxHostRouting ownerID (Some cfg) (InterfaceName c) k in
                          let ps := PeerStore_Init NewPeerStore
                            (Some <$> filterUpsertsByAppliedKeys (SD_UpsertPeers diff) appliedKeys) in
                          match initStatsTickers cfg with
                          | Err e => (Err e, k)
                          | Ok tickers =>
                              let w := mkWG (Some c) cfg (Some manager) Tracker_New ps (Some tickers)
                                         (Some []) false now version lifecycleRunning
                                         NewInterfaceCountersTracker false 0 routing in
                              (Ok (emitLogLocked timestamp logSeverityInfo
                                     (start_msg (InterfaceName c)) w), k)
                          end
                      end
                  end
              end
          end
      end
  end.

Definition WireGuard_New (σ : nat → map_range) (now : Z) (timestamp ownerID : string)
    (cfg : NodeConfig) (wgConfig : option Config) (users : list (option User)) : eff K WireGuard :=
  let managerFactory :=
    match wgConfig with
    | Some c =>
        if AmneziaWG c then λ interfaceName, NewAmneziaManager interfaceName wgConfig else NewManager
    | None => NewManager
    end in
  newWithManagerFactory σ now timestamp ownerID cfg wgConfig users managerFactory.

(** ** Statistics (stats.go) *)

Definition onlineActivityThreshold : Z := 45 * 10 ^ 9.

Definition getInterfaceCounters : eff W (Z * Z) :=
  s ← get;
  match wg_manager s.1 with
  | None => throw errWireGuardManagerNotInitialized
  | Some mgr => host (Manager_GetInterfaceStats mgr)
  end.

(** The keys of a user: at most one. *)
Definition user_keys (ps : PeerStore) (email : string) : list string :=
  match PeerStore_GetByEmail ps email with
  | Some peer => [peer_key peer]
  | None => []
  end.

Definition handleUserStats (request : StatRequest) : eff W StatResponse := λ s,
  match user_keys (wg_peerStore s.1) (StatRequest_Name request) with
  | [] => (Ok [], s)
  | keys =>
      let '(resp, t) := Tracker_GetStats (wg_statsTracker s.1) keys (StatRequest_Reset request) in
      (Ok resp, (set_peers t (wg_peerStore s.1) s.1, s.2))
  end.

Definition handleUsersStats (ρ : map_range) (request : StatRequest) : eff W StatResponse := λ s,
  let '(resp, t) := Tracker_GetUsersStats ρ (wg_statsTracker s.1) (StatRequest_Reset request) in
  (Ok resp, (set_peers t (wg_peerStore s.1) s.1, s.2)).

Definition report_counters (name : string) (rxtx : Z * Z) (reset : bool) : eff W StatResponse := λ s,
  let '((deltaRx, deltaTx), i) := ICT_Delta (wg_interfaceStats s.1) rxtx.1 rxtx.2 reset in
  (Ok (BuildInterfaceStats name "interface" deltaRx deltaTx), (set_counters i s.1, s.2)).

Definition handleInterfaceOutboundStats (name : string) (reset : bool) : eff W StatResponse :=
  name ← (if bool_decide (name = "") then with_config (λ c, (Ok (InterfaceName c), c)) else mret name);
  rxtx ← getInterfaceCounters;
  report_counters name rxtx reset.

(** [if state != lifecycleRunning { return nil, errWireGuardNotStarted }]. *)
Definition when_running {A} (m : eff W A) : eff W A := λ s,
  if bool_decide (wg_state s.1 = lifecycleRunning) then m s else (Err errWireGuardNotStarted, s).

Definition WireGuard_GetStats (ρ : map_range) (request : StatRequest) : eff W StatResponse :=
  when_running
    match StatRequest_Type request with
    | StatType_UserStat => handleUserStats request
    | StatType_UsersStat => handleUsersStats ρ request
    | StatType_Outbound | StatType_Outbounds =>
        handleInterfaceOutboundStats (StatRequest_Name request) (StatRequest_Reset request)
    | StatType_Inbound | StatType_Inbounds =>
        throw (errors_New "inbound stats not applicable for wireguard")
    | StatType_other _ => throw (errors_New "unsupported stat type")
    end.

Definition WireGuard_GetUserOnlineStats (now : Z) (email : string) : eff W OnlineStatResponse :=
  when_running (λ s,
    match user_keys (wg_peerStore s.1) email with
    | [] => (Ok (Build_OnlineStatResponse email 0), s)
    | keys =>
        if Tracker_AnyActiveSince (wg_statsTracker s.1) keys (now - onlineActivityThreshold)%Z
        then (Ok (Build_OnlineStatResponse email 1), s)
        else (Ok (Build_OnlineStatResponse email 0), s)
    end).

Definition WireGuard_GetUserOnlineIpListStats (email : string) : eff W StatsOnlineIpListResponse :=
  when_running (λ s,
    match user_keys (wg_peerStore s.1) email with
    | [] => (Ok (Build_StatsOnlineIpListResponse email ∅), s)
    | keys =>
        (Ok (Build_StatsOnlineIpListResponse email
               (Tracker_EndpointActivity (wg_statsTracker s.1) keys)), s)
    end).

(** [memStats] are the numbers of the Go runtime, read last. *)
Definition WireGuard_GetSysStats (now : Z) (memStats : BackendStatsResponse)
    : eff W BackendStatsResponse :=
  s ← get;
  match lifecycleReadinessError (wg_state s.1) with
  | Some e => throw e
  | None =>
      match wg_manager s.1 with
      | None => throw errWireGuardManagerNotInitialized
      | Some mgr =>
          _ ← map_err (wrapf "wireguard interface not available") (host (Manager_GetInterfaceStats mgr));
          mret (Build_BackendStatsResponse
                  (BackendStatsResponse_NumGoroutine memStats) (BackendStatsResponse_NumGc memStats)
                  (BackendStatsResponse_Alloc memStats) (BackendStatsResponse_TotalAlloc memStats)
                  (BackendStatsResponse_Sys memStats) (BackendStatsResponse_Mallocs memStats)
                  (BackendStatsResponse_Frees memStats)
                  ((BackendStatsResponse_Mallocs memStats - BackendStatsResponse_Frees memStats) mod 2 ^ 64)
                  (BackendStatsResponse_PauseTotalNs memStats)
                  (((now - wg_startTime s.1) / 10 ^ 9) mod 2 ^ 32))
      end
  end.

(** ** The background job (jobs.go) *)

Definition statsDeviceErrorLogInterval : Z := 60 * 10 ^ 9.

(** What one device peer contributes: a handshake within the activity
    threshold and a key of a known user. *)
Definition peer_sample (cutoff : Z) (emailByKey : gmap string string) (peer : DevicePeer)
    : option Sample :=
  if (DP_LastHandshakeTime peer =? 0)%Z then None
  else if (DP_LastHandshakeTime peer <? cutoff)%Z then None
  else
    let peerKey := Key_String (DP_PublicKey peer) in
    match emailByKey !! peerKey with
    | None => None
    | Some email =>
        Some (mkSample peerKey email (DP_ReceiveBytes peer) (DP_TransmitBytes peer)
                (default "" (DP_EndpointIP peer)))
    end.

Definition connected_samples (now : Z) (emailByKey : gmap string string) (peers : list DevicePeer)
    : list Sample :=
  omap (peer_sample (now - onlineActivityThreshold)%Z emailByKey) peers.

(** At most one warning per interval. *)
Definition logStatsDeviceReadError (now : Z) (timestamp : string) (err : goerr) (w : WireGuard)
    : WireGuard :=
  if negb (wg_lastStatsErrAt w =? 0)%Z && (sub64 now (wg_lastStatsErrAt w) <? statsDeviceErrorLogInterval)%Z
  then w
  else emitLogLocked timestamp logSeverityWarning
         ("wireguard stats update skipped: failed to read device: " +:+ err_text err)
         (set_lastErr now w).

(** The part of [updateConnectedPeers] before the tracker is updated: the
    device is read and the email map is copied, so the samples can be stale by
    the time [UpdateStatsBatch] applies them. *)
Definition read_samples (ρ : map_range) (now : Z) (timestamp : string) : W → option (list Sample) * W :=
  λ s,
  if wg_cancelled s.1 then (None, s)
  else match wg_manager s.1, wg_config s.1 with
       | Some mgr, Some _ =>
           match Manager_GetDevice mgr s.2 with
           | (Err e, k) => (None, (logStatsDeviceReadError now timestamp e s.1, k))
           | (Ok peers, k) =>
               (Some (connected_samples now (PeerStore_GetEmailMap ρ (wg_peerStore s.1)) peers), (s.1, k))
           end
       | _, _ => (None, s)
       end.

Definition apply_samples (now : Z) (samples : list Sample) (w : WireGuard) : WireGuard :=
  set_peers (Tracker_UpdateStatsBatch (wg_statsTracker w) samples now) (wg_peerStore w) w.

Definition updateConnectedPeers (ρ : map_range) (now : Z) (timestamp : string) (s : W) : W :=
  match read_samples ρ now timestamp s with
  | (Some samples, s) => (apply_samples now samples s.1, s.2)
  | (None, s) => s
  end.

Definition cleanupOfflineUsers (ρ : map_range) (s : W) : W :=
  if wg_cancelled s.1 then s
  else (set_peers (Tracker_CleanupDeletedEntries ρ (wg_statsTracker s.1)) (wg_peerStore s.1) s.1, s.2).

(** One iteration of [runStatsUpdateLoop]: which ticker fired. *)
Inductive ticker := UpdateTick | CleanupTick.

Definition stats_loop_step (ρ : map_range) (now : Z) (timestamp : string) (t : ticker) (s : W) : W :=
  if wg_cancelled s.1 then s
  else match t with
       | UpdateTick => updateConnectedPeers ρ now timestamp s
       | CleanupTick => cleanupOfflineUsers ρ s
       end.

(** ** Latency (latency.go) *)

Definition latencyProbeInterface (w : WireGuard) : string :=
  let iface := TrimSpace (WGNATOutputInterface (wg_cfg w)) in
  if bool_decide (iface = "") then
    match wg_config w with
    | None => ""
    | Some c => TrimSpace (InterfaceName c)
    end
  else iface.

(** [probe iface timeout url] is the HTTP request: whether it was answered and
    how long it took, or an error if the request cannot be built. *)
Definition WireGuard_GetOutboundsLatency (probe : string → Z → string → result (bool * Z))
    (unixNow : Z) (requestName : string) : eff W (list Latency) := λ s,
  let w := s.1 in
  let '(testURL, timeoutSeconds) :=
    match wg_config w ≫= Config_Latency with
    | Some l => (LC_TestURL l, LC_TimeoutSeconds l)
    | None => ("", 0%Z)
    end in
  if negb (bool_decide (wg_state w = lifecycleRunning)) then (Err errWireGuardNotStarted, s)
  else
    let iface := latencyProbeInterface w in
    let name := if bool_decide (iface = "") then "wireguard" else iface in
    let requestName := TrimSpace requestName in
    if bool_decide (requestName ≠ "") && bool_decide (requestName ≠ name) then (Ok [], s)
    else match probe iface (seconds timeoutSeconds) testURL with
         | Err e => (Err e, s)
         | Ok (alive, delay) =>
             (Ok [Build_Latency name alive delay testURL (if alive then unixNow else 0%Z) unixNow
                    "wireguard-probe"], s)
         end.

End WireGuard.
