(* ===== verification/WgScenario.v ===== *)
(** * Concrete backends for the witnesses

    A configuration, users and a node set-up over the concrete kernel of
    [WgToy]. *)

From S2P Require Import Prelude Messages Tracker GoString GoNet Json NodeConfig WgTypes WgToy PeerStore WgConfig WgUsers WgManager HostRouting WireGuard.

#[local] Existing Instances toy_keys toy_kernel toy_host.

#[local] Instance toy_json : JsonText := {
  json_parse _ := Err (errors_New "unexpected end of JSON input");
  json_print _ := ""
}.

#[local] Instance toy_awg : AwgLib := { Validate _ := Ok () }.

(** Interface wg0 serving 10.0.0.0/16. *)
Definition toy_config (psk : string) : Config :=
  mkConfig "wg0" "Kpriv" psk 51820 ["10.0.0.1/16"] None false
    None None None None None None None "" "" "" "" "" "" "" "" "" None None.

Definition toy_cfg (interval : Z) : @NodeConfig unit :=
  mkNodeConfig 62050 "127.0.0.1" "" "" "" "" tt "grpc" false "" 10 200 interval 300
    false "" true false "" "".

Definition toy_user (email key : string) (ips : list string) : option User :=
  Some (Build_User email
    (Some (Build_Proxy None None None None (Some (Build_Wireguard key ips)) None)) ["wg0"]).

Definition toy_host_state : K := mkToy ∅ [] [] ∅.

Definition toy_σ : nat → map_range := λ _, std_range.

(** The creation of a backend. *)
Definition toy_new (interval : Z) (psk : string) (users : list (option User)) : result WireGuard * K :=
  WireGuard_New toy_σ 0 "t" "owner" (toy_cfg interval) (Some (toy_config psk)) users toy_host_state.

(** The backend created with some users; [toy_stopped] stands in for a failed
    creation. *)
Definition toy_stopped : WireGuard :=
  mkWG None (toy_cfg 10) None Tracker_New NewPeerStore None None true 0 "" lifecycleStopped
    NewInterfaceCountersTracker true 0 None.

Definition toy_start (psk : string) (users : list (option User)) : W (UUID:=unit) :=
  match toy_new 10 psk users with
  | (Ok w, k) => (w, k)
  | (Err _, k) => (toy_stopped, k)
  end.

(** What a run leaves in the kernel: the owner of each network. *)
Definition toy_routes (s : W (UUID:=unit)) : list (string * string) :=
  match dev s.2 "wg0" with
  | Some d => map_to_list (dv_routes d)
  | None => []
  end.

(** What the store says: the networks of each user. *)
Definition toy_roster (s : W (UUID:=unit)) : list (string * list string) :=
  (λ ep, (PI_Email ep.2, IPNet_String <$> PI_AllowedIPs ep.2)) <$> map_to_list (ps_peers (wg_peerStore s.1)).

Example toy_new_works :
  match toy_new 10 "" [toy_user "a" "K1" ["10.0.0.2/32"]; toy_user "b" "K2" ["10.0.0.3/32"]] with
  | (Ok w, k) => (toy_roster (w, k), toy_routes (w, k))
  | (Err _, _) => ([], [])
  end
  = ([("a", ["10.0.0.2/32"]); ("b", ["10.0.0.3/32"])],
     [("10.0.0.3/32", "2"); ("10.0.0.2/32", "1")]).
Proof. vm_compute. reflexivity. Qed.
