(* ===== verification/WgSync.v ===== *)
(** * Synchronisation is correct ([src/backend/wireguard/user_full_sync.go,
      user_partial_sync.go, wireguard.go])

    [desired_roster] is what a user list asks for.  The lemmas follow one
    request through planning, the kernel call and the store. *)

From S2P Require Import Prelude Messages Tracker GoString GoNet Json NodeConfig WgTypes PeerStore WgConfig WgUsers WgPlan WgReconcile WgAgree WgManager HostRouting WireGuard.

Section Desired.
Context `{WgKeys}.
Implicit Types (E T r : gmap string PeerInfo) (users : list (option User)).

(** ** Peers up to the spelling of their networks *)

(** Two peers are the same to the kernel when their networks have the same
    texts, which is how the backend compares them. *)
#[global] Instance PeerInfo_equiv : Equiv PeerInfo := λ p q,
  PI_Email p = PI_Email q ∧ PI_PublicKey p = PI_PublicKey q ∧ texts p = texts q.

#[global] Instance PeerInfo_equivalence : Equivalence (≡@{PeerInfo}).
Proof.
  split; [by intros p|intros p q (?&?&?); split_and!; by symmetry|].
  intros p q s (?&?&?) (?&?&?). split_and!; etrans; eauto.
Qed.

Lemma roster_equiv_Some (r r' : gmap string PeerInfo) e p :
  r ≡ r' → r !! e = Some p → ∃ q, r' !! e = Some q ∧ p ≡ q.
Proof.
  intros Hr Hp. specialize (Hr e). rewrite Hp in Hr. inversion Hr as [? q Hpq Heq|]. subst. eauto.
Qed.

#[global] Instance agree_proper d : Proper ((≡) ==> iff) (agree d).
Proof.
  assert (Hall : ∀ r r', r ≡ r' → agree d r → agree d r').
  { intros r1 r2 Heq [Hp Hq]. split.
    - intros key. rewrite Hp. split.
      + intros (e & p & He & <-). destruct (roster_equiv_Some _ _ _ _ Heq He) as (q & ? & _ & ? & _). eauto.
      + intros (e & p & He & <-).
        destruct (roster_equiv_Some _ _ _ _ (symmetry Heq) He) as (q & ? & _ & ? & _). eauto.
    - intros ip key. rewrite Hq. split.
      + intros (e & p & He & <- & Hi). destruct (roster_equiv_Some _ _ _ _ Heq He) as (q & ? & _ & ? & Ht).
        exists e, q. by rewrite <- Ht.
      + intros (e & p & He & <- & Hi).
        destruct (roster_equiv_Some _ _ _ _ (symmetry Heq) He) as (q & ? & _ & ? & Ht). exists e, q. by rewrite <- Ht. }
  intros r r' Hr. split; apply Hall; done.
Qed.

(** ** The roster a request asks for *)

Definition desired_roster (c : Config) users : gmap string PeerInfo :=
  omap (λ u, target_of <$> wants c u) (lastByEmail users).

(** The key texts of the request are the standard ones. *)
Definition canonical_keys users : Prop :=
  ∀ u k, Some u ∈ users → ParseKey (raw_key u) = Ok k → Key_String k = raw_key u.

Lemma last_entry_elem users u : last_entry users u → Some u ∈ users.
Proof. intros (l1 & l2 & -> & _). set_solver. Qed.

Lemma desired_roster_Some c users e t :
  desired_roster c users !! e = Some t ↔
  ∃ u p, last_entry users u ∧ User_Email u = e ∧ wants c u = Some p ∧ t = target_of p.
Proof.
  unfold desired_roster. rewrite lookup_omap, bind_Some. split.
  - intros (u & Hu & Hw). apply fmap_Some in Hw as (p & Hw & ->).
    pose proof (lastByEmail_email _ _ _ Hu) as <-. exists u, p. by rewrite <- lastByEmail_Some.
  - intros (u & p & Hu%lastByEmail_Some & <- & Hw & ->). exists u. by rewrite Hw.
Qed.

Lemma desired_roster_email c users e t : desired_roster c users !! e = Some t → PI_Email t = e.
Proof.
  intros (u & p & _ & <- & Hw & ->)%desired_roster_Some.
  simpl. by destruct (wants_Some _ _ _ Hw) as [-> _].
Qed.

Lemma desired_roster_nets c users e t :
  desired_roster c users !! e = Some t → PI_AllowedIPs t ≠ [].
Proof.
  intros (u & p & _ & <- & Hw & ->)%desired_roster_Some.
  by destruct (wants_Some _ _ _ Hw) as (_ & _ & _ & _ & ? & _).
Qed.

(** What planning hands to the diff, seen as a roster. *)
Record plan_ok (c : Config) users T : Prop := {
  plan_targets : ∀ k t, T !! k = Some t ↔ desired_roster c users !! PI_Email t = Some t ∧ peer_key t = k;
  plan_ips : ∀ e e' t t' ip, desired_roster c users !! e = Some t →
    desired_roster c users !! e' = Some t' → ip ∈ texts t → ip ∈ texts t' → e = e'
}.

Lemma plan_keyed c users T : plan_ok c users T → keyed T.
Proof. intros [HT _] k t Ht. by apply HT. Qed.

Lemma plan_nets c users T k t : plan_ok c users T → T !! k = Some t → PI_AllowedIPs t ≠ [].
Proof. intros [HT _] [Ht _]%HT. by eapply desired_roster_nets. Qed.

Lemma plan_key_inj c users T e e' t t' :
  plan_ok c users T → desired_roster c users !! e = Some t → desired_roster c users !! e' = Some t' →
  peer_key t = peer_key t' → t = t'.
Proof.
  intros [HT _] Ht Ht' Hk.
  assert (T !! peer_key t = Some t) as H1.
  { apply HT. by rewrite (desired_roster_email _ _ _ _ Ht). }
  assert (T !! peer_key t' = Some t') as H2.
  { apply HT. by rewrite (desired_roster_email _ _ _ _ Ht'). }
  rewrite Hk in H1. congruence.
Qed.

Lemma collect_plan ρ c users D :
  canonical_keys users → collectDesiredPeers c (normalizeUsers ρ users) = Ok D →
  plan_ok c users (target_of <$> D).
Proof.
  intros Hcan Hcol.
  pose proof (collectDesiredPeers_spec c _ (normalizeUsers_emails ρ users)) as Hs.
  rewrite Hcol in Hs. destruct Hs as [[Hc1 Hc2] HD].
  assert (Hkey : ∀ u p, last_entry users u → wants c u = Some p → peer_key (target_of p) = raw_key u).
  { intros u p Hu Hw. destruct (wants_Some _ _ _ Hw) as (_ & _ & Hk & _).
    apply (Hcan u); [by apply last_entry_elem|done]. }
  split.
  - intros k t. rewrite lookup_fmap, fmap_Some, desired_roster_Some. split.
    + intros (p & (u & Hu & Hw & <-)%HD & ->). rewrite elem_of_normalizeUsers in Hu. split.
      * exists u, p. simpl. by destruct (wants_Some _ _ _ Hw) as [-> _].
      * by apply Hkey.
    + intros [(u & p & Hu & He & Hw & ->) <-]. exists p. split; [|done].
      apply HD. exists u. rewrite elem_of_normalizeUsers. split_and!; [done|done|].
      symmetry. by apply Hkey.
  - intros e e' t t' ip (u & p & Hu & <- & Hw & ->)%desired_roster_Some
      (u' & p' & Hu' & <- & Hw' & ->)%desired_roster_Some Hi Hi'.
    destruct (wants_Some _ _ _ Hw) as (_ & _ & _ & _ & _ & Hcl & _).
    destruct (wants_Some _ _ _ Hw') as (_ & _ & _ & _ & _ & Hcl' & _).
    apply (Hc1 u u' ip); rewrite ?elem_of_normalizeUsers; [done..| |].
    + by rewrite Hcl.
    + by rewrite Hcl'.
Qed.

Lemma not_upsert_needed E t :
  ¬ upsert_needed E t →
  ∃ ex, E !! peer_key t = Some ex ∧ PI_Email ex = PI_Email t ∧ texts ex = texts t.
Proof.
  unfold upsert_needed. destruct (E !! peer_key t) as [ex|]; [|tauto]. intros Hn. exists ex.
  split_and!; [done| |].
  - destruct (decide (PI_Email ex = PI_Email t)); [done|]. destruct Hn. by left.
  - destruct (decide (texts ex = texts t)); [done|]. destruct Hn. by right.
Qed.

(** ** Full snapshots *)

Lemma buildTargetPeerConfigs_spec ρ T psk :
  keyed T → (∀ k t, T !! k = Some t → PI_AllowedIPs t ≠ []) →
  let r := buildTargetPeerConfigs ρ T psk in
  NoDup (PC_PublicKey <$> r.1) ∧
  (∀ x, x ∈ r.1 ↔ ∃ t, T !! peer_key t = Some t ∧ x = add_config psk t) ∧
  (∀ k, k ∈ r.2 ↔ is_Some (T !! k)).
Proof.
  intros HT Hne. unfold buildTargetPeerConfigs.
  assert (Hl : ∀ k, k ∈ sort_Strings (range_of ρ T).*1 ↔ is_Some (T !! k)).
  { intros k. by rewrite elem_of_sort_Strings, elem_of_range_keys. }
  assert (Hnd : NoDup (sort_Strings (range_of ρ T).*1)) by (apply sort_Strings_nodup, range_nodup).
  set (f := λ key, add_config psk <$> T !! key).
  assert (Hfold : ∀ l, l ⊆ sort_Strings (range_of ρ T).*1 →
    foldl (λ acc key,
           match T !! key with
           | None => acc
           | Some target =>
               match buildAddConfigFromPeerInfo target psk with
               | Err _ => acc
               | Ok config => (acc.1 ++ [config], {[key]} ∪ acc.2)
               end
           end) ([], ∅) l = (list_omap _ _ f l, list_to_set (C:=gset string) l)).
  { induction l as [|k l IH] using rev_ind; intros Hsub; [done|].
    rewrite foldl_snoc, IH by set_solver.
    destruct (proj1 (Hl k) ltac:(set_solver)) as [t Ht]. unfold f. rewrite Ht.
    rewrite (buildAddConfigFromPeerInfo_Ok t) by eauto. rewrite omap_app. simpl. rewrite Ht. simpl.
    f_equal. rewrite list_to_set_app_L. set_solver. }
  rewrite Hfold by done. cbn [fst snd]. split_and!.
  - apply (config_keys_nodup id); [by rewrite list_fmap_id|]. unfold f.
    intros k x _ (t & Ht & ->)%fmap_Some. by apply HT.
  - intros x. rewrite list_elem_of_omap. unfold f. split.
    + intros (k & _ & (t & Ht & ->)%fmap_Some). exists t. by rewrite (HT _ _ Ht).
    + intros (t & Ht & ->). exists (peer_key t). by rewrite Hl, Ht.
  - intros k. rewrite elem_of_list_to_set. apply Hl.
Qed.

(** ** Snapshots of the store *)

Lemma existing_snapshot ρ ps k p :
  store_ok ps →
  buildExistingPeersByKeySnapshot ρ ps !! k = Some p ↔
  roster ps !! PI_Email p = Some p ∧ peer_key p = k.
Proof.
  intros Hok. unfold buildExistingPeersByKeySnapshot.
  change (foldl _ ∅ ?l) with (insert_all peer_key l (∅ : gmap string PeerInfo)).
  rewrite <- (elem_of_GetAll ρ) by done. split.
  - intros [?|[_ Hx]]%insert_all_Some; [done|]. by rewrite lookup_empty in Hx.
  - intros [Hp <-]. apply insert_all_elem; [|done].
    unfold PeerStore_GetAll. rewrite <- list_fmap_compose.
    replace ((peer_key ∘ snd) <$> range_of ρ (ps_peers ps)) with (range_of ρ (ps_peers ps)).*1;
      [apply range_nodup|].
    apply list_fmap_ext. intros i [k q] Hi. simpl.
    apply list_elem_of_lookup_2, elem_of_range in Hi. symmetry. by apply Hok.
Qed.

Definition touched users (e : string) : Prop := is_Some (lastByEmail users !! e).

Lemma touched_emails_spec ρ users e :
  is_Some (touched_emails (normalizeUsers ρ users) !! e) ↔ touched users e.
Proof.
  unfold touched_emails.
  assert (Hl : ∀ l : list User, is_Some (foldl (λ m u, <[User_Email u := ()]> m) (∅ : gmap string unit) l !! e)
    ↔ e ∈ User_Email <$> l).
  { induction l as [|u l IH] using rev_ind; [split; [by intros []|set_solver]|].
    rewrite foldl_snoc, lookup_insert_is_Some, IH, fmap_app, elem_of_app. simpl.
    rewrite list_elem_of_singleton. destruct (decide (User_Email u = e)); naive_solver. }
  rewrite Hl, list_elem_of_fmap. unfold touched. split.
  - intros (u & -> & Hu%elem_of_normalizeUsers%lastByEmail_Some). by exists u.
  - intros [u Hu]. pose proof (lastByEmail_email _ _ _ Hu) as <-. exists u.
    by rewrite elem_of_normalizeUsers, <- lastByEmail_Some.
Qed.

Lemma existing_subset ρ ρ' users ps k p :
  store_ok ps →
  buildExistingPeersSubsetForTouched ρ (touched_emails (normalizeUsers ρ' users)) ps !! k = Some p ↔
  roster ps !! PI_Email p = Some p ∧ touched users (PI_Email p) ∧ peer_key p = k.
Proof.
  intros Hok. unfold buildExistingPeersSubsetForTouched.
  assert (Hl : ∀ l : list string,
    foldl (λ m e, match PeerStore_GetByEmail ps e with
                  | Some peer => <[peer_key peer := peer]> m
                  | None => m
                  end) (∅ : gmap string PeerInfo) l !! k = Some p ↔
    roster ps !! PI_Email p = Some p ∧ PI_Email p ∈ l ∧ peer_key p = k).
  { induction l as [|e l IH] using rev_ind; [set_solver|]. rewrite foldl_snoc, GetByEmail_roster.
    destruct (roster ps !! e) as [q|] eqn:Hq.
    - pose proof (roster_email _ _ _ Hok Hq) as He.
      rewrite lookup_insert_Some, IH, elem_of_app, list_elem_of_singleton. split.
      + intros [[? ->]|(? & ? & ? & ?)]; subst; naive_solver.
      + intros (Hp & Hin & Hk). destruct (decide (peer_key q = k)) as [Hqk|Hqk].
        * left. split; [done|]. apply (roster_key_inj ps e (PI_Email p)); [done..|congruence].
        * right. split_and!; [done..| |done]. destruct Hin as [?|Heq]; [done|].
          rewrite Heq, Hq in Hp. congruence.
    - rewrite IH, elem_of_app, list_elem_of_singleton. split; [naive_solver|].
      intros (Hp & [?|Heq] & Hk); [done|]. congruence. }
  rewrite Hl, elem_of_range_keys, touched_emails_spec. done.
Qed.

(** ** The state after a partial update *)

Definition after_update (c : Config) users r : gmap string PeerInfo :=
  desired_roster c users ∪ filter (λ ep, lastByEmail users !! ep.1 = None) r.

Lemma desired_touched c users e t : desired_roster c users !! e = Some t → touched users e.
Proof. intros (u & p & Hu%lastByEmail_Some & <- & _)%desired_roster_Some. by exists u. Qed.

Lemma after_update_lookup c users r e :
  after_update c users r !! e =
  match lastByEmail users !! e with
  | Some _ => desired_roster c users !! e
  | None => r !! e
  end.
Proof.
  unfold after_update. rewrite lookup_union, map_lookup_filter.
  destruct (desired_roster c users !! e) as [t|] eqn:Ht.
  - destruct (desired_touched _ _ _ _ Ht) as [u ->]. by destruct (r !! e); simpl; try case_guard.
  - destruct (lastByEmail users !! e) as [u|] eqn:Hu;
      destruct (r !! e); simpl; try case_guard; simpl in *; first [done | congruence].
Qed.

#[global] Instance after_update_proper c users : Proper ((≡) ==> (≡)) (after_update c users).
Proof. intros r r' Hr e. rewrite !after_update_lookup. by destruct (lastByEmail users !! e). Qed.

End Desired.

(** ** One partial update *)

Section Partial.
Context `{WgKeys} (c : Config) (users : list (option User)) (ps : PeerStore)
  (E T : gmap string PeerInfo) (d : SyncDiff) (d0 : DeviceView).
Context (Hok : store_ok ps) (HT : plan_ok c users T) (Hd : diff_ok c E T d).
Context (HE : ∀ k p, E !! k = Some p ↔
  roster ps !! PI_Email p = Some p ∧ touched users (PI_Email p) ∧ peer_key p = k).
(** The key check of the partial update. *)
Context (Howner : ∀ k t e q, T !! k = Some t → roster ps !! e = Some q → peer_key q = k →
  touched users e).
(** No network of the request belongs to a user it does not touch. *)
Context (Hips : ∀ e e' t q ip, desired_roster c users !! e = Some t → roster ps !! e' = Some q →
  ¬ touched users e' → ip ∈ texts t → ip ∉ texts q).

Lemma desired_T e t : desired_roster c users !! e = Some t → T !! peer_key t = Some t.
Proof.
  intros Ht. apply HT. split; [|done]. by rewrite (desired_roster_email _ _ _ _ Ht).
Qed.

Lemma T_desired k t : T !! k = Some t → desired_roster c users !! PI_Email t = Some t ∧ peer_key t = k.
Proof. apply HT. Qed.

Lemma owned_E e q : roster ps !! e = Some q → touched users e → E !! peer_key q = Some q.
Proof. intros Hq Ht. apply HE. by rewrite (roster_email _ _ _ Hok Hq). Qed.

Lemma upserts_emails : NoDup (PI_Email <$> SD_UpsertPeers d).
Proof.
  apply (NoDup_fmap_transfer peer_key); [apply Hd|].
  intros x y [[Hx _]%T_desired _]%Hd [[Hy _]%T_desired _]%Hd He. rewrite He in Hx. congruence.
Qed.

Lemma ups_spec t : t ∈ SD_UpsertPeers d ↔ T !! peer_key t = Some t ∧ upsert_needed E t.
Proof. apply Hd. Qed.

Lemma removes_spec k : k ∈ SD_RemoveKeys d ↔ is_Some (E !! k) ∧ T !! k = None.
Proof. apply Hd. Qed.

(** A desired peer is upserted, or the store already has it. *)
Lemma desired_or_kept e t :
  desired_roster c users !! e = Some t →
  t ∈ SD_UpsertPeers d ∨
  ∃ ex, roster ps !! e = Some ex ∧ E !! peer_key t = Some ex ∧ peer_key ex = peer_key t ∧ ex ≡ t.
Proof.
  intros Ht. pose proof (desired_T _ _ Ht) as HTt. pose proof (desired_roster_email _ _ _ _ Ht) as He.
  destruct (E !! peer_key t) as [ex|] eqn:Hex.
  - destruct (decide (PI_Email ex = PI_Email t ∧ texts ex = texts t)) as [[Hee Htx]|Hdiff].
    + right. exists ex. pose proof Hex as (Hr & _ & Hk)%HE. rewrite Hee, He in Hr.
      split_and!; [done..|]. split_and!; [done| |done]. by apply Key_String_inj.
    + left. apply ups_spec. split; [done|]. unfold upsert_needed. rewrite Hex.
      destruct (decide (PI_Email ex = PI_Email t)); [right|left]; naive_solver.
  - left. apply ups_spec. split; [done|]. unfold upsert_needed. by rewrite Hex.
Qed.

(** An existing peer of a touched user who asks for nothing loses its key. *)
Lemma dropped_key e q :
  roster ps !! e = Some q → touched users e → desired_roster c users !! e = None →
  peer_key q ∈ SD_RemoveKeys d ∨ peer_key q ∈ peer_key <$> SD_UpsertPeers d.
Proof.
  intros Hq Htch Hnone. pose proof (owned_E _ _ Hq Htch) as HEq.
  destruct (T !! peer_key q) as [t|] eqn:Ht; [|left; apply removes_spec; eauto].
  right. pose proof (T_desired _ _ Ht) as [Htd Htk]. rewrite <- Htk.
  apply list_elem_of_fmap_2, ups_spec. rewrite Htk. split; [done|].
  unfold upsert_needed. rewrite Htk, HEq. left. intros Heq.
  rewrite <- Heq, (roster_email _ _ _ Hok Hq) in Htd. congruence.
Qed.

(** The key of an untouched user's peer is neither removed nor taken. *)
Lemma untouched_key e q :
  roster ps !! e = Some q → ¬ touched users e →
  peer_key q ∉ SD_RemoveKeys d ∧ peer_key q ∉ peer_key <$> SD_UpsertPeers d.
Proof.
  intros Hq Hun. split.
  - intros [[ex (Hex & Htch & Hk)%HE] _]%removes_spec.
    destruct (roster_key_inj _ _ _ _ _ Hok Hex Hq Hk) as [<- _]. done.
  - intros (t & Hk & [Ht _]%ups_spec)%list_elem_of_fmap. apply Hun. by eapply Howner.
Qed.

Lemma update_store :
  let r := PeerStore_ApplyChanges ps (SD_RemoveKeys d) (Some <$> SD_UpsertPeers d) in
  store_ok r.1 ∧ roster r.1 ≡ after_update c users (roster ps).
Proof.
  intros r. destruct (ApplyChanges_spec ps (SD_RemoveKeys d) (Some <$> SD_UpsertPeers d) Hok)
    as (Hok' & Hr & _). fold r in Hok', Hr. split; [done|]. intros e. rewrite after_update_lookup.
  assert (omap id (Some <$> SD_UpsertPeers d) = SD_UpsertPeers d) as Hid
    by (clear; induction (SD_UpsertPeers d); by f_equal/=).
  rewrite Hr, Hid. clear r Hok' Hr Hid.
  destruct (decide (e ∈ PI_Email <$> SD_UpsertPeers d)) as [Hin|Hnin].
  { apply list_elem_of_fmap in Hin as (t & -> & Ht).
    rewrite (r_upserts_elem _ _ t) by (done || apply upserts_emails || apply Hd).
    apply ups_spec in Ht as [[Ht _]%T_desired _].
    destruct (desired_touched _ _ _ _ Ht) as [u ->]. by rewrite Ht. }
  rewrite r_upserts_other, r_removes_lookup by done.
  destruct (desired_roster c users !! e) as [t|] eqn:Ht.
  - destruct (desired_touched _ _ _ _ Ht) as [u ->].
    destruct (desired_or_kept e t Ht) as [Hup|(ex & Hex & HEx & Hk & Heq)].
    { destruct Hnin. rewrite <- (desired_roster_email _ _ _ _ Ht). by apply list_elem_of_fmap_2. }
    rewrite Hex. simpl. pose proof (desired_T _ _ Ht) as HTt.
    rewrite decide_False by (rewrite removes_spec, Hk; naive_solver). simpl.
    rewrite decide_False; [by constructor|].
    intros (t' & Hk' & Ht')%list_elem_of_fmap. pose proof Ht' as [HT' _]%ups_spec.
    rewrite <- Hk', Hk, HTt in HT'. simplify_eq. apply Hnin.
    rewrite <- (desired_roster_email _ _ _ _ Ht). by apply list_elem_of_fmap_2.
  - destruct (lastByEmail users !! e) as [u|] eqn:Hu.
    + destruct (roster ps !! e) as [q|] eqn:Hq; simpl; [|done].
      destruct (dropped_key e q Hq (mk_is_Some _ _ Hu) Ht) as [Hk|Hk]; [by rewrite decide_True|].
      case_decide; simpl; [done|]. by rewrite decide_True.
    + destruct (roster ps !! e) as [q|] eqn:Hq; simpl; [|done].
      destruct (untouched_key e q Hq) as [Hk1 Hk2]; [by intros [u' Hu']; congruence|].
      rewrite decide_False by done. simpl. by rewrite decide_False.
Qed.

(** ** The kernel after a partial update *)

Context (Hagree : agree d0 (roster ps)).
Context (adds removes : list PeerConfig) (Hnd : NoDup (PC_PublicKey <$> adds)).
Context (Hadds : ∀ x, x ∈ adds ↔ ∃ t, T !! peer_key t = Some t ∧ changed_nets E t = true ∧
  x = set_advanced (AmneziaWG c) (change_config (psk_of c) E t)).
Context (Hremoves : ∀ x, x ∈ removes ↔ ∃ k p, E !! k = Some p ∧ T !! k = None ∧
  x = buildRemoveConfig (PI_PublicKey p)).

Lemma change_key t : PC_PublicKey (set_advanced (AmneziaWG c) (change_config (psk_of c) E t)) = PI_PublicKey t.
Proof. apply change_config_key. Qed.

Lemma change_ips t :
  IPNet_String <$> PC_AllowedIPs (set_advanced (AmneziaWG c) (change_config (psk_of c) E t)) = texts t.
Proof. unfold texts. simpl. by rewrite change_config_ips. Qed.

Lemma key_of_peer p q : PI_PublicKey p = PI_PublicKey q ↔ peer_key p = peer_key q.
Proof. unfold peer_key. split; [by intros ->|apply Key_String_inj]. Qed.

Lemma removes_iff key :
  key ∈ PC_PublicKey <$> removes ↔ ∃ k p, E !! k = Some p ∧ T !! k = None ∧ key = PI_PublicKey p.
Proof.
  rewrite list_elem_of_fmap. setoid_rewrite Hremoves. split.
  - intros (x & -> & k & p & ? & ? & ->). eauto.
  - intros (k & p & ? & ? & ->). eexists. split; [|eauto]. done.
Qed.

(** The key of a desired peer is configured anew, or was there with the same
    networks. *)
Lemma adds_iff key :
  key ∈ PC_PublicKey <$> adds ↔
  ∃ t, T !! peer_key t = Some t ∧ changed_nets E t = true ∧ key = PI_PublicKey t.
Proof.
  rewrite list_elem_of_fmap. setoid_rewrite Hadds. split.
  - intros (x & -> & t & ? & ? & ->). exists t. by rewrite change_key.
  - intros (t & ? & ? & ->). eexists. split; [|eauto]. by rewrite change_key.
Qed.

Lemma unchanged_E t :
  changed_nets E t = false → ∃ ex, E !! peer_key t = Some ex ∧ texts ex = texts t ∧
    PI_PublicKey ex = PI_PublicKey t ∧ roster ps !! PI_Email ex = Some ex.
Proof.
  unfold changed_nets. destruct (E !! peer_key t) as [ex|] eqn:Hex; [|done].
  intros Hsn%negb_false_iff%same_nets_true. exists ex.
  pose proof Hex as (Hr & _ & Hk)%HE. split_and!; [done|done|by apply key_of_peer|done].
Qed.

Lemma adds_ok_partial : adds_ok d0 adds.
Proof.
  split_and!; [done| | |].
  - intros x (t & _ & _ & ->)%Hadds. unfold change_config. by destruct (E !! peer_key t).
  - intros x (t & Ht & Hch & ->)%Hadds. rewrite change_key. unfold change_config.
    destruct (E !! peer_key t) as [ex|] eqn:Hex; [by left|]. right.
    intros ip (e & p & Hp & Hk%key_of_peer & _)%(agree_routes _ _ Hagree).
    pose proof (Howner _ _ _ _ Ht Hp Hk) as Htch.
    pose proof (owned_E _ _ Hp Htch) as HEp. unfold peer_key in *. congruence.
  - intros x x' ip (t & Ht & _ & ->)%Hadds (t' & Ht' & _ & ->)%Hadds. rewrite !change_ips, !change_key.
    intros Hi Hi'. apply T_desired in Ht as [Ht _], Ht' as [Ht' _].
    pose proof (plan_ips _ _ _ HT _ _ _ _ _ Ht Ht' Hi Hi') as Heq. rewrite Heq in Ht. congruence.
Qed.

(** Where a peer of the updated roster comes from. *)
Lemma after_cases e p :
  after_update c users (roster ps) !! e = Some p ↔
  (desired_roster c users !! e = Some p) ∨ (¬ touched users e ∧ roster ps !! e = Some p).
Proof.
  rewrite after_update_lookup. destruct (lastByEmail users !! e) as [u|] eqn:Hu.
  - split; [by left|]. intros [?|[Hn _]]; [done|]. destruct Hn. by exists u.
  - split.
    + intros Hp. right. split; [|done]. intros [u Hu']. congruence.
    + intros [Hp|[_ ?]]; [|done]. apply desired_touched in Hp as [u Hu']. congruence.
Qed.

Lemma not_removed_desired e t key :
  desired_roster c users !! e = Some t → key = PI_PublicKey t → key ∉ PC_PublicKey <$> removes.
Proof.
  intros Ht%desired_T -> (k & p & Hp & Hk & Heq%key_of_peer)%removes_iff.
  apply HE in Hp as (_ & _ & <-). rewrite <- Heq in Hk. congruence.
Qed.

Lemma untouched_config e p :
  ¬ touched users e → roster ps !! e = Some p →
  PI_PublicKey p ∉ PC_PublicKey <$> adds ∧ PI_PublicKey p ∉ PC_PublicKey <$> removes.
Proof.
  intros Hun Hp. split.
  - intros (t & Ht & _ & Hk%key_of_peer)%adds_iff. apply Hun. by eapply Howner.
  - intros (k & q & (Hq & Htch & _)%HE & _ & Hk%key_of_peer)%removes_iff.
    destruct (roster_key_inj _ _ _ _ _ Hok Hp Hq Hk) as [-> _]. done.
Qed.

(** A peer of a touched user that keeps its place in the kernel is desired. *)
Lemma surviving_owner e p :
  roster ps !! e = Some p → touched users e →
  PI_PublicKey p ∉ PC_PublicKey <$> adds → PI_PublicKey p ∉ PC_PublicKey <$> removes →
  ∃ e' t, desired_roster c users !! e' = Some t ∧ PI_PublicKey t = PI_PublicKey p ∧ texts t = texts p.
Proof.
  intros Hp Htch Hna Hnr. pose proof (owned_E _ _ Hp Htch) as HEp.
  destruct (T !! peer_key p) as [t|] eqn:Ht.
  - pose proof (T_desired _ _ Ht) as [Htd Htk]. exists (PI_Email t), t.
    assert (changed_nets E t = false) as Hun.
    { destruct (changed_nets E t) eqn:Hch; [|done]. destruct Hna. apply adds_iff.
      exists t. rewrite Htk. split_and!; [done..|]. by apply key_of_peer. }
    destruct (unchanged_E t Hun) as (ex & Hex & Htx & Hk & _). rewrite Htk, HEp in Hex.
    simplify_eq. split_and!; [done|done|congruence].
  - destruct Hnr. apply removes_iff. eauto.
Qed.

Lemma removes_all_remove x : x ∈ removes → PC_Remove x = true.
Proof. by intros (k & p & _ & _ & ->)%Hremoves. Qed.

Lemma update_peers key :
  key ∈ dv_peers (foldl configure_peer d0 (adds ++ removes)) ↔
  ∃ e p, after_update c users (roster ps) !! e = Some p ∧ PI_PublicKey p = key.
Proof.
  rewrite foldl_app. destruct (adds_view d0 adds adds_ok_partial) as [Hp1 _].
  destruct (removes_view (foldl configure_peer d0 adds) removes removes_all_remove) as [Hp2 _].
  rewrite Hp2, Hp1, (agree_peers _ _ Hagree). split.
  + intros [[(t & Ht & _ & ->)%adds_iff|(e & p & Hp & <-)] Hnr].
    * apply T_desired in Ht as [Ht _]. exists (PI_Email t), t. rewrite after_cases. eauto.
    * destruct (decide (is_Some (lastByEmail users !! e))) as [Htch|Hun].
      2: { exists e, p. rewrite after_cases. eauto. }
      destruct (decide (PI_PublicKey p ∈ PC_PublicKey <$> adds)) as [(t & Ht & _ & Hk)%adds_iff|Hna].
      { apply T_desired in Ht as [Ht _]. exists (PI_Email t), t. rewrite after_cases. eauto. }
      destruct (surviving_owner e p Hp Htch Hna Hnr) as (e' & t & Ht & Hk & _).
      exists e', t. rewrite after_cases. eauto.
  + intros (e & p & [Hp|[Hun Hp]]%after_cases & <-).
    * split; [|by eapply not_removed_desired]. destruct (changed_nets E p) eqn:Hch.
      { left. apply adds_iff. exists p. split_and!; [by apply desired_T in Hp|done..]. }
      right. destruct (unchanged_E p Hch) as (ex & _ & _ & Hk & Hex). eauto.
    * destruct (untouched_config e p Hun Hp). split; [right; eauto|done].
Qed.

Lemma update_routes ip key :
  dv_routes (foldl configure_peer d0 (adds ++ removes)) !! ip = Some key ↔
  ∃ e p, after_update c users (roster ps) !! e = Some p ∧ PI_PublicKey p = key ∧ ip ∈ texts p.
Proof.
  rewrite foldl_app. destruct (adds_view d0 adds adds_ok_partial) as [_ Hr1].
  destruct (removes_view (foldl configure_peer d0 adds) removes removes_all_remove) as [_ Hr2].
  rewrite Hr2, Hr1, (agree_routes _ _ Hagree). split.
  + intros [[(x & (t & Ht & _ & ->)%Hadds & <- & Hi)|(Hno & Hna & e & p & Hp & <- & Hi)] Hnr].
    * rewrite change_ips in Hi. rewrite change_key. apply T_desired in Ht as [Ht _].
      exists (PI_Email t), t. rewrite after_cases. eauto.
    * destruct (decide (is_Some (lastByEmail users !! e))) as [Htch|Hun].
      2: { exists e, p. rewrite after_cases. eauto. }
      destruct (surviving_owner e p Hp Htch Hna Hnr) as (e' & t & Ht & Hk & Htx).
      exists e', t. rewrite after_cases, Htx. eauto.
  + intros (e & p & [Hp|[Hun Hp]]%after_cases & <- & Hi).
    * split; [|by eapply not_removed_desired]. destruct (changed_nets E p) eqn:Hch.
      { left. exists (set_advanced (AmneziaWG c) (change_config (psk_of c) E p)).
        rewrite change_key, change_ips. split_and!; [|done|done]. apply Hadds. exists p.
        split_and!; [by apply desired_T in Hp|done..]. }
      right. destruct (unchanged_E p Hch) as (ex & Hex & Htx & Hk & Hrx).
      assert (Hsame : ∀ e' t, desired_roster c users !! e' = Some t →
        changed_nets E t = true → e ≠ e').
      { intros e' t Ht Hcht <-. congruence. }
      split_and!.
      -- intros x (t & Ht & Hcht & ->)%Hadds. rewrite change_ips. intros Hi'.
         apply T_desired in Ht as [Ht _]. apply (Hsame _ _ Ht Hcht). by eapply (plan_ips _ _ _ HT).
      -- intros (t & Ht & Hcht & Hk'%key_of_peer)%adds_iff. apply T_desired in Ht as [Ht _].
         pose proof (plan_key_inj _ _ _ _ _ _ _ HT Hp Ht Hk') as ->. congruence.
      -- exists (PI_Email ex), ex. by rewrite Htx.
    * destruct (untouched_config e p Hun Hp) as [Hna Hnr]. split; [|done]. right. split_and!.
      -- intros x (t & Ht & _ & ->)%Hadds. rewrite change_ips. intros Hi'.
         apply T_desired in Ht as [Ht _]. by eapply (Hips _ _ _ _ _ Ht Hp Hun).
      -- done.
      -- eauto.
Qed.

Lemma update_kernel :
  agree (foldl configure_peer d0 (adds ++ removes)) (after_update c users (roster ps)).
Proof. split; [apply update_peers|apply update_routes]. Qed.
End Partial.
