(* ===== verification/WgBackend.v ===== *)
(** * The WireGuard backend keeps its promises ([src/backend/wireguard])

    Runs of the handlers of [WireGuard]: what a success and a failure leave in
    the store, the statistics and the kernel.  [wg_inv] is the invariant that
    ties the three together. *)

From S2P Require Import Prelude Messages Tracker GoString GoNet Json NodeConfig WgTypes WgToy PeerStore WgConfig WgUsers WgPlan WgReconcile WgAgree WgManager HostRouting WireGuard WgSync.

Section Backend.
Context `{Host} `{JsonText} `{AwgLib} {UUID : Type}.
Notation WireGuard := (@WireGuard _ UUID).
Notation W := (@W _ _ UUID).
Implicit Types (w : WireGuard) (k : K) (c : Config) (users : list (option User)).
Implicit Types (cfg : @NodeConfig.NodeConfig UUID).

(** ** Configurations up to their key cache *)

Definition conf_equiv c c' : Prop := ∃ pk psk, c' = set_cache c pk psk.

Lemma conf_refl c : conf_equiv c c.
Proof. exists (privateKeyValue c), (presharedKeyValue c). by destruct c. Qed.

Lemma conf_trans c1 c2 c3 : conf_equiv c1 c2 → conf_equiv c2 c3 → conf_equiv c1 c3.
Proof. intros (p1 & q1 & ->) (p2 & q2 & ->). by exists p2, q2. Qed.

Lemma GetPreSharedKey_conf c : conf_equiv c (GetPreSharedKey c).2.
Proof.
  unfold GetPreSharedKey. destruct (presharedKeyValue c); [apply conf_refl|].
  case_bool_decide; [simpl; eexists _, _; reflexivity|].
  destruct (ParseKey _); [simpl; eexists _, _; reflexivity|apply conf_refl].
Qed.

Lemma GetPrivateKey_conf c : conf_equiv c (GetPrivateKey c).2.
Proof.
  unfold GetPrivateKey. destruct (privateKeyValue c); [apply conf_refl|].
  case_bool_decide; [apply conf_refl|].
  destruct (ParseKey _); [simpl; eexists _, _; reflexivity|apply conf_refl].
Qed.

Lemma wants_conf c c' u : conf_equiv c c' → wants c' u = wants c u.
Proof. by intros (pk & psk & ->). Qed.

Lemma desired_conf c c' users : conf_equiv c c' → desired_roster c' users = desired_roster c users.
Proof. by intros (pk & psk & ->). Qed.

Lemma conf_name c c' : conf_equiv c c' → InterfaceName c' = InterfaceName c.
Proof. by intros (pk & psk & ->). Qed.

(** ** The invariant *)

(** [quiet w w']: only the configuration's cache can differ. *)
Definition quiet w w' : Prop :=
  w' = w ∨ ∃ c c', wg_config w = Some c ∧ conf_equiv c c' ∧ w' = set_config (Some c') w.

(** The same, with the store and the statistics replaced. *)
Definition moved w w' : Prop :=
  ∃ c c', wg_config w = Some c ∧ conf_equiv c c' ∧
    w' = set_config (Some c') (set_peers (wg_statsTracker w') (wg_peerStore w') w).

Definition kernel_agrees w k : Prop :=
  ∀ m, wg_manager w = Some m →
    ∃ d, dev k (iFaceName m) = Some d ∧ agree d (roster (wg_peerStore w)).

Definition wg_inv (s : W) : Prop :=
  store_ok (wg_peerStore s.1) ∧ is_Some (wg_config s.1) ∧ kernel_agrees s.1 s.2.

Lemma with_config_eq {A} (m : eff Config A) w k c :
  wg_config w = Some c →
  with_config m (w, k) = ((m c).1, (set_config (Some (m c).2) w, k)).
Proof. intros Hc. unfold with_config. simpl. rewrite Hc. by destruct (m c). Qed.

Lemma bind_with_config {A B} (m : eff Config A) (f : A → eff W B) w k c :
  wg_config w = Some c →
  (with_config m ≫= f) (w, k) =
  match (m c).1 with
  | Ok a => f a (set_config (Some (m c).2) w, k)
  | Err e => (Err e, (set_config (Some (m c).2) w, k))
  end.
Proof. intros Hc. unfold mbind, eff_bind. rewrite (with_config_eq m w k c Hc). by destruct (m c).1. Qed.

Lemma bind_ret {S A B} (a : A) (f : A → eff S B) (s : S) : (mret a ≫= f) s = f a s.
Proof. done. Qed.

Lemma set_config_twice (c1 c2 : option Config) w : set_config c2 (set_config c1 w) = set_config c2 w.
Proof. done. Qed.

Lemma set_config_same w c : wg_config w = Some c → set_config (Some c) w = w.
Proof. intros Hc. destruct w; simpl in *. by subst. Qed.

Lemma ensure_running_Ok w k m s :
  ensureRunningWithManagerLocked (w, k) = (Ok m, s) →
  s = (w, k) ∧ wg_state w = lifecycleRunning ∧ wg_manager w = Some m.
Proof.
  unfold ensureRunningWithManagerLocked. simpl.
  destruct (wg_state w); simpl; [done|done|]. destruct (wg_manager w); intros; by simplify_eq.
Qed.

Lemma ensure_running_Err w k e s :
  ensureRunningWithManagerLocked (w, k) = (Err e, s) → s = (w, k).
Proof.
  unfold ensureRunningWithManagerLocked. simpl.
  destruct (wg_state w); simpl; [naive_solver|naive_solver|].
  destruct (wg_manager w); intros; by simplify_eq.
Qed.

(** ** Full synchronisation *)

(** The kernel call of a full synchronisation and what follows. *)
Definition full_configs (σ : nat → map_range) c T : list PeerConfig * gset string :=
  let '(cs, applied) := buildTargetPeerConfigs (σ 2) T (psk_of c) in
  (setPeerAdvancedSecurity cs (AmneziaWG c), applied).

Definition valid_targets (σ : nat → map_range) (T : gmap string PeerInfo) (applied : gset string)
    : list PeerInfo :=
  (filter (λ kp, kp.1 ∈ applied) (range_of (σ 3) T)).*2.

(** Once planned, a full synchronisation that changes something. *)
Definition full_commit (σ : nat → map_range) c T : eff W unit :=
  let '(cs, applied) := full_configs σ c T in
  manager ← ensureRunningWithManagerLocked;
  _ ← map_err (wrapf "failed to apply full peer snapshot")
        (host (Manager_ApplyPeersReplaceAll manager cs));
  modify_wg (λ w,
    let '(ps, removedKeys) :=
      PeerStore_ReplaceAll (σ 4) (wg_peerStore w) (Some <$> valid_targets σ T applied) in
    set_peers (remove_stats removedKeys (wg_statsTracker w)) ps w).

Lemma psk_of_conf c : psk_of (GetPreSharedKey c).2 = psk_of c.
Proof. apply psk_of_cached. Qed.

(** The run of [syncUsersFull] without its monadic plumbing. *)
Lemma syncUsersFull_eq σ users w k c :
  wg_config w = Some c →
  syncUsersFull σ users (w, k) =
  match collectDesiredPeers c (normalizeUsers (σ 0) users) with
  | Err e => (Err e, (w, k))
  | Ok D =>
      match buildSyncDiff (λ i, σ (10 + i)) (buildExistingPeersByKeySnapshot (σ 1) (wg_peerStore w)) D c with
      | (Err e, c1) => (Err e, (set_config (Some c1) w, k))
      | (Ok d, c1) =>
          if negb (SD_Changed d) then (Ok (), (set_config (Some c1) w, k))
          else full_commit σ c1 (SD_TargetPeers d)
                 (set_config (Some (GetPreSharedKey c1).2) w, k)
      end
  end.
Proof.
  intros Hc. unfold syncUsersFull, get. unfold mbind at 1, eff_bind at 1. cbn [fst].
  rewrite (bind_with_config _ _ _ _ _ Hc). cbn [fst snd].
  destruct (collectDesiredPeers c _) as [D|e]; [|by rewrite set_config_same].
  rewrite (bind_with_config _ _ _ _ c) by done. rewrite set_config_twice.
  destruct (buildSyncDiff _ _ D c) as [[d|e] c1]; cbn [fst snd]; [|done].
  destruct (negb (SD_Changed d)); [done|].
  rewrite (bind_with_config _ _ _ _ c1) by done. cbn [fst snd read_psk].
  rewrite (bind_with_config _ _ _ _ (GetPreSharedKey c1).2) by done. cbn [fst snd].
  rewrite !set_config_twice. unfold full_commit, full_configs, valid_targets.
  destruct (GetPreSharedKey_conf c1) as (pk & psk & ->). cbn [AmneziaWG set_cache].
  by destruct (buildTargetPeerConfigs (σ 2) (SD_TargetPeers d) (psk_of c1)).
Qed.

Lemma valid_targets_spec σ c users T applied :
  plan_ok c users T → (∀ key, key ∈ applied ↔ is_Some (T !! key)) →
  (∀ t, t ∈ valid_targets σ T applied ↔ T !! peer_key t = Some t) ∧
  NoDup (peer_key <$> valid_targets σ T applied) ∧
  NoDup (PI_Email <$> valid_targets σ T applied).
Proof.
  intros HT Happ. pose proof (plan_keyed _ _ _ HT) as Hk.
  assert (Hel : ∀ t, t ∈ valid_targets σ T applied ↔ T !! peer_key t = Some t).
  { intros t. unfold valid_targets. rewrite list_elem_of_fmap. split.
    - intros ([k t'] & -> & [_ Hin]%list_elem_of_filter). apply elem_of_range in Hin.
      simpl. by rewrite (Hk _ _ Hin).
    - intros Ht. exists (peer_key t, t). rewrite list_elem_of_filter, elem_of_range, Happ, Ht. eauto. }
  assert (Hnd : NoDup (peer_key <$> valid_targets σ T applied)).
  { unfold valid_targets. rewrite <- list_fmap_compose.
    apply (NoDup_fmap_transfer fst); [apply NoDup_fmap_filter, range_nodup|].
    intros [k1 t1] [k2 t2] [_ Hx]%list_elem_of_filter [_ Hy]%list_elem_of_filter.
    apply elem_of_range in Hx, Hy. simpl. by rewrite (Hk _ _ Hx), (Hk _ _ Hy). }
  split_and!; [done|done|]. apply (NoDup_fmap_transfer peer_key); [done|].
  intros x y [Hx _]%Hel%HT [Hy _]%Hel%HT He. rewrite He in Hx. congruence.
Qed.

Lemma full_configs_spec σ c users T :
  plan_ok c users T →
  let '(cs, applied) := full_configs σ c T in
  adds_ok no_peers cs ∧ (∀ key, key ∈ applied ↔ is_Some (T !! key)) ∧
  agree (foldl configure_peer no_peers cs) (desired_roster c users).
Proof.
  intros HT. unfold full_configs.
  destruct (buildTargetPeerConfigs_spec (σ 2) T (psk_of c)) as (Hnd & Hcs & Happ).
  { by eapply plan_keyed. }
  { intros k t. by eapply plan_nets. }
  destruct (buildTargetPeerConfigs (σ 2) T (psk_of c)) as [cs applied]. simpl in *.
  unfold setPeerAdvancedSecurity.
  assert (Hel : ∀ x, x ∈ set_advanced (AmneziaWG c) <$> cs ↔
    ∃ t, T !! peer_key t = Some t ∧ x = set_advanced (AmneziaWG c) (add_config (psk_of c) t)).
  { intros x. rewrite list_elem_of_fmap. setoid_rewrite Hcs. naive_solver. }
  assert (Hok : adds_ok no_peers (set_advanced (AmneziaWG c) <$> cs)).
  { split_and!.
    - by rewrite <- list_fmap_compose.
    - by intros x (t & _ & ->)%Hel.
    - intros x _. by right.
    - intros x x' ip (t & Ht & ->)%Hel (t' & Ht' & ->)%Hel Hi Hi'. simpl in *.
      apply HT in Ht as [Ht _], Ht' as [Ht' _].
      pose proof (plan_ips _ _ _ HT _ _ _ _ _ Ht Ht' Hi Hi') as Heq. rewrite Heq in Ht. congruence. }
  split_and!; [done|done|]. apply agree_full; [done| |].
  - intros x (t & Ht & ->)%Hel. apply HT in Ht as [Ht _]. by exists (PI_Email t), t.
  - intros e t Ht. exists (set_advanced (AmneziaWG c) (add_config (psk_of c) t)).
    rewrite Hel. split_and!; [|done|done]. exists t. split; [|done]. apply HT. split; [|done].
    by rewrite (desired_roster_email _ _ _ _ Ht).
Qed.

Lemma ApplyPeersReplaceAll_Ok m cs k k' :
  Manager_ApplyPeersReplaceAll m cs k = (Ok (), k') →
  dev k' (iFaceName m) = Some (foldl configure_peer no_peers cs).
Proof.
  unfold Manager_ApplyPeersReplaceAll. destruct (m_client m); simpl; [|done].
  by intros (d & _ & ->)%ConfigureDevice_Ok.
Qed.

Lemma host_eq {A} (m : eff K A) w k : host m (w, k) = ((m k).1, (w, (m k).2)).
Proof. unfold host, on. simpl. by destruct (m k). Qed.

Lemma full_commit_Ok σ c users T w k w' k' :
  plan_ok c users T → full_commit σ c T (w, k) = (Ok (), (w', k')) →
  ∃ m, wg_state w = lifecycleRunning ∧ wg_manager w = Some m ∧
    w' = set_peers (wg_statsTracker w') (wg_peerStore w') w ∧
    store_ok (wg_peerStore w') ∧ roster (wg_peerStore w') = desired_roster c users ∧
    (∃ d, dev k' (iFaceName m) = Some d ∧ agree d (desired_roster c users)) ∧
    ∃ gone, wg_statsTracker w' = remove_stats gone (wg_statsTracker w) ∧
      ∀ key, key ∈ gone ↔ is_Some (ps_peers (wg_peerStore w) !! key) ∧
        ∀ e p, desired_roster c users !! e = Some p → peer_key p ≠ key.
Proof.
  intros HT Hrun. unfold full_commit in Hrun.
  pose proof (full_configs_spec σ c users T HT) as Hcs.
  destruct (full_configs σ c T) as [cs applied]. destruct Hcs as (_ & Happ & Hag).
  destruct (valid_targets_spec σ c users T applied HT Happ) as (Hel & Hk & He).
  destruct (file_peers_spec (valid_targets σ T applied) He Hk) as (Hok & Hro & Hps).
  apply bind_Ok in Hrun as (m & s1 & Hm & Hrun). apply ensure_running_Ok in Hm as (-> & Hst & Hm).
  apply bind_Ok in Hrun as ([] & s2 & Hap & Hrun).
  rewrite map_err_Ok, host_eq in Hap. injection Hap as Hap <-.
  unfold modify_wg, modify in Hrun. simpl in Hrun. injection Hrun as Hw' Hk'. subst w' k'.
  exists m. unfold PeerStore_ReplaceAll. simpl. split_and!; [done|done|done|done| | |].
  - apply map_eq. intros e. apply option_eq. intros p. rewrite Hro, Hel. split.
    + intros [[Hp _]%HT <-]. done.
    + intros Hp. pose proof (desired_roster_email _ _ _ _ Hp) as Heq. split; [|done].
      apply HT. by rewrite Heq.
  - exists (foldl configure_peer no_peers cs). split; [|done].
    apply (ApplyPeersReplaceAll_Ok m cs k). rewrite <- Hap. by destruct (Manager_ApplyPeersReplaceAll m cs k).
  - eexists. split; [reflexivity|]. intros key.
    pose proof (ReplaceAll_removed (σ 4) (wg_peerStore w) (Some <$> valid_targets σ T applied) key) as Hrm.
    unfold PeerStore_ReplaceAll in Hrm. cbn [snd] in Hrm. rewrite Hrm.
    apply and_iff_compat_l. rewrite eq_None_not_Some, Hps, list_elem_of_fmap. split.
    + intros Hno e p Hp <-. apply Hno. exists p. split; [done|]. apply Hel, HT.
      by rewrite (desired_roster_email _ _ _ _ Hp).
    + intros Hno (p & -> & [Hp _]%Hel%HT). by eapply Hno.
Qed.

Lemma full_commit_Err σ c T w k e s :
  full_commit σ c T (w, k) = (Err e, s) → s.1 = w ∧
  (s.2 = k ∨ ∃ m cs e', Manager_ApplyPeersReplaceAll m cs k = (Err e', s.2)).
Proof.
  unfold full_commit. destruct (full_configs σ c T) as [cs applied].
  intros [Hm|(m & s1 & Hm & [Ha|(u & s2 & Ha & Hf)]%bind_Err)]%bind_Err.
  - apply ensure_running_Err in Hm as ->. auto.
  - apply ensure_running_Ok in Hm as (-> & _). apply map_err_Err in Ha as (e' & _ & Ha).
    rewrite host_eq in Ha. injection Ha as Ha <-. split; [done|]. right. exists m, cs, e'.
    simpl. rewrite <- Ha. by destruct (Manager_ApplyPeersReplaceAll m cs k).
  - done.
Qed.

(** A full synchronisation that finds nothing to change. *)
Lemma unchanged_roster c c1 users ps E T d :
  store_ok ps → plan_ok c users T → diff_ok c1 E T d →
  (∀ key p, E !! key = Some p ↔ roster ps !! PI_Email p = Some p ∧ peer_key p = key) →
  SD_Changed d = false → roster ps ≡ desired_roster c users.
Proof.
  intros Hok HT Hd HE Hch.
  assert (¬ (SD_RemoveKeys d ≠ [] ∨ SD_UpsertPeers d ≠ [])) as Hno.
  { intros Hx. apply (diff_changed _ _ _ _ Hd) in Hx. congruence. }
  assert (Hrm : ∀ key p, E !! key = Some p → is_Some (T !! key)).
  { intros key p Hp. apply not_eq_None_Some. intros Hn. apply Hno. left. intros Hnil.
    assert (key ∈ SD_RemoveKeys d) as Hin by (apply Hd; eauto). rewrite Hnil in Hin. set_solver. }
  assert (Hup : ∀ t, T !! peer_key t = Some t →
    ∃ ex, E !! peer_key t = Some ex ∧ PI_Email ex = PI_Email t ∧ texts ex = texts t).
  { intros t Ht. apply not_upsert_needed. intros Hn. apply Hno. right. intros Hnil.
    assert (t ∈ SD_UpsertPeers d) as Hin by by apply Hd. rewrite Hnil in Hin. set_solver. }
  assert (Hkeq : ∀ ex t, peer_key ex = peer_key t → PI_Email ex = PI_Email t → texts ex = texts t → ex ≡ t).
  { intros ex t Hk He Htx. split_and!; [done| |done]. by apply Key_String_inj. }
  intros e. destruct (roster ps !! e) as [p|] eqn:Hp.
  - pose proof (roster_email _ _ _ Hok Hp) as He.
    assert (E !! peer_key p = Some p) as HEp by (apply HE; by rewrite He).
    destruct (Hrm _ _ HEp) as [t Ht]. pose proof Ht as [Htd Htk]%HT.
    destruct (Hup t) as (ex & Hex & Hee & Htx); [by rewrite Htk|].
    rewrite Htk, HEp in Hex. simplify_eq. rewrite Hee, Htd. constructor. by apply Hkeq.
  - destruct (desired_roster c users !! e) as [t|] eqn:Ht; [|done]. exfalso.
    pose proof (desired_roster_email _ _ _ _ Ht) as He.
    destruct (Hup t) as (ex & [Hex _]%HE & Hee & _); [apply HT; by rewrite He|].
    rewrite Hee, He in Hex. congruence.
Qed.

Lemma full_run σ users w k r w' k' c :
  wg_config w = Some c → store_ok (wg_peerStore w) → canonical_keys users →
  syncUsersFull σ users (w, k) = (r, (w', k')) →
  match r with
  | Ok _ =>
      moved w w' ∧ store_ok (wg_peerStore w') ∧
      roster (wg_peerStore w') ≡ desired_roster c users ∧
      (kernel_agrees w k → kernel_agrees w' k')
  | Err _ => quiet w w' ∧ (k' = k ∨ ∃ m cs e', Manager_ApplyPeersReplaceAll m cs k = (Err e', k'))
  end.
Proof.
  intros Hc Hok Hcan. rewrite (syncUsersFull_eq _ _ _ _ _ Hc).
  destruct (collectDesiredPeers c _) as [D|e] eqn:Hcol.
  2: { intros [= <- <- <-]. split; [by left|by left]. }
  pose proof (collect_plan _ _ _ _ Hcan Hcol) as HT.
  pose proof (existing_snapshot (σ 1) (wg_peerStore w)) as HE.
  set (E := buildExistingPeersByKeySnapshot (σ 1) (wg_peerStore w)) in *.
  destruct (buildSyncDiff_spec (λ i, σ (10 + i)) E D c) as (d & -> & Hd).
  { intros key p Hp%HE; [by destruct Hp|done]. }
  { by eapply plan_keyed. }
  { intros key t. by eapply plan_nets. }
  pose proof (GetPreSharedKey_conf c) as Hcc1. set (c1 := (GetPreSharedKey c).2) in *.
  pose proof (GetPreSharedKey_conf c1) as Hcc2.
  pose proof (conf_trans _ _ _ Hcc1 Hcc2) as Hcc.
  rewrite (diff_target _ _ _ _ Hd).
  assert (HT1 : plan_ok c1 users (target_of <$> D)).
  { destruct HT as [HTa HTb]. split; intros *; rewrite ?(desired_conf c c1) by done; eauto. }
  destruct (negb (SD_Changed d)) eqn:Hch.
  - intros [= <- <- <-]. simpl.
    assert (roster (wg_peerStore w) ≡ desired_roster c users) as Hro.
    { eapply (unchanged_roster c c users _ E); [done|done|done| |by apply negb_true_iff].
      intros key p. by apply HE. }
    split_and!; [|done|done|done]. by exists c, c1.
  - destruct r as [[]|e]; intros Hrun.
    + destruct (full_commit_Ok _ _ users _ _ _ _ _ HT1 Hrun)
        as (m & _ & Hm & Hw' & Hok' & Hro & (dv & Hdv & Hag) & _).
      rewrite (desired_conf c c1) in Hro, Hag by done. split_and!; [|done|by rewrite Hro|].
      * eexists c, _. split_and!; [done|exact Hcc|]. by rewrite Hw' at 1.
      * intros _ m'. rewrite Hw'. simpl. simpl in Hm. rewrite Hm. intros [= <-].
        exists dv. by rewrite Hro.
    + apply full_commit_Err in Hrun as [Hw Hk]. simpl in Hw, Hk. split; [|done].
      right. eexists c, _. split_and!; [done|exact Hcc|done].
Qed.

(** ** Partial reconciliation *)

Definition partial_kernel (d : SyncDiff) : eff W unit :=
  if bool_decide (SD_PeerConfigs d = []) then mret ()
  else
    manager ← ensureRunningWithManagerLocked;
    map_err (wrapf "failed to apply peer changes") (host (Manager_ApplyPeers manager (SD_PeerConfigs d))).

Definition partial_store (d : SyncDiff) w : WireGuard :=
  let '(ps, removedKeys) :=
    PeerStore_ApplyChanges (wg_peerStore w) (SD_RemoveKeys d) (Some <$> SD_UpsertPeers d) in
  set_peers (remove_stats removedKeys (wg_statsTracker w)) ps w.

Lemma syncUsersPartial_eq σ users w k c :
  wg_config w = Some c →
  syncUsersPartialReconcile σ users (w, k) =
  let touchedEmails := touched_emails (normalizeUsers (σ 0) users) in
  match collectDesiredPeers c (normalizeUsers (σ 0) users) with
  | Err e => (Err e, (w, k))
  | Ok D =>
      match check_owners (PeerStore_GetEmailMap (σ 2) (wg_peerStore w)) touchedEmails (range_of (σ 3) D) with
      | Err e => (Err e, (w, k))
      | Ok _ =>
          match buildSyncDiff (λ i, σ (10 + i))
                  (buildExistingPeersSubsetForTouched (σ 1) touchedEmails (wg_peerStore w)) D c with
          | (Err e, c1) => (Err e, (set_config (Some c1) w, k))
          | (Ok d, c1) =>
              match partial_kernel d (set_config (Some c1) w, k) with
              | (Err e, s) => (Err e, s)
              | (Ok _, s) => (Ok (), (partial_store d s.1, s.2))
              end
          end
      end
  end.
Proof.
  intros Hc. unfold syncUsersPartialReconcile, get. unfold mbind at 1, eff_bind at 1. cbn [fst].
  rewrite (bind_with_config _ _ _ _ _ Hc). cbn [fst snd].
  destruct (collectDesiredPeers c _) as [D|e]; [|by rewrite set_config_same].
  rewrite (set_config_same w c Hc). unfold mbind at 1, eff_bind at 1, lift.
  destruct (check_owners _ _ _) as [u|e]; [|done].
  rewrite (bind_with_config _ _ _ _ c) by done.
  destruct (buildSyncDiff _ _ D c) as [[d|e] c1]; cbn [fst snd]; [|done].
  fold (partial_kernel d). unfold mbind, eff_bind.
  by destruct (partial_kernel d _) as [[u'|e] s].
Qed.

Lemma check_owners_Ok owners touchedEmails l :
  check_owners owners touchedEmails l = Ok () →
  ∀ key desired owner, (key, desired) ∈ l → owners !! key = Some owner →
    owner = DP_Email desired ∨ is_Some (touchedEmails !! owner).
Proof.
  induction l as [|[key0 desired0] l IH]; [set_solver|]. cbn [check_owners].
  intros Hch key desired owner [Heq|Hin]%elem_of_cons Ho; simplify_eq.
  - rewrite Ho in Hch. case_bool_decide; [by left|]. right.
    destruct (touchedEmails !! owner); [eauto|done].
  - apply (IH ltac:(repeat split_match_in Hch; done) _ _ _ Hin Ho).
Qed.

Lemma partial_kernel_Ok d w k s :
  partial_kernel d (w, k) = (Ok (), s) →
  s.1 = w ∧
  ((SD_PeerConfigs d = [] ∧ s.2 = k) ∨
   ∃ m dv, wg_state w = lifecycleRunning ∧ wg_manager w = Some m ∧ dev k (iFaceName m) = Some dv ∧
     dev s.2 (iFaceName m) = Some (foldl configure_peer dv (SD_PeerConfigs d))).
Proof.
  unfold partial_kernel. case_bool_decide as Hnil.
  { intros [= <-]. auto. }
  intros (m & s1 & Hm & Hap)%bind_Ok. apply ensure_running_Ok in Hm as (-> & Hst & Hm).
  rewrite map_err_Ok, host_eq in Hap. injection Hap as Hap <-. split; [done|]. right.
  unfold Manager_ApplyPeers in *. destruct (SD_PeerConfigs d) as [|x cs] eqn:Hcs; [done|].
  rewrite <- Hcs in *. destruct (m_client m); simpl in *; [|done].
  destruct (client_ConfigureDevice _ _ k) as [r k'] eqn:Hcfg. simpl in Hap. subst r.
  apply ConfigureDevice_Ok in Hcfg as (dv & Hdv & Hk'). exists m, dv. done.
Qed.

Lemma partial_kernel_Err d w k e s :
  partial_kernel d (w, k) = (Err e, s) →
  s.1 = w ∧ (s.2 = k ∨ ∃ m cs e', Manager_ApplyPeers m cs k = (Err e', s.2)).
Proof.
  unfold partial_kernel. case_bool_decide as Hnil; [done|].
  intros [Hm|(m & s1 & Hm & Ha)]%bind_Err.
  - apply ensure_running_Err in Hm as ->. auto.
  - apply ensure_running_Ok in Hm as (-> & _). apply map_err_Err in Ha as (e' & _ & Ha).
    rewrite host_eq in Ha. injection Ha as Ha <-. split; [done|]. right. exists m, (SD_PeerConfigs d), e'.
    simpl. rewrite <- Ha. by destruct (Manager_ApplyPeers m (SD_PeerConfigs d) k).
Qed.

(** No network of the request is in use by a user it does not touch. *)
Definition ips_free c users (r : gmap string PeerInfo) : Prop :=
  ∀ e e' t q ip, desired_roster c users !! e = Some t → r !! e' = Some q →
    ¬ touched users e' → ip ∈ texts t → ip ∉ texts q.

Lemma ips_free_equiv c users r r' : r ≡ r' → ips_free c users r → ips_free c users r'.
Proof.
  intros Hr Hf e e' t q ip Ht Hq Hn Hip. destruct (roster_equiv_Some _ _ _ _ (symmetry Hr) Hq) as (q' & Hq' & _ & _ & Htx).
  rewrite Htx. by eapply Hf.
Qed.

Lemma partial_run σ users w k r w' k' c :
  wg_config w = Some c → store_ok (wg_peerStore w) → canonical_keys users →
  syncUsersPartialReconcile σ users (w, k) = (r, (w', k')) →
  match r with
  | Ok _ =>
      moved w w' ∧ store_ok (wg_peerStore w') ∧
      roster (wg_peerStore w') ≡ after_update c users (roster (wg_peerStore w)) ∧
      (kernel_agrees w k → ips_free c users (roster (wg_peerStore w)) → kernel_agrees w' k')
  | Err _ => quiet w w' ∧ (k' = k ∨ ∃ m cs e', Manager_ApplyPeers m cs k = (Err e', k'))
  end.
Proof.
  intros Hc Hok Hcan. rewrite (syncUsersPartial_eq _ _ _ _ _ Hc). cbn zeta.
  destruct (collectDesiredPeers c _) as [D|e] eqn:Hcol.
  2: { intros [= <- <- <-]. split; by left. }
  destruct (check_owners _ _ _) as [[]|e] eqn:Hown.
  2: { intros [= <- <- <-]. split; by left. }
  pose proof (collect_plan _ _ _ _ Hcan Hcol) as HT.
  assert (HE : ∀ key p, buildExistingPeersSubsetForTouched (σ 1)
    (touched_emails (normalizeUsers (σ 0) users)) (wg_peerStore w) !! key = Some p ↔
    roster (wg_peerStore w) !! PI_Email p = Some p ∧ touched users (PI_Email p) ∧ peer_key p = key).
  { intros key p. by apply existing_subset. }
  set (E := buildExistingPeersSubsetForTouched _ _ _) in *.
  destruct (buildSyncDiff_spec (λ i, σ (10 + i)) E D c) as (d & -> & Hd).
  { intros key p Hp%HE. naive_solver. }
  { by eapply plan_keyed. }
  { intros key t. by eapply plan_nets. }
  assert (Howner : ∀ key t e q, (target_of <$> D) !! key = Some t →
    roster (wg_peerStore w) !! e = Some q → peer_key q = key → touched users e).
  { intros key t e q Ht Hq Hk. pose proof (roster_email _ _ _ Hok Hq) as He.
    pose proof (proj1 (plan_targets _ _ _ HT _ _) Ht) as [Htd _].
    rewrite lookup_fmap in Ht. apply fmap_Some in Ht as (p & Hp & ->).
    destruct (check_owners_Ok _ _ _ Hown key p e) as [->|Htch].
    - by apply elem_of_range.
    - rewrite GetEmailMap_eq. rewrite <- He in Hq.
      pose proof (proj2 (peers_roster _ key q Hok) (conj Hq Hk)) as ->. simpl. by rewrite He.
    - by eapply desired_touched.
    - by apply touched_emails_spec in Htch. }
  pose proof (update_store c users (wg_peerStore w) E (target_of <$> D) d Hok HT Hd HE Howner) as [Hok' Hro'].
  pose proof (GetPreSharedKey_conf c) as Hcc. set (c1 := (GetPreSharedKey c).2) in *.
  assert (Hqt : quiet w (set_config (Some c1) w)).
  { right. by exists c, c1. }
  destruct (partial_kernel d _) as [[[]|e] [w1 k1]] eqn:Hpk.
  2: { intros [= <- <- <-]. apply partial_kernel_Err in Hpk as [Hw Hk]. simpl in *. by subst. }
  intros [= <- <- <-]. apply partial_kernel_Ok in Hpk as [Hw Hk]. simpl in Hw, Hk. subst w1.
  unfold partial_store. cbn [set_config wg_peerStore wg_statsTracker].
  destruct (PeerStore_ApplyChanges _ _ _) as [ps removed]. simpl in Hok', Hro'.
  split_and!; [by eexists c, _|done|done|].
  intros Hka Hfree m Hm. change (wg_manager w = Some m) in Hm. destruct (Hka m Hm) as (d0 & Hd0 & Hag).
  destruct (diff_configs _ _ _ _ Hd) as (adds & removes & Hcfg & Hnd & Hadds & Hrems).
  pose proof (update_kernel c users (wg_peerStore w) E (target_of <$> D) d0 Hok HT HE Howner
    Hfree Hag adds removes Hnd Hadds Hrems) as Hfin.
  rewrite <- Hcfg in Hfin. simpl. destruct Hk as [[Hnil ->]|(m' & dv & _ & Hm' & Hdv & Hk1)].
  - exists d0. rewrite Hro'. split; [done|]. by rewrite Hnil in Hfin.
  - change (wg_manager w = Some m') in Hm'. rewrite Hm in Hm'. simplify_eq. eexists. split; [exact Hk1|]. by rewrite Hro'.
Qed.

(** ** Restart *)

Lemma agree_is_exclusive d r : agree d r → exclusive r.
Proof. intros Ha e e' p p' ip. by eapply agree_exclusive. Qed.

Lemma restart_configs_Ok l psk cs :
  restart_configs l psk = Ok cs → cs = add_config psk <$> l.
Proof.
  revert cs. induction l as [|p l IH]; intros cs; cbn [restart_configs]; [by intros [= <-]|].
  case_bool_decide; [done|]. destruct (restart_configs l psk); [|done]. intros [= <-].
  by rewrite (IH _ eq_refl).
Qed.

Lemma restart_rebuilt σ ps psk awg cs :
  store_ok ps → buildPeerConfigsForRestart (PeerStore_GetAll σ ps) psk = Ok cs →
  rebuilt (foldl configure_peer no_peers (setPeerAdvancedSecurity cs awg)) (roster ps).
Proof.
  intros Hok Hcs. apply restart_configs_Ok in Hcs as ->.
  set (l := merge_sort key_le (PeerStore_GetAll σ ps)).
  assert (Hperm : l ≡ₚ PeerStore_GetAll σ ps) by apply merge_sort_Permutation.
  assert (Hel : ∀ p, p ∈ l ↔ roster ps !! PI_Email p = Some p).
  { intros p. rewrite Hperm. by apply elem_of_GetAll. }
  assert (Hnd : NoDup (peer_key <$> l)).
  { rewrite Hperm. unfold PeerStore_GetAll. rewrite <- list_fmap_compose.
    apply (NoDup_fmap_transfer fst); [apply range_nodup|].
    intros [k1 p1] [k2 p2] Hx%elem_of_range Hy%elem_of_range. simpl.
    by destruct (proj1 Hok _ _ Hx) as [-> _], (proj1 Hok _ _ Hy) as [-> _]. }
  unfold setPeerAdvancedSecurity. rewrite <- list_fmap_compose. set (conf := set_advanced awg ∘ add_config psk).
  destruct (snapshot_view (conf <$> l)) as (Hp & Hr & Ha).
  { rewrite <- list_fmap_compose. apply (NoDup_fmap_transfer peer_key); [done|].
    intros x y _ _. simpl. unfold peer_key. by intros ->. }
  { by intros x (p & -> & _)%list_elem_of_fmap. }
  split.
  - intros key. rewrite Hp, <- list_fmap_compose, list_elem_of_fmap. split.
    + intros (p & -> & Hin%Hel). by exists (PI_Email p), p.
    + intros (e & p & He & <-). exists p. split; [done|]. apply Hel. by rewrite (roster_email _ _ _ Hok He).
  - intros ip key (x & (p & -> & Hin%Hel)%list_elem_of_fmap & <- & Hip)%Hr. by exists (PI_Email p), p.
  - intros e p ip He Hip. apply (Ha (conf p)); [|done]. apply list_elem_of_fmap_2, Hel.
    by rewrite (roster_email _ _ _ Hok He).
Qed.

Lemma ApplyConfig_Ok m pk port cs k k' :
  Manager_ApplyConfig m (mkDeviceConfig pk port true cs no_profile) k = (Ok (), k') →
  dev k' (iFaceName m) = Some (foldl configure_peer no_peers cs).
Proof.
  unfold Manager_ApplyConfig. destruct (m_client m); simpl; [|done].
  intros (d & _ & ->)%ConfigureDevice_Ok. by destruct (amneziaWG m).
Qed.

(** The fields a log line leaves alone. *)
Lemma emitLog_frame ts sev msg w :
  ∃ l, emitLogLocked ts sev msg w = set_log l w.
Proof.
  unfold emitLogLocked. destruct (wg_logChan w) as [lines|] eqn:Hl.
  - destruct (_ <? _)%Z; [by eexists|]. exists (Some lines). destruct w. simpl in *. by subst.
  - exists None. destruct w. simpl in *. by subst.
Qed.

(** [w'] has the store, statistics, manager and state of [w]. *)
Definition same_core w w' : Prop :=
  wg_peerStore w' = wg_peerStore w ∧ wg_statsTracker w' = wg_statsTracker w ∧
  wg_manager w' = wg_manager w ∧ wg_state w' = wg_state w ∧
  wg_shutdownDone w' = wg_shutdownDone w ∧ wg_interfaceStats w' = wg_interfaceStats w ∧
  ∀ c, wg_config w = Some c → ∃ c2, wg_config w' = Some c2 ∧ conf_equiv c c2.

Lemma same_core_refl w : same_core w w.
Proof. split_and!; try done. intros c ->. eauto using conf_refl. Qed.

Lemma same_core_trans w1 w2 w3 : same_core w1 w2 → same_core w2 w3 → same_core w1 w3.
Proof.
  intros (A1 & A2 & A3 & A4 & A5 & A6 & A7) (B1 & B2 & B3 & B4 & B5 & B6 & B7).
  split_and!; try congruence. intros c Hc.
  destruct (A7 c Hc) as (c2 & Hc2 & ?). destruct (B7 c2 Hc2) as (c3 & Hc3 & ?).
  eauto using conf_trans.
Qed.

Lemma same_core_log l w : same_core w (set_log l w).
Proof. split_and!; try done. simpl. intros c ->. eauto using conf_refl. Qed.

Lemma same_core_config c c2 w :
  wg_config w = Some c → conf_equiv c c2 → same_core w (set_config (Some c2) w).
Proof. intros Hc He. split_and!; try done. simpl. intros c0 Hc0. simplify_eq. eauto. Qed.

Lemma same_core_emit ts sev msg w : same_core w (emitLogLocked ts sev msg w).
Proof. destruct (emitLog_frame ts sev msg w) as [l ->]. apply same_core_log. Qed.

Lemma with_config_core {A} (m : eff Config A) w k r s :
  (∀ c, conf_equiv c (m c).2) → with_config m (w, k) = (r, s) → same_core w s.1 ∧ s.2 = k.
Proof.
  intros Hm. unfold with_config. simpl. destruct (wg_config w) as [c|] eqn:Hc.
  - specialize (Hm c). destruct (m c) as [r0 c0]. intros [= <- <-]. split; [|done].
    by eapply same_core_config.
  - intros [= <- <-]. split; [apply same_core_refl|done].
Qed.

Lemma read_psk_conf c : conf_equiv c (read_psk c).2.
Proof. apply GetPreSharedKey_conf. Qed.

(** The end of a restart, once the backend is known to run. *)
Definition restart_tail (ts : string) (m : Manager) (dc : DeviceConfig) : eff W unit :=
  _ ← modify_wg (emitLogLocked ts logSeverityInfo restart_msg);
  _ ← map_err (wrapf "failed to reconfigure interface during restart") (host (Manager_ApplyConfig m dc));
  modify_wg (emitLogLocked ts logSeverityInfo restarted_msg).

Lemma restart_tail_run ts m dc w k r s :
  restart_tail ts m dc (w, k) = (r, s) →
  same_core w s.1 ∧
  match r with
  | Ok _ => Manager_ApplyConfig m dc k = (Ok (), s.2)
  | Err _ => ∃ e, Manager_ApplyConfig m dc k = (Err e, s.2)
  end.
Proof.
  unfold restart_tail, mbind, eff_bind, modify_wg, modify, map_err. cbn [fst snd].
  pose proof (same_core_emit ts logSeverityInfo restart_msg w) as Hs1.
  rewrite host_eq. destruct (Manager_ApplyConfig m dc k) as [[[]|e] k1]; cbn [fst snd].
  - intros [= <- <-]. split; [|done]. eapply same_core_trans; [done|apply same_core_emit].
  - intros [= <- <-]. eauto.
Qed.

Lemma restart_run σ ts w k r w' k' :
  store_ok (wg_peerStore w) →
  restartLocked σ ts (w, k) = (r, (w', k')) →
  same_core w w' ∧
  match r with
  | Ok _ =>
      ∃ m d, wg_state w = lifecycleRunning ∧ wg_manager w = Some m ∧
        dev k' (iFaceName m) = Some d ∧ rebuilt d (roster (wg_peerStore w))
  | Err _ => k' = k ∨ ∃ m dc e', Manager_ApplyConfig m dc k = (Err e', k')
  end.
Proof.
  intros Hok. unfold restartLocked, get. unfold mbind at 1, eff_bind at 1. cbn [fst].
  destruct (wg_config w) as [c|] eqn:Hc.
  2: { intros [-> [= <- <-]]%throw_eq. split; [apply same_core_refl|by left]. }
  unfold mbind at 1, eff_bind at 1, map_err at 1.
  destruct (with_config GetPrivateKey (w, k)) as [r1 [w1 k1]] eqn:Hr1.
  apply (with_config_core _ _ _ _ _ GetPrivateKey_conf) in Hr1 as [Hs1 Hk1]. simpl in Hs1, Hk1. subst k1.
  destruct r1 as [privateKey|e1]; [|intros [= <- <- <-]; split; [done|by left]].
  unfold mbind at 1, eff_bind at 1.
  destruct (with_config read_psk (w1, k)) as [r2 [w2 k2]] eqn:Hr2.
  apply (with_config_core _ _ _ _ _ read_psk_conf) in Hr2 as [Hs2 Hk2]. simpl in Hs2, Hk2. subst k2.
  pose proof (same_core_trans _ _ _ Hs1 Hs2) as Hs.
  destruct r2 as [psk|e2]; [|intros [= <- <- <-]; split; [done|by left]].
  unfold mbind at 1, eff_bind at 1, map_err at 1, lift.
  destruct (buildPeerConfigsForRestart _ psk) as [cs|e3] eqn:Hcs;
    [|intros [= <- <- <-]; split; [done|by left]].
  unfold mbind at 1, eff_bind at 1.
  destruct (ensureRunningWithManagerLocked (w2, k)) as [[m|e4] s4] eqn:Hr4.
  2: { apply ensure_running_Err in Hr4 as ->. intros [= <- <- <-]. split; [done|by left]. }
  apply ensure_running_Ok in Hr4 as (-> & Hst & Hm).
  match goal with |- context [Manager_ApplyConfig m ?dc] => fold (restart_tail ts m dc) end.
  intros Hrun. apply restart_tail_run in Hrun as [Hs3 Hap]. simpl in Hs3, Hap.
  split; [by eapply same_core_trans|]. destruct Hs as (_ & _ & Hmw & Hsw & _).
  destruct r as [[]|e]; [|right; destruct Hap as [e' Hap]; eauto].
  apply ApplyConfig_Ok in Hap. eexists m, _.
  split_and!; [congruence|congruence|done|]. by eapply restart_rebuilt.
Qed.

(** ** Creation *)

Lemma filterUpserts_all ups applied :
  (∀ p, p ∈ ups → peer_key p ∈ applied) → filterUpsertsByAppliedKeys ups applied = ups.
Proof.
  intros Hall. unfold filterUpsertsByAppliedKeys. case_bool_decide; [done|].
  clear -Hall. induction ups as [|p ups IH]; [done|].
  rewrite filter_cons, decide_True by set_solver. f_equal. apply IH. set_solver.
Qed.

Lemma existing_empty ρ : buildExistingPeersByKeySnapshot ρ NewPeerStore = ∅.
Proof.
  apply map_empty. intros key. apply eq_None_not_Some. intros [p Hp].
  apply existing_snapshot in Hp as [Hp _]; [|apply store_ok_new].
  unfold roster in Hp. by rewrite lookup_omap in Hp.
Qed.

(** A fresh store filled with the planned peers. *)
Lemma init_store c c1 users T d applied :
  plan_ok c users T → diff_ok c1 ∅ T d → (∀ key, key ∈ applied ↔ is_Some (T !! key)) →
  let ps := PeerStore_Init NewPeerStore (Some <$> filterUpsertsByAppliedKeys (SD_UpsertPeers d) applied) in
  store_ok ps ∧ roster ps = desired_roster c users.
Proof.
  intros HT Hd Happ. cbn zeta.
  assert (Hups : ∀ t, t ∈ SD_UpsertPeers d ↔ T !! peer_key t = Some t).
  { intros t. rewrite (diff_upserts _ _ _ _ Hd). unfold upsert_needed. rewrite lookup_empty. tauto. }
  rewrite filterUpserts_all by (intros p Hp; apply Happ; apply Hups in Hp; eauto).
  pose proof (diff_upserts_nodup _ _ _ _ Hd) as Hk.
  assert (He : NoDup (PI_Email <$> SD_UpsertPeers d)).
  { apply (NoDup_fmap_transfer peer_key); [done|].
    intros x y [Hx _]%Hups%HT [Hy _]%Hups%HT Heq. rewrite Heq in Hx. congruence. }
  destruct (file_peers_spec _ He Hk) as (Hok & Hro & _). split; [done|].
  apply map_eq. intros e. apply option_eq. intros p. unfold PeerStore_Init. rewrite Hro, Hups. split.
  - by intros [[Hp _]%HT <-].
  - intros Hp. pose proof (desired_roster_email _ _ _ _ Hp) as Heq. split; [|done].
    apply HT. by rewrite Heq.
Qed.

Lemma version_dev k : dev (getWireGuardVersion k).2 = dev k.
Proof.
  unfold getWireGuardVersion. pose proof (exec_Output_dev ["wg"; "--version"] k) as Hd.
  destruct (exec_Output _ k) as [[out err] k1]. simpl in Hd.
  destruct err; [done|]. destruct (Split out newline); [done|].
  by destruct (Fields (TrimSpace s)) as [|? [|? ?]].
Qed.

(** The part of [New] that touches the host, once the peers are planned. *)
Definition create (σ : nat → map_range) (now : Z) (ts owner version : string) (cfg : NodeConfig) (c : Config)
    (privateKey : Key) (d : SyncDiff) (managerFactory : string → eff K Manager) : eff K WireGuard := λ k,
  let '(cs, applied) := full_configs σ c (SD_TargetPeers d) in
  let c2 := (GetPreSharedKey c).2 in
  match managerFactory (InterfaceName c2) k with
  | (Err e, k) => (Err (wrapf "failed to create manager" e), k)
  | (Ok manager, k) =>
      match Manager_InitializeWithPeers manager privateKey (ListenPort c2) (Address c2) cs k with
      | (Err e, k) => (Err (wrapf "failed to initialize interface" e), (Manager_Close (manager, k)).2.2)
      | (Ok _, k) =>
          let '(routing, k) := applyLinuxHostRouting owner (Some cfg) (InterfaceName c2) k in
          let ps := PeerStore_Init NewPeerStore
            (Some <$> filterUpsertsByAppliedKeys (SD_UpsertPeers d) applied) in
          match initStatsTickers cfg with
          | Err e => (Err e, k)
          | Ok tickers =>
              (Ok (emitLogLocked ts logSeverityInfo (start_msg (InterfaceName c2))
                 (mkWG (Some c2) cfg (Some manager) Tracker_New ps (Some tickers)
                   (Some []) false now version lifecycleRunning
                   NewInterfaceCountersTracker false 0 routing)), k)
          end
      end
  end.

Lemma new_eq σ now ts owner cfg c users fac k :
  newWithManagerFactory σ now ts owner cfg (Some c) users fac k =
  let '(version, k) := getWireGuardVersion k in
  match (GetPrivateKey c).1 with
  | Err e => (Err (wrapf "invalid wireguard private key" e), k)
  | Ok privateKey =>
      let c1 := (GetPrivateKey c).2 in
      match collectDesiredPeers c1 (normalizeUsers (σ 0) users) with
      | Err e => (Err (wrapf "failed to collect desired peers" e), k)
      | Ok D =>
          match buildSyncDiff (λ i, σ (10 + i)) ∅ D c1 with
          | (Err e, _) => (Err (wrapf "failed to build sync diff" e), k)
          | (Ok d, c2) => create σ now ts owner version cfg c2 privateKey d fac k
          end
      end
  end.
Proof.
  unfold newWithManagerFactory. destruct (getWireGuardVersion k) as [version k1].
  destruct (GetPrivateKey c) as [[privateKey|e] c1]; cbn [fst snd]; [|done].
  destruct (collectDesiredPeers c1 _) as [D|e]; [|done]. rewrite existing_empty.
  destruct (buildSyncDiff _ ∅ D c1) as [[d|e] c2]; [|done].
  unfold create, full_configs. destruct (GetPreSharedKey_conf c2) as (pk & psk & ->).
  cbn [AmneziaWG set_cache]. by destruct (buildTargetPeerConfigs _ _ _).
Qed.

Lemma create_Ok σ now ts owner v cfg c c0 users T d pk fac k w k' :
  plan_ok c users T → SD_TargetPeers d = T → diff_ok c0 ∅ T d →
  create σ now ts owner v cfg c pk d fac k = (Ok w, k') →
  store_ok (wg_peerStore w) ∧ roster (wg_peerStore w) = desired_roster c users ∧
  kernel_agrees w k' ∧ wg_state w = lifecycleRunning ∧ is_Some (wg_manager w) ∧
  wg_statsTracker w = Tracker_New ∧ (∃ c2, wg_config w = Some c2 ∧ conf_equiv c c2).
Proof.
  intros HT HdT Hd. unfold create. rewrite HdT.
  pose proof (full_configs_spec σ c users T HT) as Hcs.
  destruct (full_configs σ c T) as [cs applied]. destruct Hcs as (_ & Happ & Hag).
  destruct (fac _ k) as [[m|e] k1]; [|done].
  destruct (Manager_InitializeWithPeers _ _ _ _ _ k1) as [[[]|e] k2] eqn:Hin; [|done].
  apply Initialize_Ok in Hin.
  pose proof (apply_routing_dev owner (Some cfg) (InterfaceName (GetPreSharedKey c).2) k2) as Hrd.
  destruct (applyLinuxHostRouting _ _ _ k2) as [routing k3]. simpl in Hrd.
  destruct (initStatsTickers cfg) as [tickers|e]; [|done].
  destruct (init_store c c0 users T d applied HT Hd Happ) as [Hok Hro].
  match goal with |- (Ok (emitLogLocked _ _ ?msg ?w0), _) = _ → _ =>
    destruct (emitLog_frame ts logSeverityInfo msg w0) as [l ->] end.
  intros [= <- <-]. simpl. split_and!; [done|done| |done|done|done|].
  - intros m' [= <-]. exists (foldl configure_peer no_peers cs). rewrite Hrd. split; [done|].
    simpl. by rewrite Hro.
  - eexists. split; [done|]. apply GetPreSharedKey_conf.
Qed.

Lemma new_Ok σ now ts owner cfg c users fac k w k' :
  canonical_keys users →
  newWithManagerFactory σ now ts owner cfg (Some c) users fac k = (Ok w, k') →
  store_ok (wg_peerStore w) ∧ roster (wg_peerStore w) = desired_roster c users ∧
  kernel_agrees w k' ∧ wg_state w = lifecycleRunning ∧ is_Some (wg_manager w) ∧
  wg_statsTracker w = Tracker_New ∧ (∃ c2, wg_config w = Some c2 ∧ conf_equiv c c2).
Proof.
  intros Hcan. rewrite new_eq. destruct (getWireGuardVersion k) as [v k1].
  destruct (GetPrivateKey c).1 as [pk|e]; [|done]. cbn zeta.
  pose proof (GetPrivateKey_conf c) as Hc1. set (c1 := (GetPrivateKey c).2) in *.
  destruct (collectDesiredPeers c1 _) as [D|e] eqn:Hcol; [|done].
  pose proof (collect_plan _ _ _ _ Hcan Hcol) as HT.
  destruct (buildSyncDiff_spec (λ i, σ (10 + i)) ∅ D c1) as (d & -> & Hd).
  { intros key p. by rewrite lookup_empty. }
  { by eapply plan_keyed. }
  { intros key t. by eapply plan_nets. }
  pose proof (GetPreSharedKey_conf c1) as Hc2. set (c2 := (GetPreSharedKey c1).2) in *.
  pose proof (conf_trans _ _ _ Hc1 Hc2) as Hc.
  assert (HT2 : plan_ok c2 users (target_of <$> D)).
  { destruct HT as [HTa HTb]. split; intros *; rewrite ?(desired_conf c1 c2) by done; eauto. }
  intros Hrun. apply (create_Ok _ _ _ _ _ _ _ c1 users _ _ _ _ _ _ _ HT2 (diff_target _ _ _ _ Hd) Hd) in Hrun
    as (Hok & Hro & Hka & Hst & Hm & Htr & c3 & Hc3 & Hce).
  rewrite (desired_conf c c2) in Hro by done. split_and!; eauto using conf_trans.
Qed.

(** A factory that only opens a client. *)
Definition plain_factory (fac : string → eff K Manager) : Prop :=
  ∀ name k, dev (fac name k).2 = dev k ∧ ∀ m k', fac name k = (Ok m, k') → iFaceName m = name.

Lemma buildSyncDiff_conf ρs E D c : conf_equiv c (buildSyncDiff ρs E D c).2.
Proof.
  unfold buildSyncDiff. destruct (buildRemoveConfigsForPeers _ _) as [rk rc]. apply GetPreSharedKey_conf.
Qed.

Lemma new_Err σ now ts owner cfg c users fac k e k' :
  reliable_links → plain_factory fac → is_ok (initStatsTickers cfg) = true →
  newWithManagerFactory σ now ts owner cfg (Some c) users fac k = (Err e, k') →
  dev k' (InterfaceName c) = None ∨ dev k' = dev k.
Proof.
  intros Hrel Hfac Htick. rewrite new_eq. pose proof (version_dev k) as Hv.
  destruct (getWireGuardVersion k) as [v k1]. simpl in Hv. rewrite <- Hv. clear Hv k.
  destruct (GetPrivateKey c).1 as [pk|e0]; [|intros [= <- <-]; by right]. cbn zeta.
  pose proof (GetPrivateKey_conf c) as Hc1. set (c1 := (GetPrivateKey c).2) in *.
  destruct (collectDesiredPeers c1 _) as [D|e0]; [|intros [= <- <-]; by right].
  unfold buildSyncDiff. destruct (buildRemoveConfigsForPeers _ _) as [rk rc].
  unfold create. destruct (full_configs _ _ _) as [cs applied].
  match goal with |- context [fac (InterfaceName ?x)] => set (c3 := x) end.
  assert (InterfaceName c3 = InterfaceName c) as Hname.
  { apply conf_name. eapply conf_trans; [done|].
    eapply conf_trans; [apply GetPreSharedKey_conf|apply GetPreSharedKey_conf]. }
  rewrite Hname. destruct (Hfac (InterfaceName c) k1) as [Hfd Hfn].
  destruct (fac (InterfaceName c) k1) as [[m|e1] k2]; simpl in Hfd; [|intros [= _ <-]; by right].
  specialize (Hfn m k2 eq_refl).
  destruct (Manager_InitializeWithPeers _ _ _ _ _ k2) as [[[]|e1] k3] eqn:Hin.
  - destruct (applyLinuxHostRouting _ _ _ k3) as [routing k4].
    by destruct (initStatsTickers cfg).
  - intros [= _ <-]. left. rewrite <- Hfn. by apply Close_reliable.
Qed.

Lemma New_factory_plain c :
  plain_factory (if AmneziaWG c then λ interfaceName, NewAmneziaManager interfaceName (Some c) else NewManager).
Proof.
  intros name k. pose proof (New_dev k) as Hn. destruct (AmneziaWG c) eqn:Hawg.
  - unfold NewAmneziaManager. rewrite Hawg. cbn [negb].
    unfold mbind, eff_bind, lift. destruct (buildAmneziaDeviceConfig (Some c)); [|done].
    unfold map_err. destruct (client_New k) as [[|] k1]; simpl in *; split; try done.
    intros m k2 [= <- _]. done.
  - unfold NewManager, mbind, eff_bind, map_err.
    destruct (client_New k) as [[|] k1]; simpl in *; split; try done.
    intros m k2 [= <- _]. done.
Qed.

(** The only interface a creation can leave behind is the new backend's. *)
Lemma new_adds σ now ts owner cfg c users fac k :
  tidy_kernel → plain_factory fac → is_ok (initStatsTickers cfg) = true →
  match newWithManagerFactory σ now ts owner cfg (Some c) users fac k with
  | (Ok g, k') => wg_state g = lifecycleRunning ∧
      ∃ mgr, wg_manager g = Some mgr ∧ iFaceName mgr = InterfaceName c ∧ adds_at_most (Some (iFaceName mgr)) k k'
  | (Err _, k') => adds_at_most None k k'
  end.
Proof.
  intros Ht Hfac Htick. rewrite new_eq. pose proof (version_dev k) as Hv.
  destruct (getWireGuardVersion k) as [v k1]. pose proof (λ name, same_dev_adds name _ _ Hv) as Ha. cbn [snd] in Ha. clear Hv.
  destruct (GetPrivateKey c).1 as [pk|e0]; [|done]. cbn zeta.
  destruct (collectDesiredPeers _ _) as [D|e0]; [|done].
  pose proof (buildSyncDiff_conf (λ i, σ (10 + i)) ∅ D (GetPrivateKey c).2) as Hc2.
  destruct (buildSyncDiff _ _ _ _) as [[d|e0] c2]; [|done]. cbn [snd] in Hc2.
  assert (InterfaceName (GetPreSharedKey c2).2 = InterfaceName c) as Hname.
  { apply conf_name. eapply conf_trans; [apply GetPrivateKey_conf|]. eapply conf_trans; [exact Hc2|apply GetPreSharedKey_conf]. }
  unfold create. destruct (full_configs _ _ _) as [cs applied]. rewrite Hname.
  destruct (Hfac (InterfaceName c) k1) as [Hfd Hfn]. destruct (fac (InterfaceName c) k1) as [[m|e1] k2]; cbn [snd] in Hfd.
  2: { etrans; [exact (Ha None)|by apply same_dev_adds]. }
  pose proof (Initialize_adds Ht m pk (ListenPort (GetPreSharedKey c2).2) (Address (GetPreSharedKey c2).2) cs k2) as Hi.
  assert (adds_at_most (Some (iFaceName m)) k (Manager_InitializeWithPeers m pk (ListenPort (GetPreSharedKey c2).2)
    (Address (GetPreSharedKey c2).2) cs k2).2) as Hall.
  { etrans; [exact (Ha (Some (iFaceName m)))|]. etrans; [by apply same_dev_adds|exact Hi]. }
  clear Hi. destruct (Manager_InitializeWithPeers _ _ _ _ _ k2) as [[[]|e1] k3]; cbn [snd] in Hall.
  - match goal with |- context [applyLinuxHostRouting owner ?c' ?n k3] =>
      pose proof (apply_routing_dev owner c' n k3) as Hr; destruct (applyLinuxHostRouting owner c' n k3) as [routing k4] end.
    destruct (initStatsTickers cfg) as [t|]; [|done].
    match goal with |- context [emitLogLocked _ _ ?msg ?g0] => destruct (emitLog_frame ts logSeverityInfo msg g0) as [l ->] end.
    split; [done|]. exists m. split_and!; [done|by eapply Hfn|]. etrans; [exact Hall|by apply same_dev_adds].
  - intros s _ Hs. destruct (decide (s = iFaceName m)) as [->|Hne].
    + rewrite (Close_reliable m k3 (tidy_reliable Ht)) in Hs. by apply is_Some_None in Hs.
    + apply (Hall s); [congruence|]. by eapply (Close_adds Ht m k3 s).
Qed.

Lemma New_adds σ now ts owner cfg c users k :
  tidy_kernel → is_ok (initStatsTickers cfg) = true →
  match WireGuard_New σ now ts owner cfg (Some c) users k with
  | (Ok g, k') => wg_state g = lifecycleRunning ∧
      ∃ mgr, wg_manager g = Some mgr ∧ iFaceName mgr = InterfaceName c ∧ adds_at_most (Some (iFaceName mgr)) k k'
  | (Err _, k') => adds_at_most None k k'
  end.
Proof. intros Ht. exact (new_adds σ now ts owner cfg c users _ k Ht (New_factory_plain c)). Qed.

(** A shutdown adds no interface and takes the backend's own. *)
Lemma Shutdown_links ts (s : W) : tidy_kernel →
  adds_at_most None s.2 (WireGuard_Shutdown ts s).2 ∧
  (wg_shutdownDone s.1 = false → ∀ mgr, wg_manager s.1 = Some mgr → dev (WireGuard_Shutdown ts s).2 (iFaceName mgr) = None).
Proof.
  intros Ht. unfold WireGuard_Shutdown. destruct (wg_shutdownDone s.1); [done|].
  destruct s as [g k]. unfold shutdownLocked, close_manager. cbn [fst snd].
  set (k0 := match wg_hostRouting g with Some h => undo_host_routing h k | None => k end).
  assert (dev k0 = dev k) as Hk0 by (unfold k0; destruct (wg_hostRouting g); [apply undo_routing_dev|done]).
  destruct (wg_manager g) as [m|]; [|split; [by apply same_dev_adds|done]].
  pose proof (Close_adds Ht m k0) as Hc. pose proof (Close_reliable m k0 (tidy_reliable Ht)) as Hn.
  destruct (Manager_Close (m, k0)) as [r [m' k1]]. cbn [snd] in *. split.
  - etrans; [by apply same_dev_adds|exact Hc].
  - intros _ mgr [= <-]. exact Hn.
Qed.
End Backend.
