(* ===== verification/WgReads.v ===== *)
(** * What the WireGuard backend's queries leave alone

    Statistics, latency and the ticks of the statistics loop touch the meters,
    the log channel and the device's counters; [reads] says what they keep.  The
    invariants of WgRun, NodeLaws and EndToEnd all rest on it. *)

From S2P Require Import Prelude Messages Tracker Meter GoString GoNet Json NodeConfig WgTypes PeerStore WgConfig WgUsers WgManager HostRouting WireGuard WgBackend.

Section Reads.
Context `{Host} `{JsonText} `{AwgLib} {UUID : Type}.
Notation W := (@W _ _ UUID).

Definition reads (s s' : W) : Prop :=
  wg_state s'.1 = wg_state s.1 ∧ wg_shutdownDone s'.1 = wg_shutdownDone s.1 ∧ wg_manager s'.1 = wg_manager s.1 ∧
  wg_peerStore s'.1 = wg_peerStore s.1 ∧ wg_config s'.1 = wg_config s.1 ∧ dev s'.2 = dev s.2.

#[export] Instance reads_preorder : PreOrder reads.
Proof.
  split; [by intros s|].
  intros s1 s2 s3 (?&?&?&?&?&?) (?&?&?&?&?&?). split_and!; congruence.
Qed.

Notation reading op := (preserves (S:=W) reads op).

(** ** The building blocks *)

Lemma read_bind {A B} (op : eff W A) (f : A → eff W B) : reading op → (∀ a, reading (f a)) → reading (op ≫= f).
Proof. apply preserves_bind. apply _. Qed.

Lemma read_pure {A} (r : result A) : reading (lift r).
Proof. by intros s. Qed.

Lemma read_config {A} (f : Config → result A) : reading (with_config (λ c, (f c, c))).
Proof.
  intros [w k]. unfold with_config. cbn [fst]. destruct (wg_config w) as [c|] eqn:Hc; [|done].
  cbn [fst snd]. by rewrite (set_config_same w c Hc).
Qed.

Lemma read_host {A} (m : eff K A) : preserves same_dev m → reading (host m).
Proof. intros Hm [w k]. rewrite host_eq. by split_and!; try apply (Hm k). Qed.

Lemma read_running {A} (op : eff W A) : reading op → reading (when_running op).
Proof. intros Hop s. unfold when_running. case_bool_decide; [apply Hop|done]. Qed.

(** ** Queries *)

Lemma counters_reads : reading getInterfaceCounters.
Proof.
  unfold getInterfaceCounters. apply read_bind; [by intros s|intros s].
  destruct (wg_manager s.1); [|by intros t]. apply read_host, GetInterfaceStats_dev.
Qed.

Lemma outbound_reads name reset : reading (handleInterfaceOutboundStats name reset).
Proof.
  unfold handleInterfaceOutboundStats. apply read_bind.
  { case_bool_decide; [apply (read_config (λ c, Ok (InterfaceName c)))|by intros s]. }
  intros name'. apply read_bind; [apply counters_reads|]. intros rxtx s. unfold report_counters.
  by destruct (ICT_Delta _ _ _ _) as [[? ?] ?].
Qed.

Lemma GetStats_reads ρ request : reading (WireGuard_GetStats ρ request).
Proof.
  apply read_running. destruct (StatRequest_Type request); try by intros s; try apply outbound_reads.
  - intros s. unfold handleUsersStats. by destruct (Tracker_GetUsersStats ρ _ _).
  - intros s. unfold handleUserStats. destruct (user_keys _ _); [done|]. by destruct (Tracker_GetStats _ _ _).
Qed.

Lemma GetSysStats_reads now mem : reading (WireGuard_GetSysStats now mem).
Proof.
  unfold WireGuard_GetSysStats. apply read_bind; [by intros s|intros s].
  destruct (lifecycleReadinessError _); [by intros t|]. destruct (wg_manager s.1); [|by intros t].
  apply read_bind; [apply preserves_map_err, read_host, GetInterfaceStats_dev|]. by intros x t.
Qed.

Lemma GetUserOnlineStats_reads now email : reading (WireGuard_GetUserOnlineStats now email).
Proof.
  apply read_running. intros s. destruct (user_keys _ _); [done|]. by destruct (Tracker_AnyActiveSince _ _ _).
Qed.

Lemma GetUserOnlineIpListStats_reads email : reading (WireGuard_GetUserOnlineIpListStats email).
Proof. apply read_running. intros s. by destruct (user_keys _ _). Qed.

Lemma latency_reads probe now name : reading (WireGuard_GetOutboundsLatency probe now name).
Proof.
  intros s. unfold WireGuard_GetOutboundsLatency. destruct (match wg_config s.1 ≫= _ with Some _ => _ | None => _ end).
  destruct (negb _); [done|]. destruct (bool_decide _ && _); [done|]. by destruct (probe _ _ _) as [[alive delay]|].
Qed.

(** ** The statistics loop *)

Lemma read_samples_reads ρ now ts s : reads s (read_samples (UUID:=UUID) ρ now ts s).2.
Proof.
  unfold read_samples. destruct (wg_cancelled s.1); [done|]. destruct (wg_manager s.1) as [mgr|]; [|done].
  destruct (wg_config s.1) eqn:Hc; [|done]. pose proof (GetDevice_dev mgr s.2) as Hk.
  destruct (Manager_GetDevice mgr s.2) as [[peers|e] k]; cbn [snd] in Hk; [by split_and!|].
  unfold logStatsDeviceReadError. destruct (_ && _); [by split_and!|].
  by destruct (emitLog_frame ts logSeverityWarning ("wireguard stats update skipped: failed to read device: " +:+ err_text e)
    (set_lastErr now s.1)) as [l ->].
Qed.

Lemma tick_reads ρ now ts t s : reads s (stats_loop_step ρ now ts t s).
Proof.
  unfold stats_loop_step. destruct (wg_cancelled s.1); [done|]. destruct t.
  - unfold updateConnectedPeers. pose proof (read_samples_reads ρ now ts s) as Hs.
    by destruct (read_samples ρ now ts s) as [[samples|] s'].
  - unfold cleanupOfflineUsers. by destruct (wg_cancelled s.1).
Qed.

(** ** The invariant *)

Lemma reads_inv s s' : reads s s' → wg_inv s → wg_inv s'.
Proof.
  intros (_ & _ & Hm & Hps & Hc & Hd) (Hok & Hcf & Hka). split_and!; [by rewrite Hps|by rewrite Hc|].
  intros m. rewrite Hm, Hps, Hd. apply Hka.
Qed.
End Reads.
