(* ===== verification/WgRun.v ===== *)
(** * Whole runs of the WireGuard backend

    The backend as a transition system: [reach] are the states after creation
    and any sequence of operations, failed ones included.  Under the stated
    assumptions on requests and on the kernel, the store and the kernel agree
    in all of them. *)

From S2P Require Import Prelude Messages Tracker Meter GoString GoNet Json NodeConfig WgTypes WgToy PeerStore WgConfig WgUsers WgPlan WgReconcile WgAgree WgManager HostRouting WireGuard WgScenario WgSync WgBackend WgReads.

Section Runs.
Context `{Host} `{JsonText} `{AwgLib} {UUID : Type}.
Notation WireGuard := (@WireGuard _ UUID).
Notation W := (@W _ _ UUID).
Implicit Types (w : WireGuard) (k : K) (c : Config) (users : list (option User)).
Implicit Types (cfg : @NodeConfig.NodeConfig UUID) (s : W).

(** A failed configuration call leaves the devices as they were. *)
Definition atomic_kernel : Prop :=
  ∀ name dc k e k', client_ConfigureDevice name dc k = (Err e, k') → dev k' = dev k.

(** ** Operations *)

Inductive wg_op :=
  | OpSyncUser (user : option User)
  | OpSyncUsers (users : list (option User))
  | OpUpdateUsers (users : list (option User))
  | OpUpdateUsersAndRestart (users : list (option User))
  | OpRestart
  | OpShutdown
  | OpGetStats (request : StatRequest)
  | OpTick (t : ticker).

(** The state after an operation, whether it failed or not. *)
Definition run_wg_op (σ : nat → map_range) (now : Z) (ts : string) (op : wg_op) (s : W) : W :=
  match op with
  | OpSyncUser user => (WireGuard_SyncUser σ user s).2
  | OpSyncUsers users => (WireGuard_SyncUsers σ users s).2
  | OpUpdateUsers users => (WireGuard_UpdateUsers σ users s).2
  | OpUpdateUsersAndRestart users => (WireGuard_UpdateUsersAndRestart σ ts users s).2
  | OpRestart => (WireGuard_Restart σ ts s).2
  | OpShutdown => WireGuard_Shutdown ts s
  | OpGetStats request => (WireGuard_GetStats (σ 0) request s).2
  | OpTick t => stats_loop_step (σ 0) now ts t s
  end.

(** What is asked of a request: standard key texts and, for a partial update,
    networks that no other user has. *)
Definition partial_request_ok (users : list (option User)) (s : W) : Prop :=
  canonical_keys users ∧
  ∀ c, wg_config s.1 = Some c → ips_free c users (roster (wg_peerStore s.1)).

Definition request_ok (op : wg_op) (s : W) : Prop :=
  match op with
  | OpSyncUser user => partial_request_ok [user] s
  | OpUpdateUsers users | OpUpdateUsersAndRestart users => partial_request_ok users s
  | OpSyncUsers users => canonical_keys users
  | _ => True
  end.

Inductive reach : W → Prop :=
  | reach_new σ now ts owner cfg c users k w k' :
      canonical_keys users →
      WireGuard_New σ now ts owner cfg (Some c) users k = (Ok w, k') →
      reach (w, k')
  | reach_op σ now ts op s :
      reach s → request_ok op s → reach (run_wg_op σ now ts op s).

(** ** The invariant is kept *)

Lemma inv_core w w' k k' :
  same_core w w' → dev k' = dev k → wg_inv (w, k) → wg_inv (w', k').
Proof.
  intros (Hps & _ & Hm & _ & _ & _ & Hc) Hdev (Hok & [c Hcw] & Hka). split_and!; simpl in *.
  - by rewrite Hps.
  - destruct (Hc c Hcw) as (c2 & -> & _). eauto.
  - intros m. rewrite Hm, Hps, Hdev. apply Hka.
Qed.

Lemma inv_quiet w w' k k' :
  quiet w w' → dev k' = dev k → wg_inv (w, k) → wg_inv (w', k').
Proof.
  intros [->|(c & c' & Hc & Hce & ->)]; (apply inv_core; [apply same_core_refl|done..]) ||
    (apply inv_core; by eapply same_core_config).
Qed.

Lemma moved_config w w' : moved w w' → is_Some (wg_config w').
Proof. intros (c & c' & _ & _ & ->). eauto. Qed.

Lemma ApplyPeers_atomic m cs k e k' :
  atomic_kernel → Manager_ApplyPeers m cs k = (Err e, k') → dev k' = dev k.
Proof.
  intros Hat. unfold Manager_ApplyPeers. destruct cs; [done|].
  destruct (m_client m); simpl; [by apply Hat|]. by intros [= _ <-].
Qed.

Lemma ApplyReplace_atomic m cs k e k' :
  atomic_kernel → Manager_ApplyPeersReplaceAll m cs k = (Err e, k') → dev k' = dev k.
Proof.
  intros Hat. unfold Manager_ApplyPeersReplaceAll.
  destruct (m_client m); simpl; [by apply Hat|]. by intros [= _ <-].
Qed.

Lemma ApplyConfig_atomic m dc k e k' :
  atomic_kernel → Manager_ApplyConfig m dc k = (Err e, k') → dev k' = dev k.
Proof.
  intros Hat. unfold Manager_ApplyConfig.
  destruct (m_client m); simpl; [by apply Hat|]. by intros [= _ <-].
Qed.

Lemma full_inv σ users s :
  atomic_kernel → canonical_keys users → wg_inv s → wg_inv (syncUsersFull σ users s).2.
Proof.
  intros Hat Hcan Hinv. destruct s as [w k]. pose proof Hinv as (Hok & [c Hc] & Hka). simpl in *.
  destruct (syncUsersFull σ users (w, k)) as [r [w' k']] eqn:Hrun.
  pose proof (full_run _ _ _ _ _ _ _ _ Hc Hok Hcan Hrun) as Hr. destruct r as [[]|e].
  - destruct Hr as (Hmv & Hok' & _ & Hka'). split_and!; [done|by eapply moved_config|by apply Hka'].
  - destruct Hr as [Hq [->|(m & cs & e' & Ha)]]; apply (inv_quiet w w' k); eauto using ApplyReplace_atomic.
Qed.

Lemma partial_inv σ users s :
  atomic_kernel → partial_request_ok users s → wg_inv s →
  wg_inv (syncUsersPartialReconcile σ users s).2.
Proof.
  intros Hat [Hcan Hfree] Hinv. destruct s as [w k]. pose proof Hinv as (Hok & [c Hc] & Hka). simpl in *.
  destruct (syncUsersPartialReconcile σ users (w, k)) as [r [w' k']] eqn:Hrun.
  pose proof (partial_run _ _ _ _ _ _ _ _ Hc Hok Hcan Hrun) as Hr. destruct r as [[]|e].
  - destruct Hr as (Hmv & Hok' & _ & Hka').
    split_and!; [done|by eapply moved_config|]. apply Hka'; [done|by apply Hfree].
  - destruct Hr as [Hq [->|(m & cs & e' & Ha)]]; apply (inv_quiet w w' k); eauto using ApplyPeers_atomic.
Qed.

Lemma restart_inv σ ts s : atomic_kernel → wg_inv s → wg_inv (restartLocked σ ts s).2.
Proof.
  intros Hat Hinv. destruct s as [w k]. pose proof Hinv as (Hok & Hc & Hka). simpl in *.
  destruct (restartLocked σ ts (w, k)) as [r [w' k']] eqn:Hrun.
  pose proof (restart_run _ _ _ _ _ _ _ Hok Hrun) as [Hs Hr]. destruct r as [[]|e].
  - pose proof Hs as (Hps & _ & Hm & _ & _ & _ & Hcc). split_and!; simpl.
    + by rewrite Hps.
    + destruct Hc as [c Hc]. destruct (Hcc c Hc) as (c2 & -> & _). eauto.
    + intros m Hm'. rewrite Hps. rewrite Hm in Hm'. destruct (Hka m Hm') as (d & _ & Hag).
      destruct Hr as (m2 & d2 & _ & Hm2 & Hd2 & Hre). simplify_eq.
      exists d2. split; [done|]. apply rebuilt_agree; [done|by eapply agree_is_exclusive].
  - destruct Hr as [->|(m & dc & e' & Ha)]; apply (inv_core w w' k); eauto using ApplyConfig_atomic.
Qed.

Lemma shutdown_inv ts s : wg_inv s → wg_inv (WireGuard_Shutdown ts s).
Proof.
  intros Hinv. unfold WireGuard_Shutdown. destruct (wg_shutdownDone s.1); [done|].
  destruct Hinv as (Hok & Hc & _). destruct s as [w k]. unfold shutdownLocked.
  set (k1 := match wg_hostRouting w with Some h => undo_host_routing h k | None => k end).
  assert (Hcm : same_core w (close_manager ts (w, k1)).1).
  { unfold close_manager. cbn [fst snd]. destruct (wg_manager w) as [m|]; [|apply same_core_refl].
    destruct (Manager_Close (m, k1)) as [[|e] [m' k2]]; [apply same_core_refl|apply same_core_emit]. }
  destruct (close_manager ts (w, k1)) as [w1 k2]. cbn [fst] in Hcm.
  match goal with |- context [emitLogLocked _ _ ?msg ?w0] =>
    destruct (emitLog_frame ts logSeverityInfo msg w0) as [l ->] end.
  destruct Hcm as (Hps & _ & _ & _ & _ & _ & Hcc). split_and!; simpl in *.
  - by rewrite Hps.
  - destruct Hc as [c Hc]. destruct (Hcc c Hc) as (c2 & -> & _). eauto.
  - intros m Hm. done.
Qed.

Lemma bind_inv {A B} (m : eff W A) (f : A → eff W B) s :
  wg_inv (m s).2 → (∀ a s1, wg_inv s1 → wg_inv (f a s1).2) → wg_inv ((m ≫= f) s).2.
Proof. intros Hm Hf. unfold mbind, eff_bind. destruct (m s) as [[a|e] s1]; [by apply Hf|done]. Qed.

Lemma op_inv σ now ts op s :
  atomic_kernel → request_ok op s → wg_inv s → wg_inv (run_wg_op σ now ts op s).
Proof.
  intros Hat Hreq Hinv. destruct op as [[u|]|users|users|users| | |request|t]; simpl in *.
  - by apply partial_inv.
  - done.
  - by apply full_inv.
  - by apply partial_inv.
  - apply bind_inv; [by apply partial_inv|]. intros _ s1 Hs1. by apply restart_inv.
  - by apply restart_inv.
  - by apply shutdown_inv.
  - eapply reads_inv; [apply GetStats_reads|done].
  - eapply reads_inv; [apply tick_reads|done].
Qed.

Lemma reach_inv s : atomic_kernel → reach s → wg_inv s.
Proof.
  intros Hat. induction 1 as [σ now ts owner cfg c users k w k' Hcan Hnew|σ now ts op s _ IH Hreq].
  - unfold WireGuard_New in Hnew. apply new_Ok in Hnew as (Hok & Hro & Hka & _ & _ & _ & c2 & Hc & _); [|done].
    split_and!; [done|by exists c2|done].
  - by apply op_inv.
Qed.

(** ** Failures leave the roster alone *)

Lemma full_Err σ users s e s' :
  syncUsersFull σ users s = (Err e, s') → quiet s.1 s'.1.
Proof.
  destruct s as [w k]. destruct (wg_config w) as [c|] eqn:Hc.
  2: { unfold syncUsersFull, get, with_config. unfold mbind, eff_bind. cbn [fst snd]. rewrite Hc.
       intros [= _ <-]. by left. }
  rewrite (syncUsersFull_eq _ _ _ _ _ Hc).
  destruct (collectDesiredPeers c _) as [D|e0]; [|intros [= _ <-]; by left].
  unfold buildSyncDiff. destruct (buildRemoveConfigsForPeers _ _) as [rk rc].
  destruct (negb _); [done|]. intros [Hw _]%full_commit_Err. rewrite Hw. simpl. right.
  eexists c, _. split_and!; [done| |done]. eapply conf_trans; apply GetPreSharedKey_conf.
Qed.

Lemma partial_Err σ users s e s' :
  syncUsersPartialReconcile σ users s = (Err e, s') → quiet s.1 s'.1.
Proof.
  destruct s as [w k]. destruct (wg_config w) as [c|] eqn:Hc.
  2: { unfold syncUsersPartialReconcile, get, with_config. unfold mbind, eff_bind. cbn [fst snd].
       rewrite Hc. intros [= _ <-]. by left. }
  rewrite (syncUsersPartial_eq _ _ _ _ _ Hc). cbn zeta.
  destruct (collectDesiredPeers c _) as [D|e0]; [|intros [= _ <-]; by left].
  destruct (check_owners _ _ _) as [u|e0]; [|intros [= _ <-]; by left].
  unfold buildSyncDiff. destruct (buildRemoveConfigsForPeers _ _) as [rk rc].
  destruct (partial_kernel _ _) as [[u'|e0] s1] eqn:Hpk; [done|]. intros [= _ <-].
  apply partial_kernel_Err in Hpk as [-> _]. right.
  eexists c, _. split_and!; [done|apply GetPreSharedKey_conf|done].
Qed.

Lemma quiet_core w w' : quiet w w' → same_core w w'.
Proof. intros [->|(c & c' & Hc & He & ->)]; [apply same_core_refl|by eapply same_core_config]. Qed.

(** ** A backend that does not run leaves the host alone *)

Definition idle s s' : Prop := s'.2 = s.2 ∧ wg_state s'.1 = wg_state s.1.

Lemma not_running w k :
  wg_state w ≠ lifecycleRunning →
  ensureRunningWithManagerLocked (w, k) = (Err errWireGuardNotStarted, (w, k)).
Proof. intros Hst. unfold ensureRunningWithManagerLocked. simpl. by destruct (wg_state w). Qed.

Lemma full_idle σ users s :
  wg_state s.1 ≠ lifecycleRunning → idle s (syncUsersFull σ users s).2.
Proof.
  intros Hst. destruct s as [w k]. simpl in Hst. destruct (wg_config w) as [c|] eqn:Hc.
  2: { unfold syncUsersFull, get, with_config. unfold mbind, eff_bind. cbn [fst snd]. by rewrite Hc. }
  rewrite (syncUsersFull_eq _ _ _ _ _ Hc).
  destruct (collectDesiredPeers c _) as [D|e0]; [|done].
  destruct (buildSyncDiff _ _ D c) as [[d|e1] c1]; [|done]. destruct (negb _); [done|].
  unfold full_commit. destruct (full_configs _ _ _) as [cs applied].
  unfold mbind, eff_bind. by rewrite not_running.
Qed.

Lemma partial_idle σ users s :
  wg_state s.1 ≠ lifecycleRunning → idle s (syncUsersPartialReconcile σ users s).2.
Proof.
  intros Hst. destruct s as [w k]. simpl in Hst. destruct (wg_config w) as [c|] eqn:Hc.
  2: { unfold syncUsersPartialReconcile, get, with_config. unfold mbind, eff_bind. cbn [fst snd].
       by rewrite Hc. }
  rewrite (syncUsersPartial_eq _ _ _ _ _ Hc). cbn zeta.
  destruct (collectDesiredPeers c _) as [D|e0]; [|done].
  destruct (check_owners _ _ _) as [u|e0]; [|done].
  destruct (buildSyncDiff _ _ D c) as [[d|e1] c1]; [|done].
  unfold partial_kernel. case_bool_decide.
  - unfold idle. cbn [mret eff_ret fst snd]. unfold partial_store.
    by destruct (PeerStore_ApplyChanges _ _ _).
  - unfold mbind, eff_bind. by rewrite not_running.
Qed.

Lemma restart_idle σ ts s :
  wg_state s.1 ≠ lifecycleRunning →
  (∃ e, (restartLocked σ ts s).1 = Err e) ∧ idle s (restartLocked σ ts s).2.
Proof.
  intros Hst. destruct (restartLocked σ ts s) as [r s'] eqn:Hrun. destruct s as [w k].
  simpl in Hst. revert Hrun. unfold restartLocked, get. unfold mbind at 1, eff_bind at 1. cbn [fst].
  destruct (wg_config w) as [c|] eqn:Hc; [|intros [= <- <-]; split; [by eexists|by split]].
  unfold mbind at 1, eff_bind at 1, map_err at 1.
  destruct (with_config GetPrivateKey (w, k)) as [r1 [w1 k1]] eqn:Hr1.
  apply (with_config_core _ _ _ _ _ GetPrivateKey_conf) in Hr1 as [Hs1 Hk1]. simpl in Hs1, Hk1. subst k1.
  assert (Hst1 : wg_state w1 = wg_state w) by apply Hs1.
  destruct r1 as [privateKey|e1]; [|intros [= <- <-]; split; [by eexists|by split]].
  unfold mbind at 1, eff_bind at 1.
  destruct (with_config read_psk (w1, k)) as [r2 [w2 k2]] eqn:Hr2.
  apply (with_config_core _ _ _ _ _ read_psk_conf) in Hr2 as [Hs2 Hk2]. simpl in Hs2, Hk2. subst k2.
  assert (Hst2 : wg_state w2 = wg_state w) by (rewrite <- Hst1; apply Hs2).
  destruct r2 as [psk|e2]; [|intros [= <- <-]; split; [by eexists|by split]].
  unfold mbind at 1, eff_bind at 1, map_err at 1, lift.
  destruct (buildPeerConfigsForRestart _ psk) as [cs|e3]; [|intros [= <- <-]; split; [by eexists|by split]].
  unfold mbind at 1, eff_bind at 1. rewrite not_running by congruence. intros [= <- <-]. split; [by eexists|by split].
Qed.

Lemma Shutdown_state ts s :
  wg_shutdownDone s.1 = false →
  let s' := WireGuard_Shutdown ts s in
  wg_state s'.1 = lifecycleStopped ∧ wg_manager s'.1 = None ∧ wg_logChan s'.1 = None ∧
  wg_cancelled s'.1 = true ∧ wg_shutdownDone s'.1 = true.
Proof.
  intros Hsd. unfold WireGuard_Shutdown. rewrite Hsd. destruct s as [w k]. unfold shutdownLocked.
  destruct (close_manager ts _) as [w1 k2].
  match goal with |- context [emitLogLocked _ _ ?msg ?w0] =>
    destruct (emitLog_frame ts logSeverityInfo msg w0) as [l ->] end. done.
Qed.

Lemma Shutdown_dev ts w k m :
  reliable_links → wg_shutdownDone w = false → wg_manager w = Some m →
  dev (WireGuard_Shutdown ts (w, k)).2 (iFaceName m) = None.
Proof.
  intros Hrel Hsd Hm. unfold WireGuard_Shutdown. cbn [fst]. rewrite Hsd. unfold shutdownLocked.
  set (k1 := match wg_hostRouting w with Some h => undo_host_routing h k | None => k end).
  assert (Hcl : dev (close_manager ts (w, k1)).2 (iFaceName m) = None).
  { unfold close_manager. cbn [fst snd]. rewrite Hm. pose proof (Close_reliable m k1 Hrel) as Hd.
    destruct (Manager_Close (m, k1)) as [r [m' k2]]. exact Hd. }
  destruct (close_manager ts (w, k1)) as [w1 k2]. exact Hcl.
Qed.
End Runs.

(** ** What a full synchronisation drops *)

Section Dropped.
Context `{Host} `{JsonText} `{AwgLib} {UUID : Type}.
Notation W := (@W _ _ UUID).

Lemma full_gone (σ : nat → map_range) users (s s' : W) c :
  wg_config s.1 = Some c → store_ok (wg_peerStore s.1) → canonical_keys users →
  syncUsersFull σ users s = (Ok (), s') →
  ∃ gone, wg_statsTracker s'.1 = remove_stats gone (wg_statsTracker s.1) ∧
    ∀ key, is_Some (ps_peers (wg_peerStore s.1) !! key) →
      ps_peers (wg_peerStore s'.1) !! key = None → key ∈ gone.
Proof.
  destruct s as [w k]. cbn [fst snd]. intros Hc Hok Hcan. rewrite (syncUsersFull_eq _ _ _ _ _ Hc).
  destruct (collectDesiredPeers c _) as [D|e] eqn:Hcol; [|done].
  pose proof (collect_plan _ _ _ _ Hcan Hcol) as HT.
  destruct (buildSyncDiff_spec (λ i, σ (10 + i))
    (buildExistingPeersByKeySnapshot (σ 1) (wg_peerStore w)) D c) as (d & -> & Hd).
  { intros key p Hp%existing_snapshot; [by destruct Hp|done]. }
  { by eapply plan_keyed. }
  { intros key t. by eapply plan_nets. }
  pose proof (GetPreSharedKey_conf c) as Hcc. set (c1 := (GetPreSharedKey c).2) in *.
  assert (HT1 : plan_ok c1 users (target_of <$> D)).
  { destruct HT as [HTa HTb]. split; intros *; rewrite ?(desired_conf c c1) by done; eauto. }
  rewrite (diff_target _ _ _ _ Hd). destruct (negb (SD_Changed d)).
  { intros [= <-]. exists []. split; [done|]. simpl. intros key [p Hp]. by rewrite Hp. }
  destruct s' as [w' k']. intros Hrun.
  destruct (full_commit_Ok _ _ users _ _ _ _ _ HT1 Hrun)
    as (m & _ & _ & _ & Hok' & Hro & _ & gone & Htr & Hgone).
  exists gone. split; [done|]. intros key Hs Hn. apply Hgone. split; [done|].
  intros e p Hp Hk. rewrite <- Hro in Hp. apply roster_peers in Hp as [Hp _]; [|done].
  simpl in Hn. rewrite Hk in Hp. congruence.
Qed.
End Dropped.

(** ** Properties *)

Section Properties.
Context `{Host} `{JsonText} `{AwgLib} {UUID : Type}.
Notation W := (@W _ _ UUID).
Implicit Types s : W.

(** C2: in every state the backend can reach, by any sequence of operations
    with any failures, the peer store is well formed and, while there is an
    interface, the kernel has exactly the store's peers and routes exactly
    their networks to them; provided requests use standard key texts, partial
    requests ask for networks nobody else has, and a failed kernel call
    changes nothing. *)
Theorem store_and_kernel_agree s (Hat : atomic_kernel) (Hreach : reach s) :
  store_ok (wg_peerStore s.1) ∧
  ∀ m, wg_manager s.1 = Some m →
    ∃ d, dev s.2 (iFaceName m) = Some d ∧ agree d (roster (wg_peerStore s.1)).
Proof. destruct (reach_inv s Hat Hreach) as (? & _ & ?). done. Qed.

(** C3: a full synchronisation that succeeds leaves exactly the peers the
    request asks for, by user, in the store, and the kernel agrees with it if
    it did before; provided the request spells its keys in standard base64
    ([canonical_keys]: the code takes two spellings of one key for two keys, and
    [respelled_key_loses_peer] in WgFindings shows the peer lost).  The store is
    well formed before, as in every reachable state. *)
Theorem sync_users_exact (σ : nat → map_range) (users : list (option User)) s s' (c : Config)
    (Hok : store_ok (wg_peerStore s.1)) (Hc : wg_config s.1 = Some c) (Hcan : canonical_keys users)
    (Hrun : WireGuard_SyncUsers σ users s = (Ok (), s')) :
  (∀ e, PeerStore_GetByEmail (wg_peerStore s'.1) e ≡ desired_roster c users !! e) ∧
  store_ok (wg_peerStore s'.1) ∧
  (kernel_agrees s.1 s.2 → kernel_agrees s'.1 s'.2).
Proof.
  destruct s as [w k], s' as [w' k'].
  destruct (full_run σ users w k _ w' k' c Hc Hok Hcan Hrun) as (_ & Hok' & Hro & Hka).
  split_and!; [|done|done]. intros e. rewrite GetByEmail_roster. apply Hro.
Qed.


(** C5: a request that fails, whatever the reason (a clash, a key in use, a
    stopped backend, the kernel), changes neither the store nor the
    statistics, nor the backend's state. *)
Theorem failed_request_changes_nothing (σ : nat → map_range) (users : list (option User))
    (user : option User) s s' (e : goerr)
    (Hrun : WireGuard_SyncUsers σ users s = (Err e, s') ∨ WireGuard_UpdateUsers σ users s = (Err e, s') ∨
            WireGuard_SyncUser σ user s = (Err e, s')) :
  wg_peerStore s'.1 = wg_peerStore s.1 ∧ wg_statsTracker s'.1 = wg_statsTracker s.1 ∧
  wg_manager s'.1 = wg_manager s.1 ∧ wg_state s'.1 = wg_state s.1.
Proof.
  assert (quiet s.1 s'.1) as Hq.
  { destruct Hrun as [Hf|[Hp|Hu]]; [by eapply full_Err|by eapply partial_Err|].
    destruct user; [by eapply partial_Err|]. apply throw_eq in Hu as [_ ->]. by left. }
  apply quiet_core in Hq as (? & ? & ? & ? & _). done.
Qed.

(** C6: a restart that succeeds rebuilds the kernel's peers from the store,
    whatever the kernel had drifted to: it has exactly the stored peers, each of
    their networks is routed to one of the peers it is stored for, and no other
    network is routed; so when no network is stored for two peers (as
    [exclusive] says; WgFindings shows a partial update that makes it so) the
    kernel agrees with the store.  The store, well formed as in every reachable
    state, and the statistics are not touched. *)
Theorem restart_rebuilds_kernel (σ : nat → map_range) (ts : string) s s'
    (Hok : store_ok (wg_peerStore s.1)) (Hrun : WireGuard_Restart σ ts s = (Ok (), s')) :
  wg_peerStore s'.1 = wg_peerStore s.1 ∧ wg_statsTracker s'.1 = wg_statsTracker s.1 ∧
  ∃ m d, wg_manager s'.1 = Some m ∧ dev s'.2 (iFaceName m) = Some d ∧
    rebuilt d (roster (wg_peerStore s'.1)) ∧
    (exclusive (roster (wg_peerStore s'.1)) → agree d (roster (wg_peerStore s'.1))).
Proof.
  destruct s as [w k], s' as [w' k']. apply restart_run in Hrun as [Hs Hr]; [|done].
  destruct Hs as (Hps & Ht & Hm & _). split_and!; [done|done|]. simpl. rewrite Hps, Hm.
  destruct Hr as (m & d & _ & ? & ? & ?). exists m, d. split_and!; [done..|by apply rebuilt_agree].
Qed.

(** C7: creating a backend either succeeds with the requested peers in a
    running store and kernel, or fails leaving no interface of that name or
    the host's interfaces as they were; provided links can be looked up and
    deleted, the statistics intervals are positive, and the request spells its
    keys in standard base64 ([canonical_keys]; [respelled_key_loses_peer] in
    WgFindings shows two spellings of one key taken for two). *)
Theorem creation_all_or_nothing (σ : nat → map_range) (now : Z) (ts owner : string)
    (cfg : @NodeConfig UUID) (c : Config) (users : list (option User)) (k k' : K)
    (r : result WireGuard) (Hrel : reliable_links) (Htick : is_ok (initStatsTickers cfg) = true)
    (Hcan : canonical_keys users) (Hrun : WireGuard_New σ now ts owner cfg (Some c) users k = (r, k')) :
  match r with
  | Ok w => WireGuard_Started w = true ∧ wg_inv (w, k') ∧
      ∀ e, PeerStore_GetByEmail (wg_peerStore w) e = desired_roster c users !! e
  | Err _ => dev k' (InterfaceName c) = None ∨ dev k' = dev k
  end.
Proof.
  destruct r as [w|e]; unfold WireGuard_New in Hrun.
  - apply new_Ok in Hrun as (Hok & Hro & Hka & Hst & _ & _ & c2 & Hc & _); [|done].
    split_and!; [unfold WireGuard_Started; by rewrite Hst| |intros e; by rewrite GetByEmail_roster, Hro].
    split_and!; [done|by exists c2|done].
  - apply new_Err in Hrun; [done|done|apply New_factory_plain|done].
Qed.


(** C21: a peer that a full synchronisation drops is offline, and its traffic is
    not lost.  After a synchronisation that succeeds, whose users' keys are written
    in the standard base64 form ([canonical_keys]): a key that the store held
    before it and does not hold after it has not been active since any cutoff from
    0 on, whatever was sampled of it; and a report without reset shows, for any
    keys and in the same order, what it would have shown before.  The store is
    well formed before, as in every reachable state. *)
Theorem dropped_peers_go_offline (σ : nat → map_range) (users : list (option User)) s s' (c : Config)
    (key : string) (cutoff : Z) (keys : list string)
    (Hok : store_ok (wg_peerStore s.1)) (Hc : wg_config s.1 = Some c) (Hcan : canonical_keys users)
    (Hrun : WireGuard_SyncUsers σ users s = (Ok (), s'))
    (Hold : is_Some (PeerStore_GetByKey (wg_peerStore s.1) key))
    (Hnew : PeerStore_GetByKey (wg_peerStore s'.1) key = None) (Hcut : (0 <= cutoff)%Z) :
  Tracker_AnyActiveSince (wg_statsTracker s'.1) [key] cutoff = false ∧
  (Tracker_GetStats (wg_statsTracker s'.1) keys false).1 = (Tracker_GetStats (wg_statsTracker s.1) keys false).1.
Proof.
  destruct (full_gone σ users s s' c Hc Hok Hcan Hrun) as (gone & -> & Hgone).
  rewrite GetByKey_eq in Hold, Hnew. specialize (Hgone key Hold Hnew). split.
  - by apply removed_inactive.
  - apply RemoveAll_peek.
Qed.
End Properties.

(** ** Witnesses *)

#[local] Existing Instances toy_keys toy_kernel toy_host toy_json toy_awg.

Definition users_ab : list (option User) :=
  [toy_user "a" "K1" ["10.0.0.2/32"]; toy_user "b" "K2" ["10.0.0.3/32"]].
Definition users_bc : list (option User) :=
  [toy_user "b" "K2" ["10.0.0.3/32"]; toy_user "c" "K3" ["10.0.0.4/32"]].

Definition toy_ab : @W _ _ unit := toy_start "" users_ab.

Ltac toy_canonical :=
  intros u k Hin Hk;
  repeat (apply elem_of_cons in Hin as [Hin|Hin];
    [injection Hin as ->; vm_compute in Hk; injection Hk as <-; reflexivity|]);
  by apply elem_of_nil in Hin.

Lemma canonical_ab : canonical_keys users_ab.
Proof. toy_canonical. Qed.
Lemma canonical_bc : canonical_keys users_bc.
Proof. toy_canonical. Qed.

Lemma toy_atomic : atomic_kernel.
Proof.
  intros name dc k e k' Hc. simpl in *. unfold toy_Configure, toy_op in Hc.
  destruct (slices_Contains _ _); [by simplify_eq|]. destruct (tk_links k !! name); by simplify_eq.
Qed.

Lemma toy_ab_reach : reach toy_ab.
Proof.
  apply (reach_new toy_σ 0 "t" "owner" (toy_cfg 10) (toy_config "") users_ab toy_host_state
    toy_ab.1 toy_ab.2 canonical_ab). vm_compute. reflexivity.
Qed.

Lemma toy_ab_ok : store_ok (wg_peerStore toy_ab.1).
Proof. exact (proj1 (reach_inv _ toy_atomic toy_ab_reach)). Qed.

Definition toy_bc : @W _ _ unit := (WireGuard_SyncUsers toy_σ users_bc toy_ab).2.

Lemma toy_bc_run : WireGuard_SyncUsers toy_σ users_bc toy_ab = (Ok (), toy_bc).
Proof. vm_compute. reflexivity. Qed.

Lemma store_and_kernel_agree_witness :
  atomic_kernel ∧ reach toy_bc ∧ store_ok (wg_peerStore toy_bc.1).
Proof.
  assert (Hr : reach toy_bc)
    by exact (reach_op toy_σ 0 "t" (OpSyncUsers users_bc) toy_ab toy_ab_reach canonical_bc).
  split; [exact toy_atomic|]. split; [exact Hr|].
  exact (proj1 (store_and_kernel_agree toy_bc toy_atomic Hr)).
Defined.

Definition toy_c : Config := default (toy_config "") (wg_config toy_ab.1).

Lemma toy_ab_config : wg_config toy_ab.1 = Some toy_c.
Proof. vm_compute. reflexivity. Qed.

Lemma sync_users_exact_witness :
  (store_ok (wg_peerStore toy_ab.1) ∧ canonical_keys users_bc ∧
   WireGuard_SyncUsers toy_σ users_bc toy_ab = (Ok (), toy_bc)) ∧
  PeerStore_GetByEmail (wg_peerStore toy_bc.1) "a" ≡ desired_roster toy_c users_bc !! "a".
Proof.
  split; [exact (conj toy_ab_ok (conj canonical_bc toy_bc_run))|].
  exact (proj1 (sync_users_exact toy_σ users_bc toy_ab toy_bc toy_c toy_ab_ok toy_ab_config
    canonical_bc toy_bc_run) "a").
Defined.

(** User a moves to another key and address; b is not mentioned. *)
Definition users_a2 : list (option User) := [toy_user "a" "K9" ["10.0.0.9/32"]].
Definition toy_a2 : @W _ _ unit := (WireGuard_UpdateUsers toy_σ users_a2 toy_ab).2.


(** Two users asking for one address. *)
Definition users_clash : list (option User) :=
  [toy_user "x" "K7" ["10.0.0.7/32"]; toy_user "y" "K8" ["10.0.0.7/32"]].

Lemma failed_request_changes_nothing_witness :
  let run := WireGuard_SyncUsers toy_σ users_clash toy_ab in
  (∃ e, run = (Err e, run.2)) ∧ wg_peerStore run.2.1 = wg_peerStore toy_ab.1.
Proof.
  intros run. assert (∃ e, run = (Err e, run.2)) as [e Hrun] by (eexists; vm_compute; reflexivity).
  split; [by exists e|].
  exact (proj1 (failed_request_changes_nothing toy_σ users_clash None toy_ab run.2 e (or_introl Hrun))).
Defined.

(** The kernel has lost its peers; a restart brings them back. *)
Definition toy_drift : @W _ _ unit :=
  (toy_ab.1, mkToy (<["wg0" := @no_peers toy_keys]> (tk_links toy_ab.2)) [] [] ∅).

Lemma restart_rebuilds_kernel_witness :
  let run := WireGuard_Restart toy_σ "t" toy_drift in
  (store_ok (wg_peerStore toy_drift.1) ∧ run = (Ok (), run.2)) ∧ toy_routes toy_drift = [] ∧
  ∃ m d, wg_manager run.2.1 = Some m ∧ dev run.2.2 (iFaceName m) = Some d ∧
    is_Some (dv_routes d !! "10.0.0.2/32").
Proof.
  intros run. assert (run = (Ok (), run.2)) as Hrun by (vm_compute; reflexivity).
  split; [exact (conj toy_ab_ok Hrun)|]. split; [vm_compute; reflexivity|].
  destruct (restart_rebuilds_kernel toy_σ "t" toy_drift run.2 toy_ab_ok Hrun) as (Hps & _ & m & d & Hm & Hd & [_ _ Hall] & _).
  exists m, d. split_and!; [exact Hm|exact Hd|].
  assert (∃ p, roster (wg_peerStore run.2.1) !! "a" = Some p ∧ "10.0.0.2/32" ∈ texts p) as (p & Hp & Hin).
  { rewrite Hps. eexists. split; [vm_compute; reflexivity|]. left. }
  exact (Hall "a" p "10.0.0.2/32" Hp Hin).
Defined.

Lemma creation_all_or_nothing_witness :
  (@reliable_links toy_keys toy_kernel ∧ is_ok (initStatsTickers (toy_cfg 10)) = true ∧
   canonical_keys users_ab) ∧
  wg_inv toy_ab.
Proof.
  assert (is_ok (initStatsTickers (toy_cfg 10)) = true) as Ht by (vm_compute; reflexivity).
  split; [exact (conj toy_reliable (conj Ht canonical_ab))|].
  assert (WireGuard_New toy_σ 0 "t" "owner" (toy_cfg 10) (Some (toy_config "")) users_ab toy_host_state
    = (Ok toy_ab.1, toy_ab.2)) as Hrun by (vm_compute; reflexivity).
  exact (proj1 (proj2 (creation_all_or_nothing toy_σ 0 "t" "owner" (toy_cfg 10) (toy_config "") users_ab
    toy_host_state toy_ab.2 (Ok toy_ab.1) toy_reliable Ht canonical_ab Hrun))).
Defined.


Lemma dropped_peers_go_offline_witness :
  (is_Some (PeerStore_GetByKey (wg_peerStore toy_ab.1) "K1") ∧
   PeerStore_GetByKey (wg_peerStore toy_bc.1) "K1" = None) ∧
  Tracker_AnyActiveSince (wg_statsTracker toy_bc.1) ["K1"] 7 = false.
Proof.
  assert (is_Some (PeerStore_GetByKey (wg_peerStore toy_ab.1) "K1")) as Hold
    by (eexists; vm_compute; reflexivity).
  assert (PeerStore_GetByKey (wg_peerStore toy_bc.1) "K1" = None) as Hnew by (vm_compute; reflexivity).
  assert (0 <= 7)%Z as Hcut by lia.
  split; [exact (conj Hold Hnew)|].
  exact (proj1 (dropped_peers_go_offline toy_σ users_bc toy_ab toy_bc toy_c "K1" 7 [] toy_ab_ok
    toy_ab_config canonical_bc toy_bc_run Hold Hnew Hcut)).
Defined.
