(* ===== verification/WgServe.v ===== *)
(** * A WireGuard backend that serves a roster

    [serves_roster c r s]: the backend [s] runs with the configuration [c], and the
    store and the kernel hold the roster [r].  The lemmas say how the roster
    moves: it is what a backend is created with, what a full synchronisation
    asks for, the update of a partial one, and stays through failures and
    queries. *)

From S2P Require Import Prelude Messages Tracker GoString GoNet Json NodeConfig WgTypes PeerStore WgConfig WgUsers WgAgree WgManager HostRouting WireGuard WgSync WgBackend WgReads WgRun.

Section Serve.
Context `{Host} `{JsonText} `{AwgLib} {UUID : Type}.
Notation W := (@W _ _ UUID).
Implicit Types (c : Config) (r : gmap string PeerInfo) (users : list (option User)) (s : W).

Record serves_roster c r s : Prop := mkServes {
  sv_inv : wg_inv s;
  sv_running : wg_state s.1 = lifecycleRunning;
  sv_config : ∃ c', wg_config s.1 = Some c' ∧ conf_equiv c c';
  sv_manager : ∃ mgr, wg_manager s.1 = Some mgr ∧ iFaceName mgr = InterfaceName c;
  sv_roster : roster (wg_peerStore s.1) ≡ r
}.

(** The kernel's side of it. *)
Lemma serves_link c r s : serves_roster c r s → ∃ dv, dev s.2 (InterfaceName c) = Some dv ∧ agree dv r.
Proof.
  intros [(_ & _ & Hka) _ _ (mgr & Hm & <-) Hr]. destruct (Hka mgr Hm) as (dv & Hd & Ha). exists dv. by rewrite <- Hr.
Qed.

(** ** Steps that keep the roster *)

Lemma serves_core c r w w' k k' : same_core w w' → dev k' = dev k → serves_roster c r (w, k) → serves_roster c r (w', k').
Proof.
  intros Hs Hd [Hi Hst (c1 & Hc1 & He) Hm Hr]. pose proof (inv_core _ _ _ _ Hs Hd Hi) as Hi'.
  destruct Hs as (Hps & _ & Hmw & Hsw & _ & _ & Hc). cbn [fst snd] in *. destruct (Hc c1 Hc1) as (c2 & Hc2 & He2).
  split; cbn [fst]; [done|congruence|eauto using conf_trans|by rewrite Hmw|by rewrite Hps].
Qed.

Lemma serves_reads c r s s' : reads s s' → serves_roster c r s → serves_roster c r s'.
Proof.
  intros Hs [Hi Hst Hc Hm Hr]. pose proof (reads_inv _ _ Hs Hi) as Hi'. destruct Hs as (Hsw & _ & Hmw & Hps & Hcw & _).
  split; [done|congruence|by rewrite Hcw|by rewrite Hmw|by rewrite Hps].
Qed.

(** The other side of the kernel does not matter. *)
Lemma serves_kernel c r w k k' : dev k' (InterfaceName c) = dev k (InterfaceName c) → serves_roster c r (w, k) → serves_roster c r (w, k').
Proof.
  intros Hd [(Hok & Hcf & Hka) Hst Hc Hm Hr]. split; [|done..]. split_and!; [done..|]. cbn [fst snd] in *.
  destruct Hm as (mgr & Hmw & Hn). intros m Hm'. rewrite Hmw in Hm'. injection Hm' as <-. rewrite Hn, Hd, <- Hn. by apply Hka.
Qed.

(** A moved backend with what moved. *)
Lemma serves_moved c r r' w w' k k' :
  serves_roster c r (w, k) → moved w w' → wg_inv (w', k') → roster (wg_peerStore w') ≡ r' → serves_roster c r' (w', k').
Proof.
  intros [_ Hst (c1 & Hc1 & He) Hm _] (c2 & c3 & Hc2 & He3 & Hw') Hi Hr. cbn [fst] in *. simplify_eq.
  split; [done|by rewrite Hw'| |by rewrite Hw'|done]. exists c3. rewrite Hw'. eauto using conf_trans.
Qed.

(** ** Requests *)

Lemma serves_full σ users c r s : atomic_kernel → canonical_keys users → serves_roster c r s →
  let '(res, s') := WireGuard_SyncUsers σ users s in serves_roster c (if is_ok res then desired_roster c users else r) s'.
Proof.
  intros Hat Hcan Hs. pose proof (full_inv σ users s Hat Hcan (sv_inv _ _ _ Hs)) as Hi. unfold WireGuard_SyncUsers.
  destruct s as [w k]. destruct (syncUsersFull σ users (w, k)) as [res [w' k']] eqn:Hrun. cbn [snd] in Hi.
  destruct (sv_config _ _ _ Hs) as (c1 & Hc1 & He). destruct (sv_inv _ _ _ Hs) as (Hok & _ & _).
  pose proof (full_run _ _ _ _ _ _ _ _ Hc1 Hok Hcan Hrun) as Hr. destruct res as [[]|e]; cbn [is_ok].
  - destruct Hr as (Hmv & _ & Hro & _). rewrite (desired_conf c c1) in Hro by done. by eapply serves_moved.
  - destruct Hr as [Hq Hk]. apply (serves_core c r w w' k k'); [by apply quiet_core| |done].
    destruct Hk as [->|(m & cs & e' & Ha)]; [done|by eapply ApplyReplace_atomic].
Qed.

Lemma serves_partial σ users c r s : atomic_kernel → canonical_keys users → ips_free c users r → serves_roster c r s →
  let '(res, s') := WireGuard_UpdateUsers σ users s in serves_roster c (if is_ok res then after_update c users r else r) s'.
Proof.
  intros Hat Hcan Hfree Hs. destruct (sv_config _ _ _ Hs) as (c1 & Hc1 & He).
  assert (ips_free c1 users (roster (wg_peerStore s.1))) as Hfree'.
  { apply (ips_free_equiv _ _ r); [symmetry; apply Hs|]. intros e e' t q ip. rewrite (desired_conf c c1) by done. apply Hfree. }
  assert (partial_request_ok users s) as Hreq by (split; [done|]; intros c2 Hc2; by simplify_eq).
  pose proof (partial_inv σ users s Hat Hreq (sv_inv _ _ _ Hs)) as Hi. unfold WireGuard_UpdateUsers.
  destruct s as [w k]. destruct (syncUsersPartialReconcile σ users (w, k)) as [res [w' k']] eqn:Hrun. cbn [snd] in Hi.
  destruct (sv_inv _ _ _ Hs) as (Hok & _ & _). pose proof (partial_run _ _ _ _ _ _ _ _ Hc1 Hok Hcan Hrun) as Hr.
  destruct res as [[]|e]; cbn [is_ok].
  - destruct Hr as (Hmv & _ & Hro & _). eapply serves_moved; [done..|]. rewrite Hro, (sv_roster _ _ _ Hs).
    unfold after_update. by rewrite (desired_conf c c1).
  - destruct Hr as [Hq Hk]. apply (serves_core c r w w' k k'); [by apply quiet_core| |done].
    destruct Hk as [->|(m & cs & e' & Ha)]; [done|by eapply ApplyPeers_atomic].
Qed.

Lemma serves_one σ (u : User) c r s : atomic_kernel → canonical_keys [Some u] → ips_free c [Some u] r → serves_roster c r s →
  let '(res, s') := WireGuard_SyncUser σ (Some u) s in serves_roster c (if is_ok res then after_update c [Some u] r else r) s'.
Proof. apply serves_partial. Qed.

(** ** Creation *)

Lemma serves_new σ now ts owner cfg c users k g k' :
  tidy_kernel → is_ok (initStatsTickers cfg) = true → canonical_keys users →
  WireGuard_New σ now ts owner cfg (Some c) users k = (Ok g, k') → serves_roster c (desired_roster c users) (g, k').
Proof.
  intros Ht Htick Hcan Hnew. pose proof (New_adds σ now ts owner cfg c users k Ht Htick) as Ha. rewrite Hnew in Ha.
  destruct Ha as (_ & mgr & Hm & Hn & _).
  apply new_Ok in Hnew as (Hok & Hro & Hka & Hst & _ & _ & c2 & Hc & He); [|done].
  split; cbn [fst]; [|done|eauto|eauto|by rewrite Hro]. split_and!; [done|by exists c2|done].
Qed.
End Serve.
