(* ===== verification/WgFindings.v ===== *)
(** * Where the WireGuard backend does not do what it means to

    Runs on the concrete kernel that show the assumptions of [WgRun] are
    needed, and two effects of dropped errors and unchecked settings. *)

From S2P Require Import Prelude Messages Tracker Meter GoString GoNet Json NodeConfig WgTypes WgToy PeerStore WgConfig WgUsers WgManager HostRouting WireGuard WgScenario.

#[local] Existing Instances toy_keys toy_kernel toy_host toy_json toy_awg.

Definition ab : @W _ _ unit :=
  toy_start "" [toy_user "a" "K1" ["10.0.0.2/32"]; toy_user "b" "K2" ["10.0.0.3/32"]].

(** A partial update checks requested networks against the request only: user
    c can be given b's address, after which the store shows it twice while the
    kernel has moved it away from b. *)
Lemma partial_update_steals_address :
  let r := WireGuard_UpdateUsers toy_σ [toy_user "c" "K3" ["10.0.0.3/32"]] ab in
  r.1 = Ok () ∧
  PI_AllowedIPs <$> PeerStore_GetByEmail (wg_peerStore r.2.1) "b" = Some [mkIPNet [10; 0; 0; 3]%Z 32] ∧
  PI_AllowedIPs <$> PeerStore_GetByEmail (wg_peerStore r.2.1) "c" = Some [mkIPNet [10; 0; 0; 3]%Z 32] ∧
  toy_routes r.2 = [("10.0.0.3/32", "3"); ("10.0.0.2/32", "1")].
Proof. vm_compute. repeat split; reflexivity. Qed.

(** The diff is keyed by the text of the key, the store by its standard text:
    repeating a request with a non-standard spelling removes the peer from the
    kernel (the removal follows the addition) and reports success. *)
Lemma respelled_key_loses_peer :
  let request := [toy_user "a" "k1" ["10.0.0.2/32"]] in
  let s1 := (WireGuard_UpdateUsers toy_σ request ab).2 in
  let r := WireGuard_UpdateUsers toy_σ request s1 in
  r.1 = Ok () ∧
  is_Some (PeerStore_GetByEmail (wg_peerStore r.2.1) "a") ∧
  toy_routes r.2 = [("10.0.0.3/32", "2")].
Proof. vm_compute. split_and!; [reflexivity|by eexists|reflexivity]. Qed.

(** A pre-shared key that does not parse is dropped: creation succeeds and the
    peers are configured without one. *)
Lemma bad_psk_is_dropped :
  let r := toy_new 10 "not-a-key" [toy_user "a" "K1" ["10.0.0.2/32"]] in
  is_ok r.1 = true ∧ psk_of (toy_config "not-a-key") = None ∧
  is_ok (GetPreSharedKey (toy_config "not-a-key")).1 = false.
Proof. vm_compute. repeat split; reflexivity. Qed.

(** A statistics interval that is not positive panics in [New], after the
    interface was created, and leaves it behind. *)
Lemma zero_interval_panics :
  let r := toy_new 0 "" [toy_user "a" "K1" ["10.0.0.2/32"]] in
  r.1 = Err (go_panic "non-positive interval for NewTicker") ∧ is_Some (dev r.2 "wg0").
Proof. vm_compute. split; [reflexivity|by eexists]. Qed.

(** The background job copies the email map before it applies its samples: a
    user removed in between comes back as a live, never cleaned entry. *)
Definition seen : DevicePeer := mkDevicePeer "1" 90000000000 (Some "198.51.100.7") 500 700.

Lemma stale_sample_revives_removed_user :
  let s := (ab.1, mkToy (tk_links ab.2) [seen] [] ∅) in
  let '(samples, s) := read_samples std_range 100000000000 "t" s in
  let s := (WireGuard_SyncUsers toy_σ [toy_user "b" "K2" ["10.0.0.3/32"]] s).2 in
  let w := apply_samples 100000000000 (default [] samples) s.1 in
  PeerStore_GetByKey (wg_peerStore w) "K1" = None ∧
  IsDeleted <$> (stats (wg_statsTracker w) !! "K1") = Some false ∧
  (** reporting with reset and cleaning up do not make it go away *)
  let t := (Tracker_GetUsersStats std_range (wg_statsTracker w) true).2 in
  is_Some (stats (Tracker_CleanupDeletedEntries std_range t) !! "K1").
Proof. vm_compute. split_and!; [reflexivity|reflexivity|by eexists]. Qed.
