(* ===== verification/Logger.v ===== *)
(** * Log files ([src/logger/logger.go])

    A [Logger] writes access lines to one file and error lines to another.
    Open files are descriptors of a small file system, so that a logger whose
    file was closed writes nothing: [log.Logger] ignores write errors. *)

From S2P Require Import Prelude.

(** ** Files *)

(** [open_fds]: the path each open descriptor appends to; [stdout]: what
    [fmt.Println] printed. *)
Record Files := mkFiles {
  next_fd : nat;
  open_fds : gmap nat string;
  contents : gmap string (list string);
  stdout : list string
}.

Definition append_line (fd : nat) (line : string) (f : Files) : Files :=
  match open_fds f !! fd with
  | None => f
  | Some path =>
      mkFiles (next_fd f) (open_fds f)
        (<[path := default [] (contents f !! path) ++ [line]]> (contents f)) (stdout f)
  end.

Definition close_fd (fd : nat) (f : Files) : Files :=
  mkFiles (next_fd f) (delete fd (open_fds f)) (contents f) (stdout f).

Definition print_line (line : string) (f : Files) : Files :=
  mkFiles (next_fd f) (open_fds f) (contents f) (stdout f ++ [line]).

(** ** The logger *)

Inductive LogLevel := LogDebug | LogInfo | LogWarning | LogError | LogCritical.

Record Logger := mkLogger {
  outputLogs : bool;
  accessLogFile : option nat;
  errorLogFile : option nat;
  accessLogger : option nat;
  errorLogger : option nat
}.

Definition Logger_New (output : bool) : Logger := mkLogger output None None None None.

Section Logger.
(** [os.MkdirAll] of the directory followed by [os.OpenFile]. *)
Context (open_file : string → result unit).

Definition openLogFile (path : string) : eff Files (option nat) := λ f,
  if bool_decide (path = "") then (Ok None, f)
  else
    match open_file path with
    | Err e => (Err e, f)
    | Ok _ =>
        (Ok (Some (next_fd f)),
         mkFiles (S (next_fd f)) (<[next_fd f := path]> (open_fds f)) (contents f) (stdout f))
    end.

(** A failing [openLogFile] returns a nil file, which is stored before the
    error is looked at; a nil file leaves the logger as it is. *)
Definition SetLogFile (accessPath errorPath : string) : eff (Logger * Files) unit := λ '(l, f),
  match openLogFile accessPath f with
  | (Err e, f) =>
      (Err (wrapf "failed to open access log" e),
       (mkLogger (outputLogs l) None (errorLogFile l) (accessLogger l) (errorLogger l), f))
  | (Ok afile, f) =>
      let l := mkLogger (outputLogs l) afile (errorLogFile l)
                 (match afile with Some fd => Some fd | None => accessLogger l end) (errorLogger l) in
      match openLogFile errorPath f with
      | (Err e, f) =>
          (Err (wrapf "failed to open error log" e),
           (mkLogger (outputLogs l) (accessLogFile l) None (accessLogger l) (errorLogger l), f))
      | (Ok efile, f) =>
          (Ok (), (mkLogger (outputLogs l) (accessLogFile l) efile (accessLogger l)
                     (match efile with Some fd => Some fd | None => errorLogger l end), f))
      end
  end.
End Logger.

Definition write_opt (fd : option nat) (message : string) (f : Files) : Files :=
  match fd with Some fd => append_line fd message f | None => f end.

Definition Logger_Log (l : Logger) (level : LogLevel) (message : string) (f : Files) : Files :=
  let f := match level with
           | LogError | LogCritical => write_opt (errorLogger l) message f
           | _ => write_opt (accessLogger l) message f
           end in
  if outputLogs l then print_line message f else f.

Definition close_opt (fd : option nat) (f : Files) : Files :=
  match fd with Some fd => close_fd fd f | None => f end.

Definition Logger_Close (l : Logger) (f : Files) : Logger * Files :=
  (mkLogger (outputLogs l) None None (accessLogger l) (errorLogger l),
   close_opt (errorLogFile l) (close_opt (accessLogFile l) f)).

(** ** Lemmas *)

Definition written (f : Files) (path : string) : list string := default [] (contents f !! path).

Lemma written_append fd line f path p :
  open_fds f !! fd = Some path →
  written (append_line fd line f) p = if bool_decide (p = path) then written f p ++ [line] else written f p.
Proof.
  intros Hfd. unfold append_line, written. rewrite Hfd. cbn.
  case_bool_decide as Hp; [subst p; by rewrite lookup_insert_eq|by rewrite lookup_insert_ne].
Qed.

Lemma open_append fd line f : open_fds (append_line fd line f) = open_fds f.
Proof. unfold append_line. by destruct (open_fds f !! fd). Qed.

Lemma open_log l level m f : open_fds (Logger_Log l level m f) = open_fds f.
Proof.
  unfold Logger_Log. destruct (outputLogs l), level, (errorLogger l), (accessLogger l); cbn;
    by rewrite ?open_append.
Qed.

(** A message of an access level, and one of an error level. *)
Definition is_error (level : LogLevel) : bool :=
  match level with LogError | LogCritical => true | _ => false end.

Lemma log_written l level m f a e pa pe p :
  accessLogger l = Some a → errorLogger l = Some e →
  open_fds f !! a = Some pa → open_fds f !! e = Some pe →
  written (Logger_Log l level m f) p =
  written f p ++ if bool_decide (p = if is_error level then pe else pa) then [m] else [].
Proof.
  intros Ha He Hpa Hpe. unfold Logger_Log. rewrite Ha, He.
  assert (∀ (b : bool) g, written (if b then print_line m g else g) p = written g p) as Hp by (by intros []).
  destruct level; cbn [is_error write_opt]; rewrite Hp;
    (erewrite written_append by done); case_bool_decide; by rewrite ?app_nil_r.
Qed.

(** Logging a list of messages, through open files and through closed ones. *)
Definition log_all (l : Logger) (ms : list (LogLevel * string)) (f : Files) : Files :=
  foldl (λ f '(level, m), Logger_Log l level m f) f ms.

Lemma log_all_written l ms f a e pa pe p :
  accessLogger l = Some a → errorLogger l = Some e →
  open_fds f !! a = Some pa → open_fds f !! e = Some pe →
  written (log_all l ms f) p = written f p ++ omap (λ '(level, m),
    if bool_decide (p = if is_error level then pe else pa) then Some m else None) ms.
Proof.
  intros Ha He. revert f. induction ms as [|[level m] ms IH]; intros f Hpa Hpe; [by rewrite app_nil_r|].
  unfold log_all in *. cbn [foldl]. rewrite IH by (by rewrite open_log). erewrite log_written by done.
  rewrite <- app_assoc. f_equal. cbn. by case_bool_decide.
Qed.

Definition closed (fd : option nat) (f : Files) : Prop := ∀ n, fd = Some n → open_fds f !! n = None.

Lemma log_all_closed l ms f p :
  closed (accessLogger l) f → closed (errorLogger l) f → written (log_all l ms f) p = written f p.
Proof.
  revert f. induction ms as [|[level m] ms IH]; intros f Ha He; [done|]. unfold log_all in *. cbn [foldl].
  rewrite IH by (unfold closed; by rewrite open_log). unfold Logger_Log.
  assert (∀ (b : bool) g, written (if b then print_line m g else g) p = written g p) as Hp by (by intros []).
  rewrite Hp. unfold write_opt, append_line. destruct level;
    [destruct (accessLogger l) eqn:Hl..|destruct (errorLogger l) eqn:Hl|destruct (errorLogger l) eqn:Hl];
    first [done|by rewrite Ha|by rewrite He].
Qed.

(** ** Property *)

(** A logger opened on two non-empty paths appends to each file the
    messages of its levels, in order, and nothing after it is closed. *)
Theorem log_lines_reach_their_file (open_file : string → result unit) (output : bool)
    (apath epath : string) (before after : list (LogLevel * string)) (f : Files)
    (Ha : apath ≠ "") (He : epath ≠ "")
    (Hopena : open_file apath = Ok ()) (Hopene : open_file epath = Ok ()) :
  ∃ l f1, SetLogFile open_file apath epath (Logger_New output, f) = (Ok (), (l, f1)) ∧
    let f2 := log_all l before f1 in
    let '(l', f3) := Logger_Close l f2 in
    ∀ p, written (log_all l' after f3) p = written f2 p ∧
      written f2 p = written f p ++ omap (λ '(level, m),
        if bool_decide (p = if is_error level then epath else apath) then Some m else None) before.
Proof.
  unfold SetLogFile, openLogFile. rewrite !bool_decide_eq_false_2 by done.
  rewrite Hopena, Hopene. eexists _, _. split; [done|]. cbv zeta.
  unfold Logger_Close. cbn [outputLogs accessLogFile errorLogFile accessLogger errorLogger next_fd close_opt].
  intros p. split.
  - rewrite log_all_closed; [done|intros ? [= <-]; cbn..]; [|by rewrite lookup_delete_eq].
    rewrite lookup_delete_ne by lia. by rewrite lookup_delete_eq.
  - erewrite log_all_written by (cbn; rewrite ?(lookup_insert_ne _ (S _)) by lia; by rewrite ?lookup_insert_eq).
    done.
Qed.

Lemma log_lines_reach_their_file_witness :
  let f := mkFiles 0 ∅ {[ "/a" := ["old"] ]} [] in
  ∃ l f1, SetLogFile (λ _, Ok ()) "/a" "/e" (Logger_New false, f) = (Ok (), (l, f1)) ∧
    let f2 := log_all l [(LogInfo, "hi"); (LogError, "no")] f1 in
    written f2 "/a" = ["old"; "hi"] ∧ written f2 "/e" = ["no"].
Proof.
  intros f.
  destruct (log_lines_reach_their_file (λ _, Ok ()) false "/a" "/e" [(LogInfo, "hi"); (LogError, "no")] []
    f ltac:(discriminate) ltac:(discriminate) eq_refl eq_refl) as (l & f1 & Hset & Hlog).
  exists l, f1. split; [exact Hset|]. cbv zeta in *.
  destruct (Logger_Close l _) as [l' f3]. split; [exact (proj2 (Hlog "/a"))|exact (proj2 (Hlog "/e"))].
Defined.
