(* ===== verification/XrayLogs.v ===== *)
(** * Logs of the Xray process ([src/backend/xray/startup_diagnostics.go], log.go)

    A ring of the last lines, the diagnostics kept while the core starts and
    the capture of the lines the process prints.  [CoreLogs] are the fields of
    [Core] these functions use. *)

From Stdlib Require Import Ascii.
From S2P Require Import Prelude GoString Logger.

#[local] Open Scope Z_scope.

(** ** The ring ([startupLogRing]) *)

Record startupLogRing := mkRing { lines : list string; next : nat; full : bool }.

Definition newStartupLogRing (size : Z) : startupLogRing :=
  let size := if size <=? 0 then 1 else size in
  mkRing (replicate (Z.to_nat size) "") 0 false.

Definition ring_reset (r : startupLogRing) : startupLogRing :=
  mkRing ((λ _, "") <$> lines r) 0 false.

(** [r.lines[r.next] = line] panics when the index is out of range. *)
Definition ring_add (line : string) (r : startupLogRing) : result startupLogRing :=
  if bool_decide (length (lines r) = 0%nat) then Ok r
  else
    match lines r !! next r with
    | None => Err (go_panic "runtime error: index out of range")
    | Some _ =>
        let next' := (S (next r) mod length (lines r))%nat in
        Ok (mkRing (<[next r := line]> (lines r)) next' (full r || bool_decide (next' = 0%nat)))
    end.

Definition ring_count (r : startupLogRing) : nat := if full r then length (lines r) else next r.

Definition ring_tail (n : Z) (r : startupLogRing) : result (list string) :=
  let count := ring_count r in
  if bool_decide (count = 0%nat) then Ok []
  else
    let n := if (n <=? 0) || (n >? Z.of_nat count) then count else Z.to_nat n in
    let oldest := if full r then next r else 0%nat in
    let start := (count - n)%nat in
    match mapM (λ i, lines r !! ((oldest + start + i) mod length (lines r))%nat) (seq 0 n) with
    | Some out => Ok out
    | None => Err (go_panic "runtime error: index out of range")
    end.

(** ** The log state of a core *)

Inductive log_phase := logPhaseRuntime | logPhaseStartup.

#[export] Instance log_phase_eq_dec : EqDecision log_phase.
Proof. solve_decision. Defined.

(** [logsChan] holds the lines sent and not yet received. *)
Record CoreLogs := mkCoreLogs {
  logPhase : log_phase;
  startupLogs : option startupLogRing;
  startupLogSize : Z;
  startupFailure : string;
  startupDiagnosticsEnabled : bool;
  runtimeLogs : option startupLogRing;
  logsChan : list string;
  logsChan_cap : nat;
  logger : option Logger
}.

Definition set_startup (logs : option startupLogRing) (size : Z) (failure : string) (enabled : bool)
    (c : CoreLogs) : CoreLogs :=
  mkCoreLogs (logPhase c) logs size failure enabled (runtimeLogs c) (logsChan c) (logsChan_cap c) (logger c).
Definition set_phase (p : log_phase) (c : CoreLogs) : CoreLogs :=
  mkCoreLogs p (startupLogs c) (startupLogSize c) (startupFailure c) (startupDiagnosticsEnabled c)
    (runtimeLogs c) (logsChan c) (logsChan_cap c) (logger c).
Definition set_runtime (logs : option startupLogRing) (c : CoreLogs) : CoreLogs :=
  mkCoreLogs (logPhase c) (startupLogs c) (startupLogSize c) (startupFailure c)
    (startupDiagnosticsEnabled c) logs (logsChan c) (logsChan_cap c) (logger c).
Definition set_chan (chan : list string) (c : CoreLogs) : CoreLogs :=
  mkCoreLogs (logPhase c) (startupLogs c) (startupLogSize c) (startupFailure c)
    (startupDiagnosticsEnabled c) (runtimeLogs c) chan (logsChan_cap c) (logger c).
Definition set_logger (l : option Logger) (c : CoreLogs) : CoreLogs :=
  mkCoreLogs (logPhase c) (startupLogs c) (startupLogSize c) (startupFailure c)
    (startupDiagnosticsEnabled c) (runtimeLogs c) (logsChan c) (logsChan_cap c) l.

(** ** Start-up diagnostics *)

Definition ClearStartupDiagnostics (c : CoreLogs) : CoreLogs :=
  set_startup (ring_reset <$> startupLogs c) (startupLogSize c) "" (startupDiagnosticsEnabled c) c.

Definition EnableStartupDiagnostics (tailSize : Z) (c : CoreLogs) : CoreLogs :=
  let tailSize := if tailSize <=? 0 then startupLogSize c else tailSize in
  let tailSize := if tailSize <=? 0 then 200 else tailSize in
  let fresh := newStartupLogRing tailSize in
  let logs := match startupLogs c with
              | None => fresh
              | Some r => if bool_decide (Z.of_nat (length (lines r)) = tailSize) then ring_reset r else fresh
              end in
  set_startup (Some logs) tailSize "" true c.

Definition DisableStartupDiagnostics (c : CoreLogs) : CoreLogs :=
  set_startup None (startupLogSize c) "" false c.

Definition setStartupLogPhase (c : CoreLogs) : CoreLogs := set_phase logPhaseStartup c.
Definition SwitchToRuntimeLogPhase (c : CoreLogs) : CoreLogs :=
  DisableStartupDiagnostics (set_phase logPhaseRuntime c).
Definition isStartupLogPhase (c : CoreLogs) : bool := bool_decide (logPhase c = logPhaseStartup).

Definition failure_keywords : list string :=
  ["failed to start"; "panic"; "fatal"; "permission denied"; "no such file or directory";
   "cannot find"; "failed to open"; "failed to load"; "failed to listen"].

Definition isStartupFailureLog (line : string) : bool :=
  let lower := ToLower line in
  if Contains lower "invalid request user id" || Contains lower "rejected proxy/" then false
  else existsb (Contains lower) failure_keywords.

Definition RecordStartupLog (line : string) : eff CoreLogs unit := λ c,
  if negb (startupDiagnosticsEnabled c) then (Ok (), c)
  else
    let note c := if isStartupFailureLog line
                  then set_startup (startupLogs c) (startupLogSize c) line (startupDiagnosticsEnabled c) c
                  else c in
    match startupLogs c with
    | None => (Ok (), note c)
    | Some r =>
        match ring_add line r with
        | Err e => (Err e, c)
        | Ok r => (Ok (), note (set_startup (Some r) (startupLogSize c) (startupFailure c)
                                  (startupDiagnosticsEnabled c) c))
        end
    end.

Definition LatestStartupFailure (c : CoreLogs) : string :=
  if negb (startupDiagnosticsEnabled c) then "" else startupFailure c.

Definition StartupLogTail (n : Z) (c : CoreLogs) : result (list string) :=
  if negb (startupDiagnosticsEnabled c) then Ok []
  else match startupLogs c with None => Ok [] | Some r => ring_tail n r end.

(** [RecordRuntimeLog] does not check for a nil ring. *)
Definition RecordRuntimeLog (line : string) : eff CoreLogs unit := λ c,
  match runtimeLogs c with
  | None => (Err nil_deref, c)
  | Some r =>
      match ring_add line r with
      | Err e => (Err e, c)
      | Ok r => (Ok (), set_runtime (Some r) c)
      end
  end.

Definition RuntimeLogTail (n : Z) (c : CoreLogs) : result (list string) :=
  match runtimeLogs c with None => Ok [] | Some r => ring_tail n r end.

(** ** Capturing lines (log.go) *)

Definition isAccessLog (log : string) : bool :=
  if negb (Contains log "from ") || negb (Contains log " email:") then false
  else Contains log " accepted tcp:" || Contains log " accepted udp:".

Definition detectLogType (log : string) (l : option Logger) (f : Files) : Files :=
  match l with
  | None => f
  | Some l => Logger_Log l (if isAccessLog log then LogInfo else LogError) log f
  end.

(** A send that does not block: dropped when the channel is full. *)
Definition try_send (line : string) (c : CoreLogs) : CoreLogs :=
  if (length (logsChan c) <? logsChan_cap c)%nat then set_chan (logsChan c ++ [line]) c else c.

Definition deliver (output : string) : eff (CoreLogs * Files) unit := λ '(c, f),
  let c := try_send output c in (Ok (), (c, detectLogType output (logger c) f)).

Definition captureStartupLogLine (output : string) : eff (CoreLogs * Files) unit :=
  _ ← on fst (λ c s, (c, snd s)) (RecordStartupLog output); deliver output.

Definition captureRuntimeLogLine (output : string) : eff (CoreLogs * Files) unit :=
  _ ← on fst (λ c s, (c, snd s)) (RecordRuntimeLog output); deliver output.

Definition recordProcessLog (output : string) : eff (CoreLogs * Files) unit := λ s,
  if isStartupLogPhase (fst s) then captureStartupLogLine output s else captureRuntimeLogLine output s.

(** [bufio.Scanner] gives a line without its carriage return and stops at one
    that, with its newline, does not fit its buffer. *)
Definition max_line : Z := 1024 * 1024.
Definition drop_cr (line : string) : string :=
  if HasSuffix line (String "013"%char "") then String.substring 0 (String.length line - 1) line else line.

(** The lines of the pipe, each with whether the context is done when it is
    scanned. *)
Fixpoint captureProcessLogs (pipe : list (bool * string)) : eff (CoreLogs * Files) unit :=
  match pipe with
  | [] => mret ()
  | (done, line) :: pipe =>
      if max_line <=? Z.of_nat (String.length line) then mret ()
      else if done : bool then mret ()
      else _ ← recordProcessLog (drop_cr line); captureProcessLogs pipe
  end.

(** ** The ring keeps the last lines *)

(** A ring holds the last lines of a history. *)
Definition ring_holds (h : list string) (r : startupLogRing) : Prop :=
  (0 < length (lines r))%nat ∧
  next r = (length h mod length (lines r))%nat ∧
  full r = bool_decide (length (lines r) ≤ length h)%nat ∧
  ∀ k, (k < length h)%nat → (length h ≤ k + length (lines r))%nat →
    lines r !! (k mod length (lines r))%nat = h !! k.

(** The last [n] elements. *)
Definition last_n {A} (n : nat) (l : list A) : list A := drop (length l - n) l.

Lemma new_ring_holds size : ring_holds [] (newStartupLogRing size).
Proof.
  unfold newStartupLogRing. set (n := if size <=? 0 then 1 else size).
  assert (0 < n) by (unfold n; destruct (Z.leb_spec size 0); lia).
  unfold ring_holds. cbn. rewrite length_replicate. split_and!; [lia| | |intros; lia].
  - rewrite Nat.Div0.mod_0_l. done.
  - by rewrite bool_decide_eq_false_2 by lia.
Qed.

Lemma reset_ring_holds h r : ring_holds h r → ring_holds [] (ring_reset r).
Proof.
  intros [Hpos _]. unfold ring_holds, ring_reset. cbn. rewrite length_fmap. split_and!; [done| | |intros; lia].
  - by rewrite Nat.Div0.mod_0_l.
  - by rewrite bool_decide_eq_false_2 by lia.
Qed.

(** Two recent positions of the history are in different places of the ring. *)
Lemma recent_places_differ (s n k : nat) :
  (0 < s)%nat → (k < n)%nat → (n < k + s)%nat → (n mod s)%nat ≠ (k mod s)%nat.
Proof.
  intros Hs H1 H2 Heq.
  pose proof (Nat.div_mod_eq n s). pose proof (Nat.div_mod_eq k s).
  assert (n - k = s * (n / s - k / s))%nat as Hd by nia.
  destruct (n / s - k / s)%nat; nia.
Qed.

Lemma succ_mod (s n : nat) : (0 < s)%nat → (S (n mod s) mod s = S n mod s)%nat.
Proof. intros. rewrite <- (Nat.add_1_r (n mod s)), Nat.Div0.add_mod_idemp_l, Nat.add_1_r. done. Qed.

Lemma wrapped_iff (s n : nat) : (0 < s)%nat →
  bool_decide (s ≤ n)%nat || bool_decide (S n mod s = 0)%nat = bool_decide (s ≤ S n)%nat.
Proof.
  intros Hs. destruct (decide (s ≤ n)%nat).
  - by rewrite (bool_decide_eq_true_2 (s ≤ n)%nat), (bool_decide_eq_true_2 (s ≤ S n)%nat) by lia.
  - rewrite (bool_decide_eq_false_2 (s ≤ n)%nat) by done. cbn. apply bool_decide_ext.
    destruct (decide (s = S n)) as [->|].
    + rewrite Nat.Div0.mod_same. lia.
    + rewrite Nat.mod_small by lia. lia.
Qed.

Lemma add_ring_holds line h r :
  ring_holds h r → ∃ r', ring_add line r = Ok r' ∧ ring_holds (h ++ [line]) r' ∧ length (lines r') = length (lines r).
Proof.
  intros (Hpos & Hnext & Hfull & Hlines). unfold ring_add. rewrite bool_decide_eq_false_2 by lia.
  destruct (lookup_lt_is_Some_2 (lines r) (next r)) as [old ->].
  { rewrite Hnext. apply Nat.mod_upper_bound. lia. }
  eexists. split; [done|]. cbn. rewrite length_insert. split; [|done].
  unfold ring_holds. cbn. rewrite length_insert, length_app, Nat.add_1_r. split_and!; [done| | |].
  - rewrite Hnext. by apply succ_mod.
  - rewrite Hfull, Hnext, succ_mod by done. by apply wrapped_iff.
  - intros k Hk Hrecent. destruct (decide (k = length h)) as [->|Hne].
    + rewrite <- Hnext, list_lookup_insert_eq.
      * by rewrite list_lookup_middle.
      * rewrite Hnext. apply Nat.mod_upper_bound. lia.
    + rewrite lookup_app_l by lia. rewrite list_lookup_insert_ne; [apply Hlines; lia|].
      rewrite Hnext. apply recent_places_differ; lia.
Qed.

Lemma mapM_ext_in {A B} (f g : A → option B) l : (∀ x, x ∈ l → f x = g x) → mapM f l = mapM g l.
Proof.
  induction l as [|x l IH]; intros Hfg; [done|]. cbn [mapM]. rewrite Hfg by set_solver.
  rewrite IH by (intros; apply Hfg; set_solver). done.
Qed.

Lemma mapM_lookup_seq {A} (l : list A) start n :
  (start + n ≤ length l)%nat → mapM (λ i, l !! (start + i)%nat) (seq 0 n) = Some (take n (drop start l)).
Proof.
  intros Hle. apply mapM_Some. apply Forall2_same_length_lookup. split.
  - rewrite length_seq, length_take, length_drop. lia.
  - intros i x y Hx Hy. apply lookup_seq in Hx as [-> Hi].
    rewrite lookup_take_lt, lookup_drop in Hy by lia. done.
Qed.

(** How many lines [tail] returns of a ring that holds [count]. *)
Definition tail_size (n : Z) (count : nat) : nat :=
  if (n <=? 0) || (n >? Z.of_nat count) then count else Z.to_nat n.

Lemma tail_size_le n count : (tail_size n count ≤ count)%nat.
Proof.
  unfold tail_size. destruct (Z.leb_spec n 0); [done|]. cbn.
  destruct (n >? Z.of_nat count) eqn:Hn; [done|]. rewrite Z.gtb_ltb in Hn. apply Z.ltb_ge in Hn. lia.
Qed.

Lemma ring_tail_spec n h r :
  ring_holds h r → ring_tail n r = Ok (last_n (tail_size n (length (lines r) `min` length h)) h).
Proof.
  intros (Hpos & Hnext & Hfull & Hlines). unfold ring_tail.
  assert (ring_count r = length (lines r) `min` length h)%nat as Hcount.
  { unfold ring_count. rewrite Hfull, Hnext. case_bool_decide; [lia|]. rewrite Nat.mod_small by lia. lia. }
  rewrite Hcount. set (count := (length (lines r) `min` length h)%nat) in *.
  destruct (decide (count = 0)%nat) as [Hzero|Hzero];
    [rewrite bool_decide_eq_true_2 by done|rewrite bool_decide_eq_false_2 by done].
  { assert (length h = 0%nat) as Hh by lia. apply nil_length_inv in Hh as ->. unfold last_n. by rewrite drop_nil. }
  pose proof (tail_size_le n count) as Hle. fold (tail_size n count).
  set (m := tail_size n count) in *. clearbody m.
  assert (mapM (λ i, lines r !! (((if full r then next r else 0) + (count - m) + i) mod length (lines r))%nat) (seq 0 m)
    = mapM (λ i, h !! (length h - m + i)%nat) (seq 0 m)) as ->.
  { apply mapM_ext_in. intros i Hi%elem_of_seq. rewrite <- (Hlines (length h - m + i)%nat) by lia. f_equal.
    rewrite Hfull. case_bool_decide.
    - rewrite Hnext. replace count with (length (lines r)) by lia.
      rewrite <- Nat.add_assoc, Nat.Div0.add_mod_idemp_l.
      replace (length h + (length (lines r) - m + i))%nat
        with (length h - m + i + 1 * length (lines r))%nat by lia.
      by rewrite Nat.Div0.mod_add.
    - f_equal. lia. }
  rewrite mapM_lookup_seq by lia. f_equal. unfold last_n. apply take_ge. rewrite length_drop. lia.
Qed.

(** ** Captured lines *)

Definition last_failure (h : list string) : string :=
  default "" (last (filter (λ line, isStartupFailureLog line = true) h)).

Lemma last_failure_snoc h line :
  last_failure (h ++ [line]) = if isStartupFailureLog line then line else last_failure h.
Proof.
  unfold last_failure. rewrite filter_app, filter_cons, filter_nil.
  destruct (isStartupFailureLog line); [rewrite decide_True by done|rewrite decide_False by done].
  - by rewrite last_snoc.
  - by rewrite app_nil_r.
Qed.

(** The log state while the core starts and after [h] was printed. *)
Definition starting (size : nat) (h : list string) (c : CoreLogs) : Prop :=
  logPhase c = logPhaseStartup ∧ startupDiagnosticsEnabled c = true ∧ startupFailure c = last_failure h ∧
  ∃ r, startupLogs c = Some r ∧ ring_holds h r ∧ length (lines r) = size.

(** The log state of a core that runs and has printed [h]. *)
Definition running (size : nat) (h : list string) (c : CoreLogs) : Prop :=
  logPhase c = logPhaseRuntime ∧ startupDiagnosticsEnabled c = false ∧
  ∃ r, runtimeLogs c = Some r ∧ ring_holds h r ∧ length (lines r) = size.

(** The channel keeps the first lines that fit. *)
Definition chan_holds (h : list string) (c : CoreLogs) : Prop := logsChan c = take (logsChan_cap c) h.

Lemma chan_holds_send h line c : chan_holds h c → chan_holds (h ++ [line]) (try_send line c).
Proof.
  unfold chan_holds, try_send. intros Hc.
  destruct (Nat.ltb_spec (length (logsChan c)) (logsChan_cap c)) as [Hlt|Hge]; cbn [logsChan logsChan_cap set_chan].
  - rewrite Hc, length_take in Hlt. rewrite Hc, take_ge by lia. rewrite take_ge; [done|]. rewrite length_app. cbn. lia.
  - rewrite Hc. rewrite Hc, length_take in Hge. by rewrite take_app_le by lia.
Qed.

Lemma try_send_rest line c :
  logPhase (try_send line c) = logPhase c ∧
  startupDiagnosticsEnabled (try_send line c) = startupDiagnosticsEnabled c ∧
  startupFailure (try_send line c) = startupFailure c ∧ startupLogs (try_send line c) = startupLogs c ∧
  runtimeLogs (try_send line c) = runtimeLogs c ∧ logger (try_send line c) = logger c.
Proof. unfold try_send. by destruct (_ <? _)%nat. Qed.

Lemma capture_starting size h hc line c f :
  starting size h c → chan_holds hc c →
  ∃ c' f', recordProcessLog line (c, f) = (Ok (), (c', f')) ∧
    starting size (h ++ [line]) c' ∧ chan_holds (hc ++ [line]) c' ∧ runtimeLogs c' = runtimeLogs c.
Proof.
  intros (Hphase & Hen & Hfail & r & Hlogs & Hr & Hsize) Hc.
  destruct (add_ring_holds line h r Hr) as (r' & Hadd & Hr' & Hlen).
  unfold recordProcessLog, isStartupLogPhase, captureStartupLogLine, RecordStartupLog, on.
  unfold mbind, eff_bind, deliver. cbn [fst snd]. rewrite Hphase, bool_decide_eq_true_2, Hen, Hlogs, Hadd by done.
  cbn [negb]. eexists _, _. split; [done|].
  match goal with |- starting _ _ (try_send line ?c1) ∧ _ => set (c1' := c1) end.
  assert (logPhase c1' = logPhaseStartup ∧ startupDiagnosticsEnabled c1' = true ∧
    startupFailure c1' = last_failure (h ++ [line]) ∧ startupLogs c1' = Some r' ∧ chan_holds hc c1' ∧
    runtimeLogs c1' = runtimeLogs c) as (Hp1 & He1 & Hf1 & Hl1 & Hc1 & Hr1).
  { unfold c1'. rewrite last_failure_snoc. destruct (isStartupFailureLog line); cbn; by split_and!. }
  destruct (try_send_rest line c1') as (Hp2 & He2 & Hf2 & Hl2 & Hr2 & _). split_and!.
  - unfold starting. rewrite Hp2, He2, Hf2, Hl2. split_and!; [done..|]. exists r'. by rewrite Hlen.
  - by apply chan_holds_send.
  - by rewrite Hr2.
Qed.

Lemma capture_running size h hc line c f :
  running size h c → chan_holds hc c →
  ∃ c' f', recordProcessLog line (c, f) = (Ok (), (c', f')) ∧
    running size (h ++ [line]) c' ∧ chan_holds (hc ++ [line]) c'.
Proof.
  intros (Hphase & Hen & r & Hlogs & Hr & Hsize) Hc.
  destruct (add_ring_holds line h r Hr) as (r' & Hadd & Hr' & Hlen).
  unfold recordProcessLog, isStartupLogPhase, captureRuntimeLogLine, RecordRuntimeLog, on.
  unfold mbind, eff_bind, deliver. cbn [fst snd]. rewrite Hphase, bool_decide_eq_false_2, Hlogs, Hadd by done.
  eexists _, _. split; [done|].
  destruct (try_send_rest line (set_runtime (Some r') c)) as (Hp2 & He2 & _ & _ & Hr2 & _). split.
  - unfold running. rewrite Hp2, He2, Hr2. split_and!; [done..|]. exists r'. by rewrite Hlen.
  - by apply chan_holds_send.
Qed.

(** Lines that reach the capturing loop. *)
Definition fits_buffer (line : string) : Prop := Z.of_nat (String.length line) < max_line.
Definition scanned (pipe : list string) : list (bool * string) := pair false <$> pipe.

Lemma capture_all (P : list string → CoreLogs → Prop) pipe h c f :
  (∀ h line c f, P h c → ∃ c' f', recordProcessLog line (c, f) = (Ok (), (c', f')) ∧ P (h ++ [line]) c') →
  Forall fits_buffer pipe → P h c →
  ∃ c' f', captureProcessLogs (scanned pipe) (c, f) = (Ok (), (c', f')) ∧ P (h ++ (drop_cr <$> pipe)) c'.
Proof.
  intros Hstep. revert h c f. induction pipe as [|line pipe IH]; intros h c f Hfits HP.
  { exists c, f. split; [done|]. by rewrite app_nil_r. }
  apply Forall_cons in Hfits as [Hline Hfits]. unfold fits_buffer in Hline.
  unfold scanned. cbn [fmap list_fmap captureProcessLogs]. destruct (Z.leb_spec max_line (Z.of_nat (String.length line))); [lia|].
  destruct (Hstep h (drop_cr line) c f HP) as (c1 & f1 & Hrec & HP1).
  destruct (IH _ c1 f1 Hfits HP1) as (c2 & f2 & Hrest & HP2).
  exists c2, f2. unfold mbind, eff_bind. rewrite Hrec. split; [exact Hrest|].
  rewrite <- app_assoc in HP2. exact HP2.
Qed.

Definition ring_size (size : Z) (c : CoreLogs) : nat :=
  let size := if size <=? 0 then startupLogSize c else size in
  Z.to_nat (if size <=? 0 then 200 else size).

(** A core before it starts: the rings it has are rings. *)
Definition logs_ready (c : CoreLogs) : Prop :=
  (∀ r, startupLogs c = Some r → ∃ h, ring_holds h r) ∧ ∃ r, runtimeLogs c = Some r ∧ ring_holds [] r.

Lemma enabled_starting size c :
  logs_ready c → starting (ring_size size c) [] (setStartupLogPhase (EnableStartupDiagnostics size c)).
Proof.
  intros [Hring _]. unfold starting, EnableStartupDiagnostics, ring_size. cbn.
  set (n := if (if size <=? 0 then startupLogSize c else size) <=? 0 then 200
            else if size <=? 0 then startupLogSize c else size).
  assert (0 < n). { unfold n. destruct (Z.leb_spec (if size <=? 0 then startupLogSize c else size) 0); lia. }
  split_and!; [done..|]. eexists. split; [done|].
  assert (length (lines (newStartupLogRing n)) = Z.to_nat n) as Hfresh.
  { unfold newStartupLogRing. cbn. rewrite length_replicate. by destruct (Z.leb_spec n 0); [lia|]. }
  destruct (startupLogs c) as [r|]; [|split; [apply new_ring_holds|done]].
  case_bool_decide as Hn; [|split; [apply new_ring_holds|done]].
  destruct (Hring r eq_refl) as [h Hh]. split; [by eapply reset_ring_holds|].
  unfold ring_reset. cbn. rewrite length_fmap. lia.
Qed.

(** ** Properties *)

(** A ring of [size] places (one, if [size] is not positive) returns the
    last lines added to it, oldest first: all it holds when [n] is not positive
    or too large, and else the last [n]; no index is ever out of range. *)
Theorem startup_ring_keeps_last_lines (size n : Z) (h : list string) :
  let places := Z.to_nat (Z.max 1 size) in
  ∃ r, foldl (λ r line, match r with Ok r => ring_add line r | Err e => Err e end)
         (Ok (newStartupLogRing size)) h = Ok r ∧
    ring_tail n r = Ok (last_n (tail_size n (places `min` length h)) h).
Proof.
  intros places.
  assert (∃ r, foldl (λ r line, match r with Ok r => ring_add line r | Err e => Err e end)
    (Ok (newStartupLogRing size)) h = Ok r ∧ ring_holds h r ∧ length (lines r) = places) as (r & Hrun & Hr & Hlen).
  { induction h as [|line h IH] using rev_ind.
    - eexists. split; [done|]. split; [apply new_ring_holds|]. unfold newStartupLogRing, places. cbn.
      rewrite length_replicate. destruct (Z.leb_spec size 0); lia.
    - destruct IH as (r & Hrun & Hr & Hlen). rewrite foldl_app. cbn [foldl]. rewrite Hrun.
      destruct (add_ring_holds line h r Hr) as (r' & -> & Hr' & Hlen'). exists r'. by rewrite Hlen'. }
  exists r. split; [done|]. by rewrite (ring_tail_spec n h r Hr), Hlen.
Qed.

(** C30: what is kept of the lines a core prints, when each is shorter than the
    scanner's buffer of 1 MiB ([fits_buffer]; [long_line_ends_capture] shows the
    capture ending at a longer one).  Until the switch to the
    run-time phase the diagnostics report the last fatal line and the last
    lines of the start; after the switch they report nothing, and the run-time
    tail holds the last lines since.  The log channel gets the lines of both
    phases, in order, as long as it has room. *)
Theorem core_logs_of_a_run (c : CoreLogs) (f : Files) (size n : Z) (boot run : list string)
    (Hready : logs_ready c) (Hchan : (length (logsChan c) ≤ logsChan_cap c)%nat)
    (Hboot : Forall fits_buffer boot) (Hrun : Forall fits_buffer run) :
  ∃ c1 f1 c2 f2 places,
    captureProcessLogs (scanned boot) (setStartupLogPhase (EnableStartupDiagnostics size c), f) = (Ok (), (c1, f1)) ∧
    LatestStartupFailure c1 = last_failure (drop_cr <$> boot) ∧
    StartupLogTail n c1 =
      Ok (last_n (tail_size n (ring_size size c `min` length boot)) (drop_cr <$> boot)) ∧
    RuntimeLogTail n c1 = Ok [] ∧
    captureProcessLogs (scanned run) (SwitchToRuntimeLogPhase c1, f1) = (Ok (), (c2, f2)) ∧
    LatestStartupFailure c2 = "" ∧ StartupLogTail n c2 = Ok [] ∧
    (length ∘ lines) <$> runtimeLogs c = Some places ∧
    RuntimeLogTail n c2 = Ok (last_n (tail_size n (places `min` length run)) (drop_cr <$> run)) ∧
    logsChan c2 = take (logsChan_cap c2) (logsChan c ++ (drop_cr <$> boot) ++ (drop_cr <$> run)).
Proof.
  pose proof (enabled_starting size c Hready) as Hstart. destruct Hready as [_ (rt & Hrt & Hrt0)].
  destruct (capture_all (λ h c', starting (ring_size size c) h c' ∧ chan_holds (logsChan c ++ h) c' ∧
    runtimeLogs c' = Some rt) boot [] (setStartupLogPhase (EnableStartupDiagnostics size c)) f) as (c1 & f1 & Hc1 & Hst1 & Hch1 & Hrt1).
  { intros h line c' f' (Hs & Hc & Hr). destruct (capture_starting _ h _ line c' f' Hs Hc) as (c'' & f'' & Hrec & Hs' & Hc' & Hr').
    exists c'', f''. rewrite <- app_assoc in Hc'. rewrite Hr'. by split_and!. }
  { done. }
  { rewrite app_nil_r. split_and!; [done| |done]. unfold chan_holds. cbn. by rewrite take_ge. }
  cbn [app] in Hst1, Hch1.
  destruct (capture_all (λ h c', running (length (lines rt)) h c' ∧
    chan_holds (logsChan c ++ (drop_cr <$> boot) ++ h) c') run [] (SwitchToRuntimeLogPhase c1) f1) as (c2 & f2 & Hc2 & Hst2 & Hch2).
  { intros h line c' f' [Hs Hc]. destruct (capture_running _ h _ line c' f' Hs Hc) as (c'' & f'' & Hrec & Hs' & Hc').
    exists c'', f''. rewrite <- !app_assoc in Hc'. by split_and!. }
  { done. }
  { rewrite app_nil_r. split; [|exact Hch1]. unfold running. cbn. rewrite Hrt1. split_and!; [done..|]. by exists rt. }
  exists c1, f1, c2, f2, (length (lines rt)). unfold LatestStartupFailure, StartupLogTail, RuntimeLogTail.
  destruct Hst1 as (_ & -> & -> & r1 & -> & Hr1 & Hlen1). destruct Hst2 as (_ & -> & r2 & -> & Hr2 & Hlen2).
  rewrite Hrt1, Hrt. cbn [app negb] in *.
  rewrite (ring_tail_spec n _ _ Hr1), (ring_tail_spec n _ _ Hr2), (ring_tail_spec n _ _ Hrt0), Hlen1, Hlen2, !length_fmap.
  split_and!; try done.
Qed.

Lemma core_logs_of_a_run_witness :
  let c := mkCoreLogs logPhaseRuntime None 2 "" false (Some (newStartupLogRing 10)) [] 3 None in
  let f := mkFiles 0 ∅ ∅ [] in
  ∃ c1 f1,
    captureProcessLogs (scanned ["Xray 26"; "Failed to start: port"; "bye"])
      (setStartupLogPhase (EnableStartupDiagnostics 0 c), f) = (Ok (), (c1, f1)) ∧
    LatestStartupFailure c1 = "Failed to start: port" ∧
    StartupLogTail 0 c1 = Ok ["Failed to start: port"; "bye"].
Proof.
  intros c f.
  assert (logs_ready c) as Hready.
  { split; [intros r Hr; discriminate Hr|]. exists (newStartupLogRing 10). split; [reflexivity|apply new_ring_holds]. }
  destruct (core_logs_of_a_run c f 0 0 ["Xray 26"; "Failed to start: port"; "bye"] [] Hready
    ltac:(cbn; lia) ltac:(repeat constructor; reflexivity) ltac:(constructor))
    as (c1 & f1 & c2 & f2 & places & Hrun & Hfail & Htail & _).
  exists c1, f1. split; [exact Hrun|]. split; [rewrite Hfail; vm_compute; reflexivity|].
  rewrite Htail. vm_compute. reflexivity.
Defined.

(** A line that does not fit the scanner's buffer ends the capture: the lines
    after it are never read. *)
Lemma long_line_ends_capture (line : string) (rest : list (bool * string)) (s : CoreLogs * Files) :
  max_line ≤ Z.of_nat (String.length line) → captureProcessLogs ((false, line) :: rest) s = (Ok (), s).
Proof. intros Hlong. cbn. by destruct (Z.leb_spec max_line (Z.of_nat (String.length line))); [|lia]. Qed.
