(* ===== verification/XrayAccount.v ===== *)
(** * Accounts of Xray users ([src/backend/xray/api/account.go])

    One constructor per Go account type; the interface [api.Account] is the
    sum.  UUID parsing and printing, and the marshalling of protobuf messages,
    are parameters. *)

From S2P Require Import Prelude GoString Messages.

#[local] Open Scope Z_scope.

(** [github.com/google/uuid]. *)
Class UuidLib := {
  UUID : Type;
  uuid_eq_dec :: EqDecision UUID;
  uuid_parse : string → result UUID;
  uuid_string : UUID → string;
  uuid_parse_string u : uuid_parse (uuid_string u) = Ok u
}.

Record BaseAccount := mkBase { Email : string; Level : Z }.

#[export] Instance BaseAccount_eq_dec : EqDecision BaseAccount.
Proof. solve_decision. Defined.

Section Accounts.
Context `{UuidLib}.

Inductive Account :=
  | VmessAccount (base : BaseAccount) (ID : UUID)
  | VlessAccount (base : BaseAccount) (ID : UUID) (Flow : string)
  | TrojanAccount (base : BaseAccount) (Password : string)
  | ShadowsocksTcpAccount (base : BaseAccount) (Password Method : string)
  | ShadowsocksAccount (base : BaseAccount) (Password : string)
  | HysteriaAccount (base : BaseAccount) (Auth : string).

#[global] Instance Account_eq_dec : EqDecision Account.
Proof. solve_decision. Defined.

Definition account_base (a : Account) : BaseAccount :=
  match a with
  | VmessAccount b _ | VlessAccount b _ _ | TrojanAccount b _ | ShadowsocksTcpAccount b _ _
  | ShadowsocksAccount b _ | HysteriaAccount b _ => b
  end.

Definition Account_GetEmail (a : Account) : string := Email (account_base a).
Definition Account_GetLevel (a : Account) : Z := Level (account_base a).

(** ** Ciphers *)

Definition CipherType_value (method : string) : option Z :=
  ({[ "aes-128-gcm" := 5; "aes-256-gcm" := 6; "chacha20-poly1305" := 7;
      "chacha20-ietf-poly1305" := 7; "xchacha20-poly1305" := 8;
      "xchacha20-ietf-poly1305" := 8; "none" := 9 ]} : gmap string Z) !! method.

(** [CipherType_name[9]]. *)
Definition cipher_none : string := "none".

(** ** Messages to the core *)

(** What the protobuf message of an account carries. *)
Inductive core_account :=
  | CoreVmess (id : string)
  | CoreVless (id flow : string)
  | CoreTrojan (password : string)
  | CoreShadowsocks (password : string) (cipher : Z)
  | CoreShadowsocks2022 (key : string)
  | CoreHysteria (auth : string).

#[global] Instance core_account_eq_dec : EqDecision core_account.
Proof. solve_decision. Defined.

(** [Message()], before marshalling: an unknown method gives the cipher 0. *)
Definition Account_Message (a : Account) : core_account :=
  match a with
  | VmessAccount _ id => CoreVmess (uuid_string id)
  | VlessAccount _ id flow => CoreVless (uuid_string id) flow
  | TrojanAccount _ password => CoreTrojan password
  | ShadowsocksTcpAccount _ password method =>
      CoreShadowsocks password (default 0 (CipherType_value method))
  | ShadowsocksAccount _ password => CoreShadowsocks2022 password
  | HysteriaAccount _ auth => CoreHysteria auth
  end.

(** ** Constructors *)

Definition base_of (user : option User) : BaseAccount := mkBase (GetEmail user) 0.

Definition NewVmessAccount (user : option User) : result Account :=
  match uuid_parse (from_option Vmess_Id "" (GetVmess (GetProxies user))) with
  | Err e => Err e
  | Ok id => Ok (VmessAccount (base_of user) id)
  end.

Definition NewVlessAccount (user : option User) : result Account :=
  let vless := GetVless (GetProxies user) in
  match uuid_parse (from_option Vless_Id "" vless) with
  | Err e => Err e
  | Ok id => Ok (VlessAccount (base_of user) id (from_option Vless_Flow "" vless))
  end.

Definition NewTrojanAccount (user : option User) : Account :=
  TrojanAccount (base_of user) (from_option Trojan_Password "" (GetTrojan (GetProxies user))).

Definition NewShadowsocksAccount (user : option User) : Account :=
  ShadowsocksAccount (base_of user)
    (from_option Shadowsocks_Password "" (GetShadowsocks (GetProxies user))).

Definition NewShadowsocksTcpAccount (user : option User) : Account :=
  let ss := GetShadowsocks (GetProxies user) in
  let method := from_option Shadowsocks_Method "" ss in
  let method := match CipherType_value method with Some _ => method | None => cipher_none end in
  ShadowsocksTcpAccount (base_of user) (from_option Shadowsocks_Password "" ss) method.

Definition NewHysteriaAccount (user : option User) : Account :=
  HysteriaAccount (base_of user) (from_option Hysteria_Auth "" (GetHysteria (GetProxies user))).

(** ** The accounts of a user ([setupUserAccount], [src/backend/xray/user.go]) *)

Record ProxySettings := mkSettings {
  PS_Vmess : option Account;
  PS_Vless : option Account;
  PS_Trojan : option Account;
  PS_Shadowsocks : option Account;
  PS_Shadowsocks2022 : option Account;
  PS_Hysteria : option Account
}.

(** [if user.GetProxies().GetX() != nil { ... }], where a failed construction
    leaves nil. *)
Definition if_present {A} (proxy : option A) (account : result Account) : option Account :=
  match proxy, account with
  | Some _, Ok a => Some a
  | _, _ => None
  end.

(** The error result is always nil. *)
Definition setupUserAccount (user : option User) : ProxySettings :=
  let p := GetProxies user in
  mkSettings
    (if_present (GetVmess p) (NewVmessAccount user))
    (if_present (GetVless p) (NewVlessAccount user))
    (if_present (GetTrojan p) (Ok (NewTrojanAccount user)))
    (if_present (GetShadowsocks p) (Ok (NewShadowsocksTcpAccount user)))
    (if_present (GetShadowsocks p) (Ok (NewShadowsocksAccount user)))
    (if_present (GetHysteria p) (Ok (NewHysteriaAccount user))).

(** ** Lemmas *)

(** Every account made for a user carries the user's email and level 0. *)
Lemma new_account_base user a :
  (NewVmessAccount user = Ok a ∨ NewVlessAccount user = Ok a ∨ NewTrojanAccount user = a ∨
   NewShadowsocksTcpAccount user = a ∨ NewShadowsocksAccount user = a ∨ NewHysteriaAccount user = a) →
  account_base a = base_of user.
Proof.
  unfold NewVmessAccount, NewVlessAccount.
  intros [Ha|[Ha|[<-|[<-|[<-|<-]]]]]; [repeat case_match; simplify_eq..| | | |]; done.
Qed.

(** The method of a plain Shadowsocks account is one the core knows. *)
Lemma tcp_method_known user :
  match NewShadowsocksTcpAccount user with
  | ShadowsocksTcpAccount _ _ method => is_Some (CipherType_value method)
  | _ => False
  end.
Proof. unfold NewShadowsocksTcpAccount. cbn. case_match eqn:Hm; [by rewrite Hm|by eexists]. Qed.
End Accounts.
