(* ===== verification/XrayInbound.v ===== *)
(** * Inbounds and their clients ([src/backend/xray/config.go], user.go, config_clone.go)

    An inbound of the Xray configuration with the accounts it serves, the full
    and the partial update of those accounts, and the cloning of a
    configuration.  The parts of the configuration the node only passes on are
    kept as JSON. *)

From S2P Require Import Prelude GoString Json Helper Messages XrayAccount.

#[local] Open Scope Z_scope.

(** [conf.LogConfig], [conf.RouterConfig], ...: the fields the node reads or
    sets; [rest] is what else the struct holds. *)
Record LogConfig := mkLog { AccessLog : string; ErrorLog : string; LogLevel : string; log_rest : json }.
Record RouterConfig := mkRouter { RuleList : option (list string); router_rest : json }.
Record APIConfig := mkAPI { API_Tag : string; API_Listen : string; API_Services : list string }.
Record Policy := mkPolicy { StatsUserUplink : bool; StatsUserDownlink : bool; policy_rest : json }.
Record SystemPolicy := mkSystem {
  StatsInboundUplink : bool; StatsInboundDownlink : bool;
  StatsOutboundUplink : bool; StatsOutboundDownlink : bool
}.
Record PolicyConfig := mkPolicyConfig {
  Levels : option (gmap Z (option Policy)); System : option SystemPolicy
}.

Section Inbounds.
Context `{UuidLib} `{Sha256}.

(** [clients] is never serialized, and a nil map reads as an empty one. *)
Record Inbound := mkInbound {
  In_Tag : string;
  In_Listen : string;
  In_Port : json;
  In_Protocol : string;
  In_Settings : option (gmap string json);
  In_rest : json;
  exclude : bool;
  clients : gmap string Account
}.

Record Config := mkConfig {
  C_Log : option LogConfig;
  C_Router : option RouterConfig;
  C_Inbounds : list Inbound;
  C_Outbounds : json;
  C_Policy : option PolicyConfig;
  C_API : option APIConfig;
  C_Metrics : option (gmap string json);
  C_Observatory : option (gmap string json);
  C_BurstObservatory : option (gmap string json);
  C_rest : json
}.

Definition set_clients (m : gmap string Account) (i : Inbound) : Inbound :=
  mkInbound (In_Tag i) (In_Listen i) (In_Port i) (In_Protocol i) (In_Settings i) (In_rest i) (exclude i) m.
Definition set_exclude (b : bool) (i : Inbound) : Inbound :=
  mkInbound (In_Tag i) (In_Listen i) (In_Port i) (In_Protocol i) (In_Settings i) (In_rest i) b (clients i).
Definition set_inbounds (l : list Inbound) (c : Config) : Config :=
  mkConfig (C_Log c) (C_Router c) l (C_Outbounds c) (C_Policy c) (C_API c) (C_Metrics c)
    (C_Observatory c) (C_BurstObservatory c) (C_rest c).

(** ** Which account a user has on an inbound (user.go) *)

(** [inbound.Settings[key].(string)]. *)
Definition setting_string (i : Inbound) (key : string) : option string :=
  match In_Settings i ≫= (.!! key) with
  | Some (JStr s) => Some s
  | _ => None
  end.

Definition inboundFlow (i : Inbound) : string := default "" (setting_string i "flow").

Definition accountForAPI (inbound : Inbound) (account : Account) : Account :=
  match account with
  | VlessAccount base id flow =>
      let overrideFlow := inboundFlow inbound in
      if bool_decide (overrideFlow = "") then account else VlessAccount base id overrideFlow
  | _ => account
  end.

(** Only Shadowsocks 2022 accounts are passed to it. *)
Definition checkShadowsocks2022 (method : string) (account : Account) : Account :=
  match account with
  | ShadowsocksAccount base password => ShadowsocksAccount base (EnsureBase64Password password method)
  | _ => account
  end.

Definition is_2022 (method : string) : bool := HasPrefix method "2022-blake3".

Definition isActiveInbound (inbound : Inbound) (inbounds : list string) (settings : ProxySettings)
    : option Account :=
  if slices_Contains inbounds (In_Tag inbound) then
    if bool_decide (In_Protocol inbound = "vless") then PS_Vless settings
    else if bool_decide (In_Protocol inbound = "vmess") then PS_Vmess settings
    else if bool_decide (In_Protocol inbound = "trojan") then PS_Trojan settings
    else if bool_decide (In_Protocol inbound = "shadowsocks") then
      match setting_string inbound "method" with
      | Some method =>
          if is_2022 method then checkShadowsocks2022 method <$> PS_Shadowsocks2022 settings
          else PS_Shadowsocks settings
      | None => PS_Shadowsocks settings
      end
    else if bool_decide (In_Protocol inbound = "hysteria") then PS_Hysteria settings
    else None
  else None.

(** ** Full synchronisation of an inbound (config.go) *)

(** The loop of one protocol: users without the proxy or without the inbound
    are skipped, and so are accounts that cannot be made. *)
Definition sync_loop {A} (tag : string) (proxy : option Proxy → option A)
    (account : option User → result Account) (users : list (option User)) : gmap string Account :=
  foldl (λ m user,
    match proxy (GetProxies user) with
    | None => m
    | Some _ =>
        if slices_Contains (GetInbounds user) tag then
          match account user with
          | Err _ => m
          | Ok a => <[GetEmail user := a]> m
          end
        else m
    end) ∅ users.

Definition Inbound_syncUsers (users : list (option User)) (i : Inbound) : Inbound :=
  let tag := In_Tag i in
  set_clients
    (if bool_decide (In_Protocol i = "vmess") then sync_loop tag GetVmess NewVmessAccount users
     else if bool_decide (In_Protocol i = "vless") then sync_loop tag GetVless NewVlessAccount users
     else if bool_decide (In_Protocol i = "trojan") then
       sync_loop tag GetTrojan (λ u, Ok (NewTrojanAccount u)) users
     else if bool_decide (In_Protocol i = "shadowsocks") then
       match setting_string i "method" with
       | Some method =>
           if is_2022 method
           then sync_loop tag GetShadowsocks
                  (λ u, Ok (checkShadowsocks2022 method (NewShadowsocksAccount u))) users
           else sync_loop tag GetShadowsocks (λ u, Ok (NewShadowsocksTcpAccount u)) users
       | None => sync_loop tag GetShadowsocks (λ u, Ok (NewShadowsocksTcpAccount u)) users
       end
     else if bool_decide (In_Protocol i = "hysteria") then
       sync_loop tag GetHysteria (λ u, Ok (NewHysteriaAccount u)) users
     else ∅) i.

Definition Config_syncUsers (users : list (option User)) (c : Config) : Config :=
  set_inbounds ((λ i, if exclude i then i else Inbound_syncUsers users i) <$> C_Inbounds c) c.

(** ** Partial updates *)

(** The account type an inbound's protocol stores. *)
Definition fits (i : Inbound) (a : Account) : option Account :=
  if bool_decide (In_Protocol i = "vmess") then
    match a with VmessAccount _ _ => Some a | _ => None end
  else if bool_decide (In_Protocol i = "vless") then
    match a with VlessAccount _ _ _ => Some a | _ => None end
  else if bool_decide (In_Protocol i = "trojan") then
    match a with TrojanAccount _ _ => Some a | _ => None end
  else if bool_decide (In_Protocol i = "shadowsocks") then
    match setting_string i "method" with
    | Some method =>
        if is_2022 method then
          match a with ShadowsocksAccount _ _ => Some (checkShadowsocks2022 method a) | _ => None end
        else match a with ShadowsocksTcpAccount _ _ _ => Some a | _ => None end
    | None => match a with ShadowsocksTcpAccount _ _ _ => Some a | _ => None end
    end
  else if bool_decide (In_Protocol i = "hysteria") then
    match a with HysteriaAccount _ _ => Some a | _ => None end
  else None.

(** [updateUsers]: the additions, then the removals. *)
Definition Inbound_updateUsers (accounts : list Account) (removeEmails : list string) (i : Inbound)
    : Inbound :=
  let m := foldl (λ m a,
             match fits i a with
             | Some a' => <[Account_GetEmail a := a']> m
             | None => m
             end) (clients i) accounts in
  set_clients (foldl (λ m e, delete e m) m removeEmails) i.

(** [updateUser]: any account type is stored; a Shadowsocks 2022 password is
    normalised with whatever method the inbound has. *)
Definition Inbound_updateUser (account : Account) (i : Inbound) : Inbound :=
  let a :=
    match account, setting_string i "method" with
    | ShadowsocksAccount _ _, Some method => checkShadowsocks2022 method account
    | _, _ => account
    end in
  set_clients (<[Account_GetEmail account := a]> (clients i)) i.

Definition Inbound_removeUser (email : string) (i : Inbound) : Inbound :=
  set_clients (delete email (clients i)) i.

(** The accounts to add, in the order of the users, and the emails to remove. *)
Record inboundUpdate := mkUpdate { up_accounts : list Account; up_removeEmailSet : gset string }.

Definition no_update : inboundUpdate := mkUpdate [] ∅.

(** What one user adds to the update of an inbound. *)
Definition update_user (i : Inbound) (u : inboundUpdate) (user : option User) : inboundUpdate :=
  match isActiveInbound i (GetInbounds user) (setupUserAccount user) with
  | Some account => mkUpdate (up_accounts u ++ [account]) (up_removeEmailSet u)
  | None => mkUpdate (up_accounts u) ({[ GetEmail user ]} ∪ up_removeEmailSet u)
  end.

(** The included inbounds by tag: a later inbound hides an earlier one with
    the same tag. *)
Definition inbound_by_tag (c : Config) : gmap string Inbound :=
  foldl (λ m i, if exclude i then m else <[In_Tag i := i]> m) ∅ (C_Inbounds c).

(** The inner loop visits the tags in any order, each its own update. *)
Definition buildInboundUpdates (c : Config) (users : list (option User))
    : gmap string (Inbound * inboundUpdate) :=
  (λ i, (i, foldl (update_user i) no_update users)) <$> inbound_by_tag c.

(** [inbound.updateUsers(...)] for the inbound a tag stands for: the last
    included inbound of the list with that tag. *)
Fixpoint update_last (tag : string) (f : Inbound → Inbound) (l : list Inbound) : list Inbound :=
  match l with
  | [] => []
  | i :: l =>
      if bool_decide (In_Tag i = tag) && negb (exclude i) &&
         negb (existsb (λ j, bool_decide (In_Tag j = tag) && negb (exclude j)) l)
      then f i :: l else i :: update_last tag f l
  end.

Definition update_inbound (tag : string) (f : Inbound → Inbound) (c : Config) : Config :=
  set_inbounds (update_last tag f (C_Inbounds c)) c.

(** [Config.updateUsers]; [ρ] is the order the updates, and each set of emails,
    are visited in. *)
Definition set_range (ρ : map_range) (s : gset string) : list string :=
  (range_of ρ (gset_to_gmap () s)).*1.

Definition Config_updateUsers (ρ : map_range) (users : list (option User)) (c : Config) : Config :=
  foldl (λ c '(tag, (i, u)),
    update_inbound tag (Inbound_updateUsers (up_accounts u) (set_range ρ (up_removeEmailSet u))) c)
    c (range_of ρ (buildInboundUpdates c users)).

(** ** Cloning (config_clone.go) *)

(** The runtime fields a configuration loses when it is printed and parsed. *)
Definition forget_runtime (i : Inbound) : Inbound := set_clients ∅ (set_exclude false i).

(** The inbound a tag had in the original: the last one. *)
Definition original_by_tag (c : Config) : gmap string Inbound :=
  foldl (λ m i, <[In_Tag i := i]> m) ∅ (C_Inbounds c).

(** The struct of an account is copied. *)
Definition cloneAccount (account : Account) : Account :=
  match account with
  | VmessAccount base id => VmessAccount base id
  | VlessAccount base id flow => VlessAccount base id flow
  | TrojanAccount base password => TrojanAccount base password
  | ShadowsocksTcpAccount base password method => ShadowsocksTcpAccount base password method
  | ShadowsocksAccount base password => ShadowsocksAccount base password
  | HysteriaAccount base auth => HysteriaAccount base auth
  end.

(** The keys are distinct, so the order they are copied in is irrelevant. *)
Definition cloneClients (clients : gmap string Account) : gmap string Account := cloneAccount <$> clients.

(** [reparse] is [json.Marshal] followed by [json.Unmarshal]. *)
Definition Config_Clone (reparse : Config → result Config) (c : Config) : result Config :=
  match reparse c with
  | Err e => Err e
  | Ok cloned =>
      Ok (set_inbounds
            ((λ i,
                match original_by_tag c !! In_Tag i with
                | None => set_clients ∅ i
                | Some original => set_clients (cloneClients (clients original)) (set_exclude (exclude original) i)
                end) <$> C_Inbounds cloned) cloned)
  end.

(** ** Creation ([NewConfig]) *)

(** [json.Unmarshal] gives the inbounds, nil for a JSON null, on which the
    loop panics. *)
Definition NewConfig (unmarshal : string → result (Config * list (option Inbound)))
    (config : string) (excluded : list string) : result Config :=
  match unmarshal config with
  | Err e => Err e
  | Ok (c, inbounds) =>
      match mapM id inbounds with
      | None => Err nil_deref
      | Some l =>
          Ok (set_inbounds ((λ i, if slices_Contains excluded (In_Tag i) then set_exclude true i else i) <$> l) c)
      end
  end.
End Inbounds.
