(* ===== verification/XrayClients.v ===== *)
(** * What synchronisation does to the clients of an inbound

    The per-protocol loops of [syncUsers] and the incremental [updateUsers]
    both come down to one function, the account a user has on an inbound
    ([active]); cloning gives back the same configuration. *)

From S2P Require Import Prelude GoString Json Helper Messages XrayAccount XrayInbound.

#[local] Open Scope Z_scope.

Section Clients.
Context `{UuidLib} `{Sha256}.
Implicit Types (i : Inbound) (u : option User) (us : list (option User)).

(** ** One function for all protocols *)

Definition active i u : option Account := isActiveInbound i (GetInbounds u) (setupUserAccount u).

(** Apply the user's account to a map of clients. *)
Definition apply_active i (m : gmap string Account) u : gmap string Account :=
  match active i u with
  | Some a => <[GetEmail u := a]> m
  | None => m
  end.

Lemma sync_loop_eq {A} i (proxy : option Proxy → option A) account us :
  (∀ u, active i u =
     if slices_Contains (GetInbounds u) (In_Tag i)
     then if_present (proxy (GetProxies u)) (account u) else None) →
  sync_loop (In_Tag i) proxy account us = foldl (apply_active i) ∅ us.
Proof.
  intros Ha. unfold sync_loop. apply foldl_ext. intros m u _. unfold apply_active. rewrite Ha.
  unfold if_present. by repeat case_match.
Qed.

Lemma if_present_fmap {A} (p : option A) (f : Account → Account) a :
  f <$> if_present p (Ok a) = if_present p (Ok (f a)).
Proof. by destruct p. Qed.

(** [syncUsers] on an inbound of any protocol. *)
Lemma syncUsers_eq us i :
  Inbound_syncUsers us i = set_clients (foldl (apply_active i) ∅ us) i.
Proof.
  unfold Inbound_syncUsers. f_equal.
  repeat match goal with |- context [bool_decide (In_Protocol i = ?p)] =>
    destruct (bool_decide_reflect (In_Protocol i = p)) as [Hp|?] end;
    try (apply sync_loop_eq; intros u; unfold active, isActiveInbound; rewrite Hp; by repeat case_match).
  - destruct (setting_string i "method") as [method|] eqn:Hm; [destruct (is_2022 method) eqn:H2|];
      apply sync_loop_eq; intros u; unfold active, isActiveInbound; rewrite Hp, Hm, ?H2; cbn;
      rewrite ?if_present_fmap; by repeat case_match.
  - assert (∀ u, active i u = None) as Hn.
    { intros u. unfold active, isActiveInbound. repeat (rewrite bool_decide_eq_false_2 by done).
      by case_match. }
    induction us as [|u us IH] using rev_ind; [done|]. rewrite foldl_snoc, <- IH.
    unfold apply_active. by rewrite Hn.
Qed.

Lemma checked_base method a : account_base (checkShadowsocks2022 method a) = account_base a.
Proof. by destruct a. Qed.

(** An active account carries the user's email. *)
Lemma active_email i u a : active i u = Some a → Account_GetEmail a = GetEmail u.
Proof.
  unfold active, isActiveInbound, setupUserAccount, Account_GetEmail. cbn. intros Ha.
  assert (account_base a = base_of u) as ->; [|done]. revert Ha. unfold if_present.
  repeat case_match; intros Ha; simplify_eq; rewrite ?fmap_Some in *; destruct_and?; simplify_eq;
    try (by eapply new_account_base; eauto);
    try (destruct Ha as (b & Hb & ->); rewrite checked_base; simplify_eq; done); done.
Qed.

(** ** Full synchronisation *)

(** The account of the last entry of an email that has one. *)
Definition last_active i us (e : string) (a : Account) : Prop :=
  ∃ pre u post, us = pre ++ u :: post ∧ GetEmail u = e ∧ active i u = Some a ∧
    ∀ u', u' ∈ post → GetEmail u' = e → active i u' = None.

Lemma last_active_snoc i us u e a :
  last_active i (us ++ [u]) e a ↔
  (GetEmail u = e ∧ active i u = Some a) ∨
  (last_active i us e a ∧ (GetEmail u = e → active i u = None)).
Proof.
  split.
  - intros (pre & v & post & Heq & He & Ha & Hpost).
    destruct post as [|w post _] using rev_ind.
    + apply app_inj_tail in Heq as [-> ->]. by left.
    + rewrite app_comm_cons, (assoc_L (++)) in Heq. apply app_inj_tail in Heq as [-> ->].
      right. split; [|intros; apply Hpost; set_solver].
      exists pre, v, post. split_and!; [done..|]. intros u' Hu'. apply Hpost. set_solver.
  - intros [[He Ha]|[(pre & v & post & -> & He & Ha & Hpost) Hu]].
    + exists us, u, []. split_and!; [done..|]. set_solver.
    + exists pre, v, (post ++ [u]). split_and!; [by rewrite <- (assoc_L (++))|done|done|].
      intros u' [Hu'| ->%list_elem_of_singleton]%elem_of_app; [by apply Hpost|by apply Hu].
Qed.

Lemma synced_lookup i us e a :
  foldl (apply_active i) ∅ us !! e = Some a ↔ last_active i us e a.
Proof.
  induction us as [|u us IH] using rev_ind.
  - split; [cbn [foldl]; by rewrite lookup_empty|]. intros ([|? ?] & ? & ? & ? & _); done.
  - rewrite foldl_snoc, last_active_snoc, <- IH. unfold apply_active.
    destruct (active i u) as [b|] eqn:Hb.
    + destruct (decide (GetEmail u = e)) as [<-|Hne].
      * rewrite lookup_insert_eq. split; [intros [= <-]; by left|].
        intros [[_ [= <-]]|[_ Hn]]; [done|]. by specialize (Hn eq_refl).
      * rewrite lookup_insert_ne by done. naive_solver.
    + naive_solver.
Qed.

(** ** Partial updates *)

Lemma update_accounts i us acc :
  foldl (update_user i) acc us =
  mkUpdate (up_accounts acc ++ omap (active i) us)
    (list_to_set (GetEmail <$> filter (λ u, active i u = None) us) ∪ up_removeEmailSet acc).
Proof.
  revert acc. induction us as [|u us IH]; intros [l s]; cbn [foldl omap].
  - cbn. by rewrite app_nil_r, union_empty_l_L.
  - rewrite IH. unfold update_user. fold (active i u). rewrite filter_cons.
    destruct (active i u) as [a|] eqn:Ha; cbn [up_accounts up_removeEmailSet].
    + rewrite decide_False by done. cbn. rewrite Ha. cbn. by rewrite <- (assoc_L (++)).
    + rewrite decide_True by done. cbn. rewrite Ha. f_equal. set_solver.
Qed.

(** Shadowsocks 2022 passwords are normalised twice on the partial path; the
    methods the core knows make that harmless. *)
Definition known_method i : Prop :=
  ∀ method, setting_string i "method" = Some method → is_2022 method = true →
    xorb (is_aes128 method) (is_long_key method) = true.

Lemma recheck method a : xorb (is_aes128 method) (is_long_key method) = true →
  checkShadowsocks2022 method (checkShadowsocks2022 method a) = checkShadowsocks2022 method a.
Proof. intros Hm. destruct a; cbn; try done. f_equal. by apply ensure_twice. Qed.

Lemma fits_active i u a : known_method i → active i u = Some a → fits i a = Some a.
Proof.
  intros Hk. unfold active, isActiveInbound, setupUserAccount, fits, if_present,
    NewVmessAccount, NewVlessAccount. cbn.
  destruct (setting_string i "method") as [method|] eqn:Hm; [destruct (is_2022 method) eqn:H2|];
    repeat case_match; intros Ha; simplify_eq/=; try done;
    rewrite ?bool_decide_eq_true, ?bool_decide_eq_false in *; try congruence.
  all: f_equal; apply (recheck method (ShadowsocksAccount _ _)); by apply Hk.
Qed.

(** What [updateUser] stores for an active account is the account. *)
Lemma updateUser_stored i u a : known_method i → active i u = Some a →
  match a, setting_string i "method" with
  | ShadowsocksAccount _ _, Some method => checkShadowsocks2022 method a
  | _, _ => a
  end = a.
Proof.
  intros Hk. unfold active, isActiveInbound, setupUserAccount, if_present, NewVmessAccount, NewVlessAccount.
  cbn. destruct (setting_string i "method") as [method|] eqn:Hm; [destruct (is_2022 method) eqn:H2|];
    repeat case_match; intros Ha; simplify_eq/=; try done.
  all: apply (recheck method (ShadowsocksAccount _ _)); by apply Hk.
Qed.

Lemma apply_all_lookup i m us e :
  foldl (apply_active i) m us !! e =
  match foldl (apply_active i) ∅ us !! e with Some a => Some a | None => m !! e end.
Proof.
  induction us as [|u us IH] using rev_ind; [by cbn [foldl]; rewrite lookup_empty|].
  rewrite !foldl_snoc. unfold apply_active at 1 3. destruct (active i u); [|done].
  destruct (decide (GetEmail u = e)) as [<-|]; [by rewrite !lookup_insert_eq|].
  by rewrite !lookup_insert_ne.
Qed.

Lemma added_accounts i m us : known_method i →
  foldl (λ m a, match fits i a with
                | Some a' => <[Account_GetEmail a := a']> m
                | None => m
                end) m (omap (active i) us) = foldl (apply_active i) m us.
Proof.
  intros Hk. revert m. induction us as [|u us IH]; intros m; [done|]. cbn [omap list_omap foldl].
  unfold apply_active at 2. destruct (active i u) as [a|] eqn:Ha; [|by rewrite <- IH].
  cbn [foldl]. by rewrite (fits_active i u a Hk Ha), (active_email i u a Ha), <- IH.
Qed.

Lemma delete_all_lookup (l : list string) (m : gmap string Account) e :
  foldl (λ m e, delete e m) m l !! e = if bool_decide (e ∈ l) then None else m !! e.
Proof.
  revert m. induction l as [|d l IH]; intros m; [done|]. cbn [foldl]. rewrite IH.
  destruct (decide (e = d)) as [->|Hne].
  - rewrite lookup_delete_eq, (bool_decide_eq_true_2 (d ∈ d :: l)) by set_solver. by case_match.
  - rewrite lookup_delete_ne by done. destruct (decide (e ∈ l)).
    + by rewrite !bool_decide_eq_true_2 by set_solver.
    + by rewrite !bool_decide_eq_false_2 by set_solver.
Qed.

Lemma elem_of_set_range (ρ : map_range) s e : e ∈ set_range ρ s ↔ e ∈ s.
Proof.
  unfold set_range. rewrite list_elem_of_fmap. split.
  - intros ([k []] & -> & Hin%elem_of_range). by apply lookup_gset_to_gmap_Some in Hin as [? _].
  - intros He. exists (e, ()). split; [done|]. apply elem_of_range. by apply lookup_gset_to_gmap_Some.
Qed.

(** The update of one inbound for a request. *)
Definition request_update (ρ : map_range) us i : Inbound :=
  let upd := foldl (update_user i) no_update us in
  Inbound_updateUsers (up_accounts upd) (set_range ρ (up_removeEmailSet upd)) i.

Lemma keyed_unique {A B} (f : A → B) (l : list A) x y : NoDup (f <$> l) → x ∈ l → y ∈ l → f x = f y → x = y.
Proof.
  induction l as [|w l IH]; [set_solver|]. rewrite fmap_cons, NoDup_cons. intros [Hw Hnd] Hx Hy He.
  apply elem_of_cons in Hx as [->|Hx], Hy as [->|Hy]; [done| | |by apply IH].
  - exfalso. apply Hw. rewrite He. by apply list_elem_of_fmap_2.
  - exfalso. apply Hw. rewrite <- He. by apply list_elem_of_fmap_2.
Qed.

(** Removing and adding disjoint sets of users can be swapped. *)
Lemma puts_then_deletes {B} (f : Account → B) (l : list Account) (dels : list string) (m : gmap string B) :
  (∀ a, a ∈ l → Account_GetEmail a ∉ dels) →
  foldl (λ m a, <[Account_GetEmail a := f a]> m) (foldl (λ m e, delete e m) m dels) l =
  foldl (λ m e, delete e m) (foldl (λ m a, <[Account_GetEmail a := f a]> m) m l) dels.
Proof.
  intros Hdis. revert m. induction l as [|a l IH]; intros m; [done|]. cbn [foldl].
  rewrite <- IH by set_solver. f_equal.
  assert (Account_GetEmail a ∉ dels) as Hn by (apply Hdis; set_solver). clear Hdis IH.
  revert m. induction dels as [|e dels IH]; intros m; [done|]. cbn [foldl].
  rewrite IH, delete_insert_ne by set_solver. done.
Qed.

(** An update adds and removes different users. *)
Lemma update_disjoint ρ us i : NoDup (GetEmail <$> us) →
  let upd := foldl (update_user i) no_update us in
  ∀ a, a ∈ up_accounts upd → Account_GetEmail a ∉ set_range ρ (up_removeEmailSet upd).
Proof.
  intros Hnd upd a Ha He. unfold upd in *. rewrite update_accounts in *. cbn in Ha, He.
  apply elem_of_set_range in He. rewrite union_empty_r_L, elem_of_list_to_set, list_elem_of_fmap in He.
  destruct He as (u & Heq & [Hnone Hu]%list_elem_of_filter).
  apply list_elem_of_omap in Ha as (v & Hv & Hact).
  assert (u = v) as ->.
  { apply (keyed_unique GetEmail us); [done..|]. rewrite <- Heq. exact (active_email _ _ _ Hact). }
  congruence.
Qed.

(** With one entry per user, a partial update gives the users it names the
    accounts a full synchronisation would, and keeps the others. *)
Lemma request_update_lookup ρ us i e : known_method i → NoDup (GetEmail <$> us) →
  clients (request_update ρ us i) !! e =
  if bool_decide (e ∈ GetEmail <$> us) then clients (Inbound_syncUsers us i) !! e else clients i !! e.
Proof.
  intros Hk Hnd. unfold request_update. rewrite syncUsers_eq, update_accounts. cbn.
  rewrite added_accounts, delete_all_lookup, apply_all_lookup by done.
  rewrite union_empty_r_L. set (gone := filter (λ u, active i u = None) us).
  assert (e ∈ set_range ρ (list_to_set (GetEmail <$> gone)) ↔
    ∃ u, u ∈ us ∧ GetEmail u = e ∧ active i u = None) as Hgone.
  { rewrite elem_of_set_range, elem_of_list_to_set, list_elem_of_fmap. unfold gone.
    setoid_rewrite list_elem_of_filter. naive_solver. }
  destruct (foldl (apply_active i) ∅ us !! e) as [a|] eqn:Hf.
  - apply synced_lookup in Hf as (pre & u & post & -> & He & Ha & _).
    rewrite bool_decide_eq_false_2.
    + rewrite bool_decide_eq_true_2; [done|]. rewrite <- He. apply list_elem_of_fmap_2. set_solver.
    + rewrite Hgone. intros (v & Hv & Hve & Hn).
      assert (v = u) as -> by (eapply (keyed_unique GetEmail); [done|done|set_solver|congruence]). congruence.
  - destruct (decide (e ∈ GetEmail <$> us)) as [Hin|Hin].
    + rewrite (bool_decide_eq_true_2 (e ∈ _ <$> _)) by done. rewrite bool_decide_eq_true_2; [done|].
      apply Hgone. apply list_elem_of_fmap in Hin as (u & -> & Hu). exists u. split_and!; [done..|].
      destruct (active i u) as [a|] eqn:Ha; [|done]. exfalso.
      apply list_elem_of_split in Hu as (pre & post & ->).
      assert (foldl (apply_active i) ∅ (pre ++ u :: post) !! GetEmail u = Some a) as Hs.
      { apply synced_lookup. exists pre, u, post. split_and!; [done..|]. intros v Hv Hve. exfalso.
        rewrite fmap_app, fmap_cons, NoDup_app, NoDup_cons in Hnd. destruct Hnd as (_ & _ & Hu & _).
        apply Hu. rewrite <- Hve. by apply list_elem_of_fmap_2. }
      congruence.
    + rewrite (bool_decide_eq_false_2 (e ∈ _ <$> _)) by done. rewrite bool_decide_eq_false_2; [done|].
      rewrite Hgone. intros (u & Hu & <- & _). apply Hin. by apply list_elem_of_fmap_2.
Qed.

(** ** The whole configuration *)

Definition tags (c : Config) : list string := In_Tag <$> C_Inbounds c.

(** [f] keeps what an inbound is looked up by. *)
Definition keeps_tag (f : Inbound → Inbound) : Prop := ∀ i, In_Tag (f i) = In_Tag i ∧ exclude (f i) = exclude i.

Lemma fmap_same {A} (f : A → A) (l : list A) : (∀ x, x ∈ l → f x = x) → f <$> l = l.
Proof. induction l as [|x l IH]; intros Hf; [done|]. rewrite fmap_cons, Hf, IH by set_solver. done. Qed.

Lemma set_inbounds_same c : set_inbounds (C_Inbounds c) c = c.
Proof. by destruct c. Qed.

Lemma update_last_nodup tag f l : NoDup (In_Tag <$> l) →
  update_last tag f l =
  (λ i, if bool_decide (In_Tag i = tag) && negb (exclude i) then f i else i) <$> l.
Proof.
  induction l as [|i l IH]; [done|]. rewrite fmap_cons, NoDup_cons. intros [Hi Hnd].
  cbn [update_last]. rewrite fmap_cons. destruct (bool_decide_reflect (In_Tag i = tag)) as [<-|Hne].
  - replace (existsb _ l) with false.
    2: { symmetry. apply not_true_is_false. intros (j & Hj & [Ht%bool_decide_eq_true _]%andb_true_iff)%existsb_exists.
         apply Hi. rewrite <- Ht. apply list_elem_of_fmap_2. by apply list_elem_of_In. }
    cbn [andb negb]. rewrite andb_true_r. destruct (exclude i); cbn [negb]; f_equal;
      [by apply IH|].
    symmetry. apply fmap_same. intros j Hj.
    rewrite bool_decide_eq_false_2; [done|]. intros Ht. apply Hi. rewrite <- Ht.
    by apply list_elem_of_fmap_2.
  - cbn [andb]. by rewrite IH.
Qed.

(** Updating one inbound after another, each by its own tag. *)
Lemma update_each (todo : list (string * (Inbound * inboundUpdate))) (g : inboundUpdate → Inbound → Inbound) c :
  NoDup (tags c) → NoDup todo.*1 → (∀ w, keeps_tag (g w)) →
  foldl (λ c '(tag, (_, w)), update_inbound tag (g w) c) c todo =
  set_inbounds ((λ i,
    if exclude i then i
    else match (list_to_map todo : gmap string _) !! In_Tag i with
         | Some (_, w) => g w i
         | None => i
         end) <$> C_Inbounds c) c.
Proof.
  intros Hnd Htodo Hg. induction todo as [|[tag [j w]] todo IH] using rev_ind.
  - cbn [foldl]. rewrite fmap_same; [by rewrite set_inbounds_same|].
    intros i _. cbn. rewrite lookup_empty. by destruct (exclude i).
  - rewrite fmap_app, NoDup_app in Htodo. destruct Htodo as (Ht1 & Ht2 & _).
    rewrite foldl_snoc, IH by done. unfold update_inbound. cbn [C_Inbounds set_inbounds].
    assert ((list_to_map todo : gmap string (Inbound * inboundUpdate)) !! tag = None) as Hno.
    { apply not_elem_of_list_to_map_1. intros Hin. apply (Ht2 tag Hin). set_solver. }
    assert (∀ k, (list_to_map (todo ++ [(tag, (j, w))]) : gmap string (Inbound * inboundUpdate)) !! k =
      if bool_decide (k = tag) then Some (j, w) else (list_to_map todo : gmap string _) !! k) as Hlook.
    { intros k. rewrite list_to_map_app, lookup_union. cbn. rewrite insert_empty.
      case_bool_decide as Hk; [subst k; by rewrite Hno, lookup_singleton_eq|].
      rewrite lookup_singleton_ne by done. by destruct (list_to_map todo !! k). }
    set (before := λ i : Inbound, if exclude i then i else
      match (list_to_map todo : gmap string (Inbound * inboundUpdate)) !! In_Tag i with
      | Some (_, w') => g w' i | None => i end).
    assert (∀ i, In_Tag (before i) = In_Tag i ∧ exclude (before i) = exclude i) as Hb.
    { intros i. unfold before. destruct (exclude i) eqn:He; [done|].
      destruct (list_to_map todo !! In_Tag i) as [[? w']|]; [|done]. rewrite <- He. apply Hg. }
    rewrite update_last_nodup.
    2: { rewrite <- list_fmap_compose. unfold tags in Hnd. erewrite list_fmap_ext; [exact Hnd|].
         intros k i _. apply Hb. }
    unfold set_inbounds. cbn. f_equal. rewrite <- list_fmap_compose. apply list_fmap_ext.
    intros k i _. cbn. destruct (Hb i) as [-> ->]. rewrite Hlook. unfold before.
    destruct (exclude i); [by rewrite andb_false_r|]. rewrite andb_true_r.
    case_bool_decide as Hi; [by rewrite Hi, Hno|done].
Qed.

Lemma updateUsers_keeps accounts removed : keeps_tag (Inbound_updateUsers accounts removed).
Proof. by intros i. Qed.

Lemma inbound_by_tag_lookup c i : NoDup (tags c) → i ∈ C_Inbounds c → exclude i = false →
  inbound_by_tag c !! In_Tag i = Some i.
Proof.
  unfold tags, inbound_by_tag. induction (C_Inbounds c) as [|j l IH] using rev_ind; [set_solver|].
  rewrite fmap_app, NoDup_app, foldl_snoc. intros (Hnd & Hj & _) Hi He.
  apply elem_of_app in Hi as [Hi| ->%list_elem_of_singleton].
  - destruct (exclude j); [by apply IH|]. rewrite lookup_insert_ne; [by apply IH|].
    intros Heq. apply (Hj (In_Tag i)); [by apply list_elem_of_fmap_2|]. rewrite <- Heq. set_solver.
  - by rewrite He, lookup_insert_eq.
Qed.

Lemma by_tag_elem c t i : inbound_by_tag c !! t = Some i → i ∈ C_Inbounds c ∧ exclude i = false ∧ In_Tag i = t.
Proof.
  unfold inbound_by_tag. induction (C_Inbounds c) as [|j l IH] using rev_ind; [done|]. rewrite foldl_snoc.
  destruct (exclude j) eqn:He; [intros Hi; destruct (IH Hi) as (? & ? & ?); set_solver|].
  intros [[<- <-]|[_ Hi]]%lookup_insert_Some; [split_and!; [set_solver|done..]|]. destruct (IH Hi) as (? & ? & ?). set_solver.
Qed.

Lemma by_tag_key c t i : inbound_by_tag c !! t = Some i → In_Tag i = t.
Proof. by intros (_ & _ & ?)%by_tag_elem. Qed.

(** The included inbounds each get the request's update. *)
Lemma Config_updateUsers_eq ρ us c : NoDup (tags c) →
  Config_updateUsers ρ us c =
  set_inbounds ((λ i, if exclude i then i else request_update ρ us i) <$> C_Inbounds c) c.
Proof.
  intros Hnd. unfold Config_updateUsers.
  rewrite (update_each _ (λ w, Inbound_updateUsers (up_accounts w) (set_range ρ (up_removeEmailSet w))));
    [|done|apply range_nodup|intros w; apply updateUsers_keeps].
  unfold set_inbounds. f_equal. apply list_fmap_ext. intros k i Hi.
  destruct (exclude i) eqn:He; [done|]. apply list_elem_of_lookup_2 in Hi.
  assert ((list_to_map (range_of ρ (buildInboundUpdates c us)) : gmap string _) !! In_Tag i =
    Some (i, foldl (update_user i) no_update us)) as ->; [|done].
  apply elem_of_list_to_map_1; [apply range_nodup|]. apply elem_of_range. unfold buildInboundUpdates.
  by rewrite lookup_fmap, (inbound_by_tag_lookup c i Hnd Hi He).
Qed.

(** ** Cloning *)

Lemma original_lookup c i : NoDup (tags c) → i ∈ C_Inbounds c → original_by_tag c !! In_Tag i = Some i.
Proof.
  unfold tags, original_by_tag. induction (C_Inbounds c) as [|j l IH] using rev_ind; [set_solver|].
  rewrite fmap_app, NoDup_app, foldl_snoc. intros (Hnd & Hj & _) [Hi| ->%list_elem_of_singleton]%elem_of_app.
  - rewrite lookup_insert_ne; [by apply IH|]. intros Heq.
    apply (Hj (In_Tag i)); [by apply list_elem_of_fmap_2|]. rewrite <- Heq. set_solver.
  - by rewrite lookup_insert_eq.
Qed.

(** Printing and parsing loses exactly the runtime fields. *)
Definition reparses (reparse : Config → result Config) (c : Config) : Prop :=
  reparse c = Ok (set_inbounds (forget_runtime <$> C_Inbounds c) c).

Lemma cloneClients_same (m : gmap string Account) : cloneClients m = m.
Proof.
  unfold cloneClients. rewrite <- (map_fmap_id m) at 2. apply map_fmap_ext. by intros ? [] _.
Qed.

Lemma Clone_same reparse c : NoDup (tags c) → reparses reparse c → Config_Clone reparse c = Ok c.
Proof.
  intros Hnd Hre. unfold Config_Clone. rewrite Hre. f_equal. cbn [C_Inbounds set_inbounds].
  rewrite <- list_fmap_compose. rewrite fmap_same; [by destruct c|].
  intros i Hi. cbn [compose]. change (In_Tag (forget_runtime i)) with (In_Tag i).
  rewrite original_lookup, cloneClients_same by done. by destruct i.
Qed.
End Clients.

(** ** Properties *)

(** A full synchronisation gives every included inbound exactly the
    accounts of the users: an email has the account of its last entry that is
    active on the inbound, and no other email has one; excluded inbounds are
    left as they are. *)
Theorem xray_sync_exact `{UuidLib} `{Sha256} (users : list (option User)) (c : Config) :
  let c' := Config_syncUsers users c in
  length (C_Inbounds c') = length (C_Inbounds c) ∧
  ∀ k i, C_Inbounds c !! k = Some i → ∃ i', C_Inbounds c' !! k = Some i' ∧
    In_Tag i' = In_Tag i ∧ exclude i' = exclude i ∧
    (exclude i = true → i' = i) ∧
    (exclude i = false → ∀ e a, clients i' !! e = Some a ↔ last_active i users e a).
Proof.
  intros c'. unfold c', Config_syncUsers. cbn. split; [by rewrite length_fmap|]. intros k i Hi.
  eexists. rewrite list_lookup_fmap, Hi. split; [done|]. cbn. rewrite syncUsers_eq.
  destruct (exclude i) eqn:He; split_and!; try done. intros _ e a. apply synced_lookup.
Qed.

(** C17: on a configuration whose tags differ and whose Shadowsocks 2022 methods
    are ones the core knows ([known_method]: their names give the key length), and
    a request that names every user once, a partial update gives each included inbound, for the users it
    names, the clients a full synchronisation with the same users would give,
    and keeps the clients of all other users; the order in which Go visits its
    maps does not matter. *)
Theorem xray_partial_matches_full `{UuidLib} `{Sha256} (ρ : map_range) (users : list (option User))
    (c : Config) (Htags : NoDup (tags c)) (Hmethods : ∀ i, i ∈ C_Inbounds c → known_method i)
    (Husers : NoDup (GetEmail <$> users)) :
  let full := Config_syncUsers users c in
  let part := Config_updateUsers ρ users c in
  ∀ k i, C_Inbounds c !! k = Some i → ∃ i1 i2,
    C_Inbounds full !! k = Some i1 ∧ C_Inbounds part !! k = Some i2 ∧
    (exclude i = true → i2 = i) ∧
    (exclude i = false → ∀ e, clients i2 !! e =
       if bool_decide (e ∈ GetEmail <$> users) then clients i1 !! e else clients i !! e).
Proof.
  intros full part k i Hi. unfold full, part, Config_syncUsers.
  rewrite Config_updateUsers_eq by done. cbn. eexists _, _. rewrite !list_lookup_fmap, Hi.
  split_and!; [done|done|by intros ->|]. cbn. intros ->. intros e.
  apply request_update_lookup; [|done]. apply Hmethods. by eapply list_elem_of_lookup_2.
Qed.
