(* ===== verification/XrayUser.v ===== *)
(** * User synchronisation of a running Xray core ([src/backend/xray/user.go], api/proxyman.go)

    [SyncUser] and [UpdateUsers] change the stored configuration and, through
    the core's gRPC API, the core that runs.  The API is the class [XrayApi]:
    its view is the users each inbound of the core serves.  The methods run
    under [x.syncMu]; their state is the configuration [x.config] points to
    and the core. *)

From S2P Require Import Prelude GoString Json Helper Messages XrayAccount XrayInbound XrayClients.

#[local] Open Scope Z_scope.

(** A user as the core holds it, by email. *)
Record core_user := mkCoreUser { cu_level : Z; cu_account : core_account }.

Inductive operation :=
  | AddUserOperation (email : string) (user : core_user)
  | RemoveUserOperation (email : string).

(** What an operation makes of the users of its inbound. *)
Definition apply_op (op : operation) (m : gmap string core_user) : gmap string core_user :=
  match op with
  | AddUserOperation email user => <[email := user]> m
  | RemoveUserOperation email => delete email m
  end.

(** The handler service of the core: an operation that succeeds is applied to
    its inbound, one that fails changes nothing.  Marshalling a message can
    fail, and does not alter it. *)
Class XrayApi (X : Type) := {
  ToTypedMessage : core_account → result core_account;
  ToTypedOperation : operation → result operation;
  AlterInbound : string → operation → eff X unit;
  api_users : X → string → gmap string core_user;
  typed_message m m' : ToTypedMessage m = Ok m' → m' = m;
  typed_operation o o' : ToTypedOperation o = Ok o' → o' = o;
  alter_inbound tag op x t :
    match AlterInbound tag op x with
    | (Ok _, x') => api_users x' t = if bool_decide (t = tag) then apply_op op (api_users x t) else api_users x t
    | (Err _, x') => api_users x' t = api_users x t
    end
}.

Class OutboundApi (X : Type) := { AlterOutbound : string → operation → eff X unit }.

Section XrayUser.
Context `{UuidLib} `{Sha256} {X : Type} `{!XrayApi X}.
Implicit Types (i : Inbound) (c : Config) (x : X).

(** ** The handler (api/proxyman.go) *)

Definition AlertInbound (tag : string) (operation : operation) : eff X unit := AlterInbound tag operation.

Definition AddInboundUser (tag : string) (user : Account) : eff X unit :=
  account ← lift (ToTypedMessage (Account_Message user));
  operation ← lift (ToTypedOperation
    (AddUserOperation (Account_GetEmail user) (mkCoreUser (Account_GetLevel user) account)));
  AlertInbound tag operation.

Definition RemoveInboundUser (tag email : string) : eff X unit :=
  operation ← lift (ToTypedOperation (RemoveUserOperation email));
  AlertInbound tag operation.

(** The same for the users of outbounds, which the backend does not use. *)
Definition AlertOutbound `{!OutboundApi X} (tag : string) (operation : operation) : eff X unit := AlterOutbound tag operation.

Definition AddOutboundUser `{!OutboundApi X} (tag : string) (user : Account) : eff X unit :=
  account ← lift (ToTypedMessage (Account_Message user));
  operation ← lift (ToTypedOperation
    (AddUserOperation (Account_GetEmail user) (mkCoreUser (Account_GetLevel user) account)));
  AlertOutbound tag operation.

Definition RemoveOutboundUser `{!OutboundApi X} (tag email : string) : eff X unit :=
  operation ← lift (ToTypedOperation (RemoveUserOperation email));
  AlertOutbound tag operation.

(** ["\n" + err.Error()], appended when adding fails. *)
Definition add_reporting (tag : string) (account : Account) (x : X) : string * X :=
  match AddInboundUser tag account x with
  | (Ok _, x) => ("", x)
  | (Err e, x) => (newline +:+ err_text e, x)
  end.

(** ** One user on every inbound ([SyncUser]) *)

Definition sync_inbound (user : option User) (settings : ProxySettings) (i : Inbound) (x : X)
    : Inbound * string * X :=
  if exclude i then (i, "", x)
  else
    let x := (RemoveInboundUser (In_Tag i) (GetEmail user) x).2 in
    match isActiveInbound i (GetInbounds user) settings with
    | Some account =>
        let i := Inbound_updateUser account i in
        let '(msg, x) := add_reporting (In_Tag i) (accountForAPI i account) x in
        (i, msg, x)
    | None => (Inbound_removeUser (GetEmail user) i, "", x)
    end.

Fixpoint sync_inbounds (user : option User) (settings : ProxySettings) (l : list Inbound) (x : X)
    : list Inbound * string * X :=
  match l with
  | [] => ([], "", x)
  | i :: l =>
      let '(i, msg, x) := sync_inbound user settings i x in
      let '(l, msgs, x) := sync_inbounds user settings l x in
      (i :: l, msg +:+ msgs, x)
  end.

(** [user.Email] is read from the pointer: a nil user panics at the first
    included inbound. *)
Definition Xray_SyncUser (user : option User) : eff (Config * X) unit := λ '(c, x),
  let proxySetting := setupUserAccount user in
  match user with
  | None => if existsb (λ i, negb (exclude i)) (C_Inbounds c) then (Err nil_deref, (c, x)) else (Ok (), (c, x))
  | Some _ =>
      let '(l, errMessage, x) := sync_inbounds user proxySetting (C_Inbounds c) x in
      (if bool_decide (errMessage = "") then Ok ()
       else Err (errors_New ("failed to add user:" +:+ errMessage)),
       (set_inbounds l c, x))
  end.

(** ** Many users ([UpdateUsers]) *)

Fixpoint remove_all (tag : string) (emails : list string) (x : X) : X :=
  match emails with
  | [] => x
  | email :: emails => remove_all tag emails (RemoveInboundUser tag email x).2
  end.

Fixpoint add_all (i : Inbound) (accounts : list Account) (x : X) : string * X :=
  match accounts with
  | [] => ("", x)
  | account :: accounts =>
      let x := (RemoveInboundUser (In_Tag i) (Account_GetEmail account) x).2 in
      let '(msg, x) := add_reporting (In_Tag i) (accountForAPI i account) x in
      let '(msgs, x) := add_all i accounts x in
      (msg +:+ msgs, x)
  end.

(** One turn of the loop over the updates. *)
Definition update_tag (ρ : map_range) (acc : Config * string * X)
    (entry : string * (Inbound * inboundUpdate)) : Config * string * X :=
  let '(c, msgs, x) := acc in
  let '(tag, (i, u)) := entry in
  let removeEmails := set_range ρ (up_removeEmailSet u) in
  let c := update_inbound tag (Inbound_updateUsers (up_accounts u) removeEmails) c in
  let x := remove_all tag removeEmails x in
  let '(msg, x) := add_all i (up_accounts u) x in
  (c, msgs +:+ msg, x).

Definition Xray_UpdateUsers (ρ : map_range) (users : list (option User)) : eff (Config * X) unit :=
  λ '(c, x),
  let '(c, errMessage, x) :=
    foldl (update_tag ρ) (c, "", x) (range_of ρ (buildInboundUpdates c users)) in
  (if bool_decide (errMessage = "") then Ok ()
   else Err (errors_New ("failed to update users:" +:+ errMessage)),
   (c, x)).

(** ** Agreement of the configuration and the core *)

Definition core_user_of i (a : Account) : core_user :=
  let a := accountForAPI i a in mkCoreUser (Account_GetLevel a) (Account_Message a).

(** The users the core should serve on an inbound. *)
Definition core_view i : gmap string core_user := core_user_of i <$> clients i.

Definition agrees i x : Prop := exclude i = false → api_users x (In_Tag i) = core_view i.
Definition agree c x : Prop := ∀ i, i ∈ C_Inbounds c → agrees i x.

(** *** Removals that fail

    The code discards the error of [RemoveInboundUser].  [left_behind] is the user
    a removal leaves in the core, if it does, and the functions that follow collect
    these users, each with its inbound, over the loops of the operations. *)
Definition left_behind (tag email : string) x : gset (string * string) :=
  if bool_decide (is_Some (api_users (RemoveInboundUser tag email x).2 tag !! email)) then {[ (tag, email) ]} else ∅.

Fixpoint sync_left (user : option User) (settings : ProxySettings) (l : list Inbound) x : gset (string * string) :=
  match l with
  | [] => ∅
  | i :: l =>
      (if exclude i then ∅ else left_behind (In_Tag i) (GetEmail user) x) ∪
      sync_left user settings l (sync_inbound user settings i x).2
  end.

Definition SyncUser_left (user : User) c x : gset (string * string) :=
  sync_left (Some user) (setupUserAccount (Some user)) (C_Inbounds c) x.

Fixpoint remove_all_left (tag : string) (emails : list string) x : gset (string * string) :=
  match emails with
  | [] => ∅
  | email :: emails => left_behind tag email x ∪ remove_all_left tag emails (RemoveInboundUser tag email x).2
  end.

Fixpoint add_all_left i (accounts : list Account) x : gset (string * string) :=
  match accounts with
  | [] => ∅
  | account :: accounts =>
      left_behind (In_Tag i) (Account_GetEmail account) x ∪
      add_all_left i accounts
        (add_reporting (In_Tag i) (accountForAPI i account) (RemoveInboundUser (In_Tag i) (Account_GetEmail account) x).2).2
  end.

Fixpoint update_left (ρ : map_range) (todo : list (string * (Inbound * inboundUpdate))) (acc : Config * string * X)
    : gset (string * string) :=
  match todo with
  | [] => ∅
  | (tag, (i, u)) :: todo =>
      let removeEmails := set_range ρ (up_removeEmailSet u) in
      remove_all_left tag removeEmails acc.2 ∪ add_all_left i (up_accounts u) (remove_all tag removeEmails acc.2) ∪
      update_left ρ todo (update_tag ρ acc (tag, (i, u)))
  end.

Definition UpdateUsers_left (ρ : map_range) (users : list (option User)) c x : gset (string * string) :=
  update_left ρ (range_of ρ (buildInboundUpdates c users)) (c, "", x).

(** A removal takes the user from its inbound, or leaves it behind and changes
    nothing. *)
Lemma remove_spec tag email x t :
  api_users (RemoveInboundUser tag email x).2 t =
  if bool_decide (t = tag ∧ left_behind tag email x = ∅) then delete email (api_users x t) else api_users x t.
Proof.
  assert ((∀ t, api_users (RemoveInboundUser tag email x).2 t = api_users x t) ∨
    ∀ t, api_users (RemoveInboundUser tag email x).2 t = if bool_decide (t = tag) then delete email (api_users x t) else api_users x t) as [Hr|Hr].
  { unfold RemoveInboundUser, AlertInbound, lift, mbind, eff_bind.
    destruct (ToTypedOperation _) as [op|e] eqn:Ho; [|by left]. apply typed_operation in Ho as ->.
    pose proof (alter_inbound tag (RemoveUserOperation email) x) as Ha. destruct (AlterInbound _ _ x) as [[u|e] x']; [by right|by left]. }
  - rewrite Hr. case_bool_decide as Hl; [|done]. destruct Hl as [-> Hl]. symmetry. apply delete_id.
    unfold left_behind in Hl. rewrite Hr in Hl. case_bool_decide as Hs; [set_solver|]. by apply eq_None_not_Some.
  - assert (left_behind tag email x = ∅) as ->.
    { unfold left_behind. rewrite Hr, (bool_decide_eq_true_2 (tag = tag)), lookup_delete_eq by done. by rewrite bool_decide_eq_false_2 by apply is_Some_None. }
    rewrite Hr. apply (f_equal (λ b : bool, if b then _ else _)), bool_decide_ext. naive_solver.
Qed.

Lemma left_entry tag email x : left_behind tag email x = ∅ ∨ left_behind tag email x = {[ (tag, email) ]}.
Proof. unfold left_behind. case_bool_decide; [by right|by left]. Qed.

Lemma removed tag email x t : left_behind tag email x = ∅ →
  api_users (RemoveInboundUser tag email x).2 t = if bool_decide (t = tag) then delete email (api_users x t) else api_users x t.
Proof.
  intros Hl. rewrite remove_spec. apply (f_equal (λ b : bool, if b then _ else _)), bool_decide_ext. naive_solver.
Qed.

Lemma remove_off tag email x t : t ≠ tag → api_users (RemoveInboundUser tag email x).2 t = api_users x t.
Proof. intros Ht. rewrite remove_spec, bool_decide_eq_false_2; [done|naive_solver]. Qed.

Lemma remove_others tag email x : delete email (api_users (RemoveInboundUser tag email x).2 tag) = delete email (api_users x tag).
Proof. rewrite remove_spec. case_bool_decide; [apply delete_delete_eq|done]. Qed.

(** The API refuses a removal only for a user it does not have. *)
Definition removals_work : Prop := ∀ tag email x t,
  api_users (RemoveInboundUser tag email x).2 t =
  if bool_decide (t = tag) then delete email (api_users x t) else api_users x t.

Lemma forAPI_base i a : account_base (accountForAPI i a) = account_base a.
Proof. unfold accountForAPI. destruct a; try done. cbv zeta. by case_match. Qed.

Lemma forAPI_clients m i a : accountForAPI (set_clients m i) a = accountForAPI i a.
Proof. by destruct a. Qed.

Lemma core_user_clients m i a : core_user_of (set_clients m i) a = core_user_of i a.
Proof. unfold core_user_of. by rewrite forAPI_clients. Qed.

(** The request a user is added with: marshalled as it is, or never sent. *)
Definition user_request (a : Account) : operation :=
  AddUserOperation (Account_GetEmail a) (mkCoreUser (Account_GetLevel a) (Account_Message a)).

Lemma add_sends (alert : operation → eff X unit) a x :
  let res := (account ← lift (ToTypedMessage (Account_Message a));
    operation ← lift (ToTypedOperation
      (AddUserOperation (Account_GetEmail a) (mkCoreUser (Account_GetLevel a) account)));
    alert operation) x in
  res = alert (user_request a) x ∨ ∃ e, res = (Err e, x).
Proof.
  unfold lift, mbind, eff_bind. destruct (ToTypedMessage _) as [m|e] eqn:Hm; [|right; by exists e].
  apply typed_message in Hm as ->.
  destruct (ToTypedOperation _) as [op|e] eqn:Ho; [|right; by exists e].
  apply typed_operation in Ho as ->. by left.
Qed.

Lemma AddInboundUser_sends tag a x :
  AddInboundUser tag a x = AlterInbound tag (user_request a) x ∨ ∃ e, AddInboundUser tag a x = (Err e, x).
Proof. apply (add_sends (AlterInbound tag)). Qed.

Lemma AddOutboundUser_sends `{!OutboundApi X} tag a x :
  AddOutboundUser tag a x = AlterOutbound tag (user_request a) x ∨ ∃ e, AddOutboundUser tag a x = (Err e, x).
Proof. apply (add_sends (AlterOutbound tag)). Qed.

(** Adding succeeds with the user in place, or reports and changes nothing. *)
Lemma add_reporting_spec tag i a x t :
  let '(msg, x') := add_reporting tag (accountForAPI i a) x in
  if bool_decide (msg = "")
  then api_users x' t =
    if bool_decide (t = tag) then <[Account_GetEmail a := core_user_of i a]> (api_users x t) else api_users x t
  else api_users x' t = api_users x t.
Proof.
  unfold add_reporting. destruct (AddInboundUser_sends tag (accountForAPI i a) x) as [-> |[e ->]];
    [|by rewrite bool_decide_eq_false_2].
  pose proof (alter_inbound tag (user_request (accountForAPI i a)) x t) as Ha.
  destruct (AlterInbound tag _ x) as [[u|e] x']; [|by rewrite bool_decide_eq_false_2].
  rewrite bool_decide_eq_true_2 by done. rewrite Ha. unfold core_user_of, Account_GetEmail. by rewrite <- (forAPI_base i a).
Qed.

Lemma app_empty (s t : string) : s +:+ t = "" ↔ s = "" ∧ t = "".
Proof. destruct s; rewrite ?string_app_nil_l, ?string_app_cons; naive_solver. Qed.

Lemma nothing_left tag email x : removals_work → left_behind tag email x = ∅.
Proof.
  intros Hw. unfold left_behind. rewrite Hw, (bool_decide_eq_true_2 (tag = tag)), lookup_delete_eq by done.
  by rewrite bool_decide_eq_false_2 by apply is_Some_None.
Qed.

(** *** SyncUser *)

(** Away from the inbound and from the user nothing changes; the user's entry
    agrees unless an error was reported or the removal failed. *)
Lemma sync_inbound_spec user settings i x :
  settings = setupUserAccount user → known_method i →
  let '(i', msg, x') := sync_inbound user settings i x in
  In_Tag i' = In_Tag i ∧ exclude i' = exclude i ∧
  (∀ t, t ≠ In_Tag i ∨ exclude i = true → api_users x' t = api_users x t) ∧
  (agrees i x → msg = "" → (exclude i = false → left_behind (In_Tag i) (GetEmail user) x = ∅) → agrees i' x') ∧
  (agrees i x → exclude i = false →
   delete (GetEmail user) (api_users x' (In_Tag i)) = delete (GetEmail user) (core_view i')).
Proof.
  intros -> Hk. unfold sync_inbound. destruct (exclude i) eqn:He; [by split_and!; auto|].
  pose proof (remove_others (In_Tag i) (GetEmail user) x) as Hothers.
  pose proof (λ t, remove_off (In_Tag i) (GetEmail user) x t) as Hoff.
  pose proof (λ t, removed (In_Tag i) (GetEmail user) x t) as Hr.
  destruct (RemoveInboundUser (In_Tag i) (GetEmail user) x) as [r x1]. cbn [snd] in *.
  fold (active i user). destruct (active i user) as [a|] eqn:Ha.
  - pose proof (active_email i user a Ha) as Hemail.
    assert (Inbound_updateUser a i = set_clients (<[GetEmail user := a]> (clients i)) i) as ->.
    { unfold Inbound_updateUser. rewrite Hemail. f_equal. f_equal. by apply updateUser_stored with user. }
    rewrite forAPI_clients. cbn [In_Tag set_clients].
    assert (core_view (set_clients (<[GetEmail user := a]> (clients i)) i) =
      <[GetEmail user := core_user_of i a]> (core_view i)) as Hview.
    { unfold core_view. cbn [clients set_clients]. rewrite fmap_insert, core_user_clients. f_equal. }
    pose proof (add_reporting_spec (In_Tag i) i a x1) as Hs.
    destruct (add_reporting (In_Tag i) (accountForAPI i a) x1) as [msg x2].
    rewrite Hemail in Hs. split_and!; [done|done| | |].
    + intros t [Ht|?]; [|done]. specialize (Hs t). rewrite (bool_decide_eq_false_2 (t = In_Tag i)) in Hs by done.
      rewrite <- (Hoff t Ht). by destruct (bool_decide _).
    + intros Hag -> Hl _. cbn [In_Tag set_clients]. rewrite Hview. specialize (Hs (In_Tag i)).
      rewrite !bool_decide_eq_true_2 in Hs by done. rewrite Hs, Hr, bool_decide_eq_true_2 by auto.
      rewrite insert_delete_eq. f_equal. by apply Hag.
    + intros Hag _. rewrite Hview, delete_insert_eq. specialize (Hs (In_Tag i)).
      rewrite (bool_decide_eq_true_2 (In_Tag i = In_Tag i)) in Hs by done. rewrite <- (Hag He), <- Hothers.
      destruct (bool_decide (msg = "")); rewrite Hs; [by rewrite delete_insert_eq|done].
  - unfold Inbound_removeUser.
    assert (core_view (set_clients (delete (GetEmail user) (clients i)) i) =
      delete (GetEmail user) (core_view i)) as Hview.
    { unfold core_view. cbn [clients set_clients]. rewrite fmap_delete. f_equal. }
    split_and!; [done|done| | |].
    + intros t [Ht|?]; [|done]. by apply Hoff.
    + intros Hag _ Hl _. cbn [In_Tag set_clients]. rewrite Hr, bool_decide_eq_true_2, Hview by auto.
      f_equal. by apply Hag.
    + intros Hag _. by rewrite Hothers, Hview, delete_delete_eq, (Hag He).
Qed.

Lemma sync_inbounds_spec user l x :
  NoDup (In_Tag <$> l) → (∀ i, i ∈ l → known_method i) →
  let '(l', msgs, x') := sync_inbounds user (setupUserAccount user) l x in
  In_Tag <$> l' = In_Tag <$> l ∧
  (∀ t, t ∉ In_Tag <$> l → api_users x' t = api_users x t) ∧
  ((∀ i, i ∈ l → agrees i x) →
   (msgs = "" → sync_left user (setupUserAccount user) l x = ∅ → ∀ i, i ∈ l' → agrees i x') ∧
   ∀ i, i ∈ l' → exclude i = false →
     delete (GetEmail user) (api_users x' (In_Tag i)) = delete (GetEmail user) (core_view i)).
Proof.
  revert x. induction l as [|i l IH]; intros x Hnd Hk.
  { cbn. split_and!; [done..|]. split; set_solver. }
  rewrite fmap_cons, NoDup_cons in Hnd. destruct Hnd as [Hi Hnd]. cbn [sync_inbounds sync_left].
  pose proof (sync_inbound_spec user _ i x eq_refl (Hk i ltac:(set_solver))) as Hs.
  destruct (sync_inbound user (setupUserAccount user) i x) as [[i' msg] x1]. cbn [snd].
  destruct Hs as (Htag & Hex & Hoff & Hag & Hdel).
  specialize (IH x1 Hnd ltac:(set_solver)).
  destruct (sync_inbounds user (setupUserAccount user) l x1) as [[l' msgs] x2].
  destruct IH as (Htags & Hoff2 & Hrest). rewrite !fmap_cons, Htag, Htags. split_and!; [done| |].
  - intros t Ht. rewrite Hoff2, Hoff; [done|left; set_solver|set_solver].
  - intros Hall. assert (∀ j, j ∈ l → agrees j x1) as Hl.
    { intros j Hj Hje. rewrite Hoff; [by apply Hall; [set_solver|]|left].
      intros Heq. apply Hi. rewrite <- Heq. by apply list_elem_of_fmap_2. }
    assert (api_users x2 (In_Tag i') = api_users x1 (In_Tag i')) as Hsame.
    { apply Hoff2. by rewrite Htag. }
    destruct (Hrest Hl) as [Hok Hup]. split.
    + intros [Hm Hms]%app_empty [Hleft Hls]%empty_union_L j [->|Hj]%elem_of_cons; [|by apply Hok].
      intros Hje. rewrite Hsame. apply Hag; [apply Hall; set_solver|done|by intros He; rewrite He in Hleft|done].
    + intros j [->|Hj]%elem_of_cons Hje; [|by apply Hup].
      rewrite Hsame, Htag. apply Hdel; [apply Hall; set_solver|congruence].
Qed.

(** *** UpdateUsers *)

Definition put_user i (m : gmap string core_user) (a : Account) : gmap string core_user :=
  <[Account_GetEmail a := core_user_of i a]> m.

Lemma remove_all_off tag emails x t : t ≠ tag → api_users (remove_all tag emails x) t = api_users x t.
Proof.
  intros Ht. revert x. induction emails as [|e emails IH]; intros x; [done|]. cbn [remove_all]. by rewrite IH, remove_off.
Qed.

Lemma remove_all_spec tag emails x : remove_all_left tag emails x = ∅ →
  api_users (remove_all tag emails x) tag = foldl (λ m e, delete e m) (api_users x tag) emails.
Proof.
  revert x. induction emails as [|e emails IH]; intros x; [done|]. cbn [remove_all_left remove_all foldl].
  intros [Hl Hls]%empty_union_L. by rewrite IH, removed, bool_decide_eq_true_2.
Qed.

Lemma add_all_spec i l x :
  let '(msg, x') := add_all i l x in
  (∀ t, t ≠ In_Tag i → api_users x' t = api_users x t) ∧
  (msg = "" → add_all_left i l x = ∅ → api_users x' (In_Tag i) = foldl (put_user i) (api_users x (In_Tag i)) l).
Proof.
  revert x. induction l as [|a l IH]; intros x; [done|]. cbn [add_all add_all_left].
  pose proof (λ t, remove_off (In_Tag i) (Account_GetEmail a) x t) as Hro.
  pose proof (λ t, removed (In_Tag i) (Account_GetEmail a) x t) as Hr.
  destruct (RemoveInboundUser (In_Tag i) (Account_GetEmail a) x) as [r x1]. cbn [snd] in *.
  pose proof (add_reporting_spec (In_Tag i) i a x1) as Hs.
  destruct (add_reporting (In_Tag i) (accountForAPI i a) x1) as [msg x2]. cbn [snd]. specialize (IH x2).
  destruct (add_all i l x2) as [msgs x3]. destruct IH as [Hoff Hon]. split.
  - intros t Ht. rewrite Hoff by done. specialize (Hs t). rewrite (bool_decide_eq_false_2 (t = In_Tag i)) in Hs by done.
    rewrite <- (Hro t Ht). by destruct (bool_decide _).
  - intros [-> Hms]%app_empty [Hl Hls]%empty_union_L. rewrite Hon by done. specialize (Hs (In_Tag i)).
    rewrite !bool_decide_eq_true_2 in Hs by done. cbn [foldl]. f_equal. unfold put_user.
    by rewrite Hs, Hr, bool_decide_eq_true_2, insert_delete_eq by done.
Qed.

(** The loop over updates with distinct tags: each inbound is handled once. *)
Lemma update_loop ρ todo c msgs0 x :
  NoDup todo.*1 → Forall (λ e, In_Tag e.2.1 = e.1) todo →
  let '(c', msgs, x') := foldl (update_tag ρ) (c, msgs0, x) todo in
  c' = foldl (λ c '(tag, (_, u)), update_inbound tag
               (Inbound_updateUsers (up_accounts u) (set_range ρ (up_removeEmailSet u))) c) c todo ∧
  (msgs = "" → msgs0 = "" ∧ (update_left ρ todo (c, msgs0, x) = ∅ → ∀ tag i u, (tag, (i, u)) ∈ todo →
     api_users x' tag = foldl (put_user i)
       (foldl (λ m e, delete e m) (api_users x tag) (set_range ρ (up_removeEmailSet u))) (up_accounts u))) ∧
  (∀ t, t ∉ todo.*1 → api_users x' t = api_users x t).
Proof.
  revert c msgs0 x. induction todo as [|[tag [i u]] todo IH]; intros c msgs0 x Hnd Htags.
  { cbn. split_and!; [done|set_solver|done]. }
  rewrite fmap_cons, NoDup_cons in Hnd. destruct Hnd as [Ht Hnd].
  apply Forall_cons in Htags as [Htag Htags]. cbn in Htag. subst tag. cbn [foldl update_left snd].
  unfold update_tag at 2 3. set (emails := set_range ρ (up_removeEmailSet u)).
  pose proof (remove_all_spec (In_Tag i) emails x) as Hr. pose proof (λ t, remove_all_off (In_Tag i) emails x t) as Hro.
  set (x1 := remove_all (In_Tag i) emails x) in *.
  pose proof (add_all_spec i (up_accounts u) x1) as Ha.
  destruct (add_all i (up_accounts u) x1) as [msg x2]. destruct Ha as [Hoff Hon].
  specialize (IH (update_inbound (In_Tag i) (Inbound_updateUsers (up_accounts u) emails) c) (msgs0 +:+ msg) x2 Hnd Htags).
  destruct (foldl (update_tag ρ) _ todo) as [[c' msgs] x3]. destruct IH as (-> & Hmsgs & Hrest).
  split_and!; [done| |].
  - intros Hm. destruct (Hmsgs Hm) as [[-> ->]%app_empty Hall]. split; [done|].
    intros [[Hl1 Hl2]%empty_union_L Hl3]%empty_union_L tag j w [[= -> -> ->]|Hin]%elem_of_cons.
    + by rewrite Hrest, Hon, Hr by done.
    + assert (tag ≠ In_Tag i) as Hne.
      { intros ->. apply Ht. by apply (list_elem_of_fmap_2 fst) in Hin. }
      by rewrite (Hall Hl3 _ _ _ Hin), Hoff, Hro.
  - intros t Hnot. rewrite Hrest, Hoff, Hro; [done|set_solver..].
Qed.

Lemma core_view_update ρ us i : known_method i → NoDup (GetEmail <$> us) →
  let upd := foldl (update_user i) no_update us in
  core_view (request_update ρ us i) =
  foldl (put_user i) (foldl (λ m e, delete e m) (core_view i) (set_range ρ (up_removeEmailSet upd)))
    (up_accounts upd).
Proof.
  intros Hk Hnd upd. unfold put_user at 1. rewrite (puts_then_deletes (core_user_of i)); fold (put_user i).
  - unfold request_update, core_view at 1. fold upd. cbn [clients Inbound_updateUsers set_clients].
    set (dels := set_range ρ (up_removeEmailSet upd)).
    assert (∀ m, core_user_of i <$> foldl (λ m a, match fits i a with
        | Some a' => <[Account_GetEmail a := a']> m | None => m end) m (up_accounts upd) =
      foldl (put_user i) (core_user_of i <$> m) (up_accounts upd)) as Hadd.
    { unfold upd. rewrite update_accounts. cbn [up_accounts app no_update].
      intros m. rewrite added_accounts by done. revert m. induction us as [|u us IH]; intros m; [done|].
      apply NoDup_cons in Hnd as [_ Hnd]. cbn [omap list_omap foldl]. rewrite IH by done.
      unfold apply_active. destruct (active i u) as [a|] eqn:Ha; [|done]. cbn [foldl]. f_equal.
      unfold put_user. by rewrite fmap_insert, (active_email i u a Ha). }
    assert (∀ m : gmap string Account, core_user_of i <$> foldl (λ m e, delete e m) m dels =
      foldl (λ m e, delete e m) (core_user_of i <$> m) dels) as Hdel.
    { induction dels as [|e dels IH]; intros m; [done|]. cbn [foldl]. by rewrite IH, fmap_delete. }
    transitivity (core_user_of i <$> foldl (λ m e, delete e m) (foldl (λ m a, match fits i a with
        | Some a' => <[Account_GetEmail a := a']> m | None => m end) (clients i) (up_accounts upd)) dels).
    { apply map_fmap_ext. intros e a _. apply core_user_clients. }
    by rewrite Hdel, Hadd.
  - by apply update_disjoint.
Qed.
End XrayUser.

(** ** Properties *)

(** C16: when the stored configuration and the running core agree (every
    included inbound of the core serves exactly the stored clients, VLESS flows
    overridden by the inbound's), they agree again after [SyncUser] and after
    [UpdateUsers] with one entry per user, if the call reports no error and none
    of its removals leaves the user in the core ([SyncUser_left],
    [UpdateUsers_left]: the code discards the error of [RemoveInboundUser], and
    [failed_removal_is_silent] in XrayToy shows what follows); a [SyncUser] that
    reports errors or whose removals fail leaves every other user in agreement.
    The tags of the configuration differ and its Shadowsocks 2022 methods are ones
    the core knows. *)
Theorem xray_config_and_core_agree `{UuidLib} `{Sha256} {X : Type} `{!XrayApi X} (ρ : map_range)
    (c : Config) (x : X) (user : User) (users : list (option User))
    (Htags : NoDup (tags c)) (Hmethods : ∀ i, i ∈ C_Inbounds c → known_method i)
    (Husers : NoDup (GetEmail <$> users)) (Hagree : agree c x) :
  (let '(r, (c', x')) := Xray_SyncUser (Some user) (c, x) in
   (r = Ok () → SyncUser_left user c x = ∅ → agree c' x') ∧
   ∀ i, i ∈ C_Inbounds c' → exclude i = false →
     delete (User_Email user) (api_users x' (In_Tag i)) = delete (User_Email user) (core_view i)) ∧
  (let '(r, (c', x')) := Xray_UpdateUsers ρ users (c, x) in
   c' = Config_updateUsers ρ users c ∧ (r = Ok () → UpdateUsers_left ρ users c x = ∅ → agree c' x')).
Proof.
  split.
  - unfold Xray_SyncUser. pose proof (sync_inbounds_spec (Some user) (C_Inbounds c) x Htags Hmethods) as Hs.
    destruct (sync_inbounds (Some user) (setupUserAccount (Some user)) (C_Inbounds c) x) as [[l msgs] x'].
    destruct Hs as (_ & _ & Hs). destruct (Hs Hagree) as [Hok Hup]. split; [|exact Hup].
    case_bool_decide as Hm; [intros _; exact (Hok Hm)|done].
  - unfold Xray_UpdateUsers, UpdateUsers_left.
    pose proof (update_loop ρ (range_of ρ (buildInboundUpdates c users)) c "" x (range_nodup ρ _)) as Hl.
    assert (Forall (λ e : string * (Inbound * inboundUpdate), In_Tag e.2.1 = e.1)
      (range_of ρ (buildInboundUpdates c users))) as Hkeys.
    { apply Forall_forall. intros [tag [i u]] Hin%elem_of_range. cbn. unfold buildInboundUpdates in Hin.
      rewrite lookup_fmap, fmap_Some in Hin. destruct Hin as (j & Hj & [= -> ->]). by eapply by_tag_key. }
    specialize (Hl Hkeys). destruct (foldl (update_tag ρ) _ _) as [[c' msgs] x'].
    destruct Hl as (-> & Hmsgs & Hrest). split; [done|]. case_bool_decide as Hm; [intros _ Hleft|done].
    destruct (Hmsgs Hm) as [_ Hall]. specialize (Hall Hleft). fold (Config_updateUsers ρ users c).
    rewrite Config_updateUsers_eq by done. intros i' Hi' Hex. cbn in Hi'.
    apply list_elem_of_fmap in Hi' as (i & -> & Hi).
    destruct (exclude i) eqn:He; [congruence|]. change (In_Tag (request_update ρ users i)) with (In_Tag i).
    rewrite core_view_update by auto.
    rewrite (Hall (In_Tag i) i (foldl (update_user i) no_update users)); [by rewrite Hagree|].
    apply elem_of_range. unfold buildInboundUpdates. by rewrite lookup_fmap, (inbound_by_tag_lookup c i).
Qed.
