(* ===== verification/XrayToy.v ===== *)
(** * A concrete Xray for witnesses, and what it shows

    UUIDs as tagged strings, a core that keeps a map of users per inbound and
    refuses a second user of the same email, and a configuration of three
    inbounds. *)

From S2P Require Import Prelude GoString Json Helper Messages XrayAccount XrayInbound XrayClients XrayUser.

#[local] Open Scope Z_scope.
#[local] Existing Instance toy_sha256.

Definition toy_uuid_parse (s : string) : result string :=
  match Cut s "id-" with
  | Some ("", id) => Ok id
  | _ => Err (errors_New "invalid UUID")
  end.

#[export, refine] Instance toy_uuidlib : UuidLib :=
  {| UUID := string; uuid_parse := toy_uuid_parse; uuid_string u := "id-" +:+ u |}.
Proof. intros u. unfold toy_uuid_parse. cbn. by destruct u. Defined.

Definition toy_users (x : gmap string (gmap string core_user)) (t : string) : gmap string core_user :=
  default ∅ (x !! t).

Definition toy_alter (tag : string) (op : operation) : eff (gmap string (gmap string core_user)) unit := λ x,
  match op with
  | AddUserOperation email user =>
      match toy_users x tag !! email with
      | Some _ => (Err (errors_New ("User " +:+ email +:+ " already exists.")), x)
      | None => (Ok (), <[tag := apply_op op (toy_users x tag)]> x)
      end
  | RemoveUserOperation email =>
      match toy_users x tag !! email with
      | Some _ => (Ok (), <[tag := apply_op op (toy_users x tag)]> x)
      | None => (Err (errors_New ("User " +:+ email +:+ " not found.")), x)
      end
  end.

Lemma toy_users_insert x tag m t :
  toy_users (<[tag := m]> x) t = if bool_decide (t = tag) then m else toy_users x t.
Proof.
  unfold toy_users. case_bool_decide as Ht; [subst t; by rewrite lookup_insert_eq|by rewrite lookup_insert_ne].
Qed.

#[export, refine] Instance toy_xray : XrayApi (gmap string (gmap string core_user)) :=
  {| ToTypedMessage m :=
       if bool_decide (m = CoreTrojan "") then Err (errors_New "empty password") else Ok m;
     ToTypedOperation := Ok; AlterInbound := toy_alter; api_users := toy_users |}.
Proof.
  - intros m m'. by case_bool_decide; [|intros [= ->]].
  - by intros o o' [= ->].
  - intros tag op x t. unfold toy_alter. destruct op as [email user|email];
      destruct (toy_users x tag !! email); try done; rewrite toy_users_insert;
      by case_bool_decide as Ht; [subst t|].
Defined.

Lemma toy_removals : removals_work (X:=gmap string (gmap string core_user)).
Proof.
  intros tag email x t. unfold RemoveInboundUser, AlertInbound, lift, mbind, eff_bind.
  cbn [ToTypedOperation AlterInbound toy_xray toy_alter].
  destruct (toy_users x tag !! email) eqn:He; cbn [snd].
  - cbn [api_users]. rewrite toy_users_insert. by case_bool_decide as Ht; [subst t|].
  - case_bool_decide as Ht; [subst t|done]. cbn [api_users toy_xray]. by rewrite delete_id.
Qed.

(** Three inbounds, one of them excluded. *)
Definition toy_inbound (tag protocol : string) (settings : list (string * json)) (excluded : bool) : Inbound :=
  mkInbound tag "" JNull protocol (Some (list_to_map settings)) JNull excluded ∅.

Definition toy_xray_config : Config :=
  mkConfig None None
    [toy_inbound "v" "vless" [("flow", JStr "vision")] false;
     toy_inbound "s" "shadowsocks" [("method", JStr "2022-blake3-aes-128-gcm")] false;
     toy_inbound "t" "trojan" [] true]
    JNull None None None None None JNull.

Definition toy_proxy (id password : string) : Proxy :=
  {| Proxy_Vmess := None; Proxy_Vless := Some {| Vless_Id := "id-" +:+ id; Vless_Flow := "" |};
     Proxy_Trojan := Some {| Trojan_Password := password |};
     Proxy_Shadowsocks := Some {| Shadowsocks_Password := password; Shadowsocks_Method := "" |};
     Proxy_Wireguard := None; Proxy_Hysteria := None |}.

Definition toy_xuser (email : string) (inbounds : list string) : User :=
  {| User_Email := email; User_Proxies := Some (toy_proxy email email); User_Inbounds := inbounds |}.

(** The configuration after a full synchronisation, and a core that runs it. *)
Definition toy_synced : Config :=
  Config_syncUsers [Some (toy_xuser "ann" ["v"; "s"]); Some (toy_xuser "bob" ["s"; "t"])] toy_xray_config.

Definition toy_core (c : Config) : gmap string (gmap string core_user) :=
  foldl (λ m i, if exclude i then m else <[In_Tag i := core_view i]> m) ∅ (C_Inbounds c).

Lemma toy_known i : i ∈ C_Inbounds toy_synced → known_method i.
Proof.
  intros [->|[->|[->|[]%not_elem_of_nil]%elem_of_cons]%elem_of_cons]%elem_of_cons method Hm H2;
    vm_compute in Hm; simplify_eq; reflexivity.
Qed.

Lemma toy_tags : NoDup (tags toy_synced).
Proof. apply (bool_decide_unpack _). by vm_compute. Qed.

Lemma toy_agrees : agree toy_synced (toy_core toy_synced).
Proof.
  intros i [->|[->|[->|[]%not_elem_of_nil]%elem_of_cons]%elem_of_cons]%elem_of_cons Hex;
    vm_compute; [reflexivity..|]. vm_compute in Hex. discriminate Hex.
Qed.

(** ** Witnesses *)

Lemma xray_sync_exact_example :
  (clients <$> C_Inbounds toy_synced) =
  [{[ "ann" := VlessAccount (mkBase "ann" 0) "ann" "" ]};
   {[ "ann" := ShadowsocksAccount (mkBase "ann" 0) "YW5uIyMjIyMjIyMjIyMjIw==";
      "bob" := ShadowsocksAccount (mkBase "bob" 0) "Ym9iIyMjIyMjIyMjIyMjIw==" ]};
   ∅].
Proof. vm_compute. reflexivity. Qed.

Lemma xray_partial_matches_full_witness :
  let users := [Some (toy_xuser "bob" ["v"]); Some (toy_xuser "cid" ["s"])] in
  NoDup (GetEmail <$> users) ∧
  ∃ i2, C_Inbounds (Config_updateUsers std_range users toy_synced) !! 1%nat = Some i2 ∧
    is_Some (clients i2 !! "ann") ∧ clients i2 !! "bob" = None ∧ is_Some (clients i2 !! "cid").
Proof.
  intros users. assert (NoDup (GetEmail <$> users)) as Hnd by (apply (bool_decide_unpack _); vm_compute; exact I).
  split; [exact Hnd|].
  assert (exclude <$> C_Inbounds toy_synced !! 1%nat = Some false) as Hex by (vm_compute; reflexivity).
  assert ((λ i, (bool_decide (is_Some (clients i !! "ann")), bool_decide (clients i !! "bob" = None),
      bool_decide (is_Some (clients i !! "cid")))) <$>
    C_Inbounds (Config_updateUsers std_range users toy_synced) !! 1%nat = Some (true, true, true)) as Hv
    by (vm_compute; reflexivity).
  destruct (C_Inbounds toy_synced !! 1%nat) as [i|] eqn:Hi; [|discriminate Hex]. injection Hex as Hex.
  destruct (xray_partial_matches_full std_range users toy_synced toy_tags toy_known Hnd 1 i Hi)
    as (i1 & i2 & H1 & H2 & _ & Hc).
  rewrite H2 in Hv. injection Hv as Hann Hbob Hcid. exists i2.
  split_and!; [exact H2|by apply bool_decide_eq_true in Hann|by apply bool_decide_eq_true in Hbob|
    by apply bool_decide_eq_true in Hcid].
Defined.

Lemma xray_config_and_core_agree_witness :
  let users := [Some (toy_xuser "bob" ["v"]); Some (toy_xuser "cid" ["s"])] in
  let '(r, (c', x')) := Xray_UpdateUsers std_range users (toy_synced, toy_core toy_synced) in
  r = Ok () ∧ agree c' x' ∧ is_Some (toy_users x' "v" !! "bob") ∧ toy_users x' "s" !! "bob" = None.
Proof.
  intros users. assert (NoDup (GetEmail <$> users)) as Hnd by (apply (bool_decide_unpack _); vm_compute; exact I).
  assert (let '(r, (c', x')) := Xray_UpdateUsers std_range users (toy_synced, toy_core toy_synced) in
    c' = Config_updateUsers std_range users toy_synced ∧
    (r = Ok () → UpdateUsers_left std_range users toy_synced (toy_core toy_synced) = ∅ → agree c' x')) as Ht
    by exact (proj2 (xray_config_and_core_agree std_range toy_synced (toy_core toy_synced) (toy_xuser "ann" [])
      users toy_tags toy_known Hnd toy_agrees)).
  assert (UpdateUsers_left std_range users toy_synced (toy_core toy_synced) = ∅) as Hleft by (vm_compute; reflexivity).
  assert (let '(r, (_, x')) := Xray_UpdateUsers std_range users (toy_synced, toy_core toy_synced) in
    r = Ok () ∧ is_Some (toy_users x' "v" !! "bob") ∧ toy_users x' "s" !! "bob" = None) as Hv
    by (vm_compute; split_and!; [reflexivity|eexists; reflexivity|reflexivity]).
  destruct (Xray_UpdateUsers std_range users (toy_synced, toy_core toy_synced)) as [r [c' x']].
  destruct Hv as (Hr & Hin & Hout). destruct Ht as [_ Ht]. split_and!; [exact Hr|exact (Ht Hr Hleft)|exact Hin|exact Hout].
Defined.

(** ** Observations *)

(** A request that names a user twice, first without and then with an inbound,
    leaves the user in the core but not in the stored configuration: the next
    restart drops the user. *)
Lemma repeated_user_diverges :
  let users := [Some (toy_xuser "dan" []); Some (toy_xuser "dan" ["s"])] in
  let '(r, (c', x')) := Xray_UpdateUsers std_range users (toy_synced, toy_core toy_synced) in
  r = Ok () ∧ is_Some (toy_users x' "s" !! "dan") ∧
  Forall (λ i, clients i !! "dan" = None) (C_Inbounds c').
Proof. vm_compute. split_and!; [reflexivity|eexists; reflexivity|repeat constructor]. Qed.

(** A JSON null among the inbounds panics. *)
Lemma null_inbound_panics (c : Config) :
  NewConfig (λ _, Ok (c, [None])) "{inbounds:[null]}" [] = Err nil_deref.
Proof. reflexivity. Qed.

(** A core whose API fails to remove users, as it does when the request's
    context has expired. *)
Definition refusing_xray : XrayApi (gmap string (gmap string core_user)).
Proof.
  refine {| ToTypedMessage := Ok; ToTypedOperation := Ok; api_users := toy_users;
    AlterInbound tag op x := match op with
      | AddUserOperation _ _ => toy_alter tag op x
      | RemoveUserOperation _ => (Err (errors_New "context canceled"), x)
      end |}; [by intros ?? [= ->]|by intros ?? [= ->]|].
  intros tag op x t. destruct op as [email user|email]; [|done]. exact (@alter_inbound _ toy_xray tag (AddUserOperation email user) x t).
Defined.

(** The error of [RemoveInboundUser] is discarded: the request that takes ann
    from every inbound succeeds, and the core serves her on. *)
Lemma failed_removal_is_silent :
  let '(r, (c', x')) := @Xray_SyncUser _ _ _ refusing_xray (Some (toy_xuser "ann" [])) (toy_synced, toy_core toy_synced) in
  r = Ok () ∧ Forall (λ i, clients i !! "ann" = None) (C_Inbounds c') ∧ is_Some (toy_users x' "v" !! "ann").
Proof. vm_compute. split; [reflexivity|]. split; [repeat constructor|by eexists]. Qed.
