(* ===== verification/XrayApply.v ===== *)
(** * Preparing a configuration ([ApplyAPI] of [src/backend/xray/config.go])

    What the node changes in a configuration before it starts the core: the API
    inbound and its services, the routing rules that guard it, the policy that
    makes the core count traffic, the observatory and the metrics listener. *)

From S2P Require Import Prelude GoString Json Helper Messages XrayAccount XrayInbound.

#[local] Open Scope Z_scope.

(** ** JSON objects as Go maps *)

(** Go prints the keys of a map sorted, at every depth. *)
Definition key_le (a b : string * json) : Prop := String.le (fst a) (fst b).
#[export] Instance key_le_dec a b : Decision (key_le a b).
Proof. unfold key_le. apply _. Defined.

Definition obj_map (fields : list (string * json)) : gmap string json :=
  foldl (λ m '(k, v), <[k := v]> m) ∅ fields.

Definition map_obj (m : gmap string json) : list (string * json) := merge_sort key_le (map_to_list m).

(** What a value decoded into [any] prints as. *)
Fixpoint canon (v : json) : json :=
  match v with
  | JArr l => JArr (map canon l)
  | JObj fields => JObj (map_obj (obj_map (map (λ '(k, v), (k, canon v)) fields)))
  | _ => v
  end.

(** [strings] as a JSON array. *)
Definition JStrings (l : list string) : json := JArr (map JStr l).

(** [v.(string)] succeeds with [s]. *)
Definition is_str (v : option json) (s : string) : bool :=
  match v with Some (JStr s') => bool_decide (s' = s) | _ => false end.

(** ** Services of the API ([sanitizeAPIServices]) *)

Definition canonical_entries : list (string * string) :=
  [("reflectionservice", "ReflectionService"); ("handlerservice", "HandlerService");
   ("loggerservice", "LoggerService"); ("statsservice", "StatsService");
   ("observatoryservice", "ObservatoryService"); ("routingservice", "RoutingService")].

Definition canonicalAPIServices : gmap string string := list_to_map canonical_entries.

Definition requiredAPIServices : list string := ["HandlerService"; "LoggerService"; "StatsService"].

(** The loop over the required services. *)
Fixpoint add_required (l : list string) (seen : gset string) : list string * gset string :=
  match l with
  | [] => ([], seen)
  | s :: l =>
      let key := ToLower s in
      if bool_decide (key ∈ seen) then add_required l seen
      else let '(result, seen) := add_required l ({[key]} ∪ seen) in (s :: result, seen)
  end.

(** The loop over the user's. *)
Fixpoint add_extras (l : list string) (seen : gset string) : list string :=
  match l with
  | [] => []
  | s :: l =>
      let key := ToLower (TrimSpace s) in
      if bool_decide (key = "") then add_extras l seen
      else
        match canonicalAPIServices !! key with
        | None => add_extras l seen
        | Some canonical =>
            if bool_decide (key ∈ seen) then add_extras l seen
            else canonical :: add_extras l ({[key]} ∪ seen)
        end
  end.

Definition sanitizeAPIServices (userProvided : list string) : list string :=
  let '(result, seen) := add_required requiredAPIServices ∅ in
  result ++ sort_Strings (add_extras userProvided seen).

(** ** The addresses the API accepts ([apiRuleSources]) *)

(** An address of an interface: [net.IPNet] and [net.IPAddr] carry an IP, nil
    or with its text; other kinds are skipped. *)
Record NetIP := mkIP { ip_text : string; IsUnspecified : bool }.
Inductive NetAddr := IPNet (ip : option NetIP) | IPAddr (ip : option NetIP) | OtherAddr.
Record NetInterface := mkIface { FlagUp : bool; Addrs : result (list NetAddr) }.

Definition addr_source (a : NetAddr) : option string :=
  match a with
  | IPNet (Some ip) | IPAddr (Some ip) => if IsUnspecified ip then None else Some (ip_text ip)
  | _ => None
  end.

Definition iface_sources (i : NetInterface) : list string :=
  if negb (FlagUp i) then []
  else match Addrs i with Err _ => [] | Ok addrs => omap addr_source addrs end.

Definition apiRuleSources (ifaces : result (list NetInterface)) : list string :=
  match ifaces with
  | Err _ => ["127.0.0.1"; "::1"]
  | Ok l => sorted_set ("127.0.0.1" :: "::1" :: concat (map iface_sources l))
  end.

(** [uint16(port)] keeps the low 16 bits. *)
Definition loopbackListenAddress (port : Z) : string := "127.0.0.1:" +:+ Itoa (port mod 2 ^ 16).

(** ** Outbounds *)

Definition observatoryExcludedProtocols : gset string := {[ "blackhole"; "dns"; "loopback" ]}.

(** [obj[key].(string)], "" when it is not a string. *)
Definition string_field (fields : list (string * json)) (key : string) : string :=
  match obj_key fields key with Some (JStr s) => s | _ => "" end.

Definition outbound_entry (outbound : json) : option (string * string) :=
  match outbound with
  | JObj fields =>
      let tag := TrimSpace (string_field fields "tag") in
      let protocol := TrimSpace (string_field fields "protocol") in
      if bool_decide (tag = "") || bool_decide (protocol = "") then None else Some (tag, protocol)
  | _ => None
  end.

Section Apply.
Context `{UuidLib} `{JsonText}.

(** nil and an empty map are read alike. *)
Definition outboundProtocolByTag (c : Config) : gmap string string :=
  match C_Outbounds c with
  | JArr rawOutbounds => foldl (λ m '(tag, protocol), <[tag := protocol]> m) ∅ (omap outbound_entry rawOutbounds)
  | _ => ∅
  end.

Definition keys_of {A} (m : gmap string A) : list string := sort_Strings (map_to_list m).*1.

Definition blackholeOutboundTag (c : Config) : string :=
  let protocolByTag := outboundProtocolByTag c in
  default "" (head (filter (λ tag, EqualFold (default "" (protocolByTag !! tag)) "blackhole" = true)
                      (keys_of protocolByTag))).

Definition defaultObservatory (c : Config) : gmap string json :=
  let protocolByTag := outboundProtocolByTag c in
  let tags := filter (λ tag, default "" (protocolByTag !! tag) ∉ observatoryExcludedProtocols)
                (keys_of protocolByTag) in
  list_to_map [("subjectSelector", JStrings tags); ("probeURL", JStr "https://www.google.com/generate_204");
               ("probeInterval", JStr "10s")].

(** ** Observatory selectors ([sanitizeObservatorySelectors]) *)

Definition selector_kept (protocolByTag : gmap string string) (value : json) : bool :=
  match value with
  | JStr tag =>
      match protocolByTag !! TrimSpace tag with
      | Some protocol => bool_decide (protocol ∉ observatoryExcludedProtocols)
      | None => true
      end
  | _ => false
  end.

Definition sanitize_section (protocolByTag : gmap string string) (section : gmap string json) : gmap string json :=
  match section !! "subjectSelector" with
  | Some (JArr values) =>
      <["subjectSelector" := JArr (filter (λ v, selector_kept protocolByTag v = true) values)]> section
  | _ => section
  end.

Definition set_observatories (o b : option (gmap string json)) (c : Config) : Config :=
  mkConfig (C_Log c) (C_Router c) (C_Inbounds c) (C_Outbounds c) (C_Policy c) (C_API c) (C_Metrics c) o b (C_rest c).

Definition sanitizeObservatorySelectors (c : Config) : Config :=
  let protocolByTag := outboundProtocolByTag c in
  if bool_decide (size protocolByTag = 0%nat) then c
  else set_observatories (sanitize_section protocolByTag <$> C_Observatory c)
         (sanitize_section protocolByTag <$> C_BurstObservatory c) c.

(** ** Routing rules *)

(** [json.Unmarshal] into a [map[string]any] and back. *)
Definition unmarshal_map (raw : string) : result (gmap string json) :=
  match json_parse raw with
  | Err e => Err e
  | Ok v => match decode_object v with Err e => Err e | Ok fields => Ok (obj_map fields) end
  end.

Definition marshal_map (m : gmap string json) : string := json_print (canon (JObj (map_to_list m))).

Definition invalid_rule (e : goerr) : goerr := wrapf "invalid JSON in rule" e.

Definition malformedDomainGuardRuleTag : string := "PG_NODE_MALFORMED_DOMAIN_GUARD".

Definition rule_dropped (apiTag : string) (obj : gmap string json) : bool :=
  is_str (obj !! "outboundTag") apiTag || is_str (obj !! "ruleTag") malformedDomainGuardRuleTag.

Fixpoint filter_rules (rules : list string) (apiTag : string) : result (list string) :=
  match rules with
  | [] => Ok []
  | raw :: rules =>
      match unmarshal_map raw with
      | Err e => Err (invalid_rule e)
      | Ok obj =>
          match filter_rules rules apiTag with
          | Err e => Err e
          | Ok filtered => Ok (if rule_dropped apiTag obj then filtered else raw :: filtered)
          end
      end
  end.

Definition filterRules (rules : option (list string)) (apiTag : string) : result (list string) :=
  filter_rules (default [] rules) apiTag.

Definition privateCIDRs : list string :=
  ["0.0.0.0/8"; "10.0.0.0/8"; "100.64.0.0/10"; "127.0.0.0/8"; "169.254.0.0/16"; "172.16.0.0/12";
   "192.0.0.0/24"; "192.168.0.0/16"; "198.18.0.0/15"; "224.0.0.0/4"; "240.0.0.0/4"; "::/128"; "::1/128";
   "fc00::/7"; "fe80::/10"].

Definition is_private (entry : json) : bool :=
  match entry with JStr s => EqualFold s "geoip:private" | _ => false end.

Definition expand_private (entry : json) : list json :=
  if is_private entry then map JStr privateCIDRs else [entry].

Definition replaceGeoIPPrivate (values : json) : json * bool :=
  match values with
  | JArr list =>
      if existsb is_private list then (JArr (concat (map expand_private list)), true) else (values, false)
  | _ => (values, false)
  end.

(** One key of a rule: the object and whether it changed. *)
Definition normalize_key (key : string) (acc : gmap string json * bool) : gmap string json * bool :=
  let '(obj, changed) := acc in
  match obj !! key with
  | None => (obj, changed)
  | Some values =>
      let '(values', c) := replaceGeoIPPrivate values in
      if c then (<[key := values']> obj, true) else (obj, changed)
  end.

Definition normalize_obj (obj : gmap string json) : gmap string json * bool :=
  normalize_key "source" (normalize_key "ip" (obj, false)).

Fixpoint normalize_rules (rules : list string) : result (list string) :=
  match rules with
  | [] => Ok []
  | raw :: rules =>
      match unmarshal_map raw with
      | Err e => Err (invalid_rule e)
      | Ok obj =>
          let '(obj, ruleChanged) := normalize_obj obj in
          match normalize_rules rules with
          | Err e => Err e
          | Ok normalized => Ok ((if ruleChanged then marshal_map obj else raw) :: normalized)
          end
      end
  end.

Definition normalizeGeoIPPrivateRules (rules : option (list string)) : result (list string) :=
  normalize_rules (default [] rules).

Definition malformedDomainGuardRule (outboundTag : string) : string :=
  marshal_map (list_to_map
    [("domain", JStrings ["regexp:^.{254,}$"; "regexp:(^|\.)[^.]{64,}(\.|$)"]);
     ("outboundTag", JStr outboundTag); ("ruleTag", JStr malformedDomainGuardRuleTag); ("type", JStr "field")]).

Definition apiRule (sources : list string) : string :=
  marshal_map (list_to_map
    [("inboundTag", JStrings ["API_INBOUND"]); ("source", JStrings sources);
     ("outboundTag", JStr "API"); ("type", JStr "field")]).

(** ** Policy ([checkPolicy]) *)

Definition counting_policy : Policy := mkPolicy true true (JObj []).

(** [zero.StatsUserDownlink = true] panics for a level that is null. *)
Definition check_level_zero (levels : gmap Z (option Policy)) : result (gmap Z (option Policy)) :=
  match levels !! 0 with
  | None => Ok (<[0 := Some counting_policy]> levels)
  | Some None => Err nil_deref
  | Some (Some zero) => Ok (<[0 := Some (mkPolicy true true (policy_rest zero))]> levels)
  end.

Definition check_system (system : option SystemPolicy) : SystemPolicy :=
  match system with
  | None => mkSystem false false true true
  | Some s => mkSystem (StatsInboundUplink s) (StatsInboundDownlink s) true true
  end.

Definition checked_policy (policy : option PolicyConfig) : result PolicyConfig :=
  let '(levels, system) := match policy with
                           | None => (∅, None)
                           | Some p => (default ∅ (Levels p), System p)
                           end in
  match check_level_zero levels with
  | Err e => Err e
  | Ok levels => Ok (mkPolicyConfig (Some levels) (Some (check_system system)))
  end.

Definition set_policy (p : option PolicyConfig) (c : Config) : Config :=
  mkConfig (C_Log c) (C_Router c) (C_Inbounds c) (C_Outbounds c) p (C_API c) (C_Metrics c)
    (C_Observatory c) (C_BurstObservatory c) (C_rest c).

Definition checkPolicy : eff Config unit := λ c,
  match checked_policy (C_Policy c) with
  | Err e => (Err e, c)
  | Ok p => (Ok (), set_policy (Some p) c)
  end.

(** ** [ApplyAPI] *)

(** The loop that removes the old API inbound.  It ranges over the slice as it
    was, while [append] shifts the elements of the array they share and cuts
    the slice to [len] elements; slicing past the end panics. *)
Fixpoint remove_api (todo : list nat) (arr : list Inbound) (len : nat) : result (list Inbound) :=
  match todo with
  | [] => Ok (take len arr)
  | i :: todo =>
      match arr !! i with
      | None => Err (go_panic "runtime error: index out of range")
      | Some inbound =>
          if bool_decide (In_Tag inbound = "API_INBOUND") then
            if (len <? S i)%nat then Err (go_panic "runtime error: slice bounds out of range")
            else remove_api todo (take i arr ++ drop (S i) (take len arr) ++ drop (len - 1) arr) (len - 1)
          else remove_api todo arr len
      end
  end.

Definition removeAPIInbound (l : list Inbound) : result (list Inbound) :=
  remove_api (seq 0 (length l)) l (length l).

Definition api_inbound (apiPort : Z) : Inbound :=
  mkInbound "API_INBOUND" "127.0.0.1" (JNum (Itoa apiPort)) "dokodemo-door"
    (Some {[ "address" := JStr "127.0.0.1" ]}) (JObj []) false ∅.

Definition set_api (a : APIConfig) (c : Config) : Config :=
  mkConfig (C_Log c) (C_Router c) (C_Inbounds c) (C_Outbounds c) (C_Policy c) (Some a) (C_Metrics c)
    (C_Observatory c) (C_BurstObservatory c) (C_rest c).
Definition set_metrics (m : gmap string json) (c : Config) : Config :=
  mkConfig (C_Log c) (C_Router c) (C_Inbounds c) (C_Outbounds c) (C_Policy c) (C_API c) (Some m)
    (C_Observatory c) (C_BurstObservatory c) (C_rest c).
Definition set_router (r : RouterConfig) (c : Config) : Config :=
  mkConfig (C_Log c) (Some r) (C_Inbounds c) (C_Outbounds c) (C_Policy c) (C_API c) (C_Metrics c)
    (C_Observatory c) (C_BurstObservatory c) (C_rest c).

Definition empty_router : RouterConfig := mkRouter None (JObj []).
Definition the_router (c : Config) : RouterConfig := default empty_router (C_Router c).
Definition set_rules (rules : list string) (c : Config) : Config :=
  set_router (mkRouter (Some rules) (router_rest (the_router c))) c.

Definition metrics_section (metricPort : Z) : gmap string json :=
  list_to_map [("tag", JStr "metric"); ("listen", JStr (loopbackListenAddress metricPort))].

Definition isSome {A} (o : option A) : bool := match o with Some _ => true | None => false end.

Definition inject_observatory (services : list string) (c : Config) : Config :=
  if slices_Contains services "ObservatoryService" &&
     negb (isSome (C_Observatory c)) && negb (isSome (C_BurstObservatory c))
  then set_observatories (Some (defaultObservatory c)) (C_BurstObservatory c) c
  else c.

Definition prepend_rules (sources : list string) (c : Config) : list string :=
  let blockTag := blackholeOutboundTag c in
  apiRule sources :: (if bool_decide (blockTag ≠ "") then [malformedDomainGuardRule blockTag] else []).

(** [c.RouterConfig.RuleList, err = filterRules(rules, apiTag)]: an error
    leaves the list nil. *)
Definition assign_filtered (rules : list string) : eff Config unit := λ c,
  match filterRules (Some rules) "API" with
  | Err e => (Err e, set_router (mkRouter None (router_rest (the_router c))) c)
  | Ok rules => (Ok (), set_rules rules c)
  end.

(** The second half: rules, policy and the new inbound.  [ifaces] is what
    [net.Interfaces] returns.  Marshalling the two new rules cannot fail. *)
Definition apply_rules (ifaces : result (list NetInterface)) (apiPort : Z) : eff Config unit :=
  c ← get;
  rules ← lift (normalizeGeoIPPrivateRules (RuleList (the_router c)));
  _ ← assign_filtered rules;
  _ ← checkPolicy;
  _ ← modify (λ c, set_inbounds (api_inbound apiPort :: C_Inbounds c) c);
  modify (λ c, set_rules (prepend_rules (apiRuleSources ifaces) c ++ default [] (RuleList (the_router c))) c).

Definition ApplyAPI (ifaces : result (list NetInterface)) (apiPort metricPort : Z) : eff Config unit :=
  c ← get;
  inbounds ← lift (removeAPIInbound (C_Inbounds c));
  _ ← modify (set_inbounds inbounds);
  let userServices := match C_API c with Some a => API_Services a | None => [] end in
  let services := sanitizeAPIServices userServices in
  _ ← modify (set_api (mkAPI "API" "" services));
  _ ← modify (inject_observatory services);
  _ ← modify (set_metrics (metrics_section metricPort));
  _ ← modify sanitizeObservatorySelectors;
  _ ← modify (λ c, set_router (the_router c) c);
  apply_rules ifaces apiPort.
End Apply.
