(* ===== verification/XrayApi.v ===== *)
(** * What [ApplyAPI] establishes

    Lemmas about the steps of [ApplyAPI] (XrayApply) and the properties of a
    prepared configuration: its services, its API inbound, its routing rules
    and policy, and that preparing it again changes nothing. *)

From S2P Require Import Prelude GoString Json Helper Messages XrayAccount XrayInbound XrayApply.

#[local] Open Scope Z_scope.

(** ** Maps printed as objects *)

Lemma obj_map_nodup fields : NoDup fields.*1 → obj_map fields = list_to_map fields.
Proof.
  unfold obj_map. induction fields as [|[k v] l IH] using rev_ind; [done|].
  rewrite fmap_app, foldl_app. intros (Hl & Hk & _)%NoDup_app. cbn [foldl]. rewrite IH by done.
  rewrite list_to_map_app. cbn [list_to_map foldr uncurry]. apply map_eq. intros k'.
  rewrite lookup_union. change (list_to_map [(k, v)]) with (<[k := v]> (∅ : gmap string json)).
  destruct (decide (k' = k)) as [->|Hne].
  - rewrite !lookup_insert_eq, (not_elem_of_list_to_map_1 l k); [done|]. intros Hin. apply (Hk k Hin). set_solver.
  - rewrite !lookup_insert_ne, lookup_empty by done. by destruct (list_to_map l !! k').
Qed.

Lemma map_obj_perm m : map_obj m ≡ₚ map_to_list m.
Proof. apply merge_sort_Permutation. Qed.

Lemma obj_map_obj m : obj_map (map_obj m) = m.
Proof.
  assert (NoDup (map_obj m).*1) as Hnd by (rewrite map_obj_perm; apply NoDup_fst_map_to_list).
  rewrite obj_map_nodup by done. rewrite (list_to_map_proper _ (map_to_list m)) by (done || apply map_obj_perm).
  apply list_to_map_to_list.
Qed.

Lemma obj_map_canon m : obj_map (map (λ '(k, v), (k, canon v)) (map_to_list m)) = canon <$> m.
Proof.
  replace (map (λ '(k, v), (k, canon v)) (map_to_list m)) with (prod_map id canon <$> map_to_list m)
    by (apply list_fmap_ext; by intros ? []).
  rewrite obj_map_nodup.
  - rewrite list_to_map_fmap. by rewrite list_to_map_to_list.
  - rewrite <- list_fmap_compose. apply NoDup_fst_map_to_list.
Qed.

(** ** Services *)

Definition required_keys : gset string :=
  {[ "statsservice" ]} ∪ ({[ "loggerservice" ]} ∪ ({[ "handlerservice" ]} ∪ ∅)).

Lemma add_required_eq : add_required requiredAPIServices ∅ = (requiredAPIServices, required_keys).
Proof.
  unfold requiredAPIServices. cbn [add_required].
  change (ToLower "HandlerService") with "handlerservice". change (ToLower "LoggerService") with "loggerservice".
  change (ToLower "StatsService") with "statsservice". by rewrite !bool_decide_eq_false_2 by set_solver.
Qed.

Lemma sanitize_eq l :
  sanitizeAPIServices l = requiredAPIServices ++ sort_Strings (add_extras l required_keys).
Proof. unfold sanitizeAPIServices. by rewrite add_required_eq. Qed.

(** The service a name stands for. *)
Definition service_of (s : string) : option string := canonicalAPIServices !! ToLower (TrimSpace s).

Lemma canonical_entry key x : canonicalAPIServices !! key = Some x → (key, x) ∈ canonical_entries.
Proof. apply elem_of_list_to_map_2. Qed.

Definition entry_ok '(key, x) : bool :=
  bool_decide (ToLower x = key) && bool_decide (service_of x = Some x) &&
  Bool.eqb (slices_Contains ["handlerservice"; "loggerservice"; "statsservice"] key)
    (slices_Contains requiredAPIServices x).

Lemma entries_ok : forallb entry_ok canonical_entries = true.
Proof. vm_compute. reflexivity. Qed.

Lemma canonical_key key x :
  canonicalAPIServices !! key = Some x →
  ToLower x = key ∧ service_of x = Some x ∧ (key ∈ required_keys ↔ x ∈ requiredAPIServices).
Proof.
  intros Hin%canonical_entry. pose proof entries_ok as Hok. rewrite forallb_forall in Hok.
  specialize (Hok (key, x)).
  assert (entry_ok (key, x) = true) as He by (apply Hok; by apply list_elem_of_In). unfold entry_ok in He.
  apply andb_true_iff in He as [[Hk%bool_decide_eq_true Hs%bool_decide_eq_true]%andb_true_iff He%eqb_prop].
  split_and!; [done..|]. rewrite <- (slices_Contains_true requiredAPIServices), <- He, slices_Contains_true.
  unfold required_keys. rewrite !elem_of_union, !elem_of_singleton, !elem_of_cons, elem_of_nil.
  assert (key ∉ (∅ : gset string)) by set_solver. tauto.
Qed.

Lemma service_key s x : service_of s = Some x → ToLower (TrimSpace s) = ToLower x ∧ ToLower x ≠ "".
Proof.
  intros Hs. destruct (canonical_key _ _ Hs) as (Hk & _). split; [done|]. intros Hempty.
  unfold service_of in Hs. rewrite <- Hk, Hempty in Hs. vm_compute in Hs. discriminate Hs.
Qed.

Lemma service_inj s t x y : service_of s = Some x → service_of t = Some y → ToLower x = ToLower y → x = y.
Proof.
  intros Hx Hy Heq. destruct (service_key s x Hx) as [Hk1 _]. destruct (service_key t y Hy) as [Hk2 _].
  unfold service_of in *. congruence.
Qed.

Lemma elem_of_extras x l seen :
  x ∈ add_extras l seen ↔ ∃ s, s ∈ l ∧ service_of s = Some x ∧ ToLower x ∉ seen.
Proof.
  revert seen. induction l as [|s l IH]; intros seen; [set_solver|]. cbn [add_extras].
  assert (x ∈ add_extras l seen ↔ ∃ s', s' ∈ l ∧ service_of s' = Some x ∧ ToLower x ∉ seen) as IH1 by apply IH.
  fold (service_of s). destruct (service_of s) as [y|] eqn:Hs.
  - destruct (service_key s y Hs) as [Hkey Hne]. rewrite Hkey, (bool_decide_eq_false_2 (ToLower y = "")) by done.
    case_bool_decide as Hseen.
    + rewrite IH1. set_unfold. naive_solver.
    + rewrite elem_of_cons, IH. split.
      * intros [->|(s' & Hs' & Hx & Hnot)]; [exists s; set_solver|]. exists s'. set_solver.
      * intros (s' & Hs' & Hx & Hnot). destruct (decide (x = y)) as [->|Hxy]; [by left|right].
        exists s'. split_and!; [set_unfold; naive_solver|done|].
        intros [Hk%elem_of_singleton|]%elem_of_union; [|done]. apply Hxy.
        by eapply service_inj.
  - assert (x ∈ add_extras l seen ↔ ∃ s', s' ∈ s :: l ∧ service_of s' = Some x ∧ ToLower x ∉ seen) as Hgoal
      by (rewrite IH1; set_unfold; naive_solver).
    by case_bool_decide.
Qed.

Lemma extras_nodup l seen : NoDup (add_extras l seen).
Proof.
  revert seen. induction l as [|s l IH]; intros seen; [constructor|]. cbn [add_extras].
  case_bool_decide; [done|]. fold (service_of s). destruct (service_of s) as [y|] eqn:Hs; [|done].
  case_bool_decide as Hseen; [done|]. constructor; [|done]. rewrite elem_of_extras.
  intros (s' & _ & _ & Hnot). destruct (service_key s y Hs) as [Hk _]. set_solver.
Qed.

Lemma required_key x : x ∈ requiredAPIServices ↔ ToLower x ∈ required_keys ∧ service_of x = Some x.
Proof.
  assert (service_of x = Some x → (ToLower x ∈ required_keys ↔ x ∈ requiredAPIServices)) as Hiff.
  { intros Hs. destruct (canonical_key _ _ Hs) as (<- & _ & Hiff). exact Hiff. }
  split; [|naive_solver]. intros Hx. assert (service_of x = Some x) as Hs; [|naive_solver].
  unfold requiredAPIServices in Hx. rewrite !elem_of_cons in Hx.
  destruct Hx as [->|[->|[->|[]%not_elem_of_nil]]]; vm_compute; reflexivity.
Qed.

Lemma elem_of_sanitize x l :
  x ∈ sanitizeAPIServices l ↔ x ∈ requiredAPIServices ∨ ∃ s, s ∈ l ∧ service_of s = Some x.
Proof.
  rewrite sanitize_eq, elem_of_app, elem_of_sort_Strings, elem_of_extras. split; [naive_solver|].
  intros [Hx|(s & Hin & Hs)]; [by left|]. destruct (decide (ToLower x ∈ required_keys)) as [Hk|Hk].
  - left. apply required_key. split; [done|]. by eapply canonical_key.
  - right. by exists s.
Qed.

(** ** The old API inbound *)

Section Applied.
Context `{UuidLib} `{JsonText}.
Implicit Types (i : Inbound) (l : list Inbound) (c : Config).

Definition is_api i : Prop := In_Tag i = "API_INBOUND".
#[export] Instance is_api_dec i : Decision (is_api i).
Proof. unfold is_api. apply _. Defined.

Lemma remove_api_none todo arr len :
  (∀ k, k ∈ todo → ∃ i, arr !! k = Some i ∧ ¬ is_api i) → remove_api todo arr len = Ok (take len arr).
Proof.
  induction todo as [|k todo IH]; intros Hall; [done|]. cbn [remove_api].
  destruct (Hall k ltac:(set_solver)) as (i & -> & Hi). rewrite bool_decide_eq_false_2 by exact Hi.
  apply IH. intros k' Hk'. apply Hall. set_solver.
Qed.

Lemma remove_api_skip todo todo' arr len :
  (∀ k, k ∈ todo → ∃ i, arr !! k = Some i ∧ ¬ is_api i) →
  remove_api (todo ++ todo') arr len = remove_api todo' arr len.
Proof.
  induction todo as [|k todo IH]; intros Hall; [done|]. cbn [remove_api app].
  destruct (Hall k ltac:(set_solver)) as (i & -> & Hi). rewrite bool_decide_eq_false_2 by exact Hi.
  apply IH. intros k' Hk'. apply Hall. set_solver.
Qed.

Lemma filter_all_out l : Forall (λ i, ¬ is_api i) l → filter (λ i, ¬ is_api i) l = l.
Proof. induction 1 as [|i l Hi Hl IH]; [done|]. rewrite filter_cons, decide_True by done. by rewrite IH. Qed.

Lemma not_api_lookup l k : Forall (λ i, ¬ is_api i) l → (k < length l)%nat → ∃ i, l !! k = Some i ∧ ¬ is_api i.
Proof.
  intros Hl Hk. destruct (lookup_lt_is_Some_2 l k Hk) as [i Hi]. exists i. split; [done|].
  rewrite Forall_forall in Hl. apply Hl. by eapply list_elem_of_lookup_2.
Qed.

Lemma no_api l : length (filter is_api l) = 0%nat → Forall (λ i, ¬ is_api i) l.
Proof.
  intros Hl%nil_length_inv. apply Forall_forall. intros i Hi Hia.
  assert (i ∈ filter is_api l) as Hin by (by apply list_elem_of_filter). rewrite Hl in Hin. set_solver.
Qed.

(** One old API inbound is removed, wherever it is. *)
Lemma removeAPIInbound_one l :
  (length (filter is_api l) ≤ 1)%nat → removeAPIInbound l = Ok (filter (λ i, ¬ is_api i) l).
Proof.
  intros Hone. unfold removeAPIInbound. destruct (decide (Exists is_api l)) as [Hex|Hno].
  - apply Exists_exists in Hex as (x & Hx & Hapi). apply list_elem_of_split in Hx as (a & b & ->).
    rewrite !filter_app, filter_cons, decide_True in Hone by done. rewrite length_app in Hone. cbn in Hone.
    assert (Forall (λ i, ¬ is_api i) a ∧ Forall (λ i, ¬ is_api i) b) as [Ha Hb].
    { split; apply no_api; lia. }
    rewrite length_app. cbn [length]. rewrite Nat.add_comm. cbn [Nat.add].
    rewrite filter_app, filter_cons, decide_False, !filter_all_out by (done || tauto).
    replace (S (length b + length a)) with (length a + (1 + length b))%nat by lia.
    rewrite seq_app, seq_app, remove_api_skip.
    2:{ intros k [_ Hk]%elem_of_seq. cbn in Hk. destruct (not_api_lookup a k Ha Hk) as (i & Hi & Hn).
        exists i. split; [|done]. by apply lookup_app_l_Some. }
    cbn [seq app remove_api Nat.add]. rewrite list_lookup_middle by done. rewrite bool_decide_eq_true_2 by exact Hapi.
    destruct (Nat.ltb_spec (length a + S (length b)) (S (length a))); [lia|].
    replace (length a + S (length b))%nat with (length (a ++ x :: b)) by (rewrite length_app; cbn; lia).
    rewrite firstn_all. rewrite (take_app_le a) by lia. rewrite firstn_all.
    replace (drop (S (length a)) (a ++ x :: b)) with b
      by (rewrite drop_app_ge by lia; by replace (S (length a) - length a)%nat with 1%nat by lia).
    rewrite remove_api_none.
    + rewrite app_assoc, take_app_le by (rewrite !length_app; cbn; lia).
      f_equal. apply take_ge. rewrite !length_app. cbn. lia.
    + intros k Hk%elem_of_seq. destruct (decide (k - length a < length b)%nat) as [Hlt|Hge].
      * destruct (not_api_lookup b (k - length a) Hb Hlt) as (i & Hi & Hn). exists i. split; [|done].
        rewrite lookup_app_r by lia. by apply lookup_app_l_Some.
      * destruct b as [|y b0] using rev_ind; [cbn in *; lia|]. clear IHb0.
        apply Forall_app in Hb as [_ [Hy _]%Forall_cons]. exists y. split; [|done].
        rewrite lookup_app_r, lookup_app_r by lia.
        rewrite !length_app in *. cbn in *.
        replace (k - length a - (length b0 + 1))%nat with 0%nat by lia.
        replace (length a + S (length (b0 ++ [y])) - 1)%nat with (length (a ++ x :: b0)) by (rewrite !length_app; cbn; lia).
        replace (a ++ x :: b0 ++ [y]) with ((a ++ x :: b0) ++ [y]) by (by rewrite <- app_assoc). by rewrite drop_app_length.
  - rewrite <- Forall_Exists_neg in Hno. rewrite remove_api_none, firstn_all, filter_all_out; [done..|].
    intros k [_ Hk]%elem_of_seq. by apply not_api_lookup.
Qed.
End Applied.

Section Rules.
Context `{JsonText}.

(** ** One routing rule *)

(** A rule without "geoip:private" among its addresses. *)
Definition rule_normal (obj : gmap string json) : Prop :=
  ∀ key l, key = "ip" ∨ key = "source" → obj !! key = Some (JArr l) → existsb is_private l = false.

Lemma cidrs_public : existsb is_private (map JStr privateCIDRs) = false.
Proof. vm_compute. reflexivity. Qed.

Lemma expanded_public l : existsb is_private (concat (map expand_private l)) = false.
Proof.
  induction l as [|v l IH]; [done|]. cbn [map concat]. rewrite existsb_app, IH, orb_false_r.
  unfold expand_private. destruct (is_private v) eqn:Hv; [apply cidrs_public|]. cbn. by rewrite Hv.
Qed.

Lemma replace_public v v' c : replaceGeoIPPrivate v = (v', c) →
  (c = false → v' = v) ∧ (∀ l, v' = JArr l → existsb is_private l = false).
Proof.
  unfold replaceGeoIPPrivate. destruct v; try (intros [= <- <-]; split; [done|discriminate]).
  destruct (existsb is_private items) eqn:Hp; intros [= <- <-]; split; try done.
  - intros l [= <-]. apply expanded_public.
  - by intros l [= <-].
Qed.

Lemma replace_normal v : (∀ l, v = JArr l → existsb is_private l = false) → replaceGeoIPPrivate v = (v, false).
Proof. intros Hv. unfold replaceGeoIPPrivate. destruct v; try done. by rewrite (Hv items). Qed.

Lemma normalize_key_spec key obj b obj' b' :
  normalize_key key (obj, b) = (obj', b') →
  (b' = false → obj' = obj ∧ b = false) ∧ (∀ k, k ≠ key → obj' !! k = obj !! k) ∧
  (∀ l, obj' !! key = Some (JArr l) → existsb is_private l = false).
Proof.
  unfold normalize_key. destruct (obj !! key) as [v|] eqn:Hv.
  - destruct (replaceGeoIPPrivate v) as [v' c] eqn:Hr. destruct (replace_public v v' c Hr) as [Hc Hl].
    destruct c; intros [= <- <-].
    + split_and!; [done|intros k Hk; by rewrite lookup_insert_ne|]. rewrite lookup_insert_eq. intros l [= ->]. by apply Hl.
    + split_and!; [done..|]. rewrite Hv. intros l [= ->]. apply Hl. by apply Hc.
  - intros [= <- <-]. split_and!; [done..|]. by rewrite Hv.
Qed.

Lemma normalize_obj_spec obj obj' c : normalize_obj obj = (obj', c) →
  (c = false → obj' = obj) ∧ rule_normal obj' ∧ (∀ k, k ≠ "ip" → k ≠ "source" → obj' !! k = obj !! k).
Proof.
  unfold normalize_obj. destruct (normalize_key "ip" (obj, false)) as [o1 c1] eqn:H1. intros H2.
  apply normalize_key_spec in H1 as (Hu1 & Ho1 & Hp1). apply normalize_key_spec in H2 as (Hu2 & Ho2 & Hp2).
  split_and!.
  - intros Hc. destruct (Hu2 Hc) as [-> Hc1]. by apply Hu1.
  - intros key l [->| ->]; [|apply Hp2]. rewrite Ho2 by done. apply Hp1.
  - intros k Hip Hsrc. by rewrite Ho2, Ho1.
Qed.

Lemma normalize_obj_normal obj : rule_normal obj → normalize_obj obj = (obj, false).
Proof.
  intros Hn. unfold normalize_obj, normalize_key.
  assert (∀ key, key = "ip" ∨ key = "source" → ∀ v, obj !! key = Some v → replaceGeoIPPrivate v = (v, false)) as Hr.
  { intros key Hkey v Hv. apply replace_normal. intros l ->. by eapply Hn. }
  destruct (obj !! "ip") as [v|] eqn:Hv; [rewrite (Hr "ip") by auto|];
    (destruct (obj !! "source") as [w|] eqn:Hw; [rewrite (Hr "source") by auto|]); done.
Qed.

Lemma is_private_canon v : is_private (canon v) = is_private v.
Proof. by destruct v. Qed.

Lemma rule_normal_canon obj : rule_normal obj → rule_normal (canon <$> obj).
Proof.
  intros Hn key l Hkey. rewrite lookup_fmap, fmap_Some. intros (v & Hv & Hl). destruct v; try discriminate Hl.
  cbn [canon] in Hl. injection Hl as ->. rewrite <- (Hn key items Hkey Hv).
  clear. induction items as [|v items IH]; [done|]. cbn [map existsb]. by rewrite is_private_canon, IH.
Qed.

Lemma is_str_canon (obj : gmap string json) key s : is_str ((canon <$> obj) !! key) s = is_str (obj !! key) s.
Proof. rewrite lookup_fmap. by destruct (obj !! key) as [[]|]. Qed.

Lemma rule_dropped_canon tag obj : rule_dropped tag (canon <$> obj) = rule_dropped tag obj.
Proof. unfold rule_dropped. by rewrite !is_str_canon. Qed.

Lemma unmarshal_marshal `{!JsonLaws} m : unmarshal_map (marshal_map m) = Ok (canon <$> m).
Proof.
  unfold unmarshal_map, marshal_map. rewrite json_parse_print. cbn [canon decode_object].
  by rewrite obj_map_obj, obj_map_canon.
Qed.

(** ** The list of rules *)

(** The rule as it stands after the normalisation. *)
Definition normalized (raw : string) : string :=
  match unmarshal_map raw with
  | Err _ => raw
  | Ok obj => let '(obj', changed) := normalize_obj obj in if changed then marshal_map obj' else raw
  end.

Definition is_rule (raw : string) : bool := is_ok (unmarshal_map raw).
Definition rule_obj (raw : string) : gmap string json :=
  match unmarshal_map raw with Ok obj => obj | Err _ => ∅ end.

(** A rule the node keeps: it neither claims the API's tag nor the guard's, and
    names no "geoip:private". *)
Definition rule_kept (raw : string) : Prop := is_rule raw = true ∧ rule_dropped "API" (rule_obj raw) = false.
Definition rule_ready (raw : string) : Prop := rule_kept raw ∧ rule_normal (rule_obj raw).

Lemma normalize_rules_eq rules :
  if forallb is_rule rules then normalize_rules rules = Ok (map normalized rules)
  else is_ok (normalize_rules rules) = false.
Proof.
  induction rules as [|raw rules IH]; [done|]. cbn [forallb map normalize_rules]. unfold normalized at 1, is_rule at 1.
  destruct (unmarshal_map raw) as [obj|e]; [|done]. destruct (normalize_obj obj) as [obj' c]. cbn [is_ok andb].
  destruct (forallb is_rule rules); [by rewrite IH|]. by destruct (normalize_rules rules).
Qed.

Lemma filter_rules_eq rules tag :
  forallb is_rule rules = true →
  filter_rules rules tag = Ok (filter (λ raw, rule_dropped tag (rule_obj raw) = false) rules).
Proof.
  induction rules as [|raw rules IH]; [done|]. cbn [forallb filter_rules]. intros [Hraw Hall]%andb_true_iff.
  unfold is_rule in Hraw. destruct (unmarshal_map raw) as [obj|e] eqn:Hobj; [|done].
  assert (rule_obj raw = obj) as Hr by (unfold rule_obj; by rewrite Hobj).
  rewrite (IH Hall), filter_cons, Hr. by destruct (rule_dropped tag obj).
Qed.

Lemma normalized_ready `{!JsonLaws} raw :
  is_rule raw = true →
  is_rule (normalized raw) = true ∧ rule_normal (rule_obj (normalized raw)) ∧
  rule_dropped "API" (rule_obj (normalized raw)) = rule_dropped "API" (rule_obj raw).
Proof.
  unfold is_rule at 1, normalized. destruct (unmarshal_map raw) as [obj|e] eqn:Hraw; [|done]. intros _.
  destruct (normalize_obj obj) as [obj' c] eqn:Hn. apply normalize_obj_spec in Hn as (Hc & Hnormal & Hkeep).
  destruct c.
  - unfold is_rule, rule_obj. rewrite unmarshal_marshal, Hraw. split_and!; [done|by apply rule_normal_canon|].
    rewrite rule_dropped_canon. unfold rule_dropped. by rewrite !Hkeep.
  - rewrite (Hc eq_refl) in Hnormal. unfold is_rule, rule_obj. by rewrite Hraw.
Qed.

Lemma normalized_id raw : rule_normal (rule_obj raw) → normalized raw = raw.
Proof.
  unfold rule_obj, normalized. destruct (unmarshal_map raw) as [obj|e]; [|done].
  intros Hn. by rewrite normalize_obj_normal.
Qed.

(** The operator's rules after both passes. *)
Definition prepared (rules : list string) : list string :=
  map normalized (filter (λ raw, rule_dropped "API" (rule_obj raw) = false) rules).

Lemma filter_normalized `{!JsonLaws} rules :
  forallb is_rule rules = true →
  filter (λ raw, rule_dropped "API" (rule_obj raw) = false) (map normalized rules) = prepared rules ∧
  forallb is_rule (map normalized rules) = true.
Proof.
  induction rules as [|raw rules IH]; [done|]. cbn [forallb map]. intros [Hraw Hrules]%andb_true_iff.
  destruct (normalized_ready raw Hraw) as (Hr & _ & Hd). destruct (IH Hrules) as [IH1 IH2].
  unfold prepared. rewrite !filter_cons, Hd, Hr, IH2. split; [|done].
  case_decide; [cbn [map]; by rewrite IH1|exact IH1].
Qed.

Lemma prepared_ready `{!JsonLaws} rules : forallb is_rule rules = true → Forall rule_ready (prepared rules).
Proof.
  intros Hall. apply Forall_forall. intros raw' Hin. unfold prepared in Hin.
  apply list_elem_of_In, in_map_iff in Hin as (raw & <- & Hin).
  apply list_elem_of_In, list_elem_of_filter in Hin as [Hd Hin].
  rewrite forallb_forall in Hall. specialize (Hall raw (proj1 (list_elem_of_In _ _) Hin)).
  destruct (normalized_ready raw Hall) as (Hr & Hn & Hd'). unfold rule_ready, rule_kept. by rewrite Hd'.
Qed.

Lemma prepared_id rules : Forall rule_ready rules → prepared rules = rules.
Proof.
  induction 1 as [|raw rules [[_ Hd] Hn] _ IH]; [done|]. unfold prepared in *.
  rewrite filter_cons, decide_True by done. cbn [map]. by rewrite IH, normalized_id.
Qed.
End Rules.

(** ** The prepared configuration *)

Section Prepared.
Context `{UuidLib} `{JsonText}.
Implicit Types c : Config.

Definition user_services c : list string := match C_API c with Some a => API_Services a | None => [] end.
Definition user_rules c : list string := default [] (RuleList (the_router c)).

(** The observatory sections after injection and sanitising. *)
Definition observed c : Config :=
  sanitizeObservatorySelectors (inject_observatory (sanitizeAPIServices (user_services c)) c).

Definition applied (ifaces : result (list NetInterface)) (apiPort metricPort : Z) (inbounds : list Inbound)
    (rules : list string) (policy : PolicyConfig) c : Config :=
  mkConfig (C_Log c)
    (Some (mkRouter (Some (prepend_rules (apiRuleSources ifaces) c ++ rules)) (router_rest (the_router c))))
    (api_inbound apiPort :: inbounds) (C_Outbounds c) (Some policy)
    (Some (mkAPI "API" "" (sanitizeAPIServices (user_services c)))) (Some (metrics_section metricPort))
    (C_Observatory (observed c)) (C_BurstObservatory (observed c)) (C_rest c).

(** The state before the rules are read. *)
Definition before_rules (metricPort : Z) (inbounds : list Inbound) c : Config :=
  let services := sanitizeAPIServices (user_services c) in
  let c := inject_observatory services (set_api (mkAPI "API" "" services) (set_inbounds inbounds c)) in
  let c := sanitizeObservatorySelectors (set_metrics (metrics_section metricPort) c) in
  set_router (the_router c) c.

Lemma before_rules_eq metricPort inbounds c :
  before_rules metricPort inbounds c =
  mkConfig (C_Log c) (Some (the_router c)) inbounds (C_Outbounds c) (C_Policy c)
    (Some (mkAPI "API" "" (sanitizeAPIServices (user_services c)))) (Some (metrics_section metricPort))
    (C_Observatory (observed c)) (C_BurstObservatory (observed c)) (C_rest c).
Proof.
  unfold before_rules, observed. destruct c as [log router inb out pol api met obs burst rest].
  cbn [C_Log C_Router C_Inbounds C_Outbounds C_Policy C_API C_Metrics C_Observatory C_BurstObservatory C_rest].
  set (services := sanitizeAPIServices _). clearbody services.
  unfold inject_observatory. cbn [set_api set_inbounds C_Observatory C_BurstObservatory].
  destruct (slices_Contains services "ObservatoryService" && negb (isSome obs) && negb (isSome burst));
    unfold sanitizeObservatorySelectors;
    cbn [set_api set_inbounds set_metrics set_observatories outboundProtocolByTag C_Outbounds];
    unfold outboundProtocolByTag; cbn [C_Outbounds]; by destruct (bool_decide _).
Qed.

Lemma ApplyAPI_unfold ifaces apiPort metricPort c :
  ApplyAPI ifaces apiPort metricPort c =
  match removeAPIInbound (C_Inbounds c) with
  | Err e => (Err e, c)
  | Ok inbounds => apply_rules ifaces apiPort (before_rules metricPort inbounds c)
  end.
Proof.
  unfold ApplyAPI, mbind, eff_bind, get, lift, modify. by destruct (removeAPIInbound (C_Inbounds c)).
Qed.

Lemma apply_rules_eq `{!JsonLaws} ifaces apiPort c policy :
  forallb is_rule (user_rules c) = true → checked_policy (C_Policy c) = Ok policy →
  apply_rules ifaces apiPort c =
    (Ok (), mkConfig (C_Log c)
       (Some (mkRouter (Some (prepend_rules (apiRuleSources ifaces) c ++ prepared (user_rules c)))
                (router_rest (the_router c))))
       (api_inbound apiPort :: C_Inbounds c) (C_Outbounds c) (Some policy) (C_API c) (C_Metrics c)
       (C_Observatory c) (C_BurstObservatory c) (C_rest c)).
Proof.
  intros Hall Hpol. unfold apply_rules, mbind, eff_bind, get, lift, modify, normalizeGeoIPPrivateRules.
  fold (user_rules c). pose proof (normalize_rules_eq (user_rules c)) as Hnorm. rewrite Hall in Hnorm. rewrite Hnorm.
  destruct (filter_normalized (user_rules c) Hall) as [Hfilter Hrules].
  unfold assign_filtered. change (filterRules (Some ?r) "API") with (filter_rules r "API").
  rewrite filter_rules_eq, Hfilter by done.
  unfold checkPolicy. cbn [C_Policy set_rules set_router]. by rewrite Hpol.
Qed.

Lemma apply_rules_fails ifaces apiPort c :
  forallb is_rule (user_rules c) = false ∨ is_ok (checked_policy (C_Policy c)) = false →
  is_ok (apply_rules ifaces apiPort c).1 = false.
Proof.
  unfold apply_rules, mbind, eff_bind, get, lift, modify, normalizeGeoIPPrivateRules. fold (user_rules c).
  pose proof (normalize_rules_eq (user_rules c)) as Hnorm. intros [Hall|Hpol].
  - rewrite Hall in Hnorm. by destruct (normalize_rules (user_rules c)).
  - destruct (normalize_rules (user_rules c)) as [rules|e]; [|done]. unfold assign_filtered, filterRules.
    destruct (filter_rules _ _) as [rules'|e]; [|done]. unfold checkPolicy. cbn [C_Policy set_rules set_router].
    by destruct (checked_policy (C_Policy c)).
Qed.

Lemma prepend_rules_outbounds sources c c' :
  C_Outbounds c = C_Outbounds c' → prepend_rules sources c = prepend_rules sources c'.
Proof. intros Ho. unfold prepend_rules, blackholeOutboundTag, outboundProtocolByTag. by rewrite Ho. Qed.

(** The preparation succeeds when the old API inbound can be removed, every
    rule is an object and level 0 of the policy is not null. *)
Lemma ApplyAPI_Ok `{!JsonLaws} ifaces apiPort metricPort c inbounds policy :
  removeAPIInbound (C_Inbounds c) = Ok inbounds → checked_policy (C_Policy c) = Ok policy →
  forallb is_rule (user_rules c) = true →
  ApplyAPI ifaces apiPort metricPort c =
    (Ok (), applied ifaces apiPort metricPort inbounds (prepared (user_rules c)) policy c).
Proof.
  intros Hin Hpol Hall. rewrite ApplyAPI_unfold, Hin, before_rules_eq.
  match goal with |- apply_rules _ _ ?c1 = _ =>
    etransitivity; [exact (apply_rules_eq ifaces apiPort c1 policy Hall Hpol)|] end.
  unfold applied. rewrite (prepend_rules_outbounds _ _ c) by reflexivity. reflexivity.
Qed.

Lemma ApplyAPI_fails ifaces apiPort metricPort c :
  is_ok (removeAPIInbound (C_Inbounds c)) = false ∨ forallb is_rule (user_rules c) = false ∨
  is_ok (checked_policy (C_Policy c)) = false → is_ok (ApplyAPI ifaces apiPort metricPort c).1 = false.
Proof.
  intros Hfail. rewrite ApplyAPI_unfold. destruct (removeAPIInbound (C_Inbounds c)) as [inbounds|e]; [|done].
  destruct Hfail as [|Hfail]; [done|]. apply apply_rules_fails. by rewrite before_rules_eq.
Qed.

(** ** The parts, prepared twice *)

Lemma sanitize_twice l : sanitizeAPIServices (sanitizeAPIServices l) = sanitizeAPIServices l.
Proof.
  rewrite (sanitize_eq (sanitizeAPIServices l)), (sanitize_eq l). f_equal. apply sort_Strings_proper.
  assert (∀ x, service_of x = Some x → ToLower x ∉ required_keys → x ∉ requiredAPIServices) as Hreq
    by (intros x Hx Hk [Hk' _]%required_key; done).
  apply NoDup_Permutation; [apply extras_nodup..|]. intros x. rewrite elem_of_extras. split.
  - intros (s & Hs & Hx & Hk). rewrite elem_of_app, elem_of_sort_Strings in Hs. destruct Hs as [Hs|Hs].
    + apply required_key in Hs as [Hsk Hss]. assert (x = s) as -> by congruence. done.
    + assert (service_of s = Some s) as Hss.
      { apply elem_of_extras in Hs as (t & _ & Ht & _). by eapply canonical_key. }
      by assert (x = s) as -> by congruence.
  - intros Hx. exists x. rewrite elem_of_app, elem_of_sort_Strings. split; [by right|].
    apply elem_of_extras in Hx as (t & _ & Ht & Hk). split; [by eapply canonical_key|done].
Qed.

Lemma sanitize_section_twice m section :
  sanitize_section m (sanitize_section m section) = sanitize_section m section.
Proof.
  unfold sanitize_section at 2 3. destruct (section !! "subjectSelector") as [v|] eqn:Hv.
  - destruct v as [| | | |values|]; try (unfold sanitize_section; by rewrite Hv).
    unfold sanitize_section. rewrite lookup_insert_eq, insert_insert_eq. f_equal. f_equal.
    apply list_filter_filter_l. naive_solver.
  - unfold sanitize_section. by rewrite Hv.
Qed.

Lemma checked_policy_twice policy p : checked_policy policy = Ok p → checked_policy (Some p) = Ok p.
Proof.
  unfold checked_policy at 1. destruct (match policy with None => _ | Some _ => _ end) as [levels system].
  unfold check_level_zero. destruct (levels !! 0) as [[zero|]|] eqn:Hz; [|done|]; intros [= <-]; unfold checked_policy; cbn;
    unfold check_level_zero; rewrite lookup_insert_eq; cbn; rewrite insert_insert_eq; destruct system as [[]|]; done.
Qed.

Lemma checked_policy_counts policy p : checked_policy policy = Ok p →
  ∃ levels zero system, p = mkPolicyConfig (Some levels) (Some system) ∧ levels !! 0 = Some (Some zero) ∧
    StatsUserUplink zero = true ∧ StatsUserDownlink zero = true ∧
    StatsOutboundUplink system = true ∧ StatsOutboundDownlink system = true ∧
    (∀ k, k ≠ 0 → levels !! k = default ∅ (policy ≫= Levels) !! k).
Proof.
  unfold checked_policy. intros Hp.
  assert (∃ levels system, (match policy with None => (∅, None) | Some p => (default ∅ (Levels p), System p) end)
    = (levels, system) ∧ levels = default ∅ (policy ≫= Levels)) as (levels & system & Heq & Hl).
  { destruct policy as [[]|]; by eexists _, _. }
  rewrite Heq in Hp. rewrite <- Hl. unfold check_level_zero in Hp.
  destruct (levels !! 0) as [[zero|]|] eqn:Hz; [|discriminate Hp|]; injection Hp as <-;
    eexists _, _, _; (split; [done|]); rewrite lookup_insert_eq; (split; [done|]);
    (split_and!; [done..|by destruct system|by destruct system|intros k Hk; by rewrite lookup_insert_ne]).
Qed.

(** Applied once more, the observatory steps change nothing. *)
Lemma observed_twice c c' :
  C_Outbounds c' = C_Outbounds c → user_services c' = sanitizeAPIServices (user_services c) →
  C_Observatory c' = C_Observatory (observed c) → C_BurstObservatory c' = C_BurstObservatory (observed c) →
  C_Observatory (observed c') = C_Observatory (observed c) ∧
  C_BurstObservatory (observed c') = C_BurstObservatory (observed c).
Proof.
  intros Hout Hserv Hobs Hburst. unfold observed. rewrite Hserv, sanitize_twice.
  set (services := sanitizeAPIServices (user_services c)) in *.
  assert (inject_observatory services c' = c') as ->.
  { unfold inject_observatory. rewrite Hobs, Hburst. unfold observed. fold services. unfold inject_observatory.
    destruct (slices_Contains services "ObservatoryService"); [|done].
    destruct (C_Observatory c) as [o|] eqn:Ho, (C_BurstObservatory c) as [b|] eqn:Hb; cbn [isSome negb andb];
      unfold sanitizeObservatorySelectors; destruct (bool_decide _);
      cbn [set_observatories C_Observatory C_BurstObservatory fmap option_fmap option_map]; rewrite ?Ho, ?Hb; done. }
  unfold observed in Hobs, Hburst. fold services in Hobs, Hburst.
  set (c1 := inject_observatory services c) in *.
  assert (C_Outbounds c' = C_Outbounds c1) as Hout1.
  { rewrite Hout. unfold c1, inject_observatory. by destruct (_ && _ && _). }
  unfold sanitizeObservatorySelectors in *. unfold outboundProtocolByTag in *. rewrite Hout1.
  destruct (bool_decide _); [exact (conj Hobs Hburst)|].
  cbn [set_observatories C_Observatory C_BurstObservatory] in *. rewrite Hobs, Hburst, <- !option_fmap_compose.
  split; apply option_fmap_ext; intros section; cbn; apply sanitize_section_twice.
Qed.

Lemma api_rule_obj `{!JsonLaws} sources :
  is_rule (apiRule sources) = true ∧ rule_obj (apiRule sources) =
    canon <$> (list_to_map [("inboundTag", JStrings ["API_INBOUND"]); ("source", JStrings sources);
                 ("outboundTag", JStr "API"); ("type", JStr "field")] : gmap string json).
Proof. unfold is_rule, rule_obj, apiRule. by rewrite unmarshal_marshal. Qed.

Lemma guard_rule_obj `{!JsonLaws} tag :
  is_rule (malformedDomainGuardRule tag) = true ∧
  rule_obj (malformedDomainGuardRule tag) !! "ruleTag" = Some (JStr malformedDomainGuardRuleTag).
Proof. unfold is_rule, rule_obj, malformedDomainGuardRule. by rewrite unmarshal_marshal. Qed.

(** The node's own rules are removed when the configuration is prepared again. *)
Lemma prepend_dropped `{!JsonLaws} sources c rules :
  Forall rule_ready rules →
  forallb is_rule (prepend_rules sources c ++ rules) = true ∧ prepared (prepend_rules sources c ++ rules) = rules.
Proof.
  intros Hready. destruct (api_rule_obj sources) as [Hr1 Ho1].
  assert (rule_dropped "API" (rule_obj (apiRule sources)) = true) as Hd1 by (rewrite Ho1; done).
  assert (∀ tag, rule_dropped "API" (rule_obj (malformedDomainGuardRule tag)) = true) as Hd2.
  { intros tag. unfold rule_dropped. rewrite (proj2 (guard_rule_obj tag)). apply orb_true_r. }
  assert (forallb is_rule rules = true) as Hall.
  { apply forallb_forall. intros raw Hin%list_elem_of_In. rewrite Forall_forall in Hready. by apply Hready. }
  unfold prepend_rules, prepared. destruct (bool_decide _); cbn [app forallb].
  - rewrite Hr1, (proj1 (guard_rule_obj _)), Hall, !filter_cons, Hd1, Hd2. split; [done|]. by apply prepared_id.
  - rewrite Hr1, Hall, !filter_cons, Hd1. split; [done|]. by apply prepared_id.
Qed.
End Prepared.

(** ** Properties *)

(** The API services are the three the node needs followed by the known
    ones the operator names (matched up to case and surrounding space), sorted
    and without repetition; sanitising twice changes nothing. *)
Theorem api_services_sanitized (userProvided : list string) :
  let services := sanitizeAPIServices userProvided in
  take 3 services = requiredAPIServices ∧ NoDup services ∧ StronglySorted String.le (drop 3 services) ∧
  (∀ x, x ∈ services ↔ x ∈ requiredAPIServices ∨
     ∃ s, s ∈ userProvided ∧ canonicalAPIServices !! ToLower (TrimSpace s) = Some x) ∧
  sanitizeAPIServices services = services.
Proof.
  intros services. unfold services. split_and!; [by rewrite sanitize_eq| | | |apply sanitize_twice].
  - rewrite sanitize_eq. apply NoDup_app. split_and!.
    + apply (bool_decide_unpack _). by vm_compute.
    + intros x [Hk _]%required_key. rewrite elem_of_sort_Strings, elem_of_extras. naive_solver.
    + rewrite sort_Strings_nodup. apply extras_nodup.
  - rewrite sanitize_eq. apply sort_Strings_sorted.
  - intros x. apply elem_of_sanitize.
Qed.

(** C25: [ApplyAPI] accepts exactly the configurations whose rules are objects,
    whose level 0 is not null, and whose old API inbounds its loop removes
    without slicing past the end, which holds when there is at most one.  An
    accepted configuration gets the API inbound, first and on the loopback
    address, before the inbounds the loop leaves: with at most one old API
    inbound these are the operator's others, so that there is exactly one (of two
    side by side the second stays, [two_api_inbounds] in XrayApiToy).  The
    operator's outbounds and levels are kept; the node's own rules come first; of
    the operator's rules those whose "outboundTag" is the API tag or whose
    "ruleTag" is the guard's, the keys spelled exactly so, are dropped (the core
    reads other spellings too, [respelled_rule_kept] there), and "geoip:private"
    is expanded in the others; the core counts every user of level 0 and every
    outbound; and the observatory service always has an observatory. *)
Theorem apply_api_guards_the_api `{UuidLib} `{JsonText} `{!JsonLaws} (ifaces : result (list NetInterface))
    (apiPort metricPort : Z) (c : Config) :
  let left := removeAPIInbound (C_Inbounds c) in
  let accepted := is_ok left && forallb is_rule (user_rules c) && is_ok (checked_policy (C_Policy c)) in
  let '(r, c') := ApplyAPI ifaces apiPort metricPort c in
  ((length (filter is_api (C_Inbounds c)) ≤ 1)%nat → left = Ok (filter (λ i, ¬ is_api i) (C_Inbounds c))) ∧
  is_ok r = accepted ∧
  (r = Ok () →
   (∃ inbounds, left = Ok inbounds ∧ C_Inbounds c' = api_inbound apiPort :: inbounds) ∧
   C_Outbounds c' = C_Outbounds c ∧
   (∃ kept, user_rules c' = prepend_rules (apiRuleSources ifaces) c ++ kept ∧ Forall rule_ready kept ∧
      kept = map normalized (filter (λ raw, rule_dropped "API" (rule_obj raw) = false) (user_rules c))) ∧
   (∃ levels zero system, C_Policy c' = Some (mkPolicyConfig (Some levels) (Some system)) ∧
      levels !! 0 = Some (Some zero) ∧ StatsUserUplink zero = true ∧ StatsUserDownlink zero = true ∧
      StatsOutboundUplink system = true ∧ StatsOutboundDownlink system = true ∧
      ∀ k, k ≠ 0 → levels !! k = default ∅ (C_Policy c ≫= Levels) !! k) ∧
   ("ObservatoryService" ∈ user_services c' → is_Some (C_Observatory c') ∨ is_Some (C_BurstObservatory c'))).
Proof.
  intros left accepted. pose proof (removeAPIInbound_one (C_Inbounds c)) as Hone. fold left in Hone.
  pose proof (ApplyAPI_fails ifaces apiPort metricPort c) as Hf.
  destruct (removeAPIInbound (C_Inbounds c)) as [inbounds|e] eqn:Hrem; subst left; unfold accepted;
    [destruct (forallb is_rule (user_rules c)) eqn:Hall; [destruct (checked_policy (C_Policy c)) as [policy|e] eqn:Hpol|]|].
  2,3,4: destruct (ApplyAPI ifaces apiPort metricPort c) as [[[]|e'] c'];
    [discriminate Hf; rewrite ?Hall; cbn; auto|by split_and!].
  rewrite (ApplyAPI_Ok _ _ _ _ _ _ Hrem Hpol Hall). split_and!; [done..|]. intros _. unfold applied.
  cbn [C_Inbounds C_Outbounds C_Policy C_Observatory C_BurstObservatory]. split_and!; [by exists inbounds|done| | |].
  - eexists. split; [done|]. split; [by apply prepared_ready|done].
  - destruct (checked_policy_counts _ _ Hpol) as (levels & zero & system & -> & Hrest). by exists levels, zero, system.
  - unfold user_services at 1. cbn [C_API API_Services]. intros Hobs%slices_Contains_true.
    unfold observed, inject_observatory. rewrite Hobs.
    destruct (C_Observatory c) as [o|] eqn:Ho, (C_BurstObservatory c) as [b|] eqn:Hb; cbn [isSome negb andb];
      unfold sanitizeObservatorySelectors; destruct (bool_decide _);
      cbn [set_observatories C_Observatory C_BurstObservatory fmap option_fmap option_map]; rewrite ?Ho, ?Hb; eauto.
Qed.

(** Preparing a prepared configuration again, with the same ports and
    interfaces, gives the same configuration. *)
Theorem apply_api_idempotent `{UuidLib} `{JsonText} `{!JsonLaws} (ifaces : result (list NetInterface))
    (apiPort metricPort : Z) (c c' : Config) (Hone : (length (filter is_api (C_Inbounds c)) ≤ 1)%nat)
    (Hrun : ApplyAPI ifaces apiPort metricPort c = (Ok (), c')) :
  ApplyAPI ifaces apiPort metricPort c' = (Ok (), c').
Proof.
  pose proof (removeAPIInbound_one _ Hone) as Hrem.
  pose proof (ApplyAPI_fails ifaces apiPort metricPort c) as Hf. rewrite Hrun in Hf. cbn [fst is_ok] in Hf.
  destruct (forallb is_rule (user_rules c)) eqn:Hall; [|discriminate Hf; auto].
  destruct (checked_policy (C_Policy c)) as [policy|e] eqn:Hpol; [|discriminate Hf; auto].
  rewrite (ApplyAPI_Ok _ _ _ _ _ _ Hrem Hpol Hall) in Hrun. injection Hrun as Hc'. clear Hf.
  destruct (prepend_dropped (apiRuleSources ifaces) c (prepared (user_rules c)) (prepared_ready _ Hall)) as [Hall' Hprep].
  set (others := filter (λ i, ¬ is_api i) (C_Inbounds c)) in *.
  assert (removeAPIInbound (api_inbound apiPort :: others) = Ok others) as Hrem'.
  { assert (Forall (λ i, ¬ is_api i) others) as Hothers.
    { apply Forall_forall. intros i Hi%list_elem_of_filter. tauto. }
    rewrite removeAPIInbound_one.
    - by rewrite filter_cons, decide_False, filter_all_out by (done || (intros Hn; by apply Hn)).
    - rewrite filter_cons, decide_True by done. cbn. enough (filter is_api others = []) as ->; [done|].
      clear -Hothers. induction Hothers as [|i l Hi Hl IH]; [done|]. by rewrite filter_cons, decide_False. }
  assert (user_rules c' = prepend_rules (apiRuleSources ifaces) c ++ prepared (user_rules c)) as Hur by (by subst c').
  assert (user_services c' = sanitizeAPIServices (user_services c)) as Hserv by (by subst c').
  destruct (observed_twice c c') as [Ho1 Ho2]; [by subst c'..|].
  rewrite (ApplyAPI_Ok _ _ _ c' others policy); [|by subst c'|subst c'; by eapply checked_policy_twice|by rewrite Hur].
  unfold applied. rewrite Hur, Hprep, Hserv, sanitize_twice, Ho1, Ho2. rewrite (prepend_rules_outbounds _ c' c) by (by subst c').
  subst c'. reflexivity.
Qed.
