(* ===== verification/JsonToy.v ===== *)
(** * A concrete text for JSON values

    An instance of [JsonText] with its law, for the witnesses: a value is
    written as the binary digits of its code ([Countable]).  It stands for
    JSON's own syntax only in that parsing a printed value gives it back. *)

From stdpp Require Import countable.
From S2P Require Import Prelude GoString Json.

(** ** Values as trees *)

Fixpoint tree_of (v : json) : gen_tree string :=
  match v with
  | JNull => GenNode 0 []
  | JBool true => GenNode 1 []
  | JBool false => GenNode 2 []
  | JNum s => GenNode 3 [GenLeaf s]
  | JStr s => GenNode 4 [GenLeaf s]
  | JArr l => GenNode 5 (map tree_of l)
  | JObj fields => GenNode 6 (map (λ '(k, v), GenNode 7 [GenLeaf k; tree_of v]) fields)
  end.

(** The inverse; other trees are read as null. *)
Fixpoint of_tree (t : gen_tree string) : json :=
  match t with
  | GenNode 1 [] => JBool true
  | GenNode 2 [] => JBool false
  | GenNode 3 [GenLeaf s] => JNum s
  | GenNode 4 [GenLeaf s] => JStr s
  | GenNode 5 l => JArr (map of_tree l)
  | GenNode 6 l => JObj (map (λ t, match t with GenNode _ [GenLeaf k; v] => (k, of_tree v) | _ => ("", JNull) end) l)
  | _ => JNull
  end.

(** Induction through arrays and objects. *)
Fixpoint json_nested_ind (P : json → Prop) (Hnull : P JNull) (Hbool : ∀ b, P (JBool b)) (Hnum : ∀ s, P (JNum s))
    (Hstr : ∀ s, P (JStr s)) (Harr : ∀ l, Forall P l → P (JArr l))
    (Hobj : ∀ fields, Forall (λ f, P f.2) fields → P (JObj fields)) (v : json) : P v :=
  match v with
  | JNull => Hnull
  | JBool b => Hbool b
  | JNum s => Hnum s
  | JStr s => Hstr s
  | JArr l =>
      Harr l ((fix go l := match l return Forall P l with
                           | [] => Forall_nil_2 _
                           | v :: l => Forall_cons_2 _ _ _
                               (json_nested_ind P Hnull Hbool Hnum Hstr Harr Hobj v) (go l)
                           end) l)
  | JObj fields =>
      Hobj fields ((fix go l := match l return Forall (λ f, P f.2) l with
                                | [] => Forall_nil_2 _
                                | f :: l => Forall_cons_2 _ _ _
                                    (json_nested_ind P Hnull Hbool Hnum Hstr Harr Hobj f.2) (go l)
                                end) fields)
  end.

Lemma of_tree_of v : of_tree (tree_of v) = v.
Proof.
  induction v as [|[]| | |l Hl|fields Hl] using json_nested_ind; try done; cbn [tree_of of_tree]; f_equal.
  - induction Hl as [|v l Hv Hl IH]; [done|]. cbn [map]. by rewrite Hv, IH.
  - induction Hl as [|[k v] l Hv Hl IH]; [done|]. cbn [map]. cbn in Hv. by rewrite Hv, IH.
Qed.

#[export] Instance json_eq_dec : EqDecision json.
Proof.
  refine (λ v w, cast_if (decide (tree_of v = tree_of w))); [|congruence].
  rewrite <- (of_tree_of v), <- (of_tree_of w). congruence.
Defined.

#[export] Instance json_countable : Countable json.
Proof. apply (inj_countable' tree_of of_tree). exact of_tree_of. Defined.

(** ** Codes as text *)

Fixpoint digits_of (p : positive) : string :=
  match p with
  | xH => ""
  | xO p => "0" +:+ digits_of p
  | xI p => "1" +:+ digits_of p
  end.

Fixpoint code_of (s : string) : option positive :=
  match s with
  | "" => Some xH
  | String a s =>
      if bool_decide (String a "" = "0") then xO <$> code_of s
      else if bool_decide (String a "" = "1") then xI <$> code_of s
      else None
  end.

Lemma code_of_digits p : code_of (digits_of p) = Some p.
Proof.
  induction p as [p IH|p IH|]; [| |done]; cbn [digits_of]; rewrite string_app_cons, string_app_nil_l;
    cbn [code_of]; by rewrite IH.
Qed.

#[export] Instance digits_json : JsonText := {|
  json_parse s := match code_of s ≫= decode with
                  | Some v => Ok v
                  | None => Err (errors_New "invalid JSON")
                  end;
  json_print v := digits_of (encode v)
|}.

#[export] Instance digits_laws : JsonLaws.
Proof. constructor. intros v. cbn. rewrite code_of_digits. cbn. by rewrite decode_encode. Qed.
