(* ===== verification/XrayApiToy.v ===== *)
(** * A configuration to prepare: witnesses and observations

    Rules, outbounds and interfaces for the theorems of XrayApi, with the JSON
    text of JsonToy, and what [ApplyAPI] does with two old API inbounds and
    with a null level. *)

From S2P Require Import Prelude GoString Json Helper Messages XrayAccount XrayInbound XrayToy XrayApply XrayApi JsonToy.

#[local] Open Scope Z_scope.

Definition toy_rule (fields : list (string * json)) : string := json_print (JObj fields).

Definition toy_rules : list string :=
  [toy_rule [("outboundTag", JStr "API"); ("source", JStrings ["0.0.0.0/0"])];
   toy_rule [("ip", JStrings ["GeoIP:private"; "1.1.1.1"]); ("outboundTag", JStr "block")]].

Definition toy_to_prepare : Config :=
  mkConfig None (Some (mkRouter (Some toy_rules) (JObj [])))
    [toy_inbound "API_INBOUND" "dokodemo-door" [] false; toy_inbound "v" "vless" [] false]
    (JArr [JObj [("tag", JStr "block"); ("protocol", JStr "blackhole")]]) None
    (Some (mkAPI "x" "0.0.0.0:1" ["observatoryservice "; "nope"])) None None None (JObj []).

Definition toy_ifaces : result (list NetInterface) :=
  Ok [mkIface true (Ok [IPNet (Some (mkIP "10.0.0.7" false)); IPNet (Some (mkIP "::" true))]);
      mkIface false (Ok [IPAddr (Some (mkIP "10.9.9.9" false))])].

Lemma toy_one_api : (length (filter is_api (C_Inbounds toy_to_prepare)) ≤ 1)%nat.
Proof. apply (bool_decide_unpack _). vm_compute. exact I. Qed.

Lemma apply_api_guards_the_api_witness :
  let '(r, c') := ApplyAPI toy_ifaces 62051 62052 toy_to_prepare in
  is_ok r = true ∧ In_Tag <$> C_Inbounds c' = ["API_INBOUND"; "v"] ∧
  user_services c' = ["HandlerService"; "LoggerService"; "StatsService"; "ObservatoryService"] ∧
  length (user_rules c') = 3%nat.
Proof.
  pose proof (apply_api_guards_the_api toy_ifaces 62051 62052 toy_to_prepare) as Hthm.
  assert (let '(r, c') := ApplyAPI toy_ifaces 62051 62052 toy_to_prepare in
    In_Tag <$> C_Inbounds c' = ["API_INBOUND"; "v"] ∧
    user_services c' = ["HandlerService"; "LoggerService"; "StatsService"; "ObservatoryService"] ∧
    length (user_rules c') = 3%nat) as Hrun by (vm_compute; split_and!; reflexivity).
  assert (is_ok (removeAPIInbound (C_Inbounds toy_to_prepare)) && forallb is_rule (user_rules toy_to_prepare) &&
    is_ok (checked_policy (C_Policy toy_to_prepare)) = true) as Hacc by (vm_compute; reflexivity).
  cbv zeta in Hthm. rewrite Hacc in Hthm.
  destruct (ApplyAPI toy_ifaces 62051 62052 toy_to_prepare) as [r c']. split; [exact (proj1 (proj2 Hthm))|exact Hrun].
Defined.

Lemma apply_api_idempotent_witness :
  let c' := (ApplyAPI toy_ifaces 62051 62052 toy_to_prepare).2 in
  ApplyAPI toy_ifaces 62051 62052 c' = (Ok (), c').
Proof.
  intros c'. assert (is_ok (ApplyAPI toy_ifaces 62051 62052 toy_to_prepare).1 = true) as Hok by (vm_compute; reflexivity).
  apply (apply_api_idempotent toy_ifaces 62051 62052 toy_to_prepare c' toy_one_api). unfold c'.
  destruct (ApplyAPI toy_ifaces 62051 62052 toy_to_prepare) as [[[]|e] c1]; [reflexivity|discriminate Hok].
Defined.

(** ** Observations *)

(** Of two old API inbounds side by side the second survives, so that the
    prepared configuration has two inbounds of the same tag; when they are the
    last two, the loop slices past the end and panics. *)
Lemma two_api_inbounds (a b x : Inbound) (Ha : is_api a) (Hb : is_api b) (Hx : ¬ is_api x) :
  removeAPIInbound [a; b; x] = Ok [b; x] ∧
  removeAPIInbound [x; a; b] = Err (go_panic "runtime error: slice bounds out of range").
Proof.
  unfold is_api in *. unfold removeAPIInbound.
  split; cbn; rewrite ?(bool_decide_eq_true_2 _ Ha), ?(bool_decide_eq_false_2 _ Hx); cbn;
    rewrite ?(bool_decide_eq_true_2 _ Ha), ?(bool_decide_eq_false_2 _ Hx); cbn;
    rewrite ?(bool_decide_eq_true_2 _ Hb), ?(bool_decide_eq_false_2 _ Hx); done.
Qed.

(** A policy level 0 that is null panics. *)
Lemma null_level_panics (system : option SystemPolicy) (levels : gmap Z (option Policy)) :
  levels !! 0 = Some None → checked_policy (Some (mkPolicyConfig (Some levels) system)) = Err nil_deref.
Proof. intros Hz. unfold checked_policy, check_level_zero. cbn. by rewrite Hz. Qed.

(** A rule of the operator that names the API outbound under another spelling
    of the key, which the core's case-insensitive reading takes for the same,
    is kept. *)
Definition respelled_rule : string := toy_rule [("OutboundTag", JStr "API")].

Lemma respelled_rule_kept :
  let c := set_rules [respelled_rule] toy_to_prepare in
  let '(r, c') := ApplyAPI toy_ifaces 62051 62052 c in r = Ok () ∧ respelled_rule ∈ user_rules c'.
Proof. vm_compute. split; [reflexivity|]. repeat (apply list_elem_of_here || apply list_elem_of_further). Qed.
