(* ===== verification/XrayRender.v ===== *)
(** * The configuration as the core reads it ([ToBytes] of [src/backend/xray/config.go])

    The clients of every included inbound are written into its settings, the
    log files are blanked, and the whole is marshalled.  [marshal] is
    [json.Marshal] of a configuration. *)

From S2P Require Import Prelude GoString Json Helper Messages XrayAccount XrayInbound XrayClients XrayApply.

#[local] Open Scope Z_scope.

Section Render.
Context `{UuidLib} `{Sha256}.
Implicit Types (i : Inbound) (c : Config) (a : Account).

(** ** Accounts as JSON: the struct tags of api/account.go *)

Definition base_fields (b : BaseAccount) : list (string * json) :=
  [("email", JStr (Email b)); ("level", JNum (Itoa (Level b)))].

Definition account_json a : json :=
  match a with
  | VmessAccount b id => JObj (base_fields b ++ [("id", JStr (uuid_string id))])
  | VlessAccount b id flow => JObj (base_fields b ++ [("id", JStr (uuid_string id)); ("flow", JStr flow)])
  | TrojanAccount b password => JObj (base_fields b ++ [("password", JStr password)])
  | ShadowsocksTcpAccount b password method =>
      JObj (base_fields b ++ [("password", JStr password); ("method", JStr method)])
  | ShadowsocksAccount b password => JObj (base_fields b ++ [("password", JStr password)])
  | HysteriaAccount b auth => JObj (base_fields b ++ [("auth", JStr auth)])
  end.

(** ** The clients of an inbound *)

(** The account types the loop of a protocol writes; [None] for a protocol
    without a case. *)
Definition written_type i : option (Account → bool) :=
  if bool_decide (In_Protocol i = "vmess") then
    Some (λ a, match a with VmessAccount _ _ => true | _ => false end)
  else if bool_decide (In_Protocol i = "vless") then
    Some (λ a, match a with VlessAccount _ _ _ => true | _ => false end)
  else if bool_decide (In_Protocol i = "trojan") then
    Some (λ a, match a with TrojanAccount _ _ => true | _ => false end)
  else if bool_decide (In_Protocol i = "shadowsocks") then
    match setting_string i "method" with
    | Some method =>
        if is_2022 method then Some (λ a, match a with ShadowsocksAccount _ _ => true | _ => false end)
        else Some (λ a, match a with ShadowsocksTcpAccount _ _ _ => true | _ => false end)
    | None => Some (λ a, match a with ShadowsocksTcpAccount _ _ _ => true | _ => false end)
    end
  else if bool_decide (In_Protocol i = "hysteria") then
    Some (λ a, match a with HysteriaAccount _ _ => true | _ => false end)
  else None.

Definition set_settings (s : option (gmap string json)) i : Inbound :=
  mkInbound (In_Tag i) (In_Listen i) (In_Port i) (In_Protocol i) s (In_rest i) (exclude i) (clients i).

(** [i.Settings["clients"] = ...], on settings that were made when nil. *)
Definition set_clients_setting (v : json) i : Inbound :=
  set_settings (Some (<["clients" := v]> (default ∅ (In_Settings i)))) i.

Definition render_clients (ρ : map_range) i : Inbound :=
  if exclude i then i
  else if bool_decide (size (clients i) = 0%nat) then set_clients_setting (JArr []) i
  else
    match written_type i with
    | None => set_settings (Some (default ∅ (In_Settings i))) i
    | Some wanted =>
        set_clients_setting
          (JArr (account_json <$> filter (λ a, wanted a = true) (range_of ρ (clients i)).*2)) i
    end.

(** ** [GetLogFiles] and [ToBytes] *)

Definition set_log (l : option LogConfig) c : Config :=
  mkConfig l (C_Router c) (C_Inbounds c) (C_Outbounds c) (C_Policy c) (C_API c) (C_Metrics c)
    (C_Observatory c) (C_BurstObservatory c) (C_rest c).

Definition GetLogFiles c : (string * string) * Config :=
  let log := default (mkLog "" "" "info" (JObj [])) (C_Log c) in
  ((AccessLog log, ErrorLog log), set_log (Some log) c).

(** What [json.Marshal] is given. *)
Definition rendered (ρ : map_range) (log : LogConfig) c : Config :=
  set_log (Some (mkLog "" "" (LogLevel log) (log_rest log))) (set_inbounds (render_clients ρ <$> C_Inbounds c) c).

(** A missing log section is a nil pointer; the log files are put back
    whatever marshalling returns. *)
Definition ToBytes (marshal : Config → result string) (ρ : map_range) : eff Config string := λ c,
  let c' := set_inbounds (render_clients ρ <$> C_Inbounds c) c in
  match C_Log c with
  | None => (Err nil_deref, c')
  | Some log => (marshal (rendered ρ log c), c')
  end.

(** ** Lemmas *)

(** Every stored account is one the inbound's protocol writes. *)
Definition kinded i : Prop :=
  ∀ e a, clients i !! e = Some a → ∃ wanted, written_type i = Some wanted ∧ wanted a = true.

Lemma written_kind_clients m i : written_type (set_clients m i) = written_type i.
Proof. done. Qed.

(** An active account is one the inbound's protocol writes. *)
Lemma active_kind i u a : active i u = Some a → ∃ wanted, written_type i = Some wanted ∧ wanted a = true.
Proof.
  unfold active, isActiveInbound, setupUserAccount, written_type, if_present, NewVmessAccount, NewVlessAccount. cbn.
  destruct (setting_string i "method") as [method|]; [destruct (is_2022 method)|];
    repeat case_match; intros Ha; simplify_eq/=; try done;
    first [eexists; split; [reflexivity|reflexivity]
          |rewrite ?bool_decide_eq_true, ?bool_decide_eq_false in *; congruence].
Qed.

Lemma last_active_kind i us e a : last_active i us e a → ∃ wanted, written_type i = Some wanted ∧ wanted a = true.
Proof. intros (pre & u & post & _ & _ & Ha & _). by eapply active_kind. Qed.

Lemma filter_everything {A} (P : A → Prop) `{!∀ x, Decision (P x)} (l : list A) : (∀ x, x ∈ l → P x) → filter P l = l.
Proof.
  induction l as [|x l IH]; intros Hall; [done|]. rewrite filter_cons, decide_True by (apply Hall; set_solver).
  f_equal. apply IH. intros y Hy. apply Hall. set_solver.
Qed.

(** The array an included inbound gets, in the order Go visits its clients. *)
Lemma render_kinded ρ i :
  exclude i = false → kinded i →
  render_clients ρ i =
    set_clients_setting (JArr (account_json <$> (range_of ρ (clients i)).*2)) i.
Proof.
  intros He Hk. unfold render_clients. rewrite He. case_bool_decide as Hsize.
  - apply map_size_empty_inv in Hsize. by rewrite Hsize, range_empty.
  - destruct (map_choose (clients i)) as (e & a & Hea); [intros Hemp; by rewrite Hemp, map_size_empty in Hsize|].
    destruct (Hk e a Hea) as (wanted & Hw & _). rewrite Hw. f_equal. f_equal. f_equal. apply filter_everything.
    intros b Hb. apply list_elem_of_fmap in Hb as ([e' b'] & -> & Hb'%elem_of_range).
    destruct (Hk e' b' Hb') as (wanted' & Hw' & Hb). rewrite Hw in Hw'. injection Hw' as <-. exact Hb.
Qed.
End Render.

(** ** Property *)

(** C28: after a full synchronisation the configuration given to the core lists
    in the settings of every included inbound, whatever order Go visits its
    clients in, exactly the accounts of its active users, one per email;
    excluded inbounds and all other settings are as the operator wrote them;
    the log files are blank in it and kept in the node. *)
Theorem to_bytes_lists_the_users `{UuidLib} `{Sha256} (marshal : Config → result string) (ρ : map_range)
    (users : list (option User)) (c : Config) (log : LogConfig) (Hlog : C_Log c = Some log) :
  let '(r, kept) := ToBytes marshal ρ (Config_syncUsers users c) in
  ∃ given, r = marshal given ∧ C_Log given = Some (mkLog "" "" (LogLevel log) (log_rest log)) ∧
    C_Log kept = C_Log c ∧ C_Inbounds kept = C_Inbounds given ∧
    ∀ k i, C_Inbounds c !! k = Some i → ∃ i', C_Inbounds given !! k = Some i' ∧
      (exclude i = true → i' = i) ∧
      (exclude i = false →
       ∃ (l : list json) (m : gmap string Account), In_Settings i' ≫= (.!! "clients") = Some (JArr l) ∧
         l ≡ₚ account_json <$> (map_to_list m).*2 ∧ (∀ e a, m !! e = Some a ↔ last_active i users e a) ∧
         ∀ key, key ≠ "clients" → In_Settings i' ≫= (.!! key) = In_Settings i ≫= (.!! key)).
Proof.
  unfold ToBytes. replace (C_Log (Config_syncUsers users c)) with (Some log) by done.
  eexists. split; [done|]. split; [done|]. split; [done|]. split; [done|]. intros k i Hi.
  unfold rendered, Config_syncUsers. cbn [C_Inbounds set_inbounds set_log].
  rewrite !list_lookup_fmap, Hi. eexists. split; [done|]. cbn. split.
  - intros He. rewrite He. unfold render_clients. by rewrite He.
  - intros He. rewrite He, syncUsers_eq.
    rewrite render_kinded by (done || (intros e a Ha; cbn in Ha; apply synced_lookup in Ha; by eapply last_active_kind)).
    eexists _, (foldl (apply_active i) ∅ users). cbn. rewrite lookup_insert_eq. split; [done|]. split.
    + by rewrite (range_perm ρ).
    + split; [apply synced_lookup|]. intros key Hkey. rewrite lookup_insert_ne by done.
      by destruct (In_Settings i).
Qed.

(** A user's own flow is what a restarted core reads, while the running core was
    given the inbound's flow in its place. *)
Lemma restart_changes_flow `{UuidLib} (i : Inbound) (b : BaseAccount) (id : UUID) (own : string)
    (Hflow : inboundFlow i ≠ "") :
  accountForAPI i (VlessAccount b id own) = VlessAccount b id (inboundFlow i) ∧
  account_json (VlessAccount b id own) = JObj (base_fields b ++ [("id", JStr (uuid_string id)); ("flow", JStr own)]).
Proof. unfold accountForAPI. by rewrite bool_decide_eq_false_2. Qed.
