(* ===== verification/XrayTyped.v ===== *)
(** * The types of the stored accounts

    [api.Account] is an interface; the loops of [ToBytes] pick the accounts of
    one concrete type per protocol and drop the others without a word.  The
    operations that change the clients of an inbound only store accounts of
    that type, under their own email, so that nothing is dropped. *)

From S2P Require Import Prelude GoString Json Helper Messages XrayAccount XrayInbound XrayClients XrayUser XrayApply XrayRender.

#[local] Open Scope Z_scope.

Section Typed.
Context `{UuidLib} `{Sha256} {X : Type} `{!XrayApi X}.
Implicit Types (i : Inbound) (c : Config) (a : Account) (u : option User).

(** An account of the type the inbound writes, under its email. *)
Definition typed_entry i (e : string) a : Prop :=
  Account_GetEmail a = e ∧ ∃ wanted, written_type i = Some wanted ∧ wanted a = true.
Definition typed_clients i (m : gmap string Account) : Prop := map_Forall (typed_entry i) m.
Definition typed i : Prop := typed_clients i (clients i).
Definition typed_config c : Prop := Forall typed (C_Inbounds c).

Lemma typed_insert i m e a : typed_clients i m → typed_entry i e a → typed_clients i (<[e := a]> m).
Proof. intros Hm Ha. by apply map_Forall_insert_2. Qed.

Lemma typed_delete i m e : typed_clients i m → typed_clients i (delete e m).
Proof. intros Hm. by apply map_Forall_delete. Qed.

Lemma typed_set i m : typed_clients i m → typed (set_clients m i).
Proof. done. Qed.

Lemma active_typed i u a : active i u = Some a → typed_entry i (GetEmail u) a.
Proof. intros Ha. split; [by eapply active_email|by eapply active_kind]. Qed.

(** ** The operations *)

Lemma sync_typed us i : typed (Inbound_syncUsers us i).
Proof.
  rewrite syncUsers_eq. apply typed_set. intros e a Ha. apply synced_lookup in Ha.
  destruct Ha as (pre & u & post & _ & <- & Ha & _). by apply active_typed.
Qed.

Lemma fits_typed i a a' : fits i a = Some a' → typed_entry i (Account_GetEmail a) a'.
Proof.
  unfold fits, typed_entry, written_type. intros Hf. split.
  - revert Hf. repeat case_match; intros; simplify_eq; unfold Account_GetEmail; rewrite ?checked_base; done.
  - revert Hf. destruct (setting_string i "method") as [method|]; [destruct (is_2022 method)|];
      repeat case_match; intros; simplify_eq; eexists; done.
Qed.

Lemma add_typed i l m : typed_clients i m →
  typed_clients i (foldl (λ m a, match fits i a with Some a' => <[Account_GetEmail a := a']> m | None => m end) m l).
Proof.
  intros Hm. apply foldl_inv; [done|]. intros m' a _ Hm'.
  destruct (fits i a) as [a'|] eqn:Hf; [|done]. apply typed_insert; [done|by apply fits_typed].
Qed.

Lemma remove_typed i l m : typed_clients i m → typed_clients i (foldl (λ m e, delete e m) m l).
Proof. intros Hm. apply foldl_inv; [done|]. intros m' e _. apply typed_delete. Qed.

Lemma updateUsers_typed l es i : typed i → typed (Inbound_updateUsers l es i).
Proof. intros Hi. apply typed_set, remove_typed, add_typed, Hi. Qed.

Lemma update_last_typed tag f l : (∀ i, typed i → typed (f i)) → Forall typed l → Forall typed (update_last tag f l).
Proof. intros Hf. induction 1 as [|i l Hi Hl IH]; [done|]. cbn [update_last]. case_match; constructor; auto. Qed.

Lemma config_update_typed ρ us c : typed_config c → typed_config (Config_updateUsers ρ us c).
Proof.
  intros Hc. unfold Config_updateUsers. apply foldl_inv; [done|]. intros c' [tag [i w]] _ Hc'.
  unfold typed_config, update_inbound. cbn. apply update_last_typed; [|done]. intros j. apply updateUsers_typed.
Qed.

(** [updateUser] may normalise the password again, which keeps the type. *)
Lemma updateUser_typed i u a : active i u = Some a → typed i → typed (Inbound_updateUser a i).
Proof.
  intros Ha Hi. apply typed_set, typed_insert; [done|]. destruct (active_typed i u a Ha) as [He (wanted & Hw & Hk)].
  destruct a as [| | | |b p|]; try (split; [done|by exists wanted]).
  destruct (setting_string i "method") as [method|]; (split; [done|exists wanted; split; [done|]]); [|done].
  revert Hw Hk. unfold written_type, checkShadowsocks2022. repeat case_match; intros; by simplify_eq.
Qed.

Lemma sync_inbounds_typed u l (x : X) :
  Forall typed l → Forall typed (sync_inbounds u (setupUserAccount u) l x).1.1.
Proof.
  intros Hl. revert x. induction Hl as [|i l Hi Hl IH]; intros x; [done|]. cbn [sync_inbounds].
  assert (typed (sync_inbound u (setupUserAccount u) i x).1.1) as Hs.
  { unfold sync_inbound. destruct (exclude i); [done|]. fold (active i u). destruct (active i u) as [a|] eqn:Ha.
    - destruct (add_reporting _ _ _) as [msg x']. by eapply updateUser_typed.
    - by apply typed_set, typed_delete. }
  destruct (sync_inbound u (setupUserAccount u) i x) as [[i' msg] x']. specialize (IH x').
  destruct (sync_inbounds u (setupUserAccount u) l x') as [[l' msgs] x'']. by constructor.
Qed.

(** The clients are not written into the settings in a way that changes the
    type an inbound writes. *)
Lemma render_typed ρ i : typed i → typed (render_clients ρ i).
Proof.
  intros Hi. unfold render_clients. destruct (exclude i); [done|].
  assert (∀ s, (∀ m, In_Settings i = Some m → ∃ m', s = Some m' ∧ m' !! "method" = m !! "method") →
    (In_Settings i = None → ∀ m', s = Some m' → m' !! "method" = None) → typed (set_settings s i)) as Hset.
  { intros s Hsome Hnone. unfold typed, typed_clients, typed_entry. replace (written_type (set_settings s i)) with (written_type i); [exact Hi|].
    unfold written_type, setting_string. cbn. destruct (In_Settings i) as [m|].
    - destruct (Hsome m eq_refl) as (m' & -> & Hm'). cbn. by rewrite Hm'.
    - destruct s as [m'|]; [|done]. cbn. by rewrite (Hnone eq_refl m' eq_refl). }
  assert (∀ v, typed (set_clients_setting v i)) as Hcl.
  { intros v. apply Hset; [intros m ->|intros -> m' [= <-]]; [eexists; split; [done|]|]; cbn;
      by rewrite lookup_insert_ne. }
  case_bool_decide; [apply Hcl|]. destruct (written_type i) as [wanted|]; [apply Hcl|].
  apply Hset; [intros m ->; by eexists|by intros -> m' [= <-]].
Qed.

(** ** Reachable configurations *)

(** What the methods of the backend do to a configuration it keeps: the clone
    a restart begins with, the full and the partial synchronisation, the
    synchronisation of one user and of several on the running core, and a start. *)
Inductive config_step : Config → Config → Prop :=
  | clone_step reparse c c' : NoDup (tags c) → reparses reparse c → Config_Clone reparse c = Ok c' → config_step c c'
  | sync_step us c : config_step c (Config_syncUsers us c)
  | update_step ρ us c : config_step c (Config_updateUsers ρ us c)
  | user_step u c (x : X) : config_step c (Xray_SyncUser u (c, x)).2.1
  | live_step ρ us c (x : X) : config_step c (Xray_UpdateUsers ρ us (c, x)).2.1
  | start_step marshal ρ c : config_step c (ToBytes marshal ρ (GetLogFiles c).2).2.

Lemma update_tags_config ρ (todo : list (string * (Inbound * inboundUpdate))) c msg (x : X) :
  typed_config c → typed_config (foldl (update_tag ρ) (c, msg, x) todo).1.1.
Proof.
  revert c msg x. induction todo as [|[tag [i w]] todo IH]; intros c msg x Hc; [done|]. cbn [foldl update_tag].
  destruct (add_all _ _ _) as [msg' x']. apply IH. unfold typed_config, update_inbound. cbn.
  apply update_last_typed; [|done]. intros j. apply updateUsers_typed.
Qed.

Lemma config_step_typed c c' : config_step c c' → typed_config c → typed_config c'.
Proof.
  destruct 1 as [reparse c c' Ht Hre Hclone|us c|ρ us c|u c x|ρ us c x|marshal ρ c]; intros Hc.
  - rewrite Clone_same in Hclone by done. by injection Hclone as <-.
  - unfold typed_config in *. cbn. apply Forall_fmap. eapply Forall_impl; [exact Hc|]. intros i Hi. cbn.
    destruct (exclude i); [done|apply sync_typed].
  - by apply config_update_typed.
  - unfold Xray_SyncUser. destruct u as [u|]; [|by case_match].
    pose proof (sync_inbounds_typed (Some u) _ x Hc) as Hs.
    destruct (sync_inbounds (Some u) _ (C_Inbounds c) x) as [[l msg] x']. exact Hs.
  - unfold Xray_UpdateUsers. pose proof (update_tags_config ρ (range_of ρ (buildInboundUpdates c us)) c "" x Hc) as Hu.
    destruct (foldl _ _ _) as [[c' msg] x']. exact Hu.
  - unfold typed_config, ToBytes, GetLogFiles in *. cbn. apply Forall_fmap. eapply Forall_impl; [exact Hc|].
    intros i. apply render_typed.
Qed.

Lemma config_steps_typed c c' : rtc config_step c c' → typed_config c → typed_config c'.
Proof. induction 1 as [|c1 c2 c3 Hs _ IH]; [done|]. intros Hc. apply IH. by eapply config_step_typed. Qed.
End Typed.

(** ** Property *)

(** C27: stored accounts are well typed.  From a configuration without clients,
    as [NewConfig] makes them, whatever sequence of synchronisations, single
    updates, starts and clones (with distinct tags and a JSON text that keeps all
    but the runtime fields) follows, every account of an inbound is stored under its
    own email and has the concrete type the inbound's protocol writes; hence
    [ToBytes] writes every one of them, and drops none by a failed type
    assertion. *)
Theorem xray_clients_well_typed `{UuidLib} `{Sha256} {X : Type} `{!XrayApi X} (c c' : Config)
    (Hempty : Forall (λ i, clients i = ∅) (C_Inbounds c)) (Hsteps : rtc (config_step (X:=X)) c c')
    (i : Inbound) (Hi : i ∈ C_Inbounds c') :
  typed i ∧
  (exclude i = false → ∀ ρ, render_clients ρ i =
     set_clients_setting (JArr (account_json <$> (range_of ρ (clients i)).*2)) i).
Proof.
  assert (typed_config c) as Hc.
  { eapply Forall_impl; [exact Hempty|]. intros j Hj. unfold typed, typed_clients. rewrite Hj. apply map_Forall_empty. }
  pose proof (config_steps_typed c c' Hsteps Hc) as Hc'. unfold typed_config in Hc'. rewrite Forall_forall in Hc'.
  pose proof (Hc' i Hi) as Ht. split; [done|]. intros He ρ. apply render_kinded; [done|].
  intros e a Ha. by destruct (Ht e a Ha) as [_ Hk].
Qed.
