(* ===== verification/XrayCore.v ===== *)
(** * The Xray process ([src/backend/xray/core.go])

    A [Core] starts the executable with a configuration on its standard input,
    watches it and stops it.  Processes, sockets and files belong to the
    machine, a parameter; what the core remembers of its process is the record
    [Core].  Each method runs under [c.mu]; the goroutine that waits for the
    process is [handleProcessExit], the one that reads its output is
    [captureProcessLogs] (XrayLogs). *)

From Stdlib Require Import Ascii.
From S2P Require Import Prelude GoString Json Helper Messages Logger XrayLogs XrayAccount XrayInbound XrayApply XrayRender.

#[local] Open Scope Z_scope.

(** ** The machine *)

Record ProcessInfo := mkProcess { PID : Z; PPID : Z; IsZombie : bool }.

(** A command that was started: its identity, its process and what it was
    given to read. *)
Record Cmd := mkCmd { cmd_id : nat; cmd_pid : Z; cmd_Stdin : string }.

(** [m_reaped]: [Wait] has returned for the command ([ProcessState != nil]);
    [m_alive]: its process exists.  [m_await] waits until then, or for five
    seconds.  [m_lstat] tells whether a path is a socket. *)
Class Machine (M : Type) := {
  m_version_output : string → eff M string;
  m_Indent : string → result string;
  m_MkdirAll : string → eff M unit;
  m_WriteFile : string → string → eff M unit;
  m_StdoutPipe : eff M unit;
  m_spawn : string → string → eff M (nat * Z);
  m_reaped : nat → M → bool;
  m_alive : nat → M → bool;
  m_Kill : nat → M → M;
  m_killProcessTree : Z → eff M unit;
  m_await : nat → M → bool * M;
  m_verifyProcessDead : Z → M → result unit;
  m_findXrayProcesses : string → M → result (list ProcessInfo);
  m_Getpid : Z;
  m_lstat : string → M → result bool;
  m_Remove : string → eff M unit;
  m_open_log : string → result unit
}.

(** ** The core *)

Record Core := mkCore {
  executablePath : string;
  configPath : string;
  core_version : string;
  process : option Cmd;
  processPID : Z;
  restarting : bool;
  stopping : bool;
  waitDone : option nat;
  core_logs : CoreLogs;
  unixSocketPaths : list string;
  core_cancel : bool
}.

Definition set_process (p : option Cmd) (pid : Z) (done : option nat) (c : Core) : Core :=
  mkCore (executablePath c) (configPath c) (core_version c) p pid (restarting c) (stopping c) done (core_logs c)
    (unixSocketPaths c) (core_cancel c).
Definition set_restarting (b : bool) (c : Core) : Core :=
  mkCore (executablePath c) (configPath c) (core_version c) (process c) (processPID c) b (stopping c) (waitDone c)
    (core_logs c) (unixSocketPaths c) (core_cancel c).
Definition set_stopping (b : bool) (c : Core) : Core :=
  mkCore (executablePath c) (configPath c) (core_version c) (process c) (processPID c) (restarting c) b (waitDone c)
    (core_logs c) (unixSocketPaths c) (core_cancel c).
Definition set_logs (l : CoreLogs) (c : Core) : Core :=
  mkCore (executablePath c) (configPath c) (core_version c) (process c) (processPID c) (restarting c) (stopping c)
    (waitDone c) l (unixSocketPaths c) (core_cancel c).
Definition set_sockets (l : list string) (c : Core) : Core :=
  mkCore (executablePath c) (configPath c) (core_version c) (process c) (processPID c) (restarting c) (stopping c)
    (waitDone c) (core_logs c) l (core_cancel c).
Definition set_cancel (b : bool) (c : Core) : Core :=
  mkCore (executablePath c) (configPath c) (core_version c) (process c) (processPID c) (restarting c) (stopping c)
    (waitDone c) (core_logs c) (unixSocketPaths c) b.

Section Core.
Context `{UuidLib} `{Sha256} {M : Type} `{!Machine M}.
Context (marshal : Config → result string) (ρ : map_range).
Implicit Types (c : Core) (x : Config) (m : M) (f : Files).

(** The core, its log files and the machine. *)
Definition World : Type := Core * Files * M.

Definition on_core (g : Core → Core) : eff World unit := λ '(c, f, m), (Ok (), (g c, f, m)).
Definition on_logs (g : CoreLogs → CoreLogs) : eff World unit := on_core (λ c, set_logs (g (core_logs c)) c).
Definition on_machine {A} (g : eff M A) : eff World A := λ '(c, f, m), let '(r, m) := g m in (r, (c, f, m)).
Definition step_machine (g : M → M) : eff World unit := λ '(c, f, m), (Ok (), (c, f, g m)).

(** ** The version *)

(** [^Xray (\d+\.\d+\.\d+)] *)
Definition is_digit (a : ascii) : bool := bool_decide (48 ≤ nat_of_ascii a ≤ 57)%nat.

Fixpoint take_digits (s : string) : string * string :=
  match s with
  | String a s' => if is_digit a then let '(d, r) := take_digits s' in (String a d, r) else ("", s)
  | "" => ("", "")
  end.

Definition take_number (s : string) : option (string * string) :=
  let '(d, r) := take_digits s in if bool_decide (d = "") then None else Some (d, r).

Definition take_dot (s : string) : option string :=
  if HasPrefix s "." then Some (TrimPrefix s ".") else None.

Definition match_version (out : string) : option string :=
  if negb (HasPrefix out "Xray ") then None
  else
    match take_number (TrimPrefix out "Xray ") with
    | None => None
    | Some (a, r) =>
        match take_dot r ≫= take_number with
        | None => None
        | Some (b, r) =>
            match take_dot r ≫= take_number with
            | None => None
            | Some (c, _) => Some (a +:+ "." +:+ b +:+ "." +:+ c)
            end
        end
    end.

Definition refreshVersion (executable : string) : eff M string := λ m,
  match m_version_output executable m with
  | (Err e, m) => (Err e, m)
  | (Ok out, m) =>
      (match match_version out with
       | Some v => Ok v
       | None => Err (errors_New "could not parse Xray version")
       end, m)
  end.

(** [make(chan string, logBufferSize)] panics for a negative size. *)
Definition NewXRayCore (executable configPath : string) (logBufferSize startupLogTailSize : Z) : eff M Core := λ m,
  let startupLogTailSize := if startupLogTailSize <=? 0 then 200 else startupLogTailSize in
  if logBufferSize <? 0 then (Err (go_panic "makechan: size out of range"), m)
  else
    match refreshVersion executable m with
    | (Err e, m) => (Err e, m)
    | (Ok version, m) =>
        (Ok (mkCore executable configPath version None 0 false false None
               (mkCoreLogs logPhaseRuntime None startupLogTailSize "" false (Some (newStartupLogRing 10)) []
                  (Z.to_nat logBufferSize) None) [] false), m)
    end.

(** ** Queries *)

Definition Core_Started c m : bool :=
  match process c with
  | None => false
  | Some cmd => negb (m_reaped (cmd_id cmd) m)
  end.

Definition Core_Stopping c : bool := stopping c.
Definition Core_Restarting c : bool := restarting c.
Definition Core_Version c : string := core_version c.
Definition Core_Logs c : list string := logsChan (core_logs c).

(** ** The debug copy of the configuration *)

Definition GenerateConfigFile (config : string) : eff World unit := λ '(c, f, m),
  match m_Indent config with
  | Err e => (Err e, (c, f, m))
  | Ok pretty =>
      match m_MkdirAll (configPath c) m with
      | (Err e, m) => (Err (GoErr ("failed to create config directory: " +:+ err_text e) []), (c, f, m))
      | (Ok _, m) => let '(r, m) := m_WriteFile (configPath c +:+ "/xray.json") pretty m in (r, (c, f, m))
      end
  end.

(** ** Unix sockets *)

Definition socket_path (i : Inbound) : option string :=
  let listen := TrimSpace (In_Listen i) in
  if bool_decide (listen = "") then None
  else
    let path := TrimSpace (match Cut listen "," with Some (before, _) => before | None => listen end) in
    if HasPrefix path "/" then Some path else None.

(** Paths in the order of their first inbound. *)
Fixpoint first_paths (l : list string) (seen : gset string) : list string :=
  match l with
  | [] => []
  | path :: l =>
      if bool_decide (path ∈ seen) then first_paths l seen else path :: first_paths l ({[path]} ∪ seen)
  end.

Definition collectUnixSocketPaths x : list string := first_paths (omap socket_path (C_Inbounds x)) ∅.

(** Failures are logged only. *)
Definition removeUnixSocketFiles (paths : list string) m : M :=
  foldl (λ m path,
    match m_lstat path m with
    | Ok true => (m_Remove path m).2
    | _ => m
    end) m paths.

(** ** Processes left by an earlier run ([cleanupOrphanedProcesses]) *)

Definition is_orphan (currentPID : Z) (p : ProcessInfo) : bool :=
  negb (PID p =? currentPID) &&
  ((IsZombie p && ((PPID p =? 0) || (PPID p =? 1))) || (PPID p =? m_Getpid)).

Definition cleanupOrphanedProcesses c m : result unit * M :=
  match m_findXrayProcesses (executablePath c) m with
  | Err e => (Err (wrapf "failed to find xray processes" e), m)
  | Ok processes =>
      let currentPID := match process c with Some cmd => cmd_pid cmd | None => 0 end in
      (Ok (), foldl (λ m p, (m_killProcessTree (PID p) m).2) m (filter (λ p, is_orphan currentPID p = true) processes))
  end.

(** ** Starting *)

(** What the core gives the process to read: an error of [ToBytes] is
    overwritten before it is looked at, and leaves no bytes. *)
Definition config_bytes (r : result string) : string := match r with Ok b => b | Err _ => "" end.

(** The diagnostics of a new start; the runtime ring is reset without a nil
    check. *)
Definition reset_diagnostics : eff World unit := λ '(c, f, m),
  match runtimeLogs (core_logs c) with
  | None => (Err nil_deref, (c, f, m))
  | Some r =>
      let l := set_runtime (Some (ring_reset r)) (core_logs c) in
      (Ok (), (set_logs (setStartupLogPhase (EnableStartupDiagnostics (startupLogSize l) l)) c, f, m))
  end.

(** A process of this core that is no longer running is killed again. *)
Definition kill_previous : eff World unit := λ '(c, f, m),
  match process c with
  | None => (Ok (), (c, f, m))
  | Some cmd =>
      (Ok (), (set_process None 0 (waitDone c) c, f, (m_killProcessTree (cmd_pid cmd) (m_Kill (cmd_id cmd) m)).2))
  end.

Definition open_logger (debugMode : bool) (accessFile errorFile : string) : eff World unit := λ '(c, f, m),
  let '(r, (l, f)) := SetLogFile m_open_log accessFile errorFile (Logger_New debugMode, f) in
  (r, (set_logs (set_logger (Some l) (core_logs c)) c, f, m)).

Definition launch (bytes : string) (sockets : list string) : eff World unit := λ '(c, f, m),
  match m_spawn (executablePath c) bytes m with
  | (Err e, m) => (Err e, (c, f, m))
  | (Ok (id, pid), m) =>
      (Ok (), (set_cancel true (set_sockets sockets (set_stopping false
                 (set_process (Some (mkCmd id pid bytes)) pid (Some id) c))), f, m))
  end.

(** The part of [Start] that holds the lock. *)
Definition start_locked (debugMode : bool) (bytes accessFile errorFile : string) (sockets : list string) : eff World unit :=
  '(c, f, m) ← get;
  if Core_Started c m then throw (errors_New "xray is started already")
  else
    _ ← reset_diagnostics;
    _ ← (λ '(c, f, m), (Ok (), (c, f, (cleanupOrphanedProcesses c m).2)));
    _ ← kill_previous;
    _ ← step_machine (removeUnixSocketFiles sockets);
    _ ← on_machine m_StdoutPipe;
    _ ← open_logger debugMode accessFile errorFile;
    launch bytes sockets.

Definition start_run (debugMode : bool) (bytes accessFile errorFile : string) (sockets : list string)
    : eff World unit :=
  _ ← (if debugMode then GenerateConfigFile bytes else mret ());
  start_locked debugMode bytes accessFile errorFile sockets.

(** [Start(xConfig, debugMode)] also changes the configuration it is given. *)
Definition Core_Start (debugMode : bool) : eff (Config * World) unit := λ '(x, w),
  let '((accessFile, errorFile), x) := GetLogFiles x in
  let '(r, x) := ToBytes marshal ρ x in
  let bytes := config_bytes r in
  let '(r, w) := start_run debugMode bytes accessFile errorFile (collectUnixSocketPaths x) w in
  (r, (x, w)).

(** ** Stopping *)

(** Kill the process and wait for it to be reaped. *)
Definition kill_and_wait (cmd : Cmd) m : M :=
  let pid := cmd_pid cmd in
  let '(reaped, m) := m_await (cmd_id cmd) (m_Kill (cmd_id cmd) m) in
  let m := if reaped : bool then m else (m_killProcessTree pid m).2 in
  match m_verifyProcessDead pid m with
  | Ok _ => m
  | Err _ => (m_killProcessTree pid m).2
  end.

Definition nothing_to_stop c m : bool :=
  negb (Core_Started c m) && negb (isSome (process c)) && negb (core_cancel c) &&
  negb (isSome (logger (core_logs c))) && bool_decide (unixSocketPaths c = []).

Definition close_logger : eff World unit := λ '(c, f, m),
  match logger (core_logs c) with
  | None => (Ok (), (c, f, m))
  | Some l => (Ok (), (set_logs (set_logger None (core_logs c)) c, (Logger_Close l f).2, m))
  end.

Definition Core_Stop : eff World unit :=
  '(c, f, m) ← get;
  if nothing_to_stop c m then mret ()
  else
    let m := if Core_Started c m
             then match process c with Some cmd => kill_and_wait cmd m | None => m end
             else m in
    let sockets := unixSocketPaths c in
    let c := set_sockets [] (set_stopping false (set_process None 0 None c)) in
    _ ← put (set_cancel false c, f, removeUnixSocketFiles sockets m);
    _ ← close_logger;
    on_logs SwitchToRuntimeLogPhase.

(** ** Restarting *)

(** The deferred reset of [restarting] runs whatever [Start] returns. *)
Definition Core_Restart (debugMode : bool) : eff (Config * World) unit := λ '(x, w),
  let '(c, f, m) := w in
  if restarting c then (Err (errors_New "xray is already restarting"), (x, w))
  else
    let '(_, w) := Core_Stop (set_restarting true c, f, m) in
    let '(r, (x, (c, f, m))) := Core_Start debugMode (x, w) in
    (r, (x, (set_restarting false c, f, m))).

(** ** The process exits *)

(** [err] is what [Wait] returned. *)
Definition exit_message (err : option goerr) : string :=
  match err with
  | None => "xray process exited unexpectedly"
  | Some e =>
      let message := "xray process exited unexpectedly: " +:+ err_text e in
      if Contains (ToLower (err_text e)) "signal: killed"
      then message +:+ " (process was killed externally; check container/system OOM and memory limits)"
      else message
  end.

Definition on_capture (g : eff (CoreLogs * Files) unit) : eff World unit := λ '(c, f, m),
  let '(r, (l, f)) := g (core_logs c, f) in (r, (set_logs l c, f, m)).

Definition handleProcessExit (cmd : nat) (err : option goerr) : eff World unit := λ '(c, f, m),
  let expected := stopping c || negb (bool_decide (cmd_id <$> process c = Some cmd)) in
  if expected then (Ok (), (c, f, m)) else on_capture (recordProcessLog (exit_message err)) (c, f, m).
End Core.
