(* ===== verification/XrayRun.v ===== *)
(** * The Xray backend ([src/backend/xray/xray.go], user.go, jobs.go)

    Creation and shutdown, the operations that restart the core with a new
    configuration, the wait for the core's API and the health check.  [Xray] is
    the object; the core, its files and the machine are the [World] of
    XrayCore.  A loop that waits is given the moments it wakes up at: what
    happened in the meantime and which ticker fired. *)

From S2P Require Import Prelude GoString Json Helper Messages NodeConfig Logger XrayLogs XrayAccount XrayInbound XrayApply XrayRender XrayCore.

#[local] Open Scope Z_scope.

Section Xray.
Context `{UuidLib} `{Sha256} `{JsonText} {M K : Type} `{!Machine M}.
Context (marshal : Config → result string) (ρ : map_range) (cfg : @NodeConfig K).

(** [x.handler != nil], and whether the context of the health check is
    cancelled. *)
Record Xray := mkXray {
  xr_config : Config;
  xr_metricPort : Z;
  xr_handler : bool;
  xr_cancelled : bool
}.

Definition set_config (x : Config) (s : Xray) : Xray :=
  mkXray x (xr_metricPort s) (xr_handler s) (xr_cancelled s).

(** The state of the methods. *)
Definition XS : Type := Xray * World (M:=M).

(** ** Restarting ([Restart], [restartCoreWithConfig]) *)

Definition restartCoreWithConfig : eff (Config * World (M:=M)) unit := Core_Restart marshal ρ (Debug cfg).

(** The stored configuration is restarted in place. *)
Definition Xray_Restart : eff XS unit := λ '(s, w),
  let '(r, (x, w)) := restartCoreWithConfig (xr_config s, w) in (r, (set_config x s, w)).

(** ** Waiting for the core ([checkXrayStatus], jobs.go) *)

Definition startupLogTailSize : Z := if StartupLogTailSize cfg >? 0 then StartupLogTailSize cfg else 200.

Definition extractStartupError (c : Core) : option goerr :=
  let failure := LatestStartupFailure (core_logs c) in
  if bool_decide (failure = "") then None else Some (errors_New ("failed to start xray: " +:+ failure)).

Definition startupErrorWithTail (c : Core) (tailSize : Z) (reason : string) : goerr :=
  match extractStartupError c with
  | Some e => e
  | None =>
      match StartupLogTail tailSize (core_logs c) with
      | Err e => e
      | Ok [] => errors_New reason
      | Ok tail =>
          errors_New (reason +:+ "; no fatal xray startup log was detected. Recent xray logs:" +:+ newline +:+
                      Join tail newline)
      end
  end.

Definition stopped_reason (c : Core) : string :=
  if Core_Stopping c then "xray startup was interrupted by a stop/restart request before API became ready"
  else "xray process stopped before API became ready".

(** What happens besides the method: the process prints a line, the operating
    system acts, the goroutine waiting for a command sees it exit. *)
Inductive env_event :=
  | Printed (line : string)
  | OsStep (g : M → M)
  | Exited (id : nat) (err : option goerr).

Definition env_step (w : World (M:=M)) (e : env_event) : World (M:=M) :=
  match e with
  | Printed line => (on_capture (recordProcessLog line) w).2
  | OsStep g => (step_machine g w).2
  | Exited id err => (handleProcessExit id err w).2
  end.

(** What wakes the loop: the context, the error ticker, or the API ticker with
    the outcome of [GetSysStats]. *)
Inductive wake := Done | ErrorTick | ApiTick (r : result unit).
Record moment := mkMoment { meanwhile : list env_event; woken : wake }.

(** [None]: still waiting when the moments end. *)
Fixpoint checkXrayStatus (ms : list moment) : eff (World (M:=M)) (option unit) := λ w,
  match ms with
  | [] => (Ok None, w)
  | mo :: ms =>
      let '(c, f, m) := foldl env_step w (meanwhile mo) in
      match woken mo with
      | Done => (Err (errors_New "context cancelled"), (c, f, m))
      | ErrorTick =>
          match extractStartupError c with
          | Some e => (Err e, (c, f, m))
          | None => checkXrayStatus ms (c, f, m)
          end
      | ApiTick (Ok _) => (Ok (Some ()), (set_logs (SwitchToRuntimeLogPhase (core_logs c)) c, f, m))
      | ApiTick (Err _) =>
          match extractStartupError c with
          | Some e => (Err e, (c, f, m))
          | None =>
              if Core_Started c m then checkXrayStatus ms (c, f, m)
              else (Err (startupErrorWithTail c startupLogTailSize (stopped_reason c)), (c, f, m))
          end
      end
  end.

(** ** Applying a configuration ([applyConfigWithRestart], user.go) *)

(** [previous] is the object [x.config] points to, which the restart changes. *)
Definition restorePreviousConfig (ms : list moment) : eff XS (option unit) := λ s,
  match Xray_Restart s with
  | (Err e, s) => (Err e, s)
  | (Ok _, (x, w)) => let '(r, w) := checkXrayStatus ms w in (r, (x, w))
  end.

Definition restore_failed : string := "; failed to restore previous xray config: ".

(** After the error [e] of the candidate. *)
Definition restore_after (e : goerr) (ms : list moment) : eff XS (option unit) := λ s,
  match restorePreviousConfig ms s with
  | (Ok None, s) => (Ok None, s)
  | (Ok (Some _), s) => (Err e, s)
  | (Err e', s) => (Err (GoErr (err_text e +:+ restore_failed +:+ err_text e') (err_chain e)), s)
  end.

Definition applyConfigWithRestart (candidate : Config) (ms ms' : list moment) : eff XS (option unit) := λ '(x, w),
  match restartCoreWithConfig (candidate, w) with
  | (Err e, (_, w)) => restore_after e ms' (x, w)
  | (Ok _, (candidate, w)) =>
      match checkXrayStatus ms w with
      | (Err e, w) => restore_after e ms' (x, w)
      | (Ok None, w) => (Ok None, (x, w))
      | (Ok (Some _), w) => (Ok (Some ()), (set_config candidate x, w))
      end
  end.

(** [reparse] is the marshalling and unmarshalling of [Clone]. *)
Definition Xray_SyncUsers (reparse : Config → result Config) (users : list (option User)) (ms ms' : list moment)
    : eff XS (option unit) := λ s,
  match Config_Clone reparse (xr_config s.1) with
  | Err e => (Err e, s)
  | Ok candidate => applyConfigWithRestart (Config_syncUsers users candidate) ms ms' s
  end.

Definition Xray_UpdateUsersAndRestart (reparse : Config → result Config) (users : list (option User))
    (ms ms' : list moment) : eff XS (option unit) := λ s,
  match Config_Clone reparse (xr_config s.1) with
  | Err e => (Err e, s)
  | Ok candidate => applyConfigWithRestart (Config_updateUsers ρ users candidate) ms ms' s
  end.

(** ** Shutdown *)

Definition Xray_Shutdown : eff XS unit := λ '(s, w),
  (Ok (), (mkXray (xr_config s) (xr_metricPort s) (xr_handler s) true, (Core_Stop w).2)).

(** ** Creation ([New]) *)

(** [abs] is [filepath.Abs], [new_api] what [api.NewXrayAPI] returns. *)
Definition Xray_New (abs : string → result string) (ifaces : result (list NetInterface)) (new_api : result unit)
    (xrayConfig : Config) (users : list (option User)) (apiPort metricPort : Z) (ms : list moment)
    : eff (Files * M) (option XS) := λ '(f, m),
  match abs (XrayExecutablePath cfg), abs (XrayAssetsPath cfg), abs (GeneratedConfigPath cfg) with
  | Err e, _, _ => (Err e, (f, m))
  | Ok _, Err e, _ => (Err e, (f, m))
  | Ok _, Ok _, Err e => (Err e, (f, m))
  | Ok executable, Ok _, Ok configDir =>
      match ApplyAPI ifaces apiPort metricPort xrayConfig with
      | (Err e, _) => (Err e, (f, m))
      | (Ok _, x) =>
          let x := if bool_decide (length users = 0%nat) then x else Config_syncUsers users x in
          match NewXRayCore executable configDir (LogBufferSize cfg) (StartupLogTailSize cfg) m with
          | (Err e, m) => (Err e, (f, m))
          | (Ok core, m) =>
              match Core_Start marshal ρ (Debug cfg) (x, (core, f, m)) with
              | (Err e, (_, (_, f, m))) => (Err e, (f, m))
              | (Ok _, (x, w)) =>
                  let abandon e s := let '(_, (_, (_, f, m))) := Xray_Shutdown s in (Err e, (f, m)) in
                  match new_api with
                  | Err e => abandon e (mkXray x metricPort false false, w)
                  | Ok _ =>
                      let s := mkXray x metricPort true false in
                      match checkXrayStatus ms w with
                      | (Err e, w) => abandon e (s, w)
                      | (Ok None, (c, f, m)) => (Ok None, (f, m))
                      | (Ok (Some _), (c, f, m)) => (Ok (Some (s, (c, f, m))), (f, m))
                      end
                  end
              end
          end
      end
  end.

(** ** The health check ([checkXrayHealth], jobs.go) *)

Definition maxFailures : Z := 10.

(** The closure [restart]: the count is kept when restarting fails. *)
Definition health_restart (failures : Z) : eff XS (option Z) := λ s,
  match Xray_Restart s with
  | (Ok _, s) => (Ok (Some 0), s)
  | (Err _, s) => (Ok (Some failures), s)
  end.

(** The first half of a turn: [None] when the goroutine returns, and whether
    the API is probed. *)
Definition health_begin (s : XS) (failures : Z) : option (bool * Z) :=
  if xr_cancelled s.1 then None
  else if Core_Restarting s.2.1.1 then Some (false, 0) else Some (true, failures).

(** The second half, with what [GetSysStats] returned: [None] when the
    goroutine returns, else the number of failures in a row. *)
Definition health_decide (probe : result unit) (failures : Z) : eff XS (option Z) := λ s,
  match probe with
  | Ok _ => (Ok (Some 0), s)
  | Err e =>
      if errors_Is e ContextCanceled then (Ok None, s)
      else
        let failures := failures + 1 in
        let '(_, (c, f, m)) := s in
        if negb (Core_Started c m) then health_restart failures s
        else if maxFailures <=? failures then health_restart failures s
        else (Ok (Some failures), s)
  end.

(** A turn of the loop: what happens before it and while the API is probed,
    and the outcome of the probe. *)
Record turn := mkTurn { turn_before : list env_event; turn_during : list env_event; probe : result unit }.

Definition env_run (es : list env_event) : XS → XS := λ '(x, w), (x, foldl env_step w es).

(** [None]: the goroutine returned; else the failures in a row after the
    turns. *)
Fixpoint checkXrayHealth (turns : list turn) (failures : Z) : eff XS (option Z) := λ s,
  match turns with
  | [] => (Ok (Some failures), s)
  | t :: turns =>
      let s := env_run (turn_before t) s in
      match health_begin s failures with
      | None => (Ok None, s)
      | Some (false, failures) => checkXrayHealth turns failures s
      | Some (true, failures) =>
          match health_decide (probe t) failures (env_run (turn_during t) s) with
          | (Ok (Some failures), s) => checkXrayHealth turns failures s
          | r => r
          end
      end
  end.
End Xray.
