(* ===== verification/XrayLife.v ===== *)
(** * The life of the Xray process

    What the operations of XrayCore and XrayRun keep: which configuration the
    process was started with, that the node never has two processes, and that
    the waits end.  The machine is any one with the laws [MachineLaws]. *)

From S2P Require Import Prelude GoString Json Helper Messages NodeConfig Logger XrayLogs XrayAccount XrayInbound XrayClients XrayApply XrayRender XrayCore XrayRun.

#[local] Open Scope Z_scope.

(** ** The machine's laws *)

(** A step that forgets no exit, and one that brings no process to life
    either. *)
Definition reaps {M} `{Machine M} (m m' : M) : Prop := ∀ h, m_reaped h m = true → m_reaped h m' = true.
Definition calm {M} `{Machine M} (m m' : M) : Prop :=
  (∀ h, m_alive h m' = true → m_alive h m = true) ∧ reaps m m'.

#[export] Instance reaps_preorder {M} `{Machine M} : PreOrder reaps.
Proof. split; [by intros m h|intros m1 m2 m3 H1 H2 h Hh; auto]. Qed.

#[export] Instance calm_preorder {M} `{Machine M} : PreOrder calm.
Proof.
  split; [by intros m; split|]. intros m1 m2 m3 [H1 R1] [H2 R2]. split; [auto|by transitivity m2].
Qed.

(** A reaped process is gone; only starting a command brings a process to life,
    its own; when the wait for a command succeeds, its process is gone. *)
Class MachineLaws (M : Type) `{!Machine M} := {
  reaped_dead h m : m_reaped h m = true → m_alive h m = false;
  version_calm e m : calm m (m_version_output e m).2;
  mkdir_calm d m : calm m (m_MkdirAll d m).2;
  write_calm p s m : calm m (m_WriteFile p s m).2;
  pipe_calm m : calm m (m_StdoutPipe m).2;
  kill_calm h m : calm m (m_Kill h m);
  tree_calm p m : calm m (m_killProcessTree p m).2;
  await_calm h m : calm m (m_await h m).2;
  remove_calm p m : calm m (m_Remove p m).2;
  spawn_law e s m :
    match m_spawn e s m with
    | (Ok (h, _), m') => (∀ h', m_alive h' m' = true → h' = h ∨ m_alive h' m = true) ∧ reaps m m'
    | (Err _, m') => calm m m'
    end;
  await_dead h m : (m_await h m).1 = true → m_alive h (m_await h m).2 = false
}.

Section Life.
Context `{UuidLib} `{Sha256} `{JsonText} {M K : Type} `{!Machine M}.
Context (marshal : Config → result string) (ρ : map_range) (cfg : @NodeConfig K).
Implicit Types (c : Core) (x : Config) (m : M) (w : World (M:=M)).

(** ** The configuration a process was given *)

(** The text a configuration starts the core with, and the configuration a
    start leaves behind. *)
Definition text_of x : string := config_bytes (ToBytes marshal ρ (GetLogFiles x).2).1.
Definition settled x : Config := (ToBytes marshal ρ (GetLogFiles x).2).2.

Lemma settled_eq x :
  settled x = set_inbounds (render_clients ρ <$> C_Inbounds x)
                (set_log (Some (default (mkLog "" "" "info" (JObj [])) (C_Log x))) x).
Proof. unfold settled, ToBytes. by destruct x as [[] ? ? ? ? ? ? ? ? ?]. Qed.

Lemma written_type_setting v i : written_type (set_clients_setting v i) = written_type i.
Proof.
  unfold written_type, set_clients_setting, setting_string. cbn. rewrite lookup_insert_ne by done.
  by destruct (In_Settings i) as [s|]; cbn; rewrite ?lookup_empty.
Qed.

Lemma written_type_default i : written_type (set_settings (Some (default ∅ (In_Settings i))) i) = written_type i.
Proof.
  unfold written_type, set_settings, setting_string. cbn.
  by destruct (In_Settings i) as [s|]; cbn; rewrite ?lookup_empty.
Qed.

Lemma set_clients_setting_twice v v' i :
  set_clients_setting v (set_clients_setting v' i) = set_clients_setting v i.
Proof. unfold set_clients_setting. cbn. by rewrite insert_insert_eq. Qed.

(** Rendering an inbound twice is rendering it once. *)
Lemma render_twice i : render_clients ρ (render_clients ρ i) = render_clients ρ i.
Proof.
  unfold render_clients at 2 3. destruct (exclude i) eqn:He; [unfold render_clients; by rewrite He|].
  case_bool_decide as Hs.
  - unfold render_clients. cbn [exclude set_clients_setting set_settings clients]. rewrite He, bool_decide_eq_true_2 by done.
    apply set_clients_setting_twice.
  - destruct (written_type i) as [wanted|] eqn:Hw; unfold render_clients;
      cbn [exclude set_clients_setting set_settings clients]; rewrite He, bool_decide_eq_false_2 by done.
    + rewrite written_type_setting, Hw. apply set_clients_setting_twice.
    + rewrite written_type_default, Hw. unfold set_settings. cbn. done.
Qed.

Lemma text_of_settled x : text_of (settled x) = text_of x.
Proof.
  assert (∀ l : list Inbound, render_clients ρ <$> (render_clients ρ <$> l) = render_clients ρ <$> l) as Hr.
  { intros l. rewrite <- list_fmap_compose. apply list_fmap_ext. intros k i _. apply render_twice. }
  unfold text_of. rewrite settled_eq. destruct x as [log router inbounds out pol api met obs burst rest].
  unfold ToBytes, GetLogFiles, rendered, set_log, set_inbounds. cbn. by rewrite Hr.
Qed.

(** The process of the core was started with this configuration. *)
Definition serves x w : Prop := ∃ cmd, process w.1.1 = Some cmd ∧ cmd_Stdin cmd = text_of x.

Lemma serves_settled x w : serves (settled x) w ↔ serves x w.
Proof. unfold serves. by rewrite text_of_settled. Qed.

Lemma launch_serves bytes sockets w w' :
  launch bytes sockets w = (Ok (), w') → ∃ cmd, process w'.1.1 = Some cmd ∧ cmd_Stdin cmd = bytes.
Proof.
  destruct w as [[c f] m]. unfold launch. destruct (m_spawn _ _ m) as [[[id pid]|e] m']; [|done].
  intros [= <-]. by eexists.
Qed.

Lemma start_locked_serves debug bytes afile efile sockets w w' :
  start_locked debug bytes afile efile sockets w = (Ok (), w') →
  ∃ cmd, process w'.1.1 = Some cmd ∧ cmd_Stdin cmd = bytes.
Proof.
  unfold start_locked. intros ([[c f] m] & w1 & _ & Hrun)%bind_Ok. destruct (Core_Started c m); [discriminate Hrun|].
  apply bind_Ok in Hrun as (? & ? & _ & Hrun). apply bind_Ok in Hrun as (? & ? & _ & Hrun).
  apply bind_Ok in Hrun as (? & ? & _ & Hrun). apply bind_Ok in Hrun as (? & ? & _ & Hrun).
  apply bind_Ok in Hrun as (? & ? & _ & Hrun). apply bind_Ok in Hrun as (? & ? & _ & Hrun).
  by eapply launch_serves.
Qed.

(** A start leaves the settled configuration, and when it succeeds the process
    reads it. *)
Lemma Core_Start_serves debug x w :
  let '(r, (x', w')) := Core_Start marshal ρ debug (x, w) in x' = settled x ∧ (r = Ok () → serves x' w').
Proof.
  unfold Core_Start. pose proof (eq_refl (settled x)) as Hset. unfold settled at 2 in Hset.
  assert (text_of x = config_bytes (ToBytes marshal ρ (GetLogFiles x).2).1) as Htext by done.
  destruct (GetLogFiles x) as [[afile efile] x1]. cbn [snd] in *.
  destruct (ToBytes marshal ρ x1) as [r x2]. cbn [fst snd] in *. rewrite <- Hset.
  destruct (start_run debug _ afile efile _ w) as [r' w'] eqn:Hrun.
  split; [done|]. intros ->. rewrite serves_settled. unfold serves. rewrite Htext.
  unfold start_run in Hrun. apply bind_Ok in Hrun as (? & w1 & _ & Hrun). by eapply start_locked_serves.
Qed.

Lemma Core_Restart_serves debug x w :
  let '(r, (x', w')) := Core_Restart marshal ρ debug (x, w) in
  (x' = x ∨ x' = settled x) ∧ (r = Ok () → x' = settled x ∧ serves x' w').
Proof.
  destruct w as [[c f] m]. unfold Core_Restart. destruct (restarting c); [split; [by left|done]|].
  destruct (Core_Stop _) as [r1 w1]. pose proof (Core_Start_serves debug x w1) as Hs.
  destruct (Core_Start marshal ρ debug (x, w1)) as [r [x' [[c' f'] m']]]. destruct Hs as [-> Hs].
  split; [by right|]. intros Hr. split; [done|]. exact (Hs Hr).
Qed.

(** ** Waiting keeps the process *)

Lemma on_capture_process g w : process (on_capture g w).2.1.1 = process w.1.1.
Proof. destruct w as [[c f] m]. unfold on_capture. by destruct (g (core_logs c, f)) as [r [l f']]. Qed.

Lemma env_step_process w e : process (env_step w e).1.1 = process w.1.1.
Proof.
  destruct w as [[c f] m]. destruct e as [line|g|id err]; cbn [env_step]; [apply on_capture_process|done|].
  unfold handleProcessExit. destruct (stopping c || _); [done|]. apply (on_capture_process _ (c, f, m)).
Qed.

Lemma env_steps_process es w : process (foldl env_step w es).1.1 = process w.1.1.
Proof. revert w. induction es as [|e es IH]; intros w; [done|]. cbn. by rewrite IH, env_step_process. Qed.

Lemma status_process ms w : process (checkXrayStatus cfg ms w).2.1.1 = process w.1.1.
Proof.
  revert w. induction ms as [|mo ms IH]; intros w; [done|]. cbn [checkXrayStatus].
  rewrite <- (env_steps_process (meanwhile mo) w).
  destruct (foldl env_step w (meanwhile mo)) as [[c f] m]. destruct (woken mo) as [| |[[]|e]]; try done.
  - destruct (extractStartupError c); [done|]. apply IH.
  - destruct (extractStartupError c); [done|]. destruct (Core_Started c m); [apply IH|done].
Qed.

Lemma status_serves ms x w : serves x (checkXrayStatus cfg ms w).2 ↔ serves x w.
Proof. unfold serves. by rewrite status_process. Qed.

(** ** Applying a configuration *)

Notation Xrestart := (restartCoreWithConfig marshal ρ cfg).

Lemma restore_spec ms (x : Xray) w :
  let '(r, (x', w')) := restorePreviousConfig marshal ρ cfg ms (x, w) in
  (xr_config x' = xr_config x ∨ xr_config x' = settled (xr_config x)) ∧
  (r = Ok (Some ()) → serves (xr_config x') w').
Proof.
  unfold restorePreviousConfig, Xray_Restart. pose proof (Core_Restart_serves (Debug cfg) (xr_config x) w) as Hr.
  unfold restartCoreWithConfig. destruct (Core_Restart marshal ρ (Debug cfg) (xr_config x, w)) as [[[]|e] [x1 w1]];
    [|by destruct Hr]. destruct Hr as [Hx Hs]. destruct (Hs eq_refl) as [_ Hserves].
  pose proof (status_serves ms x1 w1) as Hst. destruct (checkXrayStatus cfg ms w1) as [r w2].
  cbn. split; [done|]. intros _. by apply Hst.
Qed.

(** The outcome of a restart that failed with [e]. *)
Definition restored_or_reported x0 (e : goerr) (r : result (option unit)) (x' : Config) w' : Prop :=
  (x' = x0 ∨ x' = settled x0) ∧ r ≠ Ok (Some ()) ∧
  (∀ e', r = Err e' →
     (e' = e ∧ serves x' w') ∨ ∃ why, err_text e' = err_text e +:+ restore_failed +:+ why).

Lemma restore_after_spec e ms (x : Xray) w :
  let '(r, (x', w')) := restore_after marshal ρ cfg e ms (x, w) in
  restored_or_reported (xr_config x) e r (xr_config x') w'.
Proof.
  unfold restore_after. pose proof (restore_spec ms x w) as Hr.
  destruct (restorePreviousConfig marshal ρ cfg ms (x, w)) as [[[[]|]|e'] [x' w']]; destruct Hr as [Hx Hs];
    (split; [done|]); (split; [done|]); intros e'' Heq; [|done|].
  - injection Heq as <-. left. split; [done|]. by apply Hs.
  - injection Heq as <-. right. by eexists.
Qed.

Lemma apply_spec candidate ms ms' (x : Xray) w :
  let '(r, (x', w')) := applyConfigWithRestart marshal ρ cfg candidate ms ms' (x, w) in
  (r = Ok (Some ()) ∧ xr_config x' = settled candidate ∧ serves (xr_config x') w') ∨
  (r = Ok None ∧ xr_config x' = xr_config x) ∨
  ∃ e, restored_or_reported (xr_config x) e r (xr_config x') w'.
Proof.
  unfold applyConfigWithRestart. pose proof (Core_Restart_serves (Debug cfg) candidate w) as Hr.
  unfold restartCoreWithConfig at 1.
  destruct (Core_Restart marshal ρ (Debug cfg) (candidate, w)) as [[[]|e] [x1 w1]].
  - destruct Hr as [_ Hs]. destruct (Hs eq_refl) as [-> Hserves].
    pose proof (status_serves ms (settled candidate) w1) as Hst.
    destruct (checkXrayStatus cfg ms w1) as [[[[]|]|e] w2].
    + left. split_and!; [done..|]. by apply Hst.
    + right. by left.
    + pose proof (restore_after_spec e ms' x w2) as Ha. destruct (restore_after marshal ρ cfg e ms' (x, w2)) as [r [x' w']].
      right. right. by exists e.
  - pose proof (restore_after_spec e ms' x w1) as Ha. destruct (restore_after marshal ρ cfg e ms' (x, w1)) as [r [x' w']].
    right. right. by exists e.
Qed.

(** ** The waits end *)

Definition decisive (mo : moment (M:=M)) : Prop :=
  match woken mo with Done | ApiTick (Ok _) => True | _ => False end.

Lemma status_ends ms w : Exists decisive ms → (checkXrayStatus cfg ms w).1 ≠ Ok None.
Proof.
  intros Hex. revert w. induction ms as [|mo ms IH]; [by apply Exists_nil in Hex|]. intros w. cbn [checkXrayStatus].
  destruct (foldl env_step w (meanwhile mo)) as [[c f] m].
  assert (¬ decisive mo → Exists decisive ms) as Hrest by (apply Exists_cons in Hex; tauto).
  unfold decisive in Hrest. destruct (woken mo) as [| |[[]|e]]; try done.
  - destruct (extractStartupError c); [done|]. apply IH. tauto.
  - destruct (extractStartupError c); [done|]. destruct (Core_Started c m); [apply IH; tauto|done].
Qed.

Lemma restore_ends ms s : Exists decisive ms → (restorePreviousConfig marshal ρ cfg ms s).1 ≠ Ok None.
Proof.
  intros Hex. unfold restorePreviousConfig. destruct (Xray_Restart marshal ρ cfg s) as [[[]|e] [x w]]; [|done].
  pose proof (status_ends ms w Hex). by destruct (checkXrayStatus cfg ms w).
Qed.

Lemma restore_after_ends e ms s : Exists decisive ms → (restore_after marshal ρ cfg e ms s).1 ≠ Ok None.
Proof.
  intros Hex. unfold restore_after. pose proof (restore_ends ms s Hex).
  by destruct (restorePreviousConfig marshal ρ cfg ms s) as [[[[]|]|e'] s'].
Qed.

Lemma apply_ends candidate ms ms' s :
  Exists decisive ms → Exists decisive ms' → (applyConfigWithRestart marshal ρ cfg candidate ms ms' s).1 ≠ Ok None.
Proof.
  intros Hex Hex'. destruct s as [x w]. unfold applyConfigWithRestart.
  destruct (restartCoreWithConfig marshal ρ cfg (candidate, w)) as [[[]|e] [x1 w1]]; [|by apply restore_after_ends].
  pose proof (status_ends ms w1 Hex) as Hst.
  destruct (checkXrayStatus cfg ms w1) as [[[[]|]|e] w2]; [done..|by apply restore_after_ends].
Qed.

(** ** One process at most *)

(** Every living process is the one the core remembers. *)
Definition solo w : Prop := ∀ h, m_alive h w.2 = true → cmd_id <$> process w.1.1 = Some h.
Definition none_alive w : Prop := ∀ h, m_alive h w.2 = false.

Section Laws.
Context `{!MachineLaws M}.

(** A killed process is reaped within the five seconds [Stop] waits. *)
Context (prompt : ∀ h m, (m_await h (m_Kill h m)).1 = true).

Lemma remove_sockets_calm paths m : calm m (removeUnixSocketFiles paths m).
Proof.
  unfold removeUnixSocketFiles. apply foldl_inv; [done|]. intros m' path _ Hm.
  destruct (m_lstat path m') as [[]|]; [|done..]. etransitivity; [exact Hm|apply remove_calm].
Qed.

Lemma cleanup_calm c m : calm m (cleanupOrphanedProcesses c m).2.
Proof.
  unfold cleanupOrphanedProcesses. destruct (m_findXrayProcesses _ m) as [l|e]; [|done]. cbn.
  apply foldl_inv; [done|]. intros m' p _ Hm. etransitivity; [exact Hm|apply tree_calm].
Qed.

Lemma kill_and_wait_dead cmd m : calm m (kill_and_wait cmd m) ∧ m_alive (cmd_id cmd) (kill_and_wait cmd m) = false.
Proof.
  unfold kill_and_wait. pose proof (prompt (cmd_id cmd) m) as Hp. pose proof (await_dead (cmd_id cmd) (m_Kill (cmd_id cmd) m) Hp) as Hd.
  pose proof (await_calm (cmd_id cmd) (m_Kill (cmd_id cmd) m)) as Hc. pose proof (kill_calm (cmd_id cmd) m) as Hk.
  destruct (m_await (cmd_id cmd) (m_Kill (cmd_id cmd) m)) as [b m1]. cbn [fst snd] in *. subst b.
  assert (calm m m1) as Hm1 by (by etransitivity).
  destruct (m_verifyProcessDead (cmd_pid cmd) m1); [done|]. split; [etransitivity; [exact Hm1|apply tree_calm]|].
  destruct (m_alive (cmd_id cmd) (m_killProcessTree (cmd_pid cmd) m1).2) eqn:Ha; [|reflexivity].
  apply (proj1 (tree_calm (cmd_pid cmd) m1)) in Ha. congruence.
Qed.

Lemma calm_solo c f m c' f' m' : process c' = process c → calm m m' → solo (c, f, m) → solo (c', f', m').
Proof. intros Hp [Hc _] Hs h Hh. cbn in *. rewrite Hp. apply (Hs h). cbn. auto. Qed.

Lemma calm_dead m m' : calm m m' → (∀ h, m_alive h m = false) → ∀ h, m_alive h m' = false.
Proof. intros [Hc _] Hd h. destruct (m_alive h m') eqn:Hh; [|done]. apply Hc in Hh. by rewrite Hd in Hh. Qed.

Lemma dead_solo w : none_alive w → solo w.
Proof. intros Hd h Hh. by rewrite Hd in Hh. Qed.

(** A core that is not started has no living process. *)
Lemma stopped_dead c f m : solo (c, f, m) → Core_Started c m = false → none_alive (c, f, m).
Proof.
  intros Hs Hst h. destruct (m_alive h (c, f, m).2) eqn:Hh; [|done]. pose proof (Hs h Hh) as Hp. cbn in *.
  unfold Core_Started in Hst. destruct (process c) as [cmd|]; [|done]. injection Hp as Hid.
  apply negb_false_iff in Hst. apply reaped_dead in Hst. congruence.
Qed.

Lemma Core_Stop_dead w : solo w → none_alive (Core_Stop w).2.
Proof.
  destruct w as [[c f] m]. intros Hs. unfold Core_Stop, mbind, eff_bind, get, put, mret, eff_ret.
  destruct (nothing_to_stop c m) eqn:Hn.
  - unfold nothing_to_stop in Hn. rewrite !andb_true_iff, !negb_true_iff in Hn. apply stopped_dead; tauto.
  - assert (∀ h, m_alive h (removeUnixSocketFiles (unixSocketPaths c)
      (if Core_Started c m then match process c with Some cmd => kill_and_wait cmd m | None => m end else m)) = false) as Hd.
    { refine (calm_dead _ _ (remove_sockets_calm _ _) _). destruct (Core_Started c m) eqn:Hst; [|by eapply stopped_dead].
      unfold Core_Started in Hst. destruct (process c) as [cmd|] eqn:Hp; [|done].
      destruct (kill_and_wait_dead cmd m) as [[Hc _] Hdead]. intros h. destruct (m_alive h _) eqn:Hh; [|done].
      pose proof (Hs h (Hc h Hh)) as Hid. cbn in Hid. rewrite Hp in Hid. injection Hid as <-. congruence. }
    unfold close_logger. cbn [set_cancel set_sockets set_stopping set_process core_logs].
    destruct (logger (core_logs c)); exact Hd.
Qed.

Lemma launch_solo bytes sockets w : none_alive w → solo (launch bytes sockets w).2.
Proof.
  destruct w as [[c f] m]. intros Hd. unfold launch. pose proof (spawn_law (executablePath c) bytes m) as Hl.
  destruct (m_spawn _ _ m) as [[[id pid]|e] m'].
  - destruct Hl as [Hl _]. intros h Hh. cbn in *. destruct (Hl h Hh) as [->|Hh']; [done|]. by rewrite Hd in Hh'.
  - apply dead_solo. exact (calm_dead _ _ Hl Hd).
Qed.

(** The steps before the launch bring nothing to life. *)
Definition dead_step {A} (g : eff (World (M:=M)) A) : Prop := ∀ w, none_alive w → none_alive (g w).2.

Lemma dead_bind {A} (g : eff World A) (k : A → eff World unit) w :
  dead_step g → none_alive w → (∀ a w', none_alive w' → solo (k a w').2) → solo ((g ≫= k) w).2.
Proof.
  intros Hg Hd Hk. unfold mbind, eff_bind. specialize (Hg w Hd). destruct (g w) as [[a|e] w'].
  - by apply Hk.
  - by apply dead_solo.
Qed.

Lemma dead_machine {A} (g : eff M A) : (∀ m, calm m (g m).2) → dead_step (on_machine g).
Proof.
  intros Hg [[c f] m] Hd. unfold on_machine. specialize (Hg m). destruct (g m) as [r m'].
  exact (calm_dead m m' Hg Hd).
Qed.

Lemma reset_dead : dead_step reset_diagnostics.
Proof. intros [[c f] m] Hd. unfold reset_diagnostics. destruct (runtimeLogs (core_logs c)); exact Hd. Qed.

Lemma open_logger_dead b a e : dead_step (open_logger b a e).
Proof.
  intros [[c f] m] Hd. unfold open_logger. by destruct (SetLogFile m_open_log a e (Logger_New b, f)) as [r [l f']].
Qed.

Lemma kill_previous_dead : dead_step kill_previous.
Proof.
  intros [[c f] m] Hd. unfold kill_previous. destruct (process c) as [cmd|]; [|done].
  refine (calm_dead _ _ _ Hd). cbn. etransitivity; [apply kill_calm|apply tree_calm].
Qed.

Lemma start_locked_solo debug bytes afile efile sockets w :
  solo w → solo (start_locked debug bytes afile efile sockets w).2.
Proof.
  destruct w as [[c f] m]. intros Hs. unfold start_locked, get. unfold mbind at 1, eff_bind at 1.
  destruct (Core_Started c m) eqn:Hst; [exact Hs|]. pose proof (stopped_dead _ _ _ Hs Hst) as Hd.
  apply dead_bind; [apply reset_dead|done|]. intros [] w1 Hd1.
  apply dead_bind; [|done|].
  { intros [[c' f'] m'] Hd'. exact (calm_dead _ _ (cleanup_calm c' m') Hd'). }
  intros [] w2 Hd2. apply dead_bind; [apply kill_previous_dead|done|].
  intros [] w3 Hd3. apply dead_bind; [|done|].
  { intros [[c' f'] m'] Hd'. exact (calm_dead _ _ (remove_sockets_calm _ m') Hd'). }
  intros [] w4 Hd4. apply dead_bind; [apply dead_machine, pipe_calm|done|].
  intros [] w5 Hd5. apply dead_bind; [apply open_logger_dead|done|].
  intros [] w6 Hd6. by apply launch_solo.
Qed.

Lemma generate_calm bytes w : solo w → solo (GenerateConfigFile bytes w).2.
Proof.
  destruct w as [[c f] m]. intros Hs. unfold GenerateConfigFile. destruct (m_Indent bytes); [|done].
  pose proof (mkdir_calm (configPath c) m) as Hm. destruct (m_MkdirAll (configPath c) m) as [[[]|e] m1].
  - pose proof (write_calm (configPath c +:+ "/xray.json") a m1) as Hw.
    destruct (m_WriteFile _ a m1) as [r m2]. eapply calm_solo; [done| |exact Hs]. by etransitivity.
  - eapply calm_solo; [done|exact Hm|exact Hs].
Qed.

Lemma start_run_solo debug bytes afile efile sockets w : solo w → solo (start_run debug bytes afile efile sockets w).2.
Proof.
  intros Hs. unfold start_run. destruct debug; [|by apply start_locked_solo].
  unfold mbind, eff_bind. pose proof (generate_calm bytes w Hs) as Hg.
  destruct (GenerateConfigFile bytes w) as [[[]|e] w1]; [by apply start_locked_solo|exact Hg].
Qed.

Lemma Core_Start_solo debug x w : solo w → solo (Core_Start marshal ρ debug (x, w)).2.2.
Proof.
  intros Hs. unfold Core_Start. destruct (GetLogFiles x) as [[afile efile] x1]. destruct (ToBytes marshal ρ x1) as [r x2].
  pose proof (start_run_solo debug (config_bytes r) afile efile (collectUnixSocketPaths x2) w Hs) as Hr.
  by destruct (start_run _ _ _ _ _ w) as [r' w'].
Qed.

Lemma Core_Restart_solo debug x w : solo w → solo (Core_Restart marshal ρ debug (x, w)).2.2.
Proof.
  destruct w as [[c f] m]. intros Hs. unfold Core_Restart. destruct (restarting c); [exact Hs|].
  pose proof (Core_Stop_dead (set_restarting true c, f, m) Hs) as Hd.
  destruct (Core_Stop (set_restarting true c, f, m)) as [r1 w1].
  pose proof (Core_Start_solo debug x w1 (dead_solo _ Hd)) as Hst.
  destruct (Core_Start marshal ρ debug (x, w1)) as [r [x' [[c' f'] m']]]. exact Hst.
Qed.
End Laws.
End Life.
