(* ===== verification/XrayProps.v ===== *)
(** * Guarantees of the Xray backend

    The operations of the backend as steps of its state, and the theorems about
    them: the stored configuration is the one the process reads, a restart that
    fails is undone, there is never more than one process, and every wait
    ends. *)

From S2P Require Import Prelude GoString Json Helper Messages NodeConfig Logger XrayLogs XrayAccount XrayInbound XrayClients XrayApply XrayRender XrayCore XrayRun XrayLife.

#[local] Open Scope Z_scope.

Section Steps.
Context `{UuidLib} `{Sha256} `{JsonText} {M K : Type} `{!Machine M}.
Context (marshal : Config → result string) (ρ : map_range) (cfg : @NodeConfig K).
Implicit Types (s : XS (M:=M)) (w : World (M:=M)).

(** The operating system may end processes but not start them. *)
Definition quiet (e : env_event (M:=M)) : Prop :=
  match e with OsStep g => ∀ m, calm m (g m) | _ => True end.
Definition quiet_moments (ms : list moment) : Prop := Forall (λ mo, Forall quiet (meanwhile mo)) ms.

Inductive xray_step : XS (M:=M) → XS (M:=M) → Prop :=
  | step_env e x w : quiet e → xray_step (x, w) (x, env_step w e)
  | step_restart s : xray_step s (Xray_Restart marshal ρ cfg s).2
  | step_apply candidate ms ms' s : quiet_moments ms → quiet_moments ms' →
      xray_step s (applyConfigWithRestart marshal ρ cfg candidate ms ms' s).2
  | step_health probe failures s : xray_step s (health_decide marshal ρ cfg probe failures s).2
  | step_shutdown s : xray_step s (Xray_Shutdown s).2.

Context `{!MachineLaws M} (prompt : ∀ h m, (m_await h (m_Kill h m)).1 = true).

Lemma capture_solo g w : solo w → solo (on_capture g w).2.
Proof.
  destruct w as [[c f] m]. intros Hs. unfold on_capture. by destruct (g (core_logs c, f)) as [r [l f']].
Qed.

Lemma env_step_solo w e : quiet e → solo w → solo (env_step w e).
Proof.
  intros Hq Hs. destruct e as [line|g|id err]; cbn [env_step].
  - by apply capture_solo.
  - destruct w as [[c f] m]. by eapply calm_solo; [|apply Hq|exact Hs].
  - destruct w as [[c f] m]. unfold handleProcessExit. destruct (stopping c || _); [exact Hs|].
    by apply (capture_solo _ (c, f, m)).
Qed.

Lemma env_steps_solo es w : Forall quiet es → solo w → solo (foldl env_step w es).
Proof.
  intros Hq. revert w. induction Hq as [|e es He Hes IH]; intros w Hs; [done|]. cbn. apply IH. by apply env_step_solo.
Qed.

Lemma status_solo ms w : quiet_moments ms → solo w → solo (checkXrayStatus cfg ms w).2.
Proof.
  intros Hq. revert w. induction Hq as [|mo ms Hmo Hms IH]; intros w Hs; [done|]. cbn [checkXrayStatus].
  pose proof (env_steps_solo _ w Hmo Hs) as Hs1. destruct (foldl env_step w (meanwhile mo)) as [[c f] m].
  destruct (woken mo) as [| |[[]|e]]; try exact Hs1.
  - destruct (extractStartupError c); [exact Hs1|by apply IH].
  - destruct (extractStartupError c); [exact Hs1|]. destruct (Core_Started c m); [by apply IH|exact Hs1].
Qed.

Lemma Xray_Restart_solo s : solo s.2 → solo (Xray_Restart marshal ρ cfg s).2.2.
Proof.
  destruct s as [x w]. intros Hs. unfold Xray_Restart, restartCoreWithConfig.
  pose proof (Core_Restart_solo marshal ρ prompt (Debug cfg) (xr_config x) w Hs) as Hr.
  by destruct (Core_Restart marshal ρ (Debug cfg) (xr_config x, w)) as [r [x' w']].
Qed.

Lemma restore_solo ms s : quiet_moments ms → solo s.2 → solo (restorePreviousConfig marshal ρ cfg ms s).2.2.
Proof.
  intros Hq Hs. unfold restorePreviousConfig. pose proof (Xray_Restart_solo s Hs) as Hr.
  destruct (Xray_Restart marshal ρ cfg s) as [[[]|e] [x w]]; [|done].
  pose proof (status_solo ms w Hq Hr) as Hst. by destruct (checkXrayStatus cfg ms w) as [r w'].
Qed.

Lemma restore_after_solo e ms s : quiet_moments ms → solo s.2 → solo (restore_after marshal ρ cfg e ms s).2.2.
Proof.
  intros Hq Hs. unfold restore_after. pose proof (restore_solo ms s Hq Hs) as Hr.
  by destruct (restorePreviousConfig marshal ρ cfg ms s) as [[[[]|]|e'] s'].
Qed.

Lemma apply_solo candidate ms ms' s :
  quiet_moments ms → quiet_moments ms' → solo s.2 →
  solo (applyConfigWithRestart marshal ρ cfg candidate ms ms' s).2.2.
Proof.
  intros Hq Hq'. destruct s as [x w]. intros Hs. unfold applyConfigWithRestart, restartCoreWithConfig at 1.
  pose proof (Core_Restart_solo marshal ρ prompt (Debug cfg) candidate w Hs) as Hr.
  destruct (Core_Restart marshal ρ (Debug cfg) (candidate, w)) as [[[]|e] [x1 w1]]; [|by apply restore_after_solo].
  pose proof (status_solo ms w1 Hq Hr) as Hst.
  destruct (checkXrayStatus cfg ms w1) as [[[[]|]|e] w2]; [exact Hst..|by apply restore_after_solo].
Qed.

Lemma health_solo probe failures s : solo s.2 → solo (health_decide marshal ρ cfg probe failures s).2.2.
Proof.
  intros Hs. assert (∀ n, solo (health_restart marshal ρ cfg n s).2.2) as Hr.
  { intros n. unfold health_restart. pose proof (Xray_Restart_solo s Hs) as Hr.
    by destruct (Xray_Restart marshal ρ cfg s) as [[[]|e] s']. }
  unfold health_decide. destruct probe as [[]|e]; [done|]. destruct (errors_Is e ContextCanceled); [done|].
  destruct s as [x [[c f] m]]. destruct (negb (Core_Started c m)); [apply Hr|].
  destruct (maxFailures <=? failures + 1); [apply Hr|exact Hs].
Qed.

Lemma shutdown_dead s : solo s.2 → none_alive (Xray_Shutdown s).2.2.
Proof. destruct s as [x w]. intros Hs. by apply (Core_Stop_dead prompt). Qed.

Lemma xray_step_solo s s' : xray_step s s' → solo s.2 → solo s'.2.
Proof.
  destruct 1; intros Hs; cbn [snd] in *.
  - by apply env_step_solo.
  - by apply Xray_Restart_solo.
  - by apply apply_solo.
  - by apply health_solo.
  - by apply dead_solo, shutdown_dead.
Qed.

Lemma xray_steps_solo s s' : rtc xray_step s s' → solo s.2 → solo s'.2.
Proof. induction 1 as [|s1 s2 s3 Hstep _ IH]; [done|]. intros Hs. apply IH. by eapply xray_step_solo. Qed.

(** ** Creation *)

Lemma NewXRayCore_spec e d b t m :
  let '(r, m') := NewXRayCore e d b t m in calm m m'.
Proof.
  unfold NewXRayCore. destruct (b <? 0); [done|]. unfold refreshVersion. pose proof (version_calm e m) as Hv.
  destruct (m_version_output e m) as [[out|e'] m1]; [|done]. by destruct (match_version out).
Qed.

(** Runs that leave nothing alive when they fail. *)
Definition fails_dead {A} (g : eff (World (M:=M)) A) : Prop :=
  ∀ w, none_alive w → is_ok (g w).1 = false → none_alive (g w).2.

Lemma fails_bind {A} (g : eff World A) (k : A → eff World unit) :
  dead_step g → (∀ a, fails_dead (k a)) → fails_dead (g ≫= k).
Proof.
  intros Hg Hk w Hd. unfold mbind, eff_bind. specialize (Hg w Hd). destruct (g w) as [[a|e] w']; [by apply Hk|done].
Qed.

Lemma launch_fails bytes sockets : fails_dead (launch bytes sockets).
Proof.
  intros [[c f] m] Hd. unfold launch. pose proof (spawn_law (executablePath c) bytes m) as Hl.
  destruct (m_spawn _ _ m) as [[[id pid]|e] m']; [done|]. intros _. exact (calm_dead _ _ Hl Hd).
Qed.

Lemma start_locked_fails debug bytes afile efile sockets : fails_dead (start_locked debug bytes afile efile sockets).
Proof.
  unfold start_locked. apply fails_bind; [by intros w Hd|]. intros [[c f] m].
  destruct (Core_Started c m); [by intros w Hd _|].
  apply fails_bind; [apply reset_dead|intros []]. apply fails_bind; [|intros []].
  { intros [[c' f'] m'] Hd. exact (calm_dead _ _ (cleanup_calm c' m') Hd). }
  apply fails_bind; [apply kill_previous_dead|intros []]. apply fails_bind; [|intros []].
  { intros [[c' f'] m'] Hd. exact (calm_dead _ _ (remove_sockets_calm _ m') Hd). }
  apply fails_bind; [apply dead_machine, pipe_calm|intros []].
  apply fails_bind; [apply open_logger_dead|intros []]. apply launch_fails.
Qed.

Lemma generate_dead bytes : dead_step (GenerateConfigFile (M:=M) bytes).
Proof.
  intros [[c f] m] Hd. unfold GenerateConfigFile. destruct (m_Indent bytes); [|done].
  pose proof (mkdir_calm (configPath c) m) as Hm. destruct (m_MkdirAll (configPath c) m) as [[[]|e] m1].
  - pose proof (write_calm (configPath c +:+ "/xray.json") a m1) as Hw.
    destruct (m_WriteFile _ a m1) as [r m2]. refine (calm_dead m m2 _ Hd). by etransitivity.
  - exact (calm_dead m m1 Hm Hd).
Qed.

Lemma Core_Start_fails debug x w :
  none_alive w → is_ok (Core_Start marshal ρ debug (x, w)).1 = false →
  none_alive (Core_Start marshal ρ debug (x, w)).2.2.
Proof.
  intros Hd. unfold Core_Start. destruct (GetLogFiles x) as [[afile efile] x1]. destruct (ToBytes marshal ρ x1) as [r x2].
  assert (fails_dead (start_run debug (config_bytes r) afile efile (collectUnixSocketPaths x2))) as Hf.
  { unfold start_run. apply fails_bind; [|intros []; apply start_locked_fails].
    destruct debug; [apply generate_dead|by intros w' Hd']. }
  specialize (Hf w Hd). by destruct (start_run _ _ _ _ _ w) as [r' w'].
Qed.

Lemma abandon_dead x w (e : goerr) :
  solo w → let '(_, (_, (_, _, m'))) := Xray_Shutdown (x, w) in ∀ h, m_alive h m' = false.
Proof.
  intros Hs. pose proof (shutdown_dead (x, w) Hs) as Hd.
  by destruct (Xray_Shutdown (x, w)) as [r [x' [[c' f'] m']]].
Qed.

(** Creation gives a backend with at most one process, or leaves none. *)
Lemma Xray_New_solo abs ifaces api x users p q ms f m :
  (∀ h, m_alive h m = false) → quiet_moments ms →
  match Xray_New marshal ρ cfg abs ifaces api x users p q ms (f, m) with
  | (Ok (Some s), _) => solo s.2
  | (Ok None, _) => True
  | (Err _, (_, m')) => ∀ h, m_alive h m' = false
  end.
Proof.
  intros Hd Hq. unfold Xray_New. destruct (abs (XrayExecutablePath cfg)) as [ex|e1]; [|exact Hd].
  destruct (abs (XrayAssetsPath cfg)) as [as_|e2]; [|exact Hd].
  destruct (abs (GeneratedConfigPath cfg)) as [dir|e3]; [|exact Hd].
  destruct (ApplyAPI ifaces p q x) as [[[]|e4] x1]; [|exact Hd].
  set (x2 := if bool_decide (length users = 0%nat) then x1 else Config_syncUsers users x1). clearbody x2.
  pose proof (NewXRayCore_spec ex dir (LogBufferSize cfg) (StartupLogTailSize cfg) m) as Hnew.
  destruct (NewXRayCore ex dir (LogBufferSize cfg) (StartupLogTailSize cfg) m) as [[core|e5] m1];
    [|exact (calm_dead m m1 Hnew Hd)].
  assert (none_alive (core, f, m1)) as Hd1 by exact (calm_dead m m1 Hnew Hd).
  pose proof (Core_Start_fails (Debug cfg) x2 (core, f, m1) Hd1) as Hfail.
  pose proof (Core_Start_solo marshal ρ (Debug cfg) x2 (core, f, m1) (dead_solo _ Hd1)) as Hsolo.
  unfold World in Hfail, Hsolo |- *.
  destruct (Core_Start marshal ρ (Debug cfg) (x2, (core, f, m1))) as [[[]|e6] [x3 [[c3 f3] m3]]] ;
    cbn [fst snd] in *; [|exact (Hfail eq_refl)].
  destruct api as [[]|e7].
  - pose proof (status_solo ms (c3, f3, m3) Hq Hsolo) as Hst.
    destruct (checkXrayStatus cfg ms (c3, f3, m3)) as [[[[]|]|e8] [[c4 f4] m4]]; [exact Hst|done|].
    pose proof (abandon_dead (mkXray x3 q true false) (c4, f4, m4) e8 Hst) as Hg.
    by destruct (Xray_Shutdown _) as [r [x' [[c' f'] m']]].
  - pose proof (abandon_dead (mkXray x3 q false false) (c3, f3, m3) e7 Hsolo) as Hg.
    by destruct (Xray_Shutdown _) as [r [x' [[c' f'] m']]].
Qed.
End Steps.

Lemma settled_clients `{UuidLib} `{Sha256} (marshal : Config → result string) (ρ : map_range) (x : Config) :
  clients <$> C_Inbounds (settled marshal ρ x) = clients <$> C_Inbounds x.
Proof.
  rewrite settled_eq. cbn. rewrite <- list_fmap_compose. apply list_fmap_ext. intros k i _. cbn.
  unfold render_clients. destruct (exclude i); [done|]. case_bool_decide; [done|]. by destruct (written_type i).
Qed.

(** ** Properties *)

(** C23: the backend never has two processes.  Created on a machine without
    processes of its own, it either fails and leaves none, or runs, and then,
    whatever sequence of restarts, user synchronisations, health checks and
    events of the environment follows, every living process is the one the core
    remembers; a shutdown leaves none.  It relies on a killed process being
    reaped within the five seconds [Stop] waits. *)
Theorem xray_single_process `{UuidLib} `{Sha256} `{JsonText} {M K : Type} `{!Machine M} `{!MachineLaws M}
    (marshal : Config → result string) (ρ : map_range) (cfg : @NodeConfig K)
    (abs : string → result string) (ifaces : result (list NetInterface)) (new_api : result unit) (x : Config)
    (users : list (option User)) (apiPort metricPort : Z) (ms : list moment) (f : Files) (m : M)
    (prompt : ∀ h m, (m_await h (m_Kill h m)).1 = true)
    (Hnone : ∀ h, m_alive h m = false) (Hquiet : quiet_moments ms) :
  match Xray_New marshal ρ cfg abs ifaces new_api x users apiPort metricPort ms (f, m) with
  | (Ok (Some s), _) => ∀ s', rtc (xray_step marshal ρ cfg) s s' →
      solo s'.2 ∧ none_alive (Xray_Shutdown s').2.2
  | (Ok None, _) => True
  | (Err _, (_, m')) => ∀ h, m_alive h m' = false
  end.
Proof.
  pose proof (Xray_New_solo marshal ρ cfg prompt abs ifaces new_api x users apiPort metricPort ms f m Hnone Hquiet) as Hnew.
  destruct (Xray_New _ _ _ _ _ _ _ _ _ _ _ _) as [[[s|]|e] [f' m']]; [|done..].
  intros s' Hs'. assert (solo s'.2) as Hsolo by (by eapply (xray_steps_solo marshal ρ cfg prompt)).
  split; [done|]. by apply shutdown_dead.
Qed.

(** C22: a synchronisation that restarts the core is applied or undone, when no
    health check restarts the core while it waits (XrayRace shows what one does
    then).  If the clone of the stored configuration fails, so does the request,
    and nothing else happens.  Otherwise, when it succeeds, the stored
    configuration has the clients the request makes of the clone, and is the one
    the process was started with; when it fails, the stored configuration is the
    old one (its clients unchanged), and either the process was started with it
    again or the error says that restoring failed: it never stores a
    configuration the core did not accept.  The clone is the stored
    configuration itself when tags differ and the JSON text keeps everything but
    the runtime fields ([reparses]). *)
Theorem xray_sync_applied_or_restored `{UuidLib} `{Sha256} `{JsonText} {M K : Type} `{!Machine M}
    (marshal : Config → result string) (ρ : map_range) (cfg : @NodeConfig K) (reparse : Config → result Config)
    (users : list (option User)) (ms ms' : list moment) (s : XS (M:=M))
    (run : eff (XS (M:=M)) (option unit)) (wanted : Config → Config)
    (Hrun : (run = Xray_SyncUsers marshal ρ cfg reparse users ms ms' ∧ wanted = Config_syncUsers users) ∨
            (run = Xray_UpdateUsersAndRestart marshal ρ cfg reparse users ms ms' ∧ wanted = Config_updateUsers ρ users)) :
  (NoDup (tags (xr_config s.1)) → reparses reparse (xr_config s.1) →
   Config_Clone reparse (xr_config s.1) = Ok (xr_config s.1)) ∧
  match Config_Clone reparse (xr_config s.1) with
  | Err e => run s = (Err e, s)
  | Ok clone =>
      let '(r, (x', w')) := run s in
      match r with
      | Ok (Some _) =>
          clients <$> C_Inbounds (xr_config x') = clients <$> C_Inbounds (wanted clone) ∧ serves marshal ρ (xr_config x') w'
      | Ok None => xr_config x' = xr_config s.1 ∨ xr_config x' = settled marshal ρ (xr_config s.1)
      | Err e =>
          clients <$> C_Inbounds (xr_config x') = clients <$> C_Inbounds (xr_config s.1) ∧
          (serves marshal ρ (xr_config x') w' ∨ ∃ before why, err_text e = before +:+ restore_failed +:+ why)
      end
  end.
Proof.
  split; [apply Clone_same|]. destruct (Config_Clone reparse (xr_config s.1)) as [clone|e] eqn:Hclone.
  2: { destruct Hrun as [[-> _]|[-> _]]; unfold Xray_SyncUsers, Xray_UpdateUsersAndRestart; by rewrite Hclone. }
  assert (run s = applyConfigWithRestart marshal ρ cfg (wanted clone) ms ms' s) as ->.
  { destruct Hrun as [[-> ->]|[-> ->]]; unfold Xray_SyncUsers, Xray_UpdateUsersAndRestart; by rewrite Hclone. }
  clear Hclone. destruct s as [x w]. cbn [fst] in *. pose proof (apply_spec marshal ρ cfg (wanted clone) ms ms' x w) as Ha.
  destruct (applyConfigWithRestart marshal ρ cfg (wanted clone) ms ms' (x, w)) as [r [x' w']].
  destruct Ha as [(-> & Hx & Hserves)|[[-> Hx]|(e & Hx & Hnot & Herr)]].
  - split; [|done]. by rewrite Hx, settled_clients.
  - by left.
  - destruct r as [[[]|]|e']; [by destruct Hnot|exact Hx|]. split; [destruct Hx as [-> | ->]; [done|apply settled_clients]|].
    destruct (Herr e' eq_refl) as [[_ Hserves]|[why Hwhy]]; [by left|right]. by eexists _, why.
Qed.

(** C26: no operation waits for ever: when the context of the wait ends or the
    API answers at some moment of each wait, the synchronisations that restart
    the core and the restoration after a failure return. *)
Theorem xray_waits_end `{UuidLib} `{Sha256} `{JsonText} {M K : Type} `{!Machine M}
    (marshal : Config → result string) (ρ : map_range) (cfg : @NodeConfig K) (reparse : Config → result Config)
    (users : list (option User)) (candidate : Config) (ms ms' : list moment) (s : XS (M:=M))
    (Hms : Exists decisive ms) (Hms' : Exists decisive ms') :
  (checkXrayStatus cfg ms s.2).1 ≠ Ok None ∧
  (applyConfigWithRestart marshal ρ cfg candidate ms ms' s).1 ≠ Ok None ∧
  (Xray_SyncUsers marshal ρ cfg reparse users ms ms' s).1 ≠ Ok None ∧
  (Xray_UpdateUsersAndRestart marshal ρ cfg reparse users ms ms' s).1 ≠ Ok None.
Proof.
  split; [by apply status_ends|]. split; [by apply apply_ends|].
  unfold Xray_SyncUsers, Xray_UpdateUsersAndRestart.
  destruct (Config_Clone reparse (xr_config s.1)); [|done]. split; by apply apply_ends.
Qed.
