(* ===== verification/XrayReap.v ===== *)
(** * The Xray backend forgets no exit

    A process that has been waited for stays so: no operation of the core or of
    the backend undoes it.  So an operation on one core cannot make another
    core's process count as started, which is what lets several backends of the
    same machine be reasoned about one at a time (NodeBackends). *)

From S2P Require Import Prelude GoString Json Helper Messages NodeConfig Logger XrayLogs XrayAccount XrayInbound XrayApply XrayRender XrayCore XrayRun XrayLife XrayProps.

#[local] Open Scope Z_scope.

Section Reap.
Context `{UuidLib} `{Sha256} `{JsonText} {M K : Type} `{!Machine M} `{!MachineLaws M}.
Context (marshal : Config → result string) (ρ : map_range) (cfg : @NodeConfig K).
Implicit Types (w : World (M:=M)) (s : XS (M:=M)).

Definition w_reaps (w w' : World (M:=M)) : Prop := reaps w.2 w'.2.

#[local] Instance w_reaps_preorder : PreOrder w_reaps.
Proof.
  split; [intros w; unfold w_reaps; reflexivity|]. intros w1 w2 w3. unfold w_reaps. intros H12 H23. by transitivity w2.2.
Qed.

Lemma calm_reaps m m' : calm m m' → reaps (M:=M) m m'.
Proof. by intros [_ Hr]. Qed.

Lemma keeps_reaps c f c' f' m : w_reaps (c, f, m) (c', f', m).
Proof. by intros h. Qed.

Notation keeps g := (preserves w_reaps g).

(** ** The core *)

Lemma step_machine_reaps (g : M → M) : (∀ m, calm m (g m)) → keeps (step_machine g).
Proof. intros Hg [[c f] m]. exact (calm_reaps _ _ (Hg m)). Qed.

Lemma on_machine_reaps {A} (g : eff M A) : (∀ m, calm m (g m).2) → keeps (on_machine g).
Proof.
  intros Hg [[c f] m]. unfold on_machine. specialize (Hg m). destruct (g m) as [r m']. exact (calm_reaps _ _ Hg).
Qed.

Lemma get_reaps : keeps (get (S:=World (M:=M))).
Proof. intros w. by intros h. Qed.

Lemma kill_and_wait_reaps cmd m : reaps m (kill_and_wait (M:=M) cmd m).
Proof.
  unfold kill_and_wait. pose proof (kill_calm (cmd_id cmd) m) as Hk.
  pose proof (await_calm (cmd_id cmd) (m_Kill (cmd_id cmd) m)) as Hw.
  destruct (m_await (cmd_id cmd) (m_Kill (cmd_id cmd) m)) as [b m1]. cbn [snd] in Hw.
  assert (reaps m m1) as Hm1 by (apply calm_reaps; by etransitivity).
  assert (reaps m (if b then m1 else (m_killProcessTree (cmd_pid cmd) m1).2)) as Hm2
    by (destruct b; [done|etransitivity; [exact Hm1|apply calm_reaps, tree_calm]]).
  destruct (m_verifyProcessDead (cmd_pid cmd) _); [done|]. etransitivity; [exact Hm2|apply calm_reaps, tree_calm].
Qed.

Lemma Core_Stop_reaps : keeps (Core_Stop (M:=M)).
Proof.
  intros [[c f] m]. unfold Core_Stop, mbind, eff_bind, get, put, mret, eff_ret.
  destruct (nothing_to_stop c m); [apply keeps_reaps|].
  set (m1 := if Core_Started c m then _ else m).
  assert (reaps m m1) as Hm1 by (subst m1; destruct (Core_Started c m), (process c); try done; apply kill_and_wait_reaps).
  assert (reaps m (removeUnixSocketFiles (unixSocketPaths c) m1)) as Hm2
    by (etransitivity; [exact Hm1|apply calm_reaps, remove_sockets_calm]).
  unfold close_logger. cbn [set_cancel set_sockets set_stopping set_process core_logs].
  by destruct (logger (core_logs c)).
Qed.

Lemma launch_reaps bytes sockets : keeps (launch (M:=M) bytes sockets).
Proof.
  intros [[c f] m]. unfold launch. pose proof (spawn_law (executablePath c) bytes m) as Hl.
  destruct (m_spawn _ _ m) as [[[id pid]|e] m']; [by destruct Hl|exact (calm_reaps _ _ Hl)].
Qed.

Lemma start_locked_reaps debug bytes afile efile sockets : keeps (start_locked (M:=M) debug bytes afile efile sockets).
Proof.
  unfold start_locked. apply preserves_bind; [apply _|apply get_reaps|]. intros [[c0 f0] m0].
  destruct (Core_Started c0 m0); [intros w h; done|].
  apply preserves_bind; [apply _| |intros []].
  { intros [[c f] m]. unfold reset_diagnostics. destruct (runtimeLogs (core_logs c)); by intros h. }
  apply preserves_bind; [apply _| |intros []].
  { intros [[c f] m]. exact (calm_reaps _ _ (cleanup_calm c m)). }
  apply preserves_bind; [apply _| |intros []].
  { intros [[c f] m]. unfold kill_previous. destruct (process c) as [cmd|]; [|by intros h].
    exact (calm_reaps _ _ (transitivity (kill_calm (cmd_id cmd) m) (tree_calm (cmd_pid cmd) (m_Kill (cmd_id cmd) m)))). }
  apply preserves_bind; [apply _|apply step_machine_reaps, remove_sockets_calm|intros []].
  apply preserves_bind; [apply _|apply on_machine_reaps, pipe_calm|intros []].
  apply preserves_bind; [apply _| |intros []; apply launch_reaps].
  intros [[c f] m]. unfold open_logger. destruct (SetLogFile m_open_log _ _ _) as [r [l f']]. by intros h.
Qed.

Lemma generate_reaps bytes : keeps (GenerateConfigFile (M:=M) bytes).
Proof.
  intros [[c f] m]. unfold GenerateConfigFile. destruct (m_Indent bytes) as [pretty|]; [|by intros h].
  pose proof (mkdir_calm (configPath c) m) as Hm. destruct (m_MkdirAll (configPath c) m) as [[[]|e] m1];
    [|exact (calm_reaps _ _ Hm)].
  pose proof (write_calm (configPath c +:+ "/xray.json") pretty m1) as Hw.
  destruct (m_WriteFile _ pretty m1) as [r m2]. apply (calm_reaps m m2). by etransitivity.
Qed.

Lemma Core_Start_reaps debug x w : w_reaps w (Core_Start marshal ρ debug (x, w)).2.2.
Proof.
  unfold Core_Start. destruct (GetLogFiles x) as [[afile efile] x1]. destruct (ToBytes marshal ρ x1) as [r x2].
  assert (keeps (start_run (M:=M) debug (config_bytes r) afile efile (collectUnixSocketPaths x2))) as Hk.
  { unfold start_run. apply preserves_bind; [apply _| |intros []; apply start_locked_reaps].
    destruct debug; [apply generate_reaps|by intros w' h]. }
  specialize (Hk w). by destruct (start_run _ _ _ _ _ w) as [r' w'].
Qed.

Lemma Core_Restart_reaps debug x w : w_reaps w (Core_Restart marshal ρ debug (x, w)).2.2.
Proof.
  destruct w as [[c f] m]. unfold Core_Restart. destruct (restarting c); [by intros h|].
  pose proof (Core_Stop_reaps (set_restarting true c, f, m)) as Hs.
  destruct (Core_Stop (set_restarting true c, f, m)) as [r1 w1].
  pose proof (Core_Start_reaps debug x w1) as Hst.
  destruct (Core_Start marshal ρ debug (x, w1)) as [r [x' [[c' f'] m']]].
  unfold w_reaps in *. cbn [snd] in *. by etransitivity.
Qed.

(** ** The backend *)

Definition s_reaps s s' : Prop := w_reaps s.2 s'.2.

Lemma env_step_reaps w e : quiet e → w_reaps w (env_step w e).
Proof.
  assert (∀ g w, w_reaps w (on_capture g w).2) as Hc.
  { intros g [[c f] m]. unfold on_capture. destruct (g (core_logs c, f)) as [r [l f']]. by intros h. }
  intros Hq. destruct e as [line|g|id err]; cbn [env_step]; [apply Hc| |].
  - destruct w as [[c f] m]. exact (calm_reaps _ _ (Hq m)).
  - destruct w as [[c f] m]. unfold handleProcessExit. destruct (stopping c || _); [by intros h|]. apply (Hc _ (c, f, m)).
Qed.

Lemma env_steps_reaps es w : Forall quiet es → w_reaps w (foldl env_step w es).
Proof.
  intros Hq. revert w. induction Hq as [|e es He _ IH]; intros w; [by intros h|]. cbn.
  etransitivity; [by apply env_step_reaps|apply IH].
Qed.

Lemma status_reaps ms w : quiet_moments ms → w_reaps w (checkXrayStatus cfg ms w).2.
Proof.
  intros Hq. revert w. induction Hq as [|mo ms Hmo _ IH]; intros w; [by intros h|]. cbn [checkXrayStatus].
  pose proof (env_steps_reaps _ w Hmo) as Hs. destruct (foldl env_step w (meanwhile mo)) as [[c f] m].
  destruct (woken mo) as [| |[[]|e]]; try exact Hs; destruct (extractStartupError c); try exact Hs.
  - etransitivity; [exact Hs|apply IH].
  - destruct (Core_Started c m); [etransitivity; [exact Hs|apply IH]|exact Hs].
Qed.

Lemma Xray_Restart_reaps s : s_reaps s (Xray_Restart marshal ρ cfg s).2.
Proof.
  destruct s as [x w]. unfold Xray_Restart, restartCoreWithConfig.
  pose proof (Core_Restart_reaps (Debug cfg) (xr_config x) w) as Hr.
  by destruct (Core_Restart marshal ρ (Debug cfg) (xr_config x, w)) as [r [x' w']].
Qed.

Lemma restore_after_reaps e ms s : quiet_moments ms → s_reaps s (restore_after marshal ρ cfg e ms s).2.
Proof.
  intros Hq. unfold restore_after, restorePreviousConfig. pose proof (Xray_Restart_reaps s) as Hr.
  destruct (Xray_Restart marshal ρ cfg s) as [[[]|e1] [x w]]; [|exact Hr].
  pose proof (status_reaps ms w Hq) as Hst. destruct (checkXrayStatus cfg ms w) as [[[[]|]|e2] w'];
    unfold s_reaps in *; cbn [snd] in *; by etransitivity.
Qed.

Lemma apply_reaps candidate ms ms' s : quiet_moments ms → quiet_moments ms' →
  s_reaps s (applyConfigWithRestart marshal ρ cfg candidate ms ms' s).2.
Proof.
  intros Hq Hq'. destruct s as [x w]. unfold applyConfigWithRestart, restartCoreWithConfig at 1.
  pose proof (Core_Restart_reaps (Debug cfg) candidate w) as Hr.
  destruct (Core_Restart marshal ρ (Debug cfg) (candidate, w)) as [[[]|e] [x1 w1]].
  - pose proof (status_reaps ms w1 Hq) as Hst.
    destruct (checkXrayStatus cfg ms w1) as [[[[]|]|e] w2]; unfold s_reaps in *; cbn [snd] in *;
      [by etransitivity..|]. etransitivity; [exact Hr|]. etransitivity; [exact Hst|].
    apply (restore_after_reaps e ms' (x, w2) Hq').
  - unfold s_reaps in *. cbn [snd] in *. etransitivity; [exact Hr|]. apply (restore_after_reaps e ms' (x, w1) Hq').
Qed.

Lemma health_reaps probe failures s : s_reaps s (health_decide marshal ρ cfg probe failures s).2.
Proof.
  assert (∀ n, s_reaps s (health_restart marshal ρ cfg n s).2) as Hr.
  { intros n. unfold health_restart. pose proof (Xray_Restart_reaps s) as Hr.
    by destruct (Xray_Restart marshal ρ cfg s) as [[[]|e] s']. }
  unfold health_decide. destruct probe as [[]|e]; [by intros h|]. destruct (errors_Is e ContextCanceled); [by intros h|].
  destruct s as [x [[c f] m]]. destruct (negb (Core_Started c m)); [apply Hr|].
  destruct (maxFailures <=? failures + 1); [apply Hr|by intros h].
Qed.

Lemma shutdown_reaps s : s_reaps s (Xray_Shutdown s).2.
Proof. destruct s as [x w]. apply Core_Stop_reaps. Qed.

Lemma xray_step_reaps s s' : xray_step marshal ρ cfg s s' → s_reaps s s'.
Proof.
  destruct 1.
  - by apply env_step_reaps.
  - apply Xray_Restart_reaps.
  - by apply apply_reaps.
  - apply health_reaps.
  - apply shutdown_reaps.
Qed.

Lemma Xray_New_reaps abs ifaces api x users p q ms f m : quiet_moments ms →
  match Xray_New marshal ρ cfg abs ifaces api x users p q ms (f, m) with
  | (Ok (Some s), (f', m')) => reaps m s.2.2 ∧ f' = s.2.1.2 ∧ m' = s.2.2
  | (_, (_, m')) => reaps m m'
  end.
Proof.
  intros Hq. unfold Xray_New. destruct (abs (XrayExecutablePath cfg)) as [ex|]; [|done].
  destruct (abs (XrayAssetsPath cfg)); [|done]. destruct (abs (GeneratedConfigPath cfg)) as [dir|]; [|done].
  destruct (ApplyAPI ifaces p q x) as [[[]|] x1]; [|done].
  set (x2 := if bool_decide (length users = 0%nat) then x1 else Config_syncUsers users x1). clearbody x2.
  pose proof (NewXRayCore_spec ex dir (LogBufferSize cfg) (StartupLogTailSize cfg) m) as Hnew.
  destruct (NewXRayCore ex dir (LogBufferSize cfg) (StartupLogTailSize cfg) m) as [[core|] m1];
    apply calm_reaps in Hnew; [|exact Hnew].
  pose proof (Core_Start_reaps (Debug cfg) x2 (core, f, m1)) as Hst. unfold World in Hst |- *.
  destruct (Core_Start marshal ρ (Debug cfg) (x2, (core, f, m1))) as [[[]|] [x3 [[c3 f3] m3]]];
    unfold w_reaps in Hst; cbn [snd] in Hst; assert (reaps m m3) as Hm3 by (by etransitivity); [|exact Hm3].
  assert (∀ x4 w4, reaps m w4.2 → reaps m (Xray_Shutdown (x4, w4)).2.2.2) as Hdown.
  { intros x4 w4 Hm4. etransitivity; [exact Hm4|]. apply (shutdown_reaps (x4, w4)). }
  destruct api as [[]|].
  - pose proof (status_reaps ms (c3, f3, m3) Hq) as Hck. unfold w_reaps in Hck.
    destruct (checkXrayStatus cfg ms (c3, f3, m3)) as [[[[]|]|] [[c4 f4] m4]]; cbn [snd] in Hck;
      assert (reaps m m4) as Hm4 by (by etransitivity); [done..|].
    specialize (Hdown (mkXray x3 q true false) (c4, f4, m4) Hm4).
    by destruct (Xray_Shutdown _) as [r [x' [[c' f'] m']]].
  - specialize (Hdown (mkXray x3 q false false) (c3, f3, m3) Hm3).
    by destruct (Xray_Shutdown _) as [r [x' [[c' f'] m']]].
Qed.
End Reap.
