(* ===== verification/XrayShare.v ===== *)
(** * Several cores on one machine

    The theorems of XrayLife and XrayProps speak of a core that has the machine
    to itself.  Here they are carried over to a machine on which some processes
    belong to others: a machine that does not show those processes obeys the
    same laws, and the operations, which never look at who is alive, are the
    same on both. *)

From S2P Require Import Prelude GoString Json Helper Messages NodeConfig Logger XrayLogs XrayAccount XrayInbound XrayApply XrayRender XrayCore XrayRun XrayLife XrayProps.

#[local] Open Scope Z_scope.

Section Hiding.
Context {M : Type} {I : Machine M} (S : nat → bool).

(** The machine without the processes of the commands in [S]. *)
Definition hiding : Machine M := {|
  m_version_output := m_version_output;
  m_Indent := m_Indent;
  m_MkdirAll := m_MkdirAll;
  m_WriteFile := m_WriteFile;
  m_StdoutPipe := m_StdoutPipe;
  m_spawn := m_spawn;
  m_reaped := m_reaped;
  m_alive h m := m_alive h m && negb (S h);
  m_Kill := m_Kill;
  m_killProcessTree := m_killProcessTree;
  m_await := m_await;
  m_verifyProcessDead := m_verifyProcessDead;
  m_findXrayProcesses := m_findXrayProcesses;
  m_Getpid := m_Getpid;
  m_lstat := m_lstat;
  m_Remove := m_Remove;
  m_open_log := m_open_log
|}.

Lemma hiding_calm m m' : calm m m' → calm (H:=hiding) m m'.
Proof.
  intros [Hc Hr]. split; [|exact Hr]. intros h. cbn. rewrite !andb_true_iff. intros [Ha Hs]. auto.
Qed.

Lemma hiding_laws : MachineLaws M → MachineLaws (Machine0:=hiding) M.
Proof.
  intros HL. split.
  - intros h m Hr. cbn in *. by rewrite (reaped_dead (Machine0:=I) h m Hr).
  - intros e m. apply hiding_calm, (version_calm (Machine0:=I)).
  - intros d m. apply hiding_calm, (mkdir_calm (Machine0:=I)).
  - intros p s m. apply hiding_calm, (write_calm (Machine0:=I)).
  - intros m. apply hiding_calm, (pipe_calm (Machine0:=I)).
  - intros h m. apply hiding_calm, (kill_calm (Machine0:=I)).
  - intros p m. apply hiding_calm, (tree_calm (Machine0:=I)).
  - intros h m. apply hiding_calm, (await_calm (Machine0:=I)).
  - intros p m. apply hiding_calm, (remove_calm (Machine0:=I)).
  - intros e s m. pose proof (spawn_law (Machine0:=I) e s m) as Hl. cbn in *.
    destruct (m_spawn e s m) as [[[h pid]|err] m']; [|by apply hiding_calm].
    destruct Hl as [Ha Hr]. split; [|exact Hr]. intros h'. cbn. rewrite !andb_true_iff. intros [Ha' Hs].
    destruct (Ha h' Ha') as [->|?]; [by left|by right].
  - intros h m Hw. cbn in *. by rewrite (await_dead (Machine0:=I) h m Hw).
Qed.
End Hiding.

Section Share.
Context `{UuidLib} `{Sha256} `{JsonText} {M K : Type} {I : Machine M} {HL : MachineLaws M}.
Context (marshal : Config → result string) (ρ : map_range) (cfg : @NodeConfig K).
Context (prompt : ∀ h (m : M), (m_await h (m_Kill h m)).1 = true).
Implicit Types (S : nat → bool) (s : XS (M:=M)) (w : World (M:=M)).

(** Apart from the processes in [S], only the core's own process is alive. *)
Definition solo_but S w : Prop :=
  ∀ h, m_alive h w.2 = true → S h = false → cmd_id <$> process w.1.1 = Some h.
Definition none_but S (m : M) : Prop := ∀ h, m_alive h m = true → S h = true.

Lemma solo_hiding S w : solo (Machine0:=hiding S) w ↔ solo_but S w.
Proof.
  unfold solo, solo_but. cbn. setoid_rewrite andb_true_iff. setoid_rewrite negb_true_iff. naive_solver.
Qed.

Lemma none_hiding S m : (∀ h, m_alive (Machine:=hiding S) h m = false) ↔ none_but S m.
Proof.
  unfold none_but. cbn. split.
  - intros Hn h Ha. specialize (Hn h). rewrite Ha in Hn. by destruct (S h).
  - intros Hn h. destruct (m_alive h m) eqn:Ha; [|done]. by rewrite (Hn h Ha).
Qed.

Lemma quiet_hiding S e : quiet e → quiet (Machine0:=hiding S) e.
Proof. destruct e; cbn; [done| |done]. intros Hq m. apply (hiding_calm S), Hq. Qed.

Lemma quiet_moments_hiding S (ms : list (moment (M:=M))) : quiet_moments ms → quiet_moments (Machine0:=hiding S) ms.
Proof.
  intros Hq. eapply Forall_impl; [exact Hq|]. intros mo Hmo. eapply Forall_impl; [exact Hmo|]. intros e. apply quiet_hiding.
Qed.

(** A step of the backend is a step on the machine that hides [S]. *)
Lemma step_hiding S s s' : xray_step marshal ρ cfg s s' → xray_step (Machine0:=hiding S) marshal ρ cfg s s'.
Proof.
  destruct 1 as [e x w Hq|s|candidate ms ms' s Hq Hq'|probe failures s|s].
  - apply (step_env (Machine0:=hiding S)). by apply quiet_hiding.
  - exact (step_restart (Machine0:=hiding S) marshal ρ cfg s).
  - exact (step_apply (Machine0:=hiding S) marshal ρ cfg candidate ms ms' s (quiet_moments_hiding S ms Hq) (quiet_moments_hiding S ms' Hq')).
  - exact (step_health (Machine0:=hiding S) marshal ρ cfg probe failures s).
  - exact (step_shutdown (Machine0:=hiding S) marshal ρ cfg s).
Qed.

(** So every step keeps the core alone apart from [S]. *)
Lemma step_solo_but S s s' : xray_step marshal ρ cfg s s' → solo_but S s.2 → solo_but S s'.2.
Proof.
  intros Hstep Hs. apply solo_hiding. apply solo_hiding in Hs.
  exact (xray_step_solo (Machine0:=hiding S) marshal ρ cfg (MachineLaws0:=hiding_laws S HL) prompt s s' (step_hiding S s s' Hstep) Hs).
Qed.

(** Shutting down leaves only [S]. *)
Lemma shutdown_none_but S s : solo_but S s.2 → none_but S (Xray_Shutdown s).2.2.2.
Proof.
  intros Hs. apply none_hiding. apply solo_hiding in Hs.
  exact (shutdown_dead (Machine0:=hiding S) (MachineLaws0:=hiding_laws S HL) prompt s Hs).
Qed.

(** So does creating a backend, but for the new core's process. *)
Lemma New_solo_but S abs ifaces api x users p q ms f m :
  none_but S m → quiet_moments ms →
  match Xray_New marshal ρ cfg abs ifaces api x users p q ms (f, m) with
  | (Ok (Some s), _) => solo_but S s.2
  | (Ok None, _) => True
  | (Err _, (_, m')) => none_but S m'
  end.
Proof.
  intros Hn Hq%(quiet_moments_hiding S). pose proof (proj2 (none_hiding S m) Hn) as Hn'.
  pose proof (Xray_New_solo (Machine0:=hiding S) marshal ρ cfg (MachineLaws0:=hiding_laws S HL) prompt
    abs ifaces api x users p q ms f m Hn' Hq) as Hnew.
  change (Xray_New (Machine0:=hiding S) marshal ρ cfg abs ifaces api x users p q ms (f, m))
    with (Xray_New marshal ρ cfg abs ifaces api x users p q ms (f, m)) in Hnew.
  destruct (Xray_New marshal ρ cfg abs ifaces api x users p q ms (f, m)) as [[[s|]|e] [f' m']]; [|done|].
  - by apply solo_hiding.
  - by apply none_hiding.
Qed.
End Share.
