(* ===== verification/XrayHealth.v ===== *)
(** * The health check recovers the core ([checkXrayHealth] of [src/backend/xray/jobs.go])

    Whatever made the core's API stop answering, the loop restarts the core
    within ten failed probes, and at the first one when its process is gone. *)

From S2P Require Import Prelude GoString Json Helper Messages NodeConfig Logger XrayLogs XrayAccount XrayInbound XrayApply XrayRender XrayCore XrayRun XrayLife.

#[local] Open Scope Z_scope.

Section Health.
Context `{UuidLib} `{Sha256} `{JsonText} {M K : Type} `{!Machine M}.
Context (marshal : Config → result string) (ρ : map_range) (cfg : @NodeConfig K).
Implicit Types (s : XS (M:=M)) (t : turn (M:=M)) (ts : list (turn (M:=M))).

(** The state the environment alone makes of [s] until the decision of the
    last of these turns. *)
Definition env_turn s t : XS := env_run (turn_during t) (env_run (turn_before t) s).
Definition env_turns ts s : XS := foldl env_turn s ts.

(** The probe failed, and not because the context was cancelled. *)
Definition failing t : Prop := match probe t with Ok _ => False | Err e => errors_Is e ContextCanceled = false end.

(** The goroutine keeps going. *)
Definition watching s : Prop := xr_cancelled s.1 = false ∧ restarting s.2.1.1 = false.

Lemma on_capture_restarting g (w : World (M:=M)) : restarting (on_capture g w).2.1.1 = restarting w.1.1.
Proof. destruct w as [[c f] m]. unfold on_capture. by destruct (g (core_logs c, f)) as [r [l f']]. Qed.

Lemma env_step_restarting (w : World (M:=M)) e : restarting (env_step w e).1.1 = restarting w.1.1.
Proof.
  destruct w as [[c f] m]. destruct e as [line|g|id err]; cbn [env_step]; [apply on_capture_restarting|done|].
  unfold handleProcessExit. destruct (stopping c || _); [done|]. apply (on_capture_restarting _ (c, f, m)).
Qed.

Lemma env_run_watching es s : watching s → watching (env_run es s).
Proof.
  destruct s as [x w]. intros [Hx Hw]. split; [exact Hx|]. cbn in *. revert w Hw.
  induction es as [|e es IH]; intros w Hw; [done|]. cbn. apply IH. by rewrite env_step_restarting.
Qed.

Lemma env_run_config es s : (env_run es s).1 = s.1.
Proof. by destruct s. Qed.

Lemma env_turns_config ts s : (env_turns ts s).1 = s.1.
Proof.
  revert s. induction ts as [|t ts IH]; intros s; [done|]. unfold env_turns in *. cbn [foldl].
  rewrite IH. unfold env_turn. by rewrite !env_run_config.
Qed.

Notation restart := (Xray_Restart marshal ρ cfg).
Notation health := (checkXrayHealth marshal ρ cfg).

(** A restart that works leaves the stored configuration served. *)
Lemma restart_serves s : is_ok (restart s).1 = true → serves marshal ρ (xr_config (restart s).2.1) (restart s).2.2.
Proof.
  destruct s as [x w]. unfold Xray_Restart, restartCoreWithConfig.
  pose proof (Core_Restart_serves marshal ρ (Debug cfg) (xr_config x) w) as Hr.
  destruct (Core_Restart marshal ρ (Debug cfg) (xr_config x, w)) as [[[]|e] [x' w']]; [|done].
  destruct Hr as [_ Hs]. intros _. by apply Hs.
Qed.

(** One failing turn: a restart, or one failure more. *)
Lemma failing_turn t ts failures s :
  watching s → failing t → is_ok (restart (env_turn s t)).1 = true →
  let due := negb (Core_Started (env_turn s t).2.1.1 (env_turn s t).2.2) || (maxFailures <=? failures + 1) in
  health (t :: ts) failures s =
    if due then health ts 0 (restart (env_turn s t)).2 else health ts (failures + 1) (env_turn s t).
Proof.
  intros Hw Hf Hok due. pose proof (env_run_watching (turn_before t) s Hw) as [Hx Hr]. cbn [checkXrayHealth].
  unfold health_begin, Core_Restarting. rewrite Hx, Hr. fold (env_turn s t). unfold failing in Hf.
  unfold health_decide. destruct (probe t) as [[]|e]; [done|]. rewrite Hf. subst due.
  assert (health_restart marshal ρ cfg (failures + 1) (env_turn s t) = (Ok (Some 0), (restart (env_turn s t)).2)) as Hrs.
  { unfold health_restart. by destruct (restart (env_turn s t)) as [[[]|e'] s']. }
  destruct (env_turn s t) as [x [[c f] m]] eqn:Hs. cbn [fst snd].
  destruct (negb (Core_Started c m)); [by rewrite Hrs|]. cbn [orb].
  destruct (maxFailures <=? failures + 1); [by rewrite Hrs|done].
Qed.

Lemma health_recovers ts failures s :
  watching s → 0 ≤ failures → (1 ≤ length ts)%nat → 10 ≤ failures + Z.of_nat (length ts) → Forall failing ts →
  (∀ k, (k ≤ length ts)%nat → is_ok (restart (env_turns (take k ts) s)).1 = true) →
  ∃ k, (1 ≤ k ≤ length ts)%nat ∧
    health (take k ts) failures s = (Ok (Some 0), (restart (env_turns (take k ts) s)).2) ∧
    ∀ j, (1 ≤ j ≤ length ts)%nat →
      Core_Started (env_turns (take j ts) s).2.1.1 (env_turns (take j ts) s).2.2 = false → (k ≤ j)%nat.
Proof.
  revert failures s. induction ts as [|t ts IH]; intros failures s Hw Hn Hlen Hten Hall Hok; [cbn in Hlen; lia|].
  inversion_clear Hall as [|? ? Ht Hts].
  assert (is_ok (restart (env_turn s t)).1 = true) as Hok1 by (apply (Hok 1%nat); cbn; lia).
  pose proof (λ us, failing_turn t us failures s Hw Ht Hok1) as Hturn. cbn zeta in Hturn.
  destruct (negb _ || _) eqn:Hdue.
  - exists 1%nat. cbn [length]. split; [lia|]. split; [cbn [take firstn]; by rewrite Hturn|]. lia.
  - apply orb_false_iff in Hdue as [Hup Hmax]. apply negb_false_iff in Hup. apply Z.leb_gt in Hmax. unfold maxFailures in Hmax.
    cbn [length] in *. destruct (IH (failures + 1) (env_turn s t)) as (k & Hk & Hrun & Hfirst); try done; try lia.
    { unfold env_turn. by apply env_run_watching, env_run_watching. }
    { intros k Hk. apply (Hok (S k)). lia. }
    exists (S k). split; [lia|]. split; [cbn [take firstn]; rewrite Hturn; exact Hrun|].
    intros j Hj Hdead. destruct j as [|[|j]]; [lia| |].
    + change (Core_Started (env_turn s t).2.1.1 (env_turn s t).2.2 = false) in Hdead. by rewrite Hup in Hdead.
    + specialize (Hfirst (S j)). cbn [take firstn] in *. assert (k ≤ S j)%nat; [|lia]. apply Hfirst; [lia|exact Hdead].
Qed.
End Health.

(** ** Property *)

(** C24: a core that stops answering is restarted.  While the health check is
    not cancelled and nothing else restarts the core, and restarting works,
    ten turns whose probes fail (for a reason other than a cancelled context)
    are enough: at some turn the core is restarted and its process reads the
    stored configuration, with the failure count back at zero.  When the
    process is found gone the restart does not wait for ten failures. *)
Theorem health_check_recovers `{UuidLib} `{Sha256} `{JsonText} {M K : Type} `{!Machine M}
    (marshal : Config → result string) (ρ : map_range) (cfg : @NodeConfig K)
    (turns : list turn) (failures : Z) (s : XS (M:=M))
    (Hwatch : watching s) (Hcount : 0 ≤ failures) (Hten : length turns = 10%nat) (Hfail : Forall failing turns)
    (Hworks : ∀ k, (k ≤ 10)%nat → is_ok (Xray_Restart marshal ρ cfg (env_turns (take k turns) s)).1 = true) :
  ∃ k s', (1 ≤ k ≤ 10)%nat ∧ checkXrayHealth marshal ρ cfg (take k turns) failures s = (Ok (Some 0), s') ∧
    serves marshal ρ (xr_config s'.1) s'.2 ∧
    ∀ j, (1 ≤ j ≤ 10)%nat →
      Core_Started (env_turns (take j turns) s).2.1.1 (env_turns (take j turns) s).2.2 = false → (k ≤ j)%nat.
Proof.
  destruct (health_recovers marshal ρ cfg turns failures s) as (k & Hk & Hrun & Hfirst); rewrite ?Hten in *; try done; try lia.
  eexists k, _. split; [done|]. split; [exact Hrun|]. split; [|done].
  apply restart_serves, Hworks. lia.
Qed.
