(* ===== verification/XrayProcess.v ===== *)
(** * Processes on Unix ([src/backend/xray/process_unix.go])

    Finding the processes of an executable and killing one with its group.  The
    kernel, its /proc and the [ps] program are the class [Unix]; what a scan
    reads is one moment of it. *)

From Stdlib Require Import Ascii.
From S2P Require Import Prelude GoString NodeConfig XrayCore XrayRun XrayLife.

#[local] Open Scope Z_scope.

(** ** The system *)

Inductive sig := SIGTERM | SIGKILL.

(** [proc_entries] is [os.ReadDir("/proc")], names with [IsDir]; [ps_processes],
    [ps_command] and [ps_state] are the three uses of [ps].  [os.FindProcess]
    always succeeds on Unix; [sig_exists] is [Signal(0)].  [proc_Signal] is
    [os.Process.Signal], [sys_Kill] is [syscall.Kill]. *)
Class Unix (P : Type) := {
  GOOS : string;
  Getwd : result string;
  EvalSymlinks : string → P → result string;
  proc_entries : P → result (list (string * bool));
  Readlink : string → P → result string;
  ReadFile : string → P → result string;
  ps_processes : P → result string;
  ps_command : Z → P → result string;
  ps_state : Z → P → result string;
  sig_exists : Z → P → bool;
  proc_Signal : Z → sig → eff P unit;
  sys_Kill : Z → sig → eff P unit;
  sleep_100ms : P → P
}.

(** ** Paths ([path/filepath] on Unix) *)

Definition clean_step (rooted : bool) (stack : list string) (part : string) : list string :=
  if bool_decide (part = "") || bool_decide (part = ".") then stack
  else if bool_decide (part = "..") then
    match stack with
    | [] => if rooted then [] else [".."]
    | top :: rest => if bool_decide (top = "..") then ".." :: stack else rest
    end
  else part :: stack.

Definition Clean (path : string) : string :=
  let rooted := HasPrefix path "/" in
  let out := Join (reverse (foldl (clean_step rooted) [] (Split path "/"))) "/" in
  if rooted then "/" +:+ out else if bool_decide (out = "") then "." else out.

(** The last element; trailing slashes are removed first. *)
Definition Base (path : string) : string :=
  if bool_decide (path = "") then "."
  else default "/" (last (filter (λ part, part ≠ "") (Split path "/"))).

Section Unix.
Context {P : Type} `{!Unix P}.
Implicit Types (p : P) (pid : Z).

Definition Abs (path : string) : result string :=
  if HasPrefix path "/" then Ok (Clean path)
  else match Getwd with
       | Err e => Err e
       | Ok wd => Ok (Clean (wd +:+ "/" +:+ path))
       end.

Definition pathsMatch (candidate target : string) p : bool :=
  if bool_decide (candidate = "") || bool_decide (target = "") then false
  else
    match Abs candidate, Abs target with
    | Ok candidateAbs, Ok targetAbs =>
        if bool_decide (candidateAbs = targetAbs) then true
        else
          match EvalSymlinks candidateAbs p, EvalSymlinks targetAbs p with
          | Ok candidateReal, Ok targetReal => bool_decide (candidateReal = targetReal)
          | _, _ => false
          end
    | _, _ => false
    end.

(** ** Finding processes *)

Definition proc_path pid (file : string) : string := "/proc/" +:+ Itoa pid +:+ "/" +:+ file.

Definition is_zombie_state (state : string) : bool := bool_decide (state = "Z") || bool_decide (state = "z").

(** One directory of /proc. *)
Definition proc_info (absPath : string) p (entry : string * bool) : option ProcessInfo :=
  if negb entry.2 then None
  else
    match Atoi entry.1 with
    | None => None
    | Some pid =>
        if pid <=? 0 then None
        else
          match Readlink (proc_path pid "exe") p with
          | Err _ => None
          | Ok exePath =>
              if negb (pathsMatch exePath absPath p) then None
              else
                match ReadFile (proc_path pid "stat") p with
                | Err _ => None
                | Ok data =>
                    match Fields data with
                    | _ :: _ :: state :: parent :: _ =>
                        match Atoi parent with
                        | None => None
                        | Some ppid => Some (mkProcess pid ppid (is_zombie_state state))
                        end
                    | _ => None
                    end
                end
          end
    end.

Definition findXrayProcessesFromProc (absPath : string) p : result (list ProcessInfo) :=
  match proc_entries p with
  | Err e => Err e
  | Ok entries => Ok (omap (proc_info absPath p) entries)
  end.

Definition getProcessPath pid p : result string :=
  match Readlink (proc_path pid "exe") p with
  | Ok path => Ok path
  | Err err =>
      match ps_command pid p with
      | Err psErr =>
          Err (GoErr ("failed to read process path: " +:+ err_text err +:+ " (ps fallback error: " +:+ err_text psErr +:+ ")")
                 (err_chain err))
      | Ok psOutput =>
          match Fields (TrimSpace psOutput) with
          | [] => Err (errors_New ("failed to read process path: empty command for pid " +:+ Itoa pid))
          | first :: _ => Ok first
          end
      end
  end.

(** The executable of a process of [ps], or the first word of its command. *)
Definition ps_matches (absPath executableName cmdPath : string) pid p : bool :=
  match getProcessPath pid p with
  | Ok procPath => pathsMatch procPath absPath p
  | Err _ => false
  end || (pathsMatch cmdPath absPath p || bool_decide (Base cmdPath = executableName)).

(** One line of [ps]. *)
Definition ps_info (absPath executableName : string) p (line : string) : option ProcessInfo :=
  let line := TrimSpace line in
  if bool_decide (line = "") || HasPrefix line "PID" then None
  else
    match Fields line with
    | pidStr :: ppidStr :: state :: cmdPath :: _ =>
        match Atoi pidStr, Atoi ppidStr with
        | Some pid, Some ppid =>
            if ps_matches absPath executableName cmdPath pid p
            then Some (mkProcess pid ppid (is_zombie_state state)) else None
        | _, _ => None
        end
    | _ => None
    end.

Definition findXrayProcesses (executablePath : string) p : result (list ProcessInfo) :=
  match Abs executablePath with
  | Err e => Err e
  | Ok absPath =>
      let with_ps :=
        match ps_processes p with
        | Err e => Err (wrapf "failed to list processes" e)
        | Ok output => Ok (omap (ps_info absPath (Base absPath) p) (Split output newline))
        end in
      if bool_decide (GOOS = "linux") then
        match findXrayProcessesFromProc absPath p with
        | Ok procs => Ok procs
        | Err _ => with_ps
        end
      else with_ps
  end.

(** ** Killing a process and its group *)

Definition getProcessGroupID pid p : result Z :=
  match ReadFile (proc_path pid "stat") p with
  | Err e => Err e
  | Ok data =>
      match Fields data with
      | _ :: _ :: _ :: _ :: group :: _ =>
          match Atoi group with
          | Some pgid => Ok pgid
          | None => Err (errors_New ("strconv.Atoi: parsing " +:+ Quote group +:+ ": invalid syntax"))
          end
      | _ => Err (errors_New "invalid stat format")
      end
  end.

Definition isProcessRunning pid p : bool := sig_exists pid p.

Definition still_running pid : string := "process " +:+ Itoa pid +:+ " is still running".

Definition verifyProcessDead pid p : result unit :=
  if isProcessRunning pid p then Err (errors_New (still_running pid)) else Ok ().

(** The loop that waits for the process to exit. *)
Fixpoint wait_exit (n : nat) pid : eff P unit := λ p,
  match n with
  | O => (Err (errors_New (still_running pid +:+ " after kill attempt")), p)
  | S n => if isProcessRunning pid p then wait_exit n pid (sleep_100ms p) else (Ok (), p)
  end.

(** Errors of the signals are ignored. *)
Definition signal pid (s : sig) p : P := (proc_Signal pid s p).2.
Definition kill_group pid p : P :=
  match getProcessGroupID pid p with
  | Ok pgid => if bool_decide (pgid ≠ 0) then (sys_Kill (- pgid) SIGKILL (sys_Kill (- pgid) SIGTERM p).2).2 else p
  | Err _ => p
  end.

Definition killProcessTree pid : eff P unit := λ p,
  wait_exit 10 pid (signal pid SIGKILL (kill_group pid (signal pid SIGTERM p))).

Definition isProcessZombie pid p : bool :=
  match ReadFile (proc_path pid "stat") p with
  | Err _ =>
      match ps_state pid p with
      | Err _ => false
      | Ok out => HasPrefix (TrimSpace out) "Z" || HasPrefix (TrimSpace out) "z"
      end
  | Ok data =>
      match Fields data with
      | _ :: _ :: state :: _ => is_zombie_state state
      | _ => false
      end
  end.
End Unix.

(** ** The machine of XrayCore on Unix *)

(** The three operations of this file in place of the machine's. *)
Definition unix_machine {P} `{!Unix P} (base : Machine P) : Machine P := {|
  m_version_output := @m_version_output P base;
  m_Indent := @m_Indent P base;
  m_MkdirAll := @m_MkdirAll P base;
  m_WriteFile := @m_WriteFile P base;
  m_StdoutPipe := @m_StdoutPipe P base;
  m_spawn := @m_spawn P base;
  m_reaped := @m_reaped P base;
  m_alive := @m_alive P base;
  m_Kill := @m_Kill P base;
  m_killProcessTree := killProcessTree;
  m_await := @m_await P base;
  m_verifyProcessDead := verifyProcessDead;
  m_findXrayProcesses := findXrayProcesses;
  m_Getpid := @m_Getpid P base;
  m_lstat := @m_lstat P base;
  m_Remove := @m_Remove P base;
  m_open_log := @m_open_log P base
|}.

(** The laws of XrayLife survive the exchange: the theorems about the core hold
    with the killing of this file. *)
Section Laws.
Context {P : Type} `{!Unix P} (base : Machine P) `{!MachineLaws P}.
Context (signal_calm : ∀ pid s p, calm p (proc_Signal pid s p).2) (kill_calm' : ∀ t s p, calm p (sys_Kill t s p).2)
  (sleep_calm : ∀ p, calm p (sleep_100ms p)).

Lemma wait_exit_calm n pid p : calm p (wait_exit n pid p).2.
Proof.
  revert p. induction n as [|n IH]; intros p; [done|]. cbn [wait_exit]. destruct (isProcessRunning pid p); [|done].
  etransitivity; [apply sleep_calm|apply IH].
Qed.

Lemma killProcessTree_calm pid p : calm p (killProcessTree pid p).2.
Proof.
  unfold killProcessTree, signal. etransitivity; [|apply wait_exit_calm]. etransitivity; [|apply signal_calm].
  etransitivity; [apply signal_calm|]. unfold kill_group. destruct (getProcessGroupID pid _); [|done].
  case_bool_decide; [|done]. etransitivity; [apply kill_calm'|apply kill_calm'].
Qed.

Lemma unix_machine_laws : @MachineLaws P (unix_machine base).
Proof.
  split.
  - exact (@reaped_dead P base _).
  - exact (@version_calm P base _).
  - exact (@mkdir_calm P base _).
  - exact (@write_calm P base _).
  - exact (@pipe_calm P base _).
  - exact (@kill_calm P base _).
  - exact killProcessTree_calm.
  - exact (@await_calm P base _).
  - exact (@remove_calm P base _).
  - exact (@spawn_law P base _).
  - exact (@await_dead P base _).
Qed.
End Laws.

(** ** Signals sent *)

(** [sent] is every signal so far, its target a process or, negative, a group.
    A process keeps its group: the number of a process that ends is not given
    to another one during a cleanup. *)
Class UnixLaws (P : Type) `{!Unix P} := {
  sent : P → list (Z * sig);
  signal_sent pid s p : sent (proc_Signal pid s p).2 = sent p ++ [(pid, s)];
  kill_sent t s p : sent (sys_Kill t s p).2 = sent p ++ [(t, s)];
  sleep_sent p : sent (sleep_100ms p) = sent p;
  signal_group pid t s p g : getProcessGroupID pid (proc_Signal t s p).2 = Ok g → getProcessGroupID pid p = Ok g;
  kill_keeps_group pid t s p g : getProcessGroupID pid (sys_Kill t s p).2 = Ok g → getProcessGroupID pid p = Ok g;
  sleep_group pid p g : getProcessGroupID pid (sleep_100ms p) = Ok g → getProcessGroupID pid p = Ok g
}.

Section Signals.
Context {P : Type} `{!Unix P} `{!UnixLaws P}.
Implicit Types (p : P) (pid : Z).

(** The groups read later were there before. *)
Definition groups_from p p' : Prop := ∀ pid g, getProcessGroupID pid p' = Ok g → getProcessGroupID pid p = Ok g.

#[local] Instance groups_from_preorder : PreOrder groups_from.
Proof. split; [by intros p pid g|]. intros p1 p2 p3 H1 H2 pid g Hg. auto. Qed.

(** What killing a process sends. *)
Definition to_process pid p (t : Z) : Prop :=
  t = pid ∨ ∃ g, g ≠ 0 ∧ t = - g ∧ getProcessGroupID pid p = Ok g.

Lemma wait_exit_sent n pid p :
  sent (wait_exit n pid p).2 = sent p ∧ groups_from p (wait_exit n pid p).2.
Proof.
  revert p. induction n as [|n IH]; intros p; [done|]. cbn [wait_exit].
  destruct (isProcessRunning pid p); [|done]. destruct (IH (sleep_100ms p)) as [-> Hg]. split; [apply sleep_sent|].
  intros pid' g Hr. by apply sleep_group, Hg.
Qed.

Lemma killProcessTree_sent pid p :
  ∃ group, sent (killProcessTree pid p).2 = sent p ++ [(pid, SIGTERM)] ++ group ++ [(pid, SIGKILL)] ∧
    Forall (λ ts, to_process pid p ts.1) group ∧ groups_from p (killProcessTree pid p).2.
Proof.
  unfold killProcessTree. set (p1 := signal pid SIGTERM p).
  assert (groups_from p p1) as Hg1 by (intros q g; apply signal_group).
  assert (sent p1 = sent p ++ [(pid, SIGTERM)]) as Hs1 by apply signal_sent.
  assert (∃ group, sent (kill_group pid p1) = sent p1 ++ group ∧ Forall (λ ts, to_process pid p ts.1) group ∧
    groups_from p (kill_group pid p1)) as (group & Hs2 & Hall & Hg2).
  { unfold kill_group. destruct (getProcessGroupID pid p1) as [g|e] eqn:Hg; [|by exists []; rewrite app_nil_r].
    case_bool_decide as Hz; [|by exists []; rewrite app_nil_r].
    exists [(- g, SIGTERM); (- g, SIGKILL)]. rewrite !kill_sent, <- (assoc_L (++)). split; [done|]. split.
    - assert (to_process pid p (- g)) as Ht by (right; exists g; split_and!; [done..|by apply Hg1]).
      by apply Forall_cons_2, Forall_cons_2, Forall_nil_2.
    - intros q h Hq. by apply Hg1; do 2 eapply kill_keeps_group. }
  clearbody p1. set (p3 := signal pid SIGKILL (kill_group pid p1)).
  destruct (wait_exit_sent 10 pid p3) as [-> Hg3]. exists group. split_and!; [|done|].
  - unfold p3, signal. rewrite signal_sent, Hs2, Hs1, <- !(assoc_L (++)). done.
  - intros q h Hq%Hg3. apply Hg2. by apply signal_group in Hq.
Qed.

(** Killing one process after another. *)
Lemma kill_all_sent (l : list ProcessInfo) p :
  ∃ new, sent (foldl (λ p info, (killProcessTree (PID info) p).2) p l) = sent p ++ new ∧
    (∀ t s, (t, s) ∈ new → ∃ info, info ∈ l ∧ to_process (PID info) p t) ∧
    ∀ info, info ∈ l → (PID info, SIGKILL) ∈ new.
Proof.
  assert (∀ p0, groups_from p0 p → ∃ new, sent (foldl (λ p info, (killProcessTree (PID info) p).2) p l) = sent p ++ new ∧
    (∀ t s, (t, s) ∈ new → ∃ info, info ∈ l ∧ to_process (PID info) p0 t) ∧
    ∀ info, info ∈ l → (PID info, SIGKILL) ∈ new) as Hall; [|by apply Hall].
  intros p0 H0. revert p H0. induction l as [|info l IH]; intros p H0.
  - exists []. cbn. rewrite app_nil_r. split_and!; [done|set_solver..].
  - cbn [foldl]. destruct (killProcessTree_sent (PID info) p) as (group & Hs & Hgroup & Hg).
    destruct (IH (killProcessTree (PID info) p).2) as (new & Hnew & Hto & Hkill); [by etransitivity|].
    assert (∀ t, to_process (PID info) p t → to_process (PID info) p0 t) as Hback.
    { intros t [->|(g & Hz & -> & Hr)]; [by left|right; exists g; split_and!; auto]. }
    exists ([(PID info, SIGTERM)] ++ group ++ [(PID info, SIGKILL)] ++ new). split_and!.
    + rewrite Hnew, Hs, <- !(assoc_L (++)). done.
    + intros t s [Hin|[Hin|[Hin|Hin]%elem_of_app]%elem_of_app]%elem_of_app.
      * exists info. split; [set_solver|]. left. set_solver.
      * exists info. split; [set_solver|]. rewrite Forall_forall in Hgroup. apply Hback. exact (Hgroup (t, s) Hin).
      * exists info. split; [set_solver|]. left. set_solver.
      * destruct (Hto t s Hin) as (info' & Hin' & Ht). exists info'. split; [set_solver|done].
    + intros info' [->|Hin]%elem_of_cons; [set_solver|]. specialize (Hkill _ Hin). set_solver.
Qed.

(** What /proc says of a process found there. *)
Definition proc_says absPath p (info : ProcessInfo) : Prop :=
  0 < PID info ∧
  (∃ exe, Readlink (proc_path (PID info) "exe") p = Ok exe ∧ pathsMatch exe absPath p = true) ∧
  ∃ data num comm state parent rest, ReadFile (proc_path (PID info) "stat") p = Ok data ∧
    Fields data = num :: comm :: state :: parent :: rest ∧ Atoi parent = Some (PPID info) ∧
    IsZombie info = is_zombie_state state.

Lemma proc_info_says absPath p entry info : proc_info absPath p entry = Some info → proc_says absPath p info.
Proof.
  unfold proc_info. destruct (negb entry.2); [done|]. destruct (Atoi entry.1) as [pid|]; [|done].
  destruct (pid <=? 0) eqn:Hpid; [done|]. destruct (Readlink _ p) as [exe|] eqn:Hexe; [|done].
  destruct (pathsMatch exe absPath p) eqn:Hm; [|done]. cbn [negb].
  destruct (ReadFile _ p) as [data|] eqn:Hstat; [|done].
  destruct (Fields data) as [|f0 [|f1 [|f2 [|f3 rest]]]] eqn:Hf; try done.
  destruct (Atoi f3) as [ppid|] eqn:Hp; [|done]. intros [= <-]. split; [cbn; lia|]. split; [by exists exe|].
  by exists data, f0, f1, f2, f3, rest.
Qed.
End Signals.

(** ** Property *)

(** C29: the cleanup before a start signals nothing but what the node left
    behind.  On a system with /proc, every signal it sends goes to a process
    (or to its process group) whose executable is the configured one, which is
    not the core's current process, and which is a child of the node or a
    zombie without a parent; and each such process found is sent SIGKILL. *)
Theorem cleanup_signals_orphans {P} `{!Unix P} `{!UnixLaws P} (base : Machine P) (c : Core) (p : P)
    (absPath : string) (entries : list (string * bool)) (Hlinux : GOOS = "linux")
    (Habs : Abs (executablePath c) = Ok absPath) (Hproc : proc_entries p = Ok entries) :
  let currentPID := match process c with Some cmd => cmd_pid cmd | None => 0 end in
  let owned info := PID info ≠ currentPID ∧
    (PPID info = @m_Getpid P base ∨ (IsZombie info = true ∧ (PPID info = 0 ∨ PPID info = 1))) in
  let '(r, p') := @cleanupOrphanedProcesses P (unix_machine base) c p in
  r = Ok () ∧
  ∃ new, sent p' = sent p ++ new ∧
    (∀ t s, (t, s) ∈ new → ∃ info, proc_says absPath p info ∧ owned info ∧ to_process (PID info) p t) ∧
    ∀ entry info, entry ∈ entries → proc_info absPath p entry = Some info → owned info → (PID info, SIGKILL) ∈ new.
Proof.
  intros currentPID owned. unfold cleanupOrphanedProcesses. cbn [m_findXrayProcesses unix_machine].
  unfold findXrayProcesses, findXrayProcessesFromProc. rewrite Habs, Hproc, Hlinux. cbn. split; [done|].
  assert (∀ info, @is_orphan P (unix_machine base) currentPID info = true ↔ owned info) as Horphan.
  { intros info. unfold is_orphan, owned. cbn [m_Getpid unix_machine].
    rewrite andb_true_iff, orb_true_iff, andb_true_iff, orb_true_iff, negb_true_iff, Z.eqb_neq, !Z.eqb_eq. tauto. }
  fold currentPID. set (l := filter _ _).
  destruct (kill_all_sent l p) as (new & Hnew & Hto & Hkill). exists new. split; [exact Hnew|]. split.
  - intros t s Hin. destruct (Hto t s Hin) as (info & Hinfo & Ht). exists info.
    apply list_elem_of_filter in Hinfo as [Ho Hinfo]. apply list_elem_of_omap in Hinfo as (entry & _ & He).
    split_and!; [by eapply proc_info_says|by apply Horphan..|done].
  - intros entry info Hentry He Ho. apply Hkill. apply list_elem_of_filter. split; [by apply Horphan|].
    apply list_elem_of_omap. by exists entry.
Qed.

(** ** Observations *)

(** A process whose executable cannot be read is never found: a zombie has no
    executable, so the zombies the cleanup looks for are not among those /proc
    gives it. *)
Lemma unreadable_executable_is_missed {P} `{!Unix P} (p : P) absPath name pid e :
  Atoi name = Some pid → Readlink (proc_path pid "exe") p = Err e → proc_info absPath p (name, true) = None.
Proof. intros Hn He. unfold proc_info. cbn. rewrite Hn. destruct (pid <=? 0); [done|]. by rewrite He. Qed.

(** A process whose name has a space is never found: the name is the second
    field of the stat file, in parentheses, and its words are counted as
    fields. *)
Lemma spaced_name_is_missed {P} `{!Unix P} (p : P) absPath name pid :
  Atoi name = Some pid → ReadFile (proc_path pid "stat") p = Ok "7 (xray core) S 1 7 7 0" →
  proc_info absPath p (name, true) = None.
Proof.
  intros Hn Hf. unfold proc_info. cbn. rewrite Hn. destruct (pid <=? 0); [done|].
  destruct (Readlink _ p) as [exe|]; [|done]. destruct (pathsMatch exe absPath p); [|done]. cbn. by rewrite Hf.
Qed.
