(* ===== verification/WinProcess.v ===== *)
(** * Processes on Windows ([src/backend/xray/process_windows.go])

    The counterpart of XrayProcess.  The programs [wmic] and [taskkill], and
    what Go asks the system for (opening a process, resolving a path), are the
    class [Windows]. *)

From Stdlib Require Import Ascii.
From S2P Require Import Prelude GoString NodeConfig XrayLogs XrayCore XrayRun XrayLife.

#[local] Open Scope Z_scope.

(** ** The system *)

(** [wmic_list], [wmic_path] and [wmic_parent] are the three uses of [wmic];
    [OpenProcess] is what [os.FindProcess] does, [taskkill] gives the combined
    output and the error; [filepath_Abs] and [VolumeName] are those of
    [path/filepath]. *)
Class Windows (P : Type) := {
  filepath_Abs : string → P → result string;
  VolumeName : string → string;
  wmic_list : P → result string;
  wmic_path : Z → P → result string;
  wmic_parent : Z → P → result string;
  OpenProcess : Z → P → result unit;
  taskkill : Z → P → (string * option goerr) * P;
  sleep_100ms : P → P
}.

(** Go's [os.Process.Signal] on Windows carries out [os.Kill] alone; every other
    signal, those this file sends among them, is answered with an error. *)
Inductive sig := Signal0 | SIGTERM.

Definition Process_Signal (s : sig) : result unit := Err (errors_New "not supported by windows").

(** [filepath.Base] with the separators of Windows. *)
Definition is_separator (a : ascii) : bool := bool_decide (a = "\"%char) || bool_decide (a = "/"%char).

Fixpoint trim_separators (s : string) : string :=
  match s with
  | "" => ""
  | String a s' => if is_separator a then trim_separators s' else s
  end.

Fixpoint until_separator (s : string) : string :=
  match s with
  | "" => ""
  | String a s => if is_separator a then "" else String a (until_separator s)
  end.

(** [strings.CutPrefix]. *)
Definition CutPrefix (s p : string) : option string :=
  if HasPrefix s p then Some (drop_str (String.length p) s) else None.

Section Windows.
Context {P : Type} `{!Windows P}.
Implicit Types (p : P) (pid : Z).

Definition Base (path : string) : string :=
  if bool_decide (path = "") then "."
  else
    let path := String.rev (trim_separators (String.rev path)) in
    let path := drop_str (String.length (VolumeName path)) path in
    let path := String.rev (until_separator (String.rev path)) in
    if bool_decide (path = "") then "\" else path.

(** ** One process *)

Definition isProcessRunning pid p : bool :=
  match OpenProcess pid p with
  | Err _ => false
  | Ok _ => is_ok (Process_Signal Signal0)
  end.

Definition verifyProcessDead pid p : result unit :=
  if isProcessRunning pid p then Err (errors_New ("process " +:+ Itoa pid +:+ " is still running")) else Ok ().

(** The first line with this prefix, in the list format of [wmic]. *)
Definition list_value (prefix output : string) : option string :=
  TrimSpace <$> head (omap (λ line, CutPrefix (TrimSpace line) prefix) (Split output newline)).

Definition getProcessPath pid p : result string :=
  match wmic_path pid p with
  | Err e => Err e
  | Ok output =>
      match list_value "ExecutablePath=" output with
      | Some path => Ok path
      | None => Err (errors_New ("executable path not found for PID " +:+ Itoa pid))
      end
  end.

Definition isProcessZombie pid p : bool :=
  match wmic_parent pid p with
  | Err _ => false
  | Ok output =>
      let ppidStr := default "" (list_value "ParentProcessId=" output) in
      if bool_decide (ppidStr = "") then false
      else
        match Atoi ppidStr with
        | None => false
        | Some ppid =>
            if ppid <=? 4 then isProcessRunning pid p
            else negb (isProcessRunning ppid p) && isProcessRunning pid p
        end
  end.

(** ** Finding processes *)

(** One line of the table. *)
Definition row_info (absPath executableName : string) p (line : string) : option ProcessInfo :=
  let line := TrimSpace line in
  if bool_decide (line = "") || HasPrefix line "Node" || HasPrefix line "ProcessId" then None
  else
    match TrimSpace <$> Split line "," with
    | _ :: pidStr :: ppidStr :: procPath :: _ =>
        if bool_decide (procPath = "") then None
        else
          match filepath_Abs procPath p with
          | Err _ => None
          | Ok procAbsPath =>
              if negb (EqualFold procAbsPath absPath) && negb (EqualFold (Base procAbsPath) executableName) then None
              else
                match Atoi pidStr, (if bool_decide (ppidStr = "") then Some 0 else Atoi ppidStr) with
                | Some pid, Some ppid => Some (mkProcess pid ppid (isProcessZombie pid p))
                | _, _ => None
                end
          end
    | _ => None
    end.

Definition findXrayProcesses (executablePath : string) p : result (list ProcessInfo) :=
  match filepath_Abs executablePath p with
  | Err e => Err e
  | Ok absPath =>
      match wmic_list p with
      | Err e => Err (wrapf "failed to list processes" e)
      | Ok output => Ok (omap (row_info absPath (Base absPath) p) (Split output newline))
      end
  end.

(** ** Killing a process and its children *)

(** What is left to do when [taskkill] failed. *)
Definition after_failed_taskkill pid (output : string) (err : goerr) p : result unit :=
  if negb (isProcessRunning pid p) then Ok ()
  else
    let outputStr := ToLower output in
    if Contains outputStr "not found" || Contains outputStr "does not exist" then Ok ()
    else Err (GoErr ("failed to kill process tree " +:+ Itoa pid +:+ ": " +:+ err_text err +:+ " (output: " +:+ output +:+ ")")
                (err_chain err)).

(** The result of the first signal is ignored. *)
Definition killProcessTree pid : eff P unit := λ p,
  match OpenProcess pid p with
  | Err e =>
      (if negb (isProcessRunning pid p) then Ok () else Err (wrapf ("failed to find process " +:+ Itoa pid) e), p)
  | Ok _ =>
      let _ := Process_Signal SIGTERM in
      match taskkill pid p with
      | ((output, Some err), p) => (after_failed_taskkill pid output err p, p)
      | ((_, None), p) =>
          if negb (isProcessRunning pid p) then (Ok (), p)
          else
            let p := sleep_100ms p in
            if negb (isProcessRunning pid p) then (Ok (), p)
            else (Err (errors_New ("process " +:+ Itoa pid +:+ " is still running after kill attempt")), p)
      end
  end.
End Windows.

(** ** The machine of XrayCore on Windows *)

Definition windows_machine {P} `{!Windows P} (base : Machine P) : Machine P := {|
  m_version_output := @m_version_output P base;
  m_Indent := @m_Indent P base;
  m_MkdirAll := @m_MkdirAll P base;
  m_WriteFile := @m_WriteFile P base;
  m_StdoutPipe := @m_StdoutPipe P base;
  m_spawn := @m_spawn P base;
  m_reaped := @m_reaped P base;
  m_alive := @m_alive P base;
  m_Kill := @m_Kill P base;
  m_killProcessTree := killProcessTree;
  m_await := @m_await P base;
  m_verifyProcessDead := verifyProcessDead;
  m_findXrayProcesses := findXrayProcesses;
  m_Getpid := @m_Getpid P base;
  m_lstat := @m_lstat P base;
  m_Remove := @m_Remove P base;
  m_open_log := @m_open_log P base
|}.

(** ** What the checks say *)

Section Checks.
Context {P : Type} `{!Windows P}.
Implicit Types (p : P) (pid : Z).

Lemma isProcessRunning_false pid p : isProcessRunning pid p = false.
Proof. unfold isProcessRunning. by destruct (OpenProcess pid p). Qed.

Lemma isProcessZombie_false pid p : isProcessZombie pid p = false.
Proof.
  unfold isProcessZombie. destruct (wmic_parent pid p) as [output|]; [|done]. case_bool_decide; [done|].
  destruct (Atoi _) as [ppid|]; [|done]. rewrite !isProcessRunning_false. by destruct (ppid <=? 4).
Qed.

(** [taskkill] runs when the process can be opened, and may be followed by a
    pause that never comes. *)
Lemma killProcessTree_eq pid p :
  killProcessTree pid p = (Ok (), if is_ok (OpenProcess pid p) then (taskkill pid p).2 else p).
Proof.
  unfold killProcessTree, after_failed_taskkill. rewrite isProcessRunning_false. destruct (OpenProcess pid p); [|done].
  destruct (taskkill pid p) as [[output [err|]] p']; by rewrite isProcessRunning_false.
Qed.

Lemma verifyProcessDead_Ok pid p : verifyProcessDead pid p = Ok ().
Proof. unfold verifyProcessDead. by rewrite isProcessRunning_false. Qed.

(** A row tells the numbers of a process, never a zombie. *)
Lemma row_info_spec absPath name p line info :
  row_info absPath name p line = Some info →
  IsZombie info = false ∧
  ∃ node pidStr ppidStr path rest procAbs,
    TrimSpace <$> Split (TrimSpace line) "," = node :: pidStr :: ppidStr :: path :: rest ∧
    filepath_Abs path p = Ok procAbs ∧ (EqualFold procAbs absPath = true ∨ EqualFold (Base procAbs) name = true) ∧
    Atoi pidStr = Some (PID info) ∧ (Atoi ppidStr = Some (PPID info) ∨ ppidStr = "" ∧ PPID info = 0).
Proof.
  unfold row_info. destruct (_ || _ || _); [done|].
  destruct (TrimSpace <$> Split (TrimSpace line) ",") as [|node [|pidStr [|ppidStr [|path rest]]]]; try done.
  case_bool_decide; [done|]. destruct (filepath_Abs path p) as [procAbs|] eqn:Habs; [|done].
  destruct (negb (EqualFold procAbs absPath) && negb (EqualFold (Base procAbs) name)) eqn:Hm; [done|].
  destruct (Atoi pidStr) as [pid|] eqn:Hp; [|done].
  destruct (if bool_decide (ppidStr = "") then Some 0 else Atoi ppidStr) as [ppid|] eqn:Hpp; [|done].
  intros [= <-]. split; [apply isProcessZombie_false|]. exists node, pidStr, ppidStr, path, rest, procAbs.
  split_and!; [done|done| |done|].
  - destruct (EqualFold procAbs absPath); [by left|]. destruct (EqualFold (Base procAbs) name); [by right|done].
  - case_bool_decide; [right; split; [done|cbn; congruence]|by left].
Qed.
End Checks.

(** ** The laws of the machine *)

Section Laws.
Context {P : Type} `{!Windows P} (base : Machine P) `{!MachineLaws P}.
Context (taskkill_calm : ∀ pid p, calm p (taskkill pid p).2).

Lemma win_kill_calm pid p : calm p (killProcessTree pid p).2.
Proof. rewrite killProcessTree_eq. cbn. destruct (is_ok (OpenProcess pid p)); [apply taskkill_calm|done]. Qed.

(** The theorems about the core hold on Windows. *)
Lemma windows_machine_laws : @MachineLaws P (windows_machine base).
Proof.
  split.
  - exact (@reaped_dead P base _).
  - exact (@version_calm P base _).
  - exact (@mkdir_calm P base _).
  - exact (@write_calm P base _).
  - exact (@pipe_calm P base _).
  - exact (@kill_calm P base _).
  - exact win_kill_calm.
  - exact (@await_calm P base _).
  - exact (@remove_calm P base _).
  - exact (@spawn_law P base _).
  - exact (@await_dead P base _).
Qed.
End Laws.

(** ** What the cleanup finds

    [wmic] orders the columns of a table by their names
    (Node,ExecutablePath,ParentProcessId,ProcessId), and the code reads the second
    one as the number of the process. *)

(** A line without a number in its second column tells no process. *)
Definition path_column (line : string) : Prop :=
  ∀ node path rest, TrimSpace <$> Split (TrimSpace line) "," = node :: path :: rest → Atoi path = None.

Section Cleanup.
Context {P : Type} `{!Windows P}.
Implicit Types (p : P).

Lemma path_column_unread absPath name p line : path_column line → row_info absPath name p line = None.
Proof.
  intros Hl. destruct (row_info absPath name p line) as [info|] eqn:Hr; [|done].
  apply row_info_spec in Hr as (_ & node & pidStr & ppidStr & path & rest & procAbs & Hs & _ & _ & Hp & _).
  by rewrite (Hl _ _ _ Hs) in Hp.
Qed.

(** Of a table with the paths in that column no process is found, so the cleanup
    before a start kills nothing. *)
Lemma sorted_columns_find_nothing (base : Machine P) (c : Core) p output :
  wmic_list p = Ok output → Forall path_column (Split output newline) →
  (∀ exe, is_ok (findXrayProcesses exe p) = true → findXrayProcesses exe p = Ok []) ∧
  (@cleanupOrphanedProcesses P (windows_machine base) c p).2 = p.
Proof.
  intros Hl Hrows. assert (∀ absPath name, omap (row_info absPath name p) (Split output newline) = []) as Hnone.
  { intros absPath name. induction Hrows as [|line rows Hline _ IH]; [done|]. cbn [omap list_omap].
    by rewrite path_column_unread. }
  split.
  - intros exe. unfold findXrayProcesses. destruct (filepath_Abs exe p); [|done]. by rewrite Hl, Hnone.
  - unfold cleanupOrphanedProcesses. cbn [m_findXrayProcesses windows_machine]. unfold findXrayProcesses.
    destruct (filepath_Abs (executablePath c) p); [|done]. by rewrite Hl, Hnone.
Qed.
End Cleanup.

(** ** A concrete Windows *)

(** The table of [wmic], in which only numbers below 100 can be opened. *)
Record toy_win := mkWin { tn_table : string; tn_killed : list Z }.

#[export] Instance toy_windows : Windows toy_win := {|
  filepath_Abs path _ := Ok path;
  VolumeName _ := "C:";
  wmic_list p := Ok (tn_table p);
  wmic_path _ _ := Ok "";
  wmic_parent _ _ := Ok ("ParentProcessId=0" +:+ newline);
  OpenProcess pid _ := if pid <? 100 then Ok () else Err (errors_New "The parameter is incorrect.");
  taskkill pid p := (("", None), mkWin (tn_table p) (tn_killed p ++ [pid]));
  sleep_100ms p := p
|}.

(** The rest of a machine, with the node as process 10. *)
Definition toy_win_base : Machine toy_win := {|
  m_version_output _ := mret "";
  m_Indent := Ok;
  m_MkdirAll _ := mret ();
  m_WriteFile _ _ := mret ();
  m_StdoutPipe := mret ();
  m_spawn _ _ := throw (errors_New "not here");
  m_reaped _ _ := true;
  m_alive _ _ := false;
  m_Kill _ p := p;
  m_killProcessTree _ := mret ();
  m_await _ p := (true, p);
  m_verifyProcessDead _ _ := Ok ();
  m_findXrayProcesses _ _ := Ok [];
  m_Getpid := 10;
  m_lstat _ _ := Ok false;
  m_Remove _ := mret ();
  m_open_log _ := Ok ()
|}.

(** The node, a core it started and one that is left over. *)
Definition toy_table : string :=
  Join ["Node,ExecutablePath,ParentProcessId,ProcessId"; "PC,C:\node\node.exe,1,10"; "PC,C:\node\xray.exe,10,20";
        "PC,C:\node\xray.exe,1,21"; "PC,,0,4"; ""] newline.

Definition toy_win_core : Core :=
  mkCore "C:\node\xray.exe" "" "" None 0 false false None (mkCoreLogs logPhaseRuntime None 0 "" false None [] 0 None) [] false.

(** ** Observations *)

(** A failed [taskkill] is reported as a success, and a living process as dead:
    the check they ask is answered no for every process. *)
Lemma failed_taskkill_is_success pid (p p' : toy_win) :
  (killProcessTree pid p).1 = Ok () ∧ verifyProcessDead pid p' = Ok ().
Proof. rewrite killProcessTree_eq. split; [done|apply verifyProcessDead_Ok]. Qed.

(** So a core the node started before is not found. *)
Lemma toy_table_unread :
  findXrayProcesses "C:\node\xray.exe" (mkWin toy_table []) = Ok [] ∧
  tn_killed (@cleanupOrphanedProcesses toy_win (windows_machine toy_win_base) toy_win_core (mkWin toy_table [])).2 = [].
Proof.
  assert (Forall path_column (Split toy_table newline)) as Hrows.
  { assert (∀ line, match TrimSpace <$> Split (TrimSpace line) "," with _ :: path :: _ => bool_decide (Atoi path = None) | _ => true end = true →
      path_column line) as Hline.
    { intros line Hb node path rest Hs. rewrite Hs in Hb. by apply bool_decide_eq_true in Hb. }
    repeat constructor; apply Hline; vm_compute; reflexivity. }
  destruct (sorted_columns_find_nothing (Windows0:=toy_windows) toy_win_base toy_win_core (mkWin toy_table []) toy_table eq_refl Hrows) as [Hfind ->].
  split; [by apply Hfind|done].
Qed.

(** The rows of a computer whose name begins with [Node] are taken for the
    header. *)
Lemma node_rows_are_headers absPath name (p : toy_win) :
  row_info absPath name p "Node7,20,10,C:\node\xray.exe" = None.
Proof. reflexivity. Qed.
