(* ===== verification/XrayUnixToy.v ===== *)
(** * A concrete /proc

    A table of files and links that a SIGKILL removes, for the theorem of
    XrayProcess. *)

From S2P Require Import Prelude GoString NodeConfig XrayLogs XrayCore XrayProcess.

#[local] Open Scope Z_scope.

(** ** The system *)

Record toy_proc := mkProc {
  tp_entries : list (string * bool);
  tp_links : gmap string string;
  tp_files : gmap string string;
  tp_sent : list (Z * sig)
}.

Definition tp_send (t : Z) (s : sig) (p : toy_proc) : toy_proc :=
  mkProc (tp_entries p) (tp_links p)
    (match s with SIGKILL => delete (proc_path t "stat") (tp_files p) | SIGTERM => tp_files p end)
    (tp_sent p ++ [(t, s)]).

Definition found (o : option string) : result string :=
  match o with Some s => Ok s | None => Err (errors_New "no such file or directory") end.

#[export] Instance toy_unix : Unix toy_proc := {|
  GOOS := "linux";
  Getwd := Ok "/opt/node";
  EvalSymlinks path _ := Ok path;
  proc_entries p := Ok (tp_entries p);
  Readlink path p := found (tp_links p !! path);
  ReadFile path p := found (tp_files p !! path);
  ps_processes _ := Ok "";
  ps_command _ _ := Ok "";
  ps_state _ _ := Ok "";
  sig_exists pid p := bool_decide (is_Some (tp_files p !! proc_path pid "stat"));
  proc_Signal t s p := (Ok (), tp_send t s p);
  sys_Kill t s p := (Ok (), tp_send t s p);
  sleep_100ms p := p
|}.

Lemma tp_send_group pid t s p g :
  getProcessGroupID pid (tp_send t s p) = Ok g → getProcessGroupID pid p = Ok g.
Proof.
  unfold getProcessGroupID. cbn [ReadFile toy_unix tp_send tp_files]. destruct s; [done|].
  destruct (decide (proc_path t "stat" = proc_path pid "stat")) as [->|Hne].
  - by rewrite lookup_delete_eq.
  - by rewrite lookup_delete_ne.
Qed.

#[export, refine] Instance toy_unix_laws : UnixLaws toy_proc := {| sent := tp_sent |}.
Proof.
  - done.
  - done.
  - done.
  - intros pid t s p g. apply tp_send_group.
  - intros pid t s p g. apply tp_send_group.
  - done.
Defined.

(** The rest of a machine, with the node as process 10. *)
Definition toy_base : Machine toy_proc := {|
  m_version_output _ := mret "";
  m_Indent := Ok;
  m_MkdirAll _ := mret ();
  m_WriteFile _ _ := mret ();
  m_StdoutPipe := mret ();
  m_spawn _ _ := throw (errors_New "not here");
  m_reaped _ _ := true;
  m_alive _ _ := false;
  m_Kill _ p := p;
  m_killProcessTree _ := mret ();
  m_await _ p := (true, p);
  m_verifyProcessDead _ _ := Ok ();
  m_findXrayProcesses _ _ := Ok [];
  m_Getpid := 10;
  m_lstat _ _ := Ok false;
  m_Remove _ := mret ();
  m_open_log _ := Ok ()
|}.

(** A child the node left (20, in the group 21), the core of another program
    (30) and a directory that is no process. *)
Definition toy_procs : toy_proc :=
  mkProc [("20", true); ("30", true); ("sys", true); ("40", false)]
    (<["/proc/20/exe" := "/opt/node/bin/../xray"]> (<["/proc/30/exe" := "/opt/node/xray"]> ∅))
    (<["/proc/20/stat" := "20 (xray) S 10 21 21 0"]> (<["/proc/30/stat" := "30 (xray) S 1 30 30 0"]> ∅)) [].

Definition toy_proc_core : Core :=
  mkCore "xray" "" "" None 0 false false None (mkCoreLogs logPhaseRuntime None 0 "" false None [] 0 None) [] false.

(** ** Witness *)

Lemma cleanup_signals_orphans_witness :
  let p' := (@cleanupOrphanedProcesses toy_proc (unix_machine toy_base) toy_proc_core toy_procs).2 in
  tp_sent p' = [(20, SIGTERM); (-21, SIGTERM); (-21, SIGKILL); (20, SIGKILL)] ∧
  ∃ new, sent p' = sent toy_procs ++ new ∧ (20, SIGKILL) ∈ new.
Proof.
  intros p'. split; [vm_compute; reflexivity|].
  pose proof (cleanup_signals_orphans toy_base toy_proc_core toy_procs "/opt/node/xray" (tp_entries toy_procs)
    eq_refl ltac:(vm_compute; reflexivity) eq_refl) as Hthm.
  unfold p'. destruct (@cleanupOrphanedProcesses toy_proc (unix_machine toy_base) toy_proc_core toy_procs) as [r p''].
  destruct Hthm as (_ & new & Hnew & _ & Hkill). exists new. split; [exact Hnew|].
  refine (Hkill ("20", true) (mkProcess 20 10 false) _ _ _); [by left|vm_compute; reflexivity|].
  split; [discriminate|by left].
Defined.
