(* ===== verification/XrayStats.v ===== *)
(** * Statistics, routing and latencies of Xray ([src/backend/xray/api/stats.go],
      api/routing.go, stats.go, routing.go, latency.go)

    What the node asks the core's gRPC services and the metrics page of the
    core, and how it turns the answers into its own messages.  The services are
    the class [XrayServices]. *)

From Stdlib Require Import Ascii.
From S2P Require Import Prelude GoString GoNet Json Helper Messages NodeConfig XrayAccount XrayInbound XrayApply XrayCore XrayRun.

#[local] Open Scope Z_scope.

(** ** The core's services *)

Record core_stat := mkStat { cs_name : string; cs_value : Z }.
(** The fields of a balancer: the target of its override and the tags of its
    principle target, when it has them. *)
Record core_balancer := mkBalancer { cb_override : option string; cb_principle : option (list string) }.

Inductive xnet_Network := Network_Unknown | Network_TCP | Network_UDP.

Record RoutingContext := mkContext {
  rc_InboundTag : string; rc_Network : xnet_Network; rc_TargetIPs : list (list Z); rc_TargetDomain : string;
  rc_TargetPort : Z; rc_Protocol : string; rc_User : string; rc_Attributes : gmap string string
}.
Record core_TestRoute := mkTestRoute {
  tr_Context : RoutingContext; tr_FieldSelectors : list string; tr_PublishResult : bool
}.
(** A route the core reports; [cr_network] is the text of its network. *)
Record core_route := mkRoute {
  cr_OutboundTag : string; cr_OutboundGroupTags : list string; cr_InboundTag : string; cr_network : string;
  cr_TargetDomain : string
}.

(** [build_rule]: [conf.RouterConfig.Build] of one rule and its message, with
    the number of rules it built. *)
Class XrayServices (X : Type) := {
  svc_GetSysStats : eff X BackendStatsResponse;
  svc_QueryStats : string → bool → eff X (list core_stat);
  svc_GetStatsOnline : string → eff X Z;
  svc_GetStatsOnlineIpList : string → eff X (gmap string Z);
  core_message : Type;
  build_rule : string → result (nat * core_message);
  svc_ListRule : eff X (list (string * string));
  svc_GetBalancerInfo : string → eff X (option core_balancer);
  svc_TestRoute : core_TestRoute → eff X core_route;
  svc_AddRule : core_message → bool → eff X unit;
  svc_RemoveRule : string → eff X unit;
  svc_OverrideBalancerTarget : string → string → eff X unit
}.

(** ** Statistic names *)

Definition separator : string := ">>>".

Definition parseStatName (raw : string) : option (string * string * string) :=
  match Split raw separator with
  | _ :: name :: link :: statType :: _ =>
      if bool_decide (name = "") || bool_decide (link = "") || bool_decide (statType = "") then None
      else Some (name, link, statType)
  | _ => None
  end.

Definition node_stat (s : core_stat) : option Stat :=
  match parseStatName (cs_name s) with
  | None => None
  | Some (name, link, statType) =>
      Some {| Stat_Name := name; Stat_Type := statType; Stat_Link := link; Stat_Value := cs_value s |}
  end.

Definition buildStatResponse (queryStats : list core_stat) : StatResponse := omap node_stat queryStats.

(** ** The API's statistics (api/stats.go) *)

Section Services.
Context {X : Type} `{!XrayServices X} `{Grpc}.

(** The code of the status is kept, its cause is not: the error is a new
    status. *)
Definition api_GetSysStats : eff X BackendStatsResponse :=
  map_err (λ e, status_Error (status_Code e) ("failed to get sys stats: " +:+ err_text e)) svc_GetSysStats.

Definition QueryStats (pattern : string) (reset : bool) : eff X (list core_stat) := svc_QueryStats pattern reset.

Definition online_name (email : string) : string := "user" +:+ separator +:+ email +:+ separator +:+ "online".

Definition api_GetUserOnlineStats (email : string) : eff X OnlineStatResponse :=
  if bool_decide (email = "") then throw (errors_New "email required")
  else
    value ← svc_GetStatsOnline (online_name email);
    mret {| OnlineStatResponse_Name := email; OnlineStatResponse_Value := value |}.

Definition api_GetUserOnlineIpListStats (email : string) : eff X StatsOnlineIpListResponse :=
  if bool_decide (email = "") then throw (errors_New "email required")
  else
    ips ← svc_GetStatsOnlineIpList (online_name email);
    mret {| StatsOnlineIpListResponse_Name := email; StatsOnlineIpListResponse_Ips := ips |}.

Definition query (pattern : string) (reset : bool) : eff X StatResponse :=
  stats ← QueryStats pattern reset; mret (buildStatResponse stats).

Definition GetUsersStats (reset : bool) : eff X StatResponse := query ("user" +:+ separator) reset.
Definition GetInboundsStats (reset : bool) : eff X StatResponse := query ("inbound" +:+ separator) reset.
Definition GetOutboundsStats (reset : bool) : eff X StatResponse := query ("outbound" +:+ separator) reset.

Definition one_pattern (class name : string) : string := class +:+ separator +:+ name +:+ separator.

Definition GetUserStats (email : string) (reset : bool) : eff X StatResponse :=
  if bool_decide (email = "") then throw (errors_New "email required") else query (one_pattern "user" email) reset.
Definition GetInboundStats (tag : string) (reset : bool) : eff X StatResponse :=
  if bool_decide (tag = "") then throw (errors_New "tag required") else query (one_pattern "inbound" tag) reset.
Definition GetOutboundStats (tag : string) (reset : bool) : eff X StatResponse :=
  if bool_decide (tag = "") then throw (errors_New "tag required") else query (one_pattern "outbound" tag) reset.

(** The dispatch of the backend (stats.go). *)
Definition Xray_GetStats (request : StatRequest) : eff X StatResponse :=
  match StatRequest_Type request with
  | StatType_Outbounds => GetOutboundsStats (StatRequest_Reset request)
  | StatType_Outbound => GetOutboundStats (StatRequest_Name request) (StatRequest_Reset request)
  | StatType_Inbounds => GetInboundsStats (StatRequest_Reset request)
  | StatType_Inbound => GetInboundStats (StatRequest_Name request) (StatRequest_Reset request)
  | StatType_UsersStat => GetUsersStats (StatRequest_Reset request)
  | StatType_UserStat => GetUserStats (StatRequest_Name request) (StatRequest_Reset request)
  | StatType_other _ => throw (errors_New "not implemented stat type")
  end.

(** ** Routing (api/routing.go) *)

Definition toCommonRoutingRules (rules : list (string * string)) : list RoutingRule :=
  (λ '(tag, ruleTag), {| RoutingRule_OutboundTag := tag; RoutingRule_RuleTag := ruleTag |}) <$> rules.

Definition toCommonBalancerInfo (b : option core_balancer) : BalancerInfoResponse :=
  {| BalancerInfoResponse_OverrideTarget := default "" (b ≫= cb_override);
     BalancerInfoResponse_PrincipleTarget := default [] (b ≫= cb_principle) |}.

Definition networkFromString (s : string) : xnet_Network :=
  let s := ToLower s in
  if bool_decide (s = "udp") then Network_UDP
  else if bool_decide (s = "tcp") then Network_TCP
  else Network_Unknown.

(** [net.ParseIP] gives 16 bytes. *)
Definition ParseIP (s : string) : option (list Z) :=
  match parse_addr s with
  | None => None
  | Some ip => Some (if bool_decide (length ip = 4%nat) then replicate 10 0 ++ [255; 255] ++ ip else ip)
  end.

Definition buildTestRouteRequest (req : TestRouteRequest) : core_TestRoute :=
  mkTestRoute
    (mkContext (TestRouteRequest_InboundTag req) (networkFromString (TestRouteRequest_Network req))
       (match ParseIP (TestRouteRequest_TargetIp req) with Some ip => [ip] | None => [] end)
       (TestRouteRequest_TargetDomain req) (TestRouteRequest_TargetPort req) (TestRouteRequest_Protocol req)
       (TestRouteRequest_User req) (TestRouteRequest_Attributes req))
    (TestRouteRequest_FieldSelectors req) (TestRouteRequest_PublishResult req).

Definition toCommonRouteResult (r : core_route) : RouteResult :=
  {| RouteResult_OutboundTag := cr_OutboundTag r; RouteResult_OutboundGroupTags := cr_OutboundGroupTags r;
     RouteResult_InboundTag := cr_InboundTag r; RouteResult_Network := ToLower (cr_network r);
     RouteResult_TargetDomain := cr_TargetDomain r |}.

Definition addRuleConfig (ruleJSON : string) : result core_message :=
  match build_rule ruleJSON with
  | Err e => Err (status_Error InvalidArgument ("parse routing rule: " +:+ err_text e))
  | Ok (count, message) =>
      if bool_decide (count = 0%nat) then Err (status_Error InvalidArgument "no routing rule parsed from JSON")
      else Ok message
  end.

Definition api_ListRoutingRules : eff X (list RoutingRule) :=
  resp ← svc_ListRule; mret (toCommonRoutingRules resp).
Definition api_GetBalancerInfo (tag : string) : eff X BalancerInfoResponse :=
  resp ← svc_GetBalancerInfo tag; mret (toCommonBalancerInfo resp).
Definition api_TestRoute (req : TestRouteRequest) : eff X RouteResult :=
  resp ← svc_TestRoute (buildTestRouteRequest req); mret (toCommonRouteResult resp).
Definition api_AddRoutingRule (ruleJSON : string) (shouldAppend : bool) : eff X unit :=
  tm ← lift (addRuleConfig ruleJSON); svc_AddRule tm shouldAppend.
Definition api_RemoveRoutingRule (ruleTag : string) : eff X unit := svc_RemoveRule ruleTag.
Definition api_OverrideBalancerTarget (balancerTag target : string) : eff X unit :=
  svc_OverrideBalancerTarget balancerTag target.

(** ** Routing through the backend (routing.go) *)

(** [started]: the core runs; [handler]: the API client exists. *)
Definition gated {A} (started handler : bool) (op : eff X A) : eff X A :=
  if negb started || negb handler then throw (errors_New "xray not started") else op.

Definition Xray_ListRoutingRules (started handler : bool) := gated started handler api_ListRoutingRules.
Definition Xray_GetBalancerInfo (started handler : bool) (tag : string) := gated started handler (api_GetBalancerInfo tag).
Definition Xray_TestRoute (started handler : bool) (req : TestRouteRequest) := gated started handler (api_TestRoute req).
Definition Xray_AddRoutingRule (started handler : bool) (ruleJSON : string) (shouldAppend : bool) :=
  gated started handler (api_AddRoutingRule ruleJSON shouldAppend).
Definition Xray_RemoveRoutingRule (started handler : bool) (ruleTag : string) :=
  gated started handler (api_RemoveRoutingRule ruleTag).
Definition Xray_OverrideBalancerTarget (started handler : bool) (balancerTag target : string) :=
  gated started handler (api_OverrideBalancerTarget balancerTag target).
End Services.

(** ** Latencies (latency.go) *)

Record observatoryEntry := mkEntry {
  oe_Alive : bool; oe_Delay : Z; oe_OutboundTag : string; oe_LastSeenTime : Z; oe_LastTryTime : Z
}.

Definition decode_bool (v : option json) : result bool :=
  match v with
  | None | Some JNull => Ok false
  | Some (JBool b) => Ok b
  | Some _ => Err (type_error "bool")
  end.

(** An integer literal of 64 bits; JSON has no leading plus. *)
Definition decode_int64 (v : option json) : result Z :=
  match v with
  | None | Some JNull => Ok 0
  | Some (JNum s) => match Atoi s with Some n => Ok n | None => Err (type_error "int64") end
  | Some _ => Err (type_error "int64")
  end.

Definition decode_entry (v : json) : result observatoryEntry :=
  (let? fields := decode_object v in
   let? alive := decode_bool (obj_field fields "alive") in
   let? delay := decode_int64 (obj_field fields "delay") in
   let? tag := decode_string (obj_field fields "outbound_tag") in
   let? seen := decode_int64 (obj_field fields "last_seen_time") in
   let? tried := decode_int64 (obj_field fields "last_try_time") in
   Ok (mkEntry alive delay tag seen tried))%node.

(** A later entry of the same key replaces an earlier one. *)
Definition decode_observatory (fields : list (string * json)) : result (gmap string observatoryEntry) :=
  match mapM_result (λ '(k, v), match decode_entry v with Ok e => Ok (k, e) | Err err => Err err end) fields with
  | Err e => Err e
  | Ok l => Ok (foldl (λ m '(k, e), <[k := e]> m) ∅ l)
  end.

(** [vars.Observatory] of the page at /debug/vars. *)
Definition decode_vars `{JsonText} (body : string) : result (gmap string observatoryEntry) :=
  (let? v := json_parse body in
   let? fields := decode_object v in
   match obj_field fields "observatory" with
   | None => Ok ∅
   | Some v => let? entries := decode_object v in decode_observatory entries
   end)%node.

Definition shouldIncludeObservatoryOutbound (protocolByTag : gmap string string) (tag : string) : bool :=
  match protocolByTag !! tag with
  | None => true
  | Some protocol => bool_decide (protocol ∉ observatoryExcludedProtocols)
  end.

Definition latency_of (key : string) (entry : observatoryEntry) : Latency :=
  {| Latency_Name := key; Latency_Alive := oe_Alive entry; Latency_Delay := oe_Delay entry;
     Latency_Link := if bool_decide (oe_OutboundTag entry = "") then key else oe_OutboundTag entry;
     Latency_LastSeenTime := oe_LastSeenTime entry; Latency_LastTryTime := oe_LastTryTime entry;
     Latency_Source := "xray-observatory" |}.

Definition latency_kept (protocolByTag : gmap string string) (name key : string) : bool :=
  (bool_decide (name = "") || bool_decide (key = name)) && shouldIncludeObservatoryOutbound protocolByTag key.

Definition latency_keys (protocolByTag : gmap string string) (name : string)
    (observatory : gmap string observatoryEntry) : list string :=
  sort_Strings (filter (λ key, latency_kept protocolByTag name key = true) (map_to_list observatory).*1).

Section Latency.
Context `{UuidLib} `{JsonText}.

Definition metrics_url (metricPort : Z) : string := "http://" +:+ loopbackListenAddress metricPort +:+ "/debug/vars".

(** [fetch] is the GET request: the status and the body. *)
Definition Xray_GetOutboundsLatency (started : bool) (x : Config) (metricPort : Z)
    (fetch : string → result (Z * string)) (request : LatencyRequest) : result LatencyResponse :=
  if negb started then Err (errors_New "xray not started")
  else
    match fetch (metrics_url metricPort) with
    | Err e => Err (wrapf "read xray observatory metrics" e)
    | Ok (status, body) =>
        if negb (status =? 200) then
          Err (errors_New ("read xray observatory metrics: unexpected status " +:+ Itoa status))
        else
          match decode_vars body with
          | Err e => Err (wrapf "decode xray observatory metrics" e)
          | Ok observatory =>
              if bool_decide (size observatory = 0%nat)
              then Err (errors_New "xray outbound latency is not available")
              else
                Ok (omap (λ key, latency_of key <$> observatory !! key)
                      (latency_keys (outboundProtocolByTag x) request observatory))
          end
    end.
End Latency.

(** ** Names without the separator's character *)

Fixpoint plain (s : string) : bool :=
  match s with
  | "" => true
  | String a s => negb (bool_decide (a = ">"%char)) && plain s
  end.

Lemma Cut_cons a s : Cut (String a s) separator =
  if String.prefix separator (String a s) then Some ("", drop_str 3 (String a s))
  else match Cut s separator with Some (b, e) => Some (String a b, e) | None => None end.
Proof. done. Qed.

Lemma Cut_past a s : a ≠ ">"%char → Cut (String a s) separator =
  match Cut s separator with Some (b, e) => Some (String a b, e) | None => None end.
Proof.
  intros Ha. rewrite Cut_cons. destruct (String.prefix separator (String a s)) eqn:Hp; [|done].
  apply prefix_iff in Hp as [r Hr]. unfold separator in Hr. rewrite string_app_cons in Hr. congruence.
Qed.

Lemma Cut_plain s t : plain s = true → Cut (s +:+ separator +:+ t) separator = Some (s, t).
Proof.
  induction s as [|a s IH]; intros Hs.
  - rewrite string_app_nil_l. unfold separator. rewrite !string_app_cons, string_app_nil_l. by destruct t.
  - cbn [plain] in Hs. apply andb_true_iff in Hs as [Ha Hs]. rewrite string_app_cons.
    apply negb_true_iff, bool_decide_eq_false in Ha. by rewrite Cut_past, IH.
Qed.

Lemma Cut_none s : plain s = true → Cut s separator = None.
Proof.
  induction s as [|a s IH]; intros Hs; [done|]. cbn [plain] in Hs. apply andb_true_iff in Hs as [Ha Hs].
  apply negb_true_iff, bool_decide_eq_false in Ha. by rewrite Cut_past, IH.
Qed.

(** A name of the core's counters. *)
Definition stat_name (class name link statType : string) : string :=
  class +:+ separator +:+ name +:+ separator +:+ link +:+ separator +:+ statType.

Lemma Split_stat_name class name link statType :
  plain class = true → plain name = true → plain link = true → plain statType = true →
  Split (stat_name class name link statType) separator = [class; name; link; statType].
Proof.
  intros Hc Hn Hl Ht. unfold Split, stat_name.
  assert (∃ k, String.length (class +:+ separator +:+ name +:+ separator +:+ link +:+ separator +:+ statType) =
    S (S (S (S k)))) as [k ->].
  { rewrite !string_length_app. change (String.length separator) with 3%nat.
    exists (String.length class + (String.length name + (String.length link + String.length statType)) + 5)%nat. lia. }
  cbn [split_fuel]. rewrite (Cut_plain class) by done. rewrite (Cut_plain name) by done.
  rewrite (Cut_plain link) by done. by rewrite Cut_none.
Qed.

(** ** Properties *)

(** C39: the statistics of the core survive the translation: counters whose names
    have the core's four parts, of which the last three are not empty and none
    contains a '>', are reported one by one, in order, with exactly the name,
    link, type and value they stand for. *)
Theorem stat_names_roundtrip (counters : list (string * (string * string * string) * Z))
    (Hplain : Forall (λ '(class, (name, link, statType), value),
       plain class = true ∧ plain name = true ∧ plain link = true ∧ plain statType = true ∧
       name ≠ "" ∧ link ≠ "" ∧ statType ≠ "") counters) :
  buildStatResponse ((λ '(class, (name, link, statType), value),
    mkStat (stat_name class name link statType) value) <$> counters) =
  (λ '(class, (name, link, statType), value),
    {| Stat_Name := name; Stat_Type := statType; Stat_Link := link; Stat_Value := value |}) <$> counters.
Proof.
  induction Hplain as [|[[class [[name link] statType]] value] l (Hc & Hn & Hl & Ht & Hn' & Hl' & Ht') _ IH]; [done|].
  unfold buildStatResponse in *. rewrite !fmap_cons. cbn [omap list_omap]. rewrite IH.
  unfold node_stat, parseStatName. cbn [cs_name cs_value]. rewrite Split_stat_name by done.
  by rewrite !bool_decide_eq_false_2 by done.
Qed.

Lemma stat_names_roundtrip_witness :
  let counters := [(("user", ("ann", "traffic", "uplink")), 7); (("inbound", ("v", "traffic", "downlink")), 9)] in
  Forall (λ '(class, (name, link, statType), value),
    plain class = true ∧ plain name = true ∧ plain link = true ∧ plain statType = true ∧
    name ≠ "" ∧ link ≠ "" ∧ statType ≠ "") counters ∧
  buildStatResponse [mkStat "user>>>ann>>>traffic>>>uplink" 7; mkStat "inbound>>>v>>>traffic>>>downlink" 9] =
    [{| Stat_Name := "ann"; Stat_Type := "uplink"; Stat_Link := "traffic"; Stat_Value := 7 |};
     {| Stat_Name := "v"; Stat_Type := "downlink"; Stat_Link := "traffic"; Stat_Value := 9 |}].
Proof.
  intros counters.
  assert (Forall (λ '(class, (name, link, statType), value),
    plain class = true ∧ plain name = true ∧ plain link = true ∧ plain statType = true ∧
    name ≠ "" ∧ link ≠ "" ∧ statType ≠ "") counters) as Hall
    by (repeat constructor; discriminate).
  split; [exact Hall|]. exact (stat_names_roundtrip counters Hall).
Defined.

(** A user whose email contains the separator is reported under another name,
    link and type. *)
Lemma separator_in_email :
  parseStatName (stat_name "user" "a>>>b" "traffic" "uplink") = Some ("a", "b", "traffic").
Proof. vm_compute. reflexivity. Qed.

(** The latencies reported are those of the observatory's outbounds that
    match the requested name, if one is given, and whose protocol is probed
    (unknown outbounds included), each once, in the order of their names. *)
Theorem latencies_reported `{UuidLib} `{JsonText} (x : Config) (metricPort : Z)
    (fetch : string → result (Z * string)) (request : string) (body : string)
    (observatory : gmap string observatoryEntry) (Hfetch : fetch (metrics_url metricPort) = Ok (200, body))
    (Hvars : decode_vars body = Ok observatory) (Hsome : observatory ≠ ∅) :
  ∃ l, Xray_GetOutboundsLatency true x metricPort fetch request = Ok l ∧
    StronglySorted String.le (Latency_Name <$> l) ∧ NoDup (Latency_Name <$> l) ∧
    ∀ r, r ∈ l ↔ ∃ key entry, observatory !! key = Some entry ∧ r = latency_of key entry ∧
      (request = "" ∨ key = request) ∧
      (∀ protocol, outboundProtocolByTag x !! key = Some protocol → protocol ∉ observatoryExcludedProtocols).
Proof.
  unfold Xray_GetOutboundsLatency. rewrite Hfetch, Hvars. cbn [negb]. change (200 =? 200) with true. cbn [negb].
  rewrite bool_decide_eq_false_2 by (by rewrite map_size_empty_iff).
  set (keys := latency_keys (outboundProtocolByTag x) request observatory).
  assert (∀ key, key ∈ keys ↔ is_Some (observatory !! key) ∧ latency_kept (outboundProtocolByTag x) request key = true) as Hkeys.
  { intros key. unfold keys, latency_keys. rewrite elem_of_sort_Strings, list_elem_of_filter, list_elem_of_fmap.
    split; [|intros [[e He] Hk]; split; [done|]; exists (key, e); split; [done|]; by apply elem_of_map_to_list].
    intros [Hk ([k e] & -> & He%elem_of_map_to_list)]. split; [by exists e|done]. }
  assert (Latency_Name <$> omap (λ key, latency_of key <$> observatory !! key) keys = keys) as Hnames.
  { assert (∀ key, key ∈ keys → is_Some (observatory !! key)) as Hin by (intros key Hk; by apply Hkeys).
    clearbody keys. clear Hkeys. induction keys as [|key keys IH]; [done|]. cbn [omap list_omap].
    destruct (Hin key ltac:(set_solver)) as [e He]. rewrite He. cbn. f_equal. apply IH. set_solver. }
  eexists. split; [done|]. rewrite Hnames. split_and!.
  - unfold keys, latency_keys. apply sort_Strings_sorted.
  - unfold keys, latency_keys. rewrite sort_Strings_nodup. apply NoDup_filter, NoDup_fst_map_to_list.
  - intros r. rewrite list_elem_of_omap. split.
    + intros (key & [_ Hk]%Hkeys & Hr). destruct (observatory !! key) as [e|] eqn:He; [|done]. injection Hr as <-.
      exists key, e. unfold latency_kept, shouldIncludeObservatoryOutbound in Hk.
      apply andb_true_iff in Hk as [Hn Hp]. split_and!; [done..| |].
      * apply orb_true_iff in Hn as [->%bool_decide_eq_true| ->%bool_decide_eq_true]; auto.
      * intros protocol Hprot. rewrite Hprot in Hp. by apply bool_decide_eq_true in Hp.
    + intros (key & e & He & -> & Hn & Hp). exists key. rewrite He. split; [|done]. apply Hkeys. split; [by exists e|].
      unfold latency_kept, shouldIncludeObservatoryOutbound. apply andb_true_iff. split.
      * apply orb_true_iff. rewrite !bool_decide_eq_true. destruct Hn; auto.
      * destruct (outboundProtocolByTag x !! key) as [protocol|]; [|done]. apply bool_decide_eq_true. by apply Hp.
Qed.
