(* ===== verification/XrayConn.v ===== *)
(** * The connection to the core's API ([src/backend/xray/api/base.go])

    The handler the Xray backend calls the core's services through: one gRPC
    connection and the three clients made of it.  The gRPC library and the
    network are the classes [Net] and [GrpcClient]; [Xray_New] of XrayRun
    takes what [NewXrayAPI] returns, and the services behind the clients are
    those of XrayApply and XrayStats. *)

From S2P Require Import Prelude GoString Helper.

#[local] Open Scope Z_scope.

(** ** The libraries *)

(** [net.Dialer]: the timeout (nanoseconds, 0 for none) and the local address. *)
Record Dialer := mkDialer { Timeout : Z; LocalAddr : option string }.

Class Net := {
  NetConn : Type;
  DialContext : Dialer → string → string → result NetConn
}.

(** The options [grpc.NewClient] is given: the limits on messages and the
    dialer. *)
Record DialOptions `{Net} := mkOptions {
  MaxCallRecvMsgSize : Z;
  MaxCallSendMsgSize : Z;
  ContextDialer : string → result NetConn
}.

(** [grpc_Invoke] is a call of a method of any service; a connection that was
    closed answers every call with the code Canceled. *)
Class GrpcClient (W : Type) `{Net} `{Grpc} := {
  ClientConn : Type;
  grpc_NewClient : string → DialOptions → result ClientConn;
  grpc_Invoke : ClientConn → string → eff W string;
  grpc_Close : ClientConn → W → W;
  closed_calls conn method w : ∃ msg, (grpc_Invoke conn method (grpc_Close conn w)).1 = Err (status_Error Canceled msg)
}.

Section XrayConn.
Context {W : Type} `{Net} `{Grpc} `{!GrpcClient W}.
Implicit Types (w : W) (apiPort : Z).

(** ** The handler *)

(** The fields are pointers; a client is the connection it was made of. *)
Record XrayHandler := mkHandler {
  HandlerServiceClient : option ClientConn;
  StatsServiceClient : option ClientConn;
  RoutingServiceClient : option ClientConn;
  Handler_GrpcClient : option ClientConn
}.

Definition maxGRPCMessageSize : Z := 64 * 1024 * 1024.

Definition api_target apiPort : string := "127.0.0.1:" +:+ Itoa apiPort.

(** The dialer tries from the loopback address first. *)
Definition api_dial (addr : string) : result NetConn :=
  match DialContext (mkDialer (seconds 5) (Some "127.0.0.1")) "tcp4" addr with
  | Ok conn => Ok conn
  | Err _ => DialContext (mkDialer 0 None) "tcp" addr
  end.

Definition NewXrayAPI apiPort : result XrayHandler :=
  match grpc_NewClient (api_target apiPort) (mkOptions _ maxGRPCMessageSize maxGRPCMessageSize api_dial) with
  | Err e => Err e
  | Ok conn => Ok (mkHandler (Some conn) (Some conn) (Some conn) (Some conn))
  end.

(** [Close]; the error of closing is ignored. *)
Definition XrayHandler_Close (x : XrayHandler) w : W :=
  match Handler_GrpcClient x with Some conn => grpc_Close conn w | None => w end.

(** A call through one of the clients: [( *client ).Method(...)]. *)
Definition call_client (client : option ClientConn) (method : string) : eff W string := λ w,
  match client with
  | None => (Err nil_deref, w)
  | Some conn => grpc_Invoke conn method w
  end.

(** ** What is relied on *)

Lemma NewXrayAPI_clients apiPort x : NewXrayAPI apiPort = Ok x →
  ∃ conn, x = mkHandler (Some conn) (Some conn) (Some conn) (Some conn).
Proof. unfold NewXrayAPI. destruct (grpc_NewClient _ _) as [conn|e]; [|done]. intros [= <-]. by exists conn. Qed.

(** A call that comes after [Close] fails with a status; it does not panic. *)
Lemma late_call_fails apiPort x client method w : NewXrayAPI apiPort = Ok x →
  client ∈ [HandlerServiceClient x; StatsServiceClient x; RoutingServiceClient x] →
  ∃ e, (call_client client method (XrayHandler_Close x w)).1 = Err e ∧ status_Code e = Canceled.
Proof.
  intros [conn ->]%NewXrayAPI_clients Hin. assert (client = Some conn) as -> by set_solver.
  destruct (closed_calls conn method w) as [msg Hm]. exists (status_Error Canceled msg).
  split; [exact Hm|by apply status_Code_Error].
Qed.
End XrayConn.
