(* ===== verification/NodeBackends.v ===== *)
(** * The node's backends ([backend/xray] and [backend/wireguard] behind [backend.Backend])

    The interface of Backends, implemented by the models of the two backends.  A
    handle is the pointer the interface value holds; the world holds every
    backend made so far, the log files, the operating system with the Xray
    processes and their gRPC services, and the kernel's network devices. *)

From S2P Require Import Prelude GoString GoNet Json Helper Messages Tracker NodeConfig Logger XrayLogs XrayAccount XrayInbound XrayUser XrayApply XrayRender XrayCore XrayRun XrayLife XrayProps XrayStats WgTypes PeerStore WgConfig WgUsers WgManager HostRouting WireGuard Backends.

#[local] Open Scope Z_scope.

Section Node.
Context `{UuidLib} `{Sha256} `{JsonText} `{Grpc} `{Host} `{AwgLib} {UUID : Type}.
Context {M : Type} `{!Machine M} `{!XrayApi M} `{!XrayServices M}.
Notation WireGuard := (@WireGuard _ UUID).

(** ** What the backends are given *)

(** Third-party code and the surroundings: JSON, the file system's absolute
    paths, network interfaces, dialling the API port, HTTP requests, the
    runtime's memory numbers, the text of the current time. *)
Record Deps := mkDeps {
  d_cfg : @NodeConfig UUID;
  d_unmarshal : string → result (XrayInbound.Config * list (option Inbound));
  d_marshal : XrayInbound.Config → result string;
  d_reparse : XrayInbound.Config → result XrayInbound.Config;
  d_wg_unmarshal : string → result WgConfig.Config;
  d_range : map_range;
  d_ranges : nat → map_range;
  d_abs : string → result string;
  d_ifaces : result (list NetInterface);
  d_dial : Z → result unit;
  d_fetch : string → M → result (Z * string);
  d_probe : string → Z → string → result (bool * Z);
  d_memStats : BackendStatsResponse;
  d_timestamp : Z → string;
  d_ownerID : string
}.
Context (d : Deps).

(** ** The world *)

Inductive handle := XrayHandle (n : nat) | WireguardHandle (n : nat).

#[global] Instance handle_eq_dec : EqDecision handle.
Proof. solve_decision. Defined.

(** [n_waits]: what the waits for a core's API will see, one list of moments
    per wait. *)
Record node := mkNode {
  n_next : nat;
  n_xrays : gmap nat (Xray * Core);
  n_wgs : gmap nat WireGuard;
  n_files : Files;
  n_ext : M;
  n_kernel : K;
  n_waits : list (list (moment (M:=M)));
  n_now : Z
}.

Definition put_xray (n : nat) (s : XS (M:=M)) (w : node) : node :=
  let '(x, (c, f, m)) := s in
  mkNode (n_next w) (<[n := (x, c)]> (n_xrays w)) (n_wgs w) f m (n_kernel w) (n_waits w) (n_now w).

Definition put_wg (n : nat) (s : WireGuard * K) (w : node) : node :=
  mkNode (n_next w) (n_xrays w) (<[n := s.1]> (n_wgs w)) (n_files w) (n_ext w) s.2 (n_waits w) (n_now w).

Definition set_ext (f : Files) (m : M) (w : node) : node :=
  mkNode (n_next w) (n_xrays w) (n_wgs w) f m (n_kernel w) (n_waits w) (n_now w).
Definition set_kernel (k : K) (w : node) : node :=
  mkNode (n_next w) (n_xrays w) (n_wgs w) (n_files w) (n_ext w) k (n_waits w) (n_now w).
Definition bump (w : node) : node :=
  mkNode (S (n_next w)) (n_xrays w) (n_wgs w) (n_files w) (n_ext w) (n_kernel w) (n_waits w) (n_now w).
Definition set_now (now : Z) (w : node) : node :=
  mkNode (n_next w) (n_xrays w) (n_wgs w) (n_files w) (n_ext w) (n_kernel w) (n_waits w) now.

(** A method of one backend. *)
Definition xray_state (n : nat) (w : node) : option (XS (M:=M)) :=
  (λ xc, (xc.1, (xc.2, n_files w, n_ext w))) <$> n_xrays w !! n.

Definition on_xray {A} (n : nat) (op : eff (XS (M:=M)) A) : eff node A := λ w,
  match xray_state n w with
  | None => (Err nil_deref, w)
  | Some s => let '(r, s) := op s in (r, put_xray n s w)
  end.

Definition on_wg {A} (n : nat) (op : eff (WireGuard * K) A) : eff node A := λ w,
  match n_wgs w !! n with
  | None => (Err nil_deref, w)
  | Some g => let '(r, s) := op (g, n_kernel w) in (r, put_wg n s w)
  end.

(** Methods of [Xray] that use the API client, or the configuration and the
    API client. *)
Definition services {A} (op : eff M A) : eff (XS (M:=M)) A := λ '(x, (c, f, m)),
  let '(r, m) := op m in (r, (x, (c, f, m))).

Definition with_api {A} (op : eff (XrayInbound.Config * M) A) : eff (XS (M:=M)) A := λ '(x, (c, f, m)),
  let '(r, (conf, m)) := op (xr_config x, m) in (r, (XrayRun.set_config conf x, (c, f, m))).

Definition routed {A} (op : bool → bool → eff M A) : eff (XS (M:=M)) A := λ s,
  let '(x, (c, f, m)) := s in services (op (Core_Started c m) (xr_handler x)) s.

(** Every wait ends: its context does. *)
Definition next_wait (w : node) : list moment * node :=
  (default [] (head (n_waits w)) ++ [mkMoment [] Done],
   mkNode (n_next w) (n_xrays w) (n_wgs w) (n_files w) (n_ext w) (n_kernel w) (tail (n_waits w)) (n_now w)).

(** [None], still waiting, does not occur when the moments are those of
    [next_wait] ([apply_ends] in XrayLife, [New_ends] in NodeSystem). *)
Definition finished {A} (r : result (option A)) : result A :=
  match r with
  | Err e => Err e
  | Ok (Some a) => Ok a
  | Ok None => Err (errors_New "context cancelled")
  end.

(** ** The operations *)

Definition node_Started (b : handle) (w : node) : bool :=
  match b with
  | XrayHandle n => match n_xrays w !! n with Some (_, c) => Core_Started c (n_ext w) | None => false end
  | WireguardHandle n => match n_wgs w !! n with Some g => WireGuard_Started g | None => false end
  end.

Definition node_Version (b : handle) (w : node) : string :=
  match b with
  | XrayHandle n => match n_xrays w !! n with Some (_, c) => Core_Version c | None => "" end
  | WireguardHandle n => match n_wgs w !! n with Some g => WireGuard_Version g | None => "" end
  end.

Definition node_Shutdown (b : handle) (w : node) : node :=
  match b with
  | XrayHandle n => (on_xray n Xray_Shutdown w).2
  | WireguardHandle n => (on_wg n (modify (WireGuard_Shutdown (d_timestamp d (n_now w)))) w).2
  end.

Definition xray_sync (users : list (option User)) (ms ms' : list moment) : eff (XS (M:=M)) unit := λ s,
  let '(r, s) := Xray_SyncUsers (d_marshal d) (d_range d) (d_cfg d) (d_reparse d) users ms ms' s in (finished r, s).

Definition node_SyncUser (b : handle) (user : option User) : eff node unit :=
  match b with
  | XrayHandle n => on_xray n (with_api (Xray_SyncUser user))
  | WireguardHandle n => on_wg n (WireGuard_SyncUser (d_ranges d) user)
  end.

Definition node_SyncUsers (b : handle) (users : list (option User)) : eff node unit := λ w,
  match b with
  | XrayHandle n =>
      let '(ms, w) := next_wait w in
      let '(ms', w) := next_wait w in
      on_xray n (xray_sync users ms ms') w
  | WireguardHandle n => on_wg n (WireGuard_SyncUsers (d_ranges d) users) w
  end.

Definition node_UpdateUsers (b : handle) (users : list (option User)) : eff node unit :=
  match b with
  | XrayHandle n => on_xray n (with_api (Xray_UpdateUsers (d_range d) users))
  | WireguardHandle n => on_wg n (WireGuard_UpdateUsers (d_ranges d) users)
  end.

Definition node_GetSysStats (b : handle) : eff node BackendStatsResponse := λ w,
  match b with
  | XrayHandle n => on_xray n (services api_GetSysStats) w
  | WireguardHandle n => on_wg n (WireGuard_GetSysStats (n_now w) (d_memStats d)) w
  end.

Definition node_GetStats (b : handle) (request : StatRequest) : eff node StatResponse :=
  match b with
  | XrayHandle n => on_xray n (services (Xray_GetStats request))
  | WireguardHandle n => on_wg n (WireGuard_GetStats (d_range d) request)
  end.

Definition node_GetOutboundsLatency (b : handle) (request : LatencyRequest) : eff node LatencyResponse := λ w,
  match b with
  | XrayHandle n =>
      on_xray n (λ '(x, (c, f, m)),
        (Xray_GetOutboundsLatency (Core_Started c m) (xr_config x) (xr_metricPort x) (λ url, d_fetch d url m) request,
         (x, (c, f, m)))) w
  | WireguardHandle n => on_wg n (WireGuard_GetOutboundsLatency (d_probe d) (n_now w / 10 ^ 9) request) w
  end.

Definition node_GetUserOnlineStats (b : handle) (email : string) : eff node OnlineStatResponse := λ w,
  match b with
  | XrayHandle n => on_xray n (services (api_GetUserOnlineStats email)) w
  | WireguardHandle n => on_wg n (WireGuard_GetUserOnlineStats (n_now w) email) w
  end.

Definition node_GetUserOnlineIpListStats (b : handle) (email : string) : eff node StatsOnlineIpListResponse :=
  match b with
  | XrayHandle n => on_xray n (services (api_GetUserOnlineIpListStats email))
  | WireguardHandle n => on_wg n (WireGuard_GetUserOnlineIpListStats email)
  end.

(** Only Xray implements [backend.RoutingBackend]. *)
Definition node_routing (b : handle) : option (RoutingBackend node) :=
  match b with
  | WireguardHandle _ => None
  | XrayHandle n => Some {|
      rb_ListRoutingRules := on_xray n (routed Xray_ListRoutingRules);
      rb_GetBalancerInfo tag := on_xray n (routed (λ s h, Xray_GetBalancerInfo s h tag));
      rb_TestRoute req := on_xray n (routed (λ s h, Xray_TestRoute s h req));
      rb_AddRoutingRule rule append := on_xray n (routed (λ s h, Xray_AddRoutingRule s h rule append));
      rb_RemoveRoutingRule tag := on_xray n (routed (λ s h, Xray_RemoveRoutingRule s h tag));
      rb_OverrideBalancerTarget tag target := on_xray n (routed (λ s h, Xray_OverrideBalancerTarget s h tag target))
    |}
  end.

Definition node_xray_New (config : XrayInbound.Config) (users : list (option User)) (apiPort metricPort : Z)
    : eff node handle := λ w,
  let '(ms, w) := next_wait w in
  let '(r, (f, m)) := Xray_New (d_marshal d) (d_range d) (d_cfg d) (d_abs d) (d_ifaces d) (d_dial d apiPort)
    config users apiPort metricPort ms (n_files w, n_ext w) in
  match finished r with
  | Err e => (Err e, set_ext f m w)
  | Ok s => (Ok (XrayHandle (n_next w)), bump (put_xray (n_next w) s w))
  end.

Definition node_wireguard_New (config : WgConfig.Config) (users : list (option User)) : eff node handle := λ w,
  let '(r, k) := WireGuard_New (d_ranges d) (n_now w) (d_timestamp d (n_now w)) (d_ownerID d) (d_cfg d)
    (Some config) users (n_kernel w) in
  match r with
  | Err e => (Err e, set_kernel k w)
  | Ok g => (Ok (WireguardHandle (n_next w)), bump (put_wg (n_next w) (g, k) w))
  end.

Definition node_backends : Backends handle node := {|
  be_Started := node_Started;
  be_Version := node_Version;
  be_Shutdown := node_Shutdown;
  be_SyncUser := node_SyncUser;
  be_SyncUsers := node_SyncUsers;
  be_UpdateUsers := node_UpdateUsers;
  be_GetSysStats := node_GetSysStats;
  be_GetStats := node_GetStats;
  be_GetOutboundsLatency := node_GetOutboundsLatency;
  be_GetUserOnlineStats := node_GetUserOnlineStats;
  be_GetUserOnlineIpListStats := node_GetUserOnlineIpListStats;
  be_routing := node_routing;
  XrayConfig := XrayInbound.Config;
  xray_NewConfig := XrayInbound.NewConfig (d_unmarshal d);
  xray_New := node_xray_New;
  WireguardConfig := WgConfig.Config;
  wireguard_NewConfig := WgConfig.NewConfig (d_wg_unmarshal d);
  wireguard_New := node_wireguard_New
|}.

(** ** The backends' own activity *)

(** A turn of the health check of the core [n]. *)
Definition health_turn (n : nat) (t : turn) (failures : Z) : eff node (option Z) :=
  on_xray n (checkXrayHealth (d_marshal d) (d_range d) (d_cfg d) [t] failures).

(** What happens to the core [n] meanwhile, and a tick of a WireGuard backend's
    statistics. *)
Definition node_event (n : nat) (e : env_event (M:=M)) : eff node unit :=
  on_xray n (λ '(x, w), (Ok (), (x, env_step w e))).
Definition node_tick (n : nat) (t : ticker) : eff node unit := λ w,
  on_wg n (modify (stats_loop_step (d_range d) (n_now w) (d_timestamp d (n_now w)) t)) w.
End Node.
