(* ===== verification/NodeLaws.v ===== *)
(** * The node's backends keep the controller's laws

    NodeBackends implements the interface of Backends as its laws ask.  The
    invariant is about ownership: every living Xray process is the one some core
    remembers. *)

From S2P Require Import Prelude GoString GoNet Json Helper Messages Tracker NodeConfig Logger XrayLogs XrayAccount XrayInbound XrayUser XrayApply XrayRender XrayCore XrayRun XrayLife XrayProps XrayReap XrayShare XrayStats WgTypes PeerStore WgConfig WgUsers WgManager HostRouting WireGuard WgBackend WgReads Backends NodeBackends.

#[local] Open Scope Z_scope.

(** ** The gRPC services *)

(** What the statistics and routing services leave alone. *)
Class ServicesKeep {M : Type} `{!XrayServices M} (R : relation M) := {
  sys_stats_keeps m : R m (svc_GetSysStats m).2;
  query_stats_keeps p r m : R m (svc_QueryStats p r m).2;
  online_keeps n m : R m (svc_GetStatsOnline n m).2;
  online_ips_keeps n m : R m (svc_GetStatsOnlineIpList n m).2;
  list_rule_keeps m : R m (svc_ListRule m).2;
  balancer_keeps t m : R m (svc_GetBalancerInfo t m).2;
  test_route_keeps r m : R m (svc_TestRoute r m).2;
  add_rule_keeps c a m : R m (svc_AddRule c a m).2;
  remove_rule_keeps t m : R m (svc_RemoveRule t m).2;
  override_keeps t g m : R m (svc_OverrideBalancerTarget t g m).2
}.

(** They start no process, and neither does the handler service. *)
Class ServicesCalm (M : Type) `{!Machine M} `{!XrayApi M} `{!XrayServices M} := {
  alter_calm tag op (m : M) : calm m (AlterInbound tag op m).2;
  services_calm :: ServicesKeep (calm (M:=M))
}.

Section Calm.
Context `{UuidLib} `{Sha256} `{Grpc} {M : Type} `{!Machine M} `{!XrayApi M} `{!XrayServices M} `{!ServicesCalm M}.
Implicit Types m : M.

Lemma alter_preserves {A} (r : result A) tag (f : A → operation) : preserves (S:=M) calm (a ← lift r; AlterInbound tag (f a)).
Proof. apply preserves_bind; [apply _|apply preserves_pure, _|]. intros a m. apply alter_calm. Qed.

Lemma add_calm tag a m : calm m (AddInboundUser tag a m).2.
Proof.
  apply (preserves_bind calm); [apply preserves_pure, _|]. intros x.
  exact (alter_preserves _ tag (λ o, o)).
Qed.

Lemma remove_user_calm tag email m : calm m (RemoveInboundUser tag email m).2.
Proof. exact (alter_preserves _ tag (λ o, o) m). Qed.

Lemma add_reporting_calm tag a m : calm m (add_reporting tag a m).2.
Proof. unfold add_reporting. pose proof (add_calm tag a m) as Hc. by destruct (AddInboundUser tag a m) as [[]]. Qed.

Lemma sync_inbound_calm user st i m : calm m (sync_inbound user st i m).2.
Proof.
  unfold sync_inbound. destruct (exclude i); [done|]. pose proof (remove_user_calm (In_Tag i) (GetEmail user) m) as Hr.
  destruct (isActiveInbound i (GetInbounds user) st) as [a|]; [|exact Hr].
  pose proof (add_reporting_calm (In_Tag i) (accountForAPI (Inbound_updateUser a i) a)
    (RemoveInboundUser (In_Tag i) (GetEmail user) m).2) as Ha.
  destruct (add_reporting _ _ _) as [msg m']. by etransitivity.
Qed.

Lemma sync_inbounds_calm user st l m : calm m (sync_inbounds user st l m).2.
Proof.
  revert m. induction l as [|i l IH]; intros m; [done|]. cbn [sync_inbounds].
  pose proof (sync_inbound_calm user st i m) as Hs. destruct (sync_inbound user st i m) as [[i' msg] m1].
  specialize (IH m1). destruct (sync_inbounds user st l m1) as [[l' msgs] m2]. cbn in *. by etransitivity.
Qed.

Lemma SyncUser_calm user c m : calm m (Xray_SyncUser user (c, m)).2.2.
Proof.
  unfold Xray_SyncUser. destruct user as [u|]; [|by destruct (existsb _ _)].
  pose proof (sync_inbounds_calm (Some u) (setupUserAccount (Some u)) (C_Inbounds c) m) as Hs.
  by destruct (sync_inbounds _ _ _ m) as [[l msg] m'].
Qed.

Lemma remove_all_calm tag l m : calm m (remove_all tag l m).
Proof.
  revert m. induction l as [|e l IH]; intros m; [done|]. cbn. etransitivity; [apply remove_user_calm|apply IH].
Qed.

Lemma add_all_calm i l m : calm m (add_all i l m).2.
Proof.
  revert m. induction l as [|a l IH]; intros m; [done|]. cbn [add_all].
  pose proof (remove_user_calm (In_Tag i) (Account_GetEmail a) m) as Hr.
  pose proof (add_reporting_calm (In_Tag i) (accountForAPI i a) (RemoveInboundUser (In_Tag i) (Account_GetEmail a) m).2) as Ha.
  destruct (add_reporting _ _ _) as [msg m1]. specialize (IH m1). destruct (add_all i l m1) as [msgs m2]. cbn in *.
  etransitivity; [exact Hr|]. by etransitivity.
Qed.

Lemma UpdateUsers_calm ρ users c m : calm m (Xray_UpdateUsers ρ users (c, m)).2.2.
Proof.
  unfold Xray_UpdateUsers.
  assert (calm m (foldl (update_tag ρ) (c, "", m) (range_of ρ (buildInboundUpdates c users))).2) as Hf.
  { apply (foldl_inv (λ acc, calm m acc.2)); [done|]. intros [[c1 msgs] m1] [tag [i u]] _ Hm. cbn in Hm |- *.
    pose proof (remove_all_calm tag (set_range ρ (up_removeEmailSet u)) m1) as Hr.
    pose proof (add_all_calm i (up_accounts u) (remove_all tag (set_range ρ (up_removeEmailSet u)) m1)) as Ha.
    destruct (add_all i (up_accounts u) _) as [msg m2]. cbn in *. etransitivity; [exact Hm|]. by etransitivity. }
  by destruct (foldl _ _ _) as [[c1 msgs] m1].
Qed.
End Calm.

(** ** Statistics and routing *)

Section Keeps.
Context `{Grpc} {M : Type} `{!XrayServices M} (R : relation M) `{!PreOrder R} `{!ServicesKeep R}.
Notation keeps op := (preserves R op).
Implicit Types m : M.

Lemma keeps_bind_mret {A B} (op : eff M A) (f : A → B) : keeps op → keeps (x ← op; mret (f x)).
Proof. intros Hop m. unfold mbind, eff_bind. specialize (Hop m). by destruct (op m) as [[a|e] m']. Qed.

Lemma keeps_query p r : keeps (query p r).
Proof. unfold query, QueryStats. apply keeps_bind_mret. intros m. apply query_stats_keeps. Qed.

Lemma keeps_GetStats request : keeps (Xray_GetStats request).
Proof.
  intros m. unfold Xray_GetStats, GetOutboundsStats, GetOutboundStats, GetInboundsStats, GetInboundStats, GetUsersStats, GetUserStats.
  destruct (StatRequest_Type request); try apply keeps_query; try done; case_bool_decide; try apply keeps_query; done.
Qed.

Lemma keeps_GetUserOnlineStats email : keeps (api_GetUserOnlineStats email).
Proof.
  intros m. unfold api_GetUserOnlineStats. case_bool_decide; [done|]. apply keeps_bind_mret. intros m'. apply online_keeps.
Qed.

Lemma keeps_GetUserOnlineIpListStats email : keeps (api_GetUserOnlineIpListStats email).
Proof.
  intros m. unfold api_GetUserOnlineIpListStats. case_bool_decide; [done|]. apply keeps_bind_mret. intros m'. apply online_ips_keeps.
Qed.

Lemma keeps_GetSysStats : keeps api_GetSysStats.
Proof. apply preserves_map_err. intros m. apply sys_stats_keeps. Qed.

(** The routing operations of a backend. *)
Lemma keeps_gated {A} started handler (op : eff M A) : keeps op → keeps (gated started handler op).
Proof. intros Hop m. unfold gated. by destruct (negb started || negb handler). Qed.

Lemma keeps_ListRoutingRules started handler : keeps (Xray_ListRoutingRules started handler).
Proof. apply keeps_gated, keeps_bind_mret. intros m. apply list_rule_keeps. Qed.

Lemma keeps_GetBalancerInfo started handler tag : keeps (Xray_GetBalancerInfo started handler tag).
Proof. apply keeps_gated, keeps_bind_mret. intros m. apply balancer_keeps. Qed.

Lemma keeps_TestRoute started handler req : keeps (Xray_TestRoute started handler req).
Proof. apply keeps_gated, keeps_bind_mret. intros m. apply test_route_keeps. Qed.

Lemma keeps_AddRoutingRule started handler rule append : keeps (Xray_AddRoutingRule started handler rule append).
Proof.
  apply keeps_gated, (preserves_bind R); [apply preserves_pure, _|]. intros tm m. apply add_rule_keeps.
Qed.

Lemma keeps_RemoveRoutingRule started handler tag : keeps (Xray_RemoveRoutingRule started handler tag).
Proof. apply keeps_gated. intros m. apply remove_rule_keeps. Qed.

Lemma keeps_OverrideBalancerTarget started handler tag target : keeps (Xray_OverrideBalancerTarget started handler tag target).
Proof. apply keeps_gated. intros m. apply override_keeps. Qed.
End Keeps.

(** ** Ownership *)

Section Owned.
Context `{UuidLib} `{Sha256} `{JsonText} `{Grpc} `{Host} `{AwgLib} {UUID : Type}.
Context {M : Type} `{!Machine M} `{!XrayApi M} `{!XrayServices M}.
(** The names of network interfaces nothing but the node creates. *)
Context {ours : string → Prop}.
Notation WireGuard := (@WireGuard _ UUID).
Notation node := (@node _ _ _ UUID M).
Implicit Types (w : node) (h n : nat) (b : handle) (m : M).

(** The command [h] is the one the core [n] remembers, or another core. *)
Definition owns w n h : Prop := ∃ x c, n_xrays w !! n = Some (x, c) ∧ cmd_id <$> process c = Some h.

Definition others w n : nat → bool := λ h,
  bool_decide (map_Exists (λ n' xc, n' ≠ n ∧ cmd_id <$> process xc.2 = Some h) (n_xrays w)).

Lemma others_spec w n h : others w n h = true ↔ ∃ n', n' ≠ n ∧ owns w n' h.
Proof.
  unfold others, owns. rewrite bool_decide_eq_true. split.
  - intros (n' & [x c] & Hl & Hne & Hp). eauto 6.
  - intros (n' & Hne & x & c & Hl & Hp). by exists n', (x, c).
Qed.

(** The interface [name] is that of a WireGuard backend that runs. *)
Definition holds w (name : string) : Prop := ∃ n g mgr,
  n_wgs w !! n = Some g ∧ wg_state g = lifecycleRunning ∧ wg_manager g = Some mgr ∧ iFaceName mgr = name.

Definition links_held w : Prop := ∀ name, ours name → is_Some (dev (n_kernel w) name) → holds w name.

(** Every living process and every interface is owned, the coming waits are the
    environment's, a WireGuard backend that was shut down does not run, and the
    next number is new. *)
Record node_ok w : Prop := mkOk {
  ok_owned : ∀ h, m_alive h (n_ext w) = true → ∃ n, owns w n h;
  ok_waits : Forall quiet_moments (n_waits w);
  ok_wg : ∀ n g, n_wgs w !! n = Some g → wg_shutdownDone g = true → wg_state g ≠ lifecycleRunning;
  ok_links : links_held w;
  ok_fresh : ∀ n, (n_next w ≤ n)%nat → n_xrays w !! n = None;
  ok_wg_fresh : ∀ n, (n_next w ≤ n)%nat → n_wgs w !! n = None
}.

Lemma put_xray_ext n s w : n_ext (put_xray n s w) = s.2.2.
Proof. by destruct s as [x [[c f] m]]. Qed.

Lemma put_xray_lookup n s w n' :
  n_xrays (put_xray n s w) !! n' = if decide (n' = n) then Some (s.1, s.2.1.1) else n_xrays w !! n'.
Proof. destruct s as [x [[c f] m]]. cbn. case_decide as Hn; [subst; by rewrite lookup_insert_eq|by rewrite lookup_insert_ne]. Qed.

Lemma put_owns n s w h n' :
  owns (put_xray n s w) n' h ↔ if decide (n' = n) then cmd_id <$> process s.2.1.1 = Some h else owns w n' h.
Proof.
  unfold owns. setoid_rewrite put_xray_lookup. case_decide; [|done].
  split; [intros (x & c & [= <- <-] & Hp); done|]. intros Hp. eauto.
Qed.

(** After an operation on one core, the others own what they owned. *)
Lemma put_owned n s w h : node_ok w → solo_but (others w n) s.2 → m_alive h (n_ext (put_xray n s w)) = true →
  ∃ n', owns (put_xray n s w) n' h.
Proof.
  intros Hok Hs Ha. rewrite put_xray_ext in Ha. destruct (others w n h) eqn:Hoth.
  - apply others_spec in Hoth as (n' & Hne & Hown). exists n'. apply put_owns. by rewrite decide_False.
  - exists n. apply put_owns. rewrite decide_True by done. by apply Hs.
Qed.

Lemma put_xray_fields n s w :
  n_next (put_xray n s w) = n_next w ∧ n_wgs (put_xray n s w) = n_wgs w ∧ n_waits (put_xray n s w) = n_waits w ∧
  n_kernel (put_xray n s w) = n_kernel w.
Proof. by destruct s as [x [[c f] m]]. Qed.

Lemma kept_links w w' : n_wgs w' = n_wgs w → n_kernel w' = n_kernel w → links_held w → links_held w'.
Proof. intros Hg Hk Hl name Hn. unfold holds. rewrite Hg, Hk. by apply Hl. Qed.

Lemma put_xray_ok n s w :
  node_ok w → (n < n_next w)%nat → solo_but (others w n) s.2 → node_ok (put_xray n s w).
Proof.
  intros Hok Hn Hs. pose proof (put_xray_fields n s w) as (Hnext & Hwgs & Hwaits & Hk). split.
  - intros h. by apply put_owned.
  - rewrite Hwaits. apply Hok.
  - rewrite Hwgs. apply Hok.
  - apply (kept_links w); [done..|apply Hok].
  - rewrite Hnext. intros n' Hn'. rewrite put_xray_lookup, decide_False by lia. by apply Hok.
  - rewrite Hnext, Hwgs. apply Hok.
Qed.

(** The same for a new core. *)
Lemma add_xray_ok s w :
  node_ok w → solo_but (others w (n_next w)) s.2 → node_ok (bump (put_xray (n_next w) s w)).
Proof.
  intros Hok Hs. pose proof (put_xray_fields (n_next w) s w) as (Hnext & Hwgs & Hwaits & Hk). split.
  - intros h. exact (put_owned (n_next w) s w h Hok Hs).
  - cbn [bump n_waits]. rewrite Hwaits. apply Hok.
  - cbn [bump n_wgs]. rewrite Hwgs. apply Hok.
  - apply (kept_links w); [done..|apply Hok].
  - cbn [bump n_next n_xrays]. rewrite Hnext. intros n' Hn'. rewrite put_xray_lookup, decide_False by lia. apply Hok. lia.
  - cbn [bump n_next n_wgs]. rewrite Hnext, Hwgs. intros n' Hn'. apply Hok. lia.
Qed.

Lemma state_solo n w s : node_ok w → xray_state n w = Some s → solo_but (others w n) s.2.
Proof.
  intros Hok Hs. unfold xray_state in Hs. destruct (n_xrays w !! n) as [[x c]|] eqn:Hl; [|done]. injection Hs as <-.
  intros h Ha Hoth. destruct (ok_owned w Hok h Ha) as [n' Hown]. destruct (decide (n' = n)) as [->|Hne].
  - destruct Hown as (x' & c' & Hl' & Hp). cbn. congruence.
  - assert (others w n h = true) as Ht by (apply others_spec; eauto). congruence.
Qed.

Lemma state_below n w s : node_ok w → xray_state n w = Some s → (n < n_next w)%nat.
Proof.
  intros Hok Hs. destruct (decide (n < n_next w)%nat) as [|Hn]; [done|]. unfold xray_state in Hs.
  by rewrite (ok_fresh w Hok n) in Hs by lia.
Qed.

(** ** Operations on one core *)

(** An operation that takes care of its own process only; one that leaves it. *)
Definition tame {A} (op : eff (XS (M:=M)) A) : Prop :=
  ∀ s, (∀ S, solo_but S s.2 → solo_but S (op s).2.2) ∧ s_reaps s (op s).2.
Definition still {A} (op : eff (XS (M:=M)) A) : Prop :=
  tame op ∧ ∀ s, process (op s).2.2.1.1 = process s.2.1.1.

Lemma calm_still {A} (op : eff (XS (M:=M)) A) :
  (∀ s, process (op s).2.2.1.1 = process s.2.1.1 ∧ calm s.2.2 (op s).2.2.2) → still op.
Proof.
  intros Hop. split; [|apply Hop]. intros s. destruct (Hop s) as [Hp [Hc Hr]]. split; [|exact Hr].
  intros S Hs h Ha. rewrite Hp. apply Hs, Hc, Ha.
Qed.

Lemma on_xray_eq {A} n (op : eff (XS (M:=M)) A) w :
  (on_xray n op w).2 = match xray_state n w with Some s => put_xray n (op s).2 w | None => w end.
Proof. unfold on_xray. destruct (xray_state n w) as [s|]; [|done]. by destruct (op s). Qed.

Lemma on_xray_ok {A} n (op : eff (XS (M:=M)) A) w : tame op → node_ok w → node_ok (on_xray n op w).2.
Proof.
  intros Ht Hok. rewrite on_xray_eq. destruct (xray_state n w) as [s|] eqn:Hs; [|done].
  apply put_xray_ok; [done|by eapply state_below|]. apply Ht. by apply state_solo.
Qed.

Lemma started_put n s s' w b :
  xray_state n w = Some s → s_reaps s s' → node_Started b (put_xray n s' w) = true →
  (b = XrayHandle n ∧ Core_Started s'.2.1.1 s'.2.2 = true) ∨ (b ≠ XrayHandle n ∧ node_Started b w = true).
Proof.
  intros Hs Hr. unfold xray_state in Hs. destruct (n_xrays w !! n) as [[x c]|] eqn:Hl; [|done]. injection Hs as <-.
  destruct b as [n'|n']; cbn [node_Started].
  - rewrite put_xray_lookup, put_xray_ext. case_decide as Hn; [intros Hst; left; by rewrite Hn|].
    intros Hst. right. split; [congruence|]. destruct (n_xrays w !! n') as [[x' c']|]; [|done].
    unfold Core_Started in *. destruct (process c') as [cmd|]; [|done]. apply negb_true_iff in Hst. apply negb_true_iff.
    destruct (m_reaped (cmd_id cmd) (n_ext w)) eqn:Hm; [|done]. apply Hr in Hm. congruence.
  - intros Hst. right. split; [done|]. by destruct s' as [x' [[c' f'] m']].
Qed.

Lemma on_xray_started {A} n (op : eff (XS (M:=M)) A) w b :
  tame op → node_Started b (on_xray n op w).2 = true → b = XrayHandle n ∨ node_Started b w = true.
Proof.
  intros Ht. rewrite on_xray_eq. destruct (xray_state n w) as [s|] eqn:Hs; [|auto].
  intros Hst. destruct (started_put n s _ w b Hs (proj2 (Ht s)) Hst) as [[-> _]|[_ ?]]; auto.
Qed.

Lemma on_xray_still {A} n (op : eff (XS (M:=M)) A) w b :
  still op → node_Started b (on_xray n op w).2 = true → node_Started b w = true.
Proof.
  intros [Ht Hp]. rewrite on_xray_eq. destruct (xray_state n w) as [s|] eqn:Hs; [|done]. intros Hst.
  destruct (started_put n s _ w b Hs (proj2 (Ht s)) Hst) as [[-> Hc]|[_ ?]]; [|done].
  unfold xray_state in Hs. cbn [node_Started]. destruct (n_xrays w !! n) as [[x c]|]; [|done]. injection Hs as <-.
  unfold Core_Started in *. rewrite Hp in Hc. cbn in Hc. destruct (process c) as [cmd|]; [|done].
  apply negb_true_iff in Hc. apply negb_true_iff. destruct (m_reaped (cmd_id cmd) (n_ext w)) eqn:Hm; [|done].
  apply (proj2 (Ht (x, (c, n_files w, n_ext w)))) in Hm. congruence.
Qed.

(** ** Operations on one WireGuard backend *)

(** The backend lives on as before, with the interface it had. *)
Definition same_life (s s' : WireGuard * K) : Prop :=
  wg_state s'.1 = wg_state s.1 ∧ wg_shutdownDone s'.1 = wg_shutdownDone s.1 ∧ wg_manager s'.1 = wg_manager s.1 ∧
  (tidy_kernel → adds_at_most None s.2 s'.2).

#[export] Instance same_life_preorder : PreOrder same_life.
Proof.
  split; [by intros s; split_and!|]. intros s1 s2 s3 (Hs1 & Hd1 & Hm1 & Hk1) (Hs2 & Hd2 & Hm2 & Hk2).
  split_and!; [congruence..|]. intros Ht. etrans; [by apply Hk1|by apply Hk2].
Qed.

Lemma same_life_frame s s' :
  wg_state s'.1 = wg_state s.1 → wg_shutdownDone s'.1 = wg_shutdownDone s.1 → wg_manager s'.1 = wg_manager s.1 →
  dev s'.2 = dev s.2 → same_life s s'.
Proof. intros Hs Hd Hm Hk. split_and!; [done..|]. intros _. by apply same_dev_adds. Qed.

Lemma wg_below n w g : node_ok w → n_wgs w !! n = Some g → (n < n_next w)%nat.
Proof.
  intros Hok Hg. destruct (decide (n < n_next w)%nat) as [|Hn]; [done|]. by rewrite (ok_wg_fresh w Hok n) in Hg by lia.
Qed.

Lemma put_wg_lookup n s w n' : n_wgs (put_wg n s w) !! n' = if decide (n' = n) then Some s.1 else n_wgs w !! n'.
Proof. cbn. case_decide as Hn; [subst; by rewrite lookup_insert_eq|by rewrite lookup_insert_ne]. Qed.

Lemma put_wg_ok n s w :
  node_ok w → (n < n_next w)%nat → (wg_shutdownDone s.1 = true → wg_state s.1 ≠ lifecycleRunning) →
  links_held (put_wg n s w) → node_ok (put_wg n s w).
Proof.
  intros Hok Hn Hs Hl. split; [apply Hok|apply Hok| |done|apply Hok|].
  - intros n' g. rewrite put_wg_lookup. case_decide; [by intros [= <-]|apply Hok].
  - cbn [put_wg n_next]. intros n' Hn'. rewrite put_wg_lookup, decide_False by lia. by apply Hok.
Qed.

(** The same for a new backend. *)
Lemma add_wg_ok s w :
  node_ok w → (wg_shutdownDone s.1 = true → wg_state s.1 ≠ lifecycleRunning) →
  links_held (put_wg (n_next w) s w) → node_ok (bump (put_wg (n_next w) s w)).
Proof.
  intros Hok Hs Hl. split; [apply Hok|apply Hok| |exact Hl| |].
  - intros n' g. cbn [bump n_wgs]. rewrite put_wg_lookup. case_decide; [by intros [= <-]|apply Hok].
  - cbn [bump n_next put_wg]. intros n' Hn'. apply Hok. lia.
  - cbn [bump n_next n_wgs]. intros n' Hn'. rewrite put_wg_lookup, decide_False by (cbn in Hn'; lia). apply Hok. cbn in Hn'. lia.
Qed.

(** The interfaces after a change of one backend: those it may have added must
    be its own, and it must still hold those it keeps. *)
Lemma put_wg_links n s w :
  links_held w → (∀ name, ours name → is_Some (dev s.2 name) → is_Some (dev (n_kernel w) name) ∨ holds (put_wg n s w) name) →
  (∀ g mgr, n_wgs w !! n = Some g → wg_state g = lifecycleRunning → wg_manager g = Some mgr →
     ours (iFaceName mgr) → is_Some (dev s.2 (iFaceName mgr)) → holds (put_wg n s w) (iFaceName mgr)) →
  links_held (put_wg n s w).
Proof.
  intros Hl Hnew Hkept name Hours Hd. destruct (Hnew name Hours Hd) as [Hw|?]; [|done].
  destruct (Hl name Hours Hw) as (n' & g & mgr & Hg & Hst & Hm & Heq). destruct (decide (n' = n)) as [->|Hne].
  - subst name. by eapply Hkept.
  - exists n', g, mgr. split_and!; [|done..]. by rewrite put_wg_lookup, decide_False.
Qed.

Lemma on_wg_eq {A} n (op : eff (WireGuard * K) A) w :
  (on_wg n op w).2 = match n_wgs w !! n with Some g => put_wg n (op (g, n_kernel w)).2 w | None => w end.
Proof. unfold on_wg. destruct (n_wgs w !! n) as [g|]; [|done]. by destruct (op (g, n_kernel w)). Qed.

Lemma on_wg_ok {A} n (op : eff (WireGuard * K) A) w :
  (∀ name, ours name → tidy_kernel) → preserves same_life op → node_ok w → node_ok (on_wg n op w).2.
Proof.
  intros Htidy Hop Hok. rewrite on_wg_eq. destruct (n_wgs w !! n) as [g|] eqn:Hg; [|done].
  destruct (Hop (g, n_kernel w)) as (Hst & Hdone & Hm & Hk). cbn [fst snd] in *.
  apply put_wg_ok; [done|by eapply wg_below| |].
  - rewrite Hst, Hdone. by eapply ok_wg.
  - apply put_wg_links; [apply Hok| |].
    + intros name Hours Hd. left. by apply (Hk (Htidy name Hours)).
    + intros g' mgr Hg' Hrun Hmgr _ _. rewrite Hg in Hg'. injection Hg' as <-. eexists n, _, mgr.
      split_and!; [by rewrite put_wg_lookup, decide_True|congruence..|done].
Qed.

Lemma put_wg_started n g s w b : n_wgs w !! n = Some g → node_Started b (put_wg n s w) = true →
  (b = WireguardHandle n ∧ WireGuard_Started s.1 = true) ∨ (b ≠ WireguardHandle n ∧ node_Started b w = true).
Proof.
  intros Hg. destruct b as [n'|n']; cbn; [by right|]. destruct (decide (n' = n)) as [->|Hn].
  - rewrite lookup_insert_eq. by left.
  - rewrite lookup_insert_ne by done. right. split; [congruence|done].
Qed.

Lemma on_wg_started {A} n (op : eff (WireGuard * K) A) w b :
  preserves same_life op → node_Started b (on_wg n op w).2 = true → node_Started b w = true.
Proof.
  intros Hop. rewrite on_wg_eq. destruct (n_wgs w !! n) as [g|] eqn:Hg; [|done]. intros Hst.
  destruct (put_wg_started n g _ w b Hg Hst) as [[-> Hs]|[_ ?]]; [|done].
  cbn. rewrite Hg. unfold WireGuard_Started in *. by rewrite (proj1 (Hop (g, n_kernel w))) in Hs.
Qed.
End Owned.

(** ** What the WireGuard operations keep *)

Section WireguardLife.
Context `{Host} `{JsonText} `{AwgLib} {UUID : Type}.
Notation WireGuard := (@WireGuard _ UUID).
Notation lives op := (preserves (S:=WireGuard * K) same_life op).

Lemma life_get : lives get.
Proof. intros s. by apply same_life_frame. Qed.

Lemma life_lift {A} (r : result A) : lives (lift r).
Proof. intros s. by apply same_life_frame. Qed.

Lemma life_ret {A} (a : A) : lives (mret a).
Proof. intros s. by apply same_life_frame. Qed.

Lemma life_throw {A} e : lives (throw (A:=A) e).
Proof. intros s. by apply same_life_frame. Qed.

Lemma life_bind {A B} (op : eff (WireGuard * K) A) (f : A → eff (WireGuard * K) B) :
  lives op → (∀ a, lives (f a)) → lives (op ≫= f).
Proof. apply preserves_bind. apply _. Qed.

Lemma life_config {A} (m : eff WgConfig.Config A) : lives (with_config m).
Proof. intros s. apply same_life_frame; unfold with_config; destruct (wg_config s.1) as [c|]; try done; by destruct (m c). Qed.

Lemma life_host {A} (m : eff K A) : (tidy_kernel → preserves (adds_at_most None) m) → lives (host m).
Proof.
  intros Hm s. unfold host, on. destruct (m s.2) as [r k] eqn:Hr. split_and!; [done..|]. intros Ht.
  specialize (Hm Ht s.2). by rewrite Hr in Hm.
Qed.

Lemma life_running : lives ensureRunningWithManagerLocked.
Proof. intros s. unfold ensureRunningWithManagerLocked.
  destruct (lifecycleReadinessError _); [|destruct (wg_manager s.1)]; by apply same_life_frame.
Qed.

Lemma life_map_err {A} f (op : eff (WireGuard * K) A) : lives op → lives (map_err f op).
Proof. apply preserves_map_err. Qed.
End WireguardLife.

(** The elementary operations. *)
Ltac life :=
  solve [repeat apply life_map_err;
         first [apply life_get|apply life_lift|apply life_ret|apply life_throw|apply life_config|apply life_running
               |apply life_host; intros ?; apply ApplyPeersReplaceAll_adds; assumption
               |apply life_host; intros ?; apply ApplyPeers_adds; assumption]].

Section WireguardOps.
Context `{Host} `{JsonText} `{AwgLib} {UUID : Type}.
Notation WireGuard := (@WireGuard _ UUID).
Notation lives op := (preserves (S:=WireGuard * K) same_life op).

Lemma full_life σ users : lives (syncUsersFull σ users).
Proof.
  unfold syncUsersFull. apply life_bind; [life|intros s]. apply life_bind; [life|intros D].
  apply life_bind; [life|intros dif]. destruct (negb (SD_Changed dif)); [life|].
  apply life_bind; [life|intros psk]. apply life_bind; [life|intros awg].
  destruct (buildTargetPeerConfigs (σ 2%nat) _ psk) as [cs applied]. apply life_bind; [life|intros mgr].
  apply life_bind; [life|intros []]. intros t. unfold modify_wg, modify. cbn [snd].
  unfold same_life. cbn [fst]. by destruct (PeerStore_ReplaceAll (σ 4%nat) _ _) as [ps removed].
Qed.

Lemma partial_life σ users : lives (syncUsersPartialReconcile σ users).
Proof.
  unfold syncUsersPartialReconcile. apply life_bind; [life|intros s]. apply life_bind; [life|intros D].
  apply life_bind; [life|intros []]. apply life_bind; [life|intros dif].
  apply life_bind; [|intros []; intros t; unfold modify_wg, modify, same_life; cbn [fst snd]; by destruct (PeerStore_ApplyChanges _ _ _) as [ps removed]].
  case_bool_decide; [life|]. apply life_bind; [life|intros mgr]. life.
Qed.

Lemma SyncUser_life σ user : lives (WireGuard_SyncUser σ user).
Proof. destruct user; [apply partial_life|apply life_throw]. Qed.

(** The queries do all the more. *)
Lemma reads_life s s' : reads (UUID:=UUID) s s' → same_life s s'.
Proof. intros (? & ? & ? & _ & _ & ?). by apply same_life_frame. Qed.

Lemma reads_lives {A} (op : eff (WireGuard * K) A) : preserves reads op → lives op.
Proof. intros Hop s. apply reads_life, Hop. Qed.

Lemma tick_life ρ now ts t : lives (modify (stats_loop_step ρ now ts t)).
Proof. intros s. apply reads_life, tick_reads. Qed.

(** A shutdown stops the backend unless it was stopped by an earlier one. *)
Lemma Shutdown_life ts (s : WireGuard * K) : (wg_shutdownDone s.1 = true → wg_state s.1 ≠ lifecycleRunning) →
  wg_state (WireGuard_Shutdown ts s).1 ≠ lifecycleRunning.
Proof.
  intros Hs. unfold WireGuard_Shutdown. destruct (wg_shutdownDone s.1) eqn:Hd; [by apply Hs|].
  destruct s as [g k]. unfold shutdownLocked. destruct (close_manager ts _) as [g1 k1].
  match goal with |- context [emitLogLocked _ _ ?msg ?g0] => by destruct (emitLog_frame ts logSeverityInfo msg g0) as [l ->] end.
Qed.

Lemma New_life σ now ts owner cfg c users k (g : WireGuard) k' :
  WireGuard_New σ now ts owner cfg c users k = (Ok g, k') → wg_shutdownDone g = false.
Proof.
  unfold WireGuard_New, newWithManagerFactory. destruct (getWireGuardVersion k) as [version k0].
  destruct c as [c|]; [|done]. destruct (GetPrivateKey c) as [[pk|] c1]; [|done].
  destruct (collectDesiredPeers c1 _) as [D|]; [|done]. destruct (buildSyncDiff _ _ D c1) as [[dif|] c2]; [|done].
  destruct (buildTargetPeerConfigs (σ 2%nat) _ _) as [cs applied]. 
  match goal with |- context [?factory (InterfaceName ?c3) k0] => destruct (factory (InterfaceName c3) k0) as [[mgr|] k1] end; [|done].
  destruct (Manager_InitializeWithPeers _ _ _ _ _ k1) as [[u|] k2]; [|done].
  destruct (applyLinuxHostRouting _ _ _ k2) as [routing k3]. destruct (initStatsTickers cfg) as [t|]; [|done].
  intros [= <- _]. match goal with |- context [emitLogLocked _ _ ?msg ?g0] => by destruct (emitLog_frame ts logSeverityInfo msg g0) as [l ->] end.
Qed.
End WireguardOps.
