(* ===== verification/XrayServe.v ===== *)
(** * The users the core serves, across restarts

    XrayUser shows that a synchronisation of single users keeps the running core
    and the stored configuration together; here they stay together over the
    whole life of the backend: restarts with the stored or with a new
    configuration, restorations, health checks and user operations that report
    errors.  A user whose removal fails, which the code does not report, is the
    exception; the sets of users left behind of XrayUser tell which.  What the core
    makes of its configuration is the class [CoreConfig]. *)

From S2P Require Import Prelude GoString Json Helper Messages NodeConfig Logger XrayLogs XrayAccount XrayInbound XrayClients XrayUser XrayApply XrayRender XrayTyped XrayCore XrayRun XrayLife XrayProps XrayReap XrayStats NodeBackends NodeLaws.

#[local] Open Scope Z_scope.

(** ** Serving the clients of an inbound *)

Section Served.
Context `{UuidLib} `{Sha256}.
Implicit Types (i : Inbound) (a : Account) (cl : gmap string Account) (v : gmap string core_user).

(** The user the core reads from its configuration; the one it is given when it
    runs may have the flow of its inbound instead. *)
Definition plain_user a : core_user := mkCoreUser (Account_GetLevel a) (Account_Message a).
Definition credential i a (cu : core_user) : Prop := cu = plain_user a ∨ cu = core_user_of i a.

(** Every user served is a stored client, with its credential; with [clean],
    every stored client is served. *)
Record served (clean : bool) i cl v : Prop := mkServed {
  served_stored e cu : v !! e = Some cu → ∃ a, cl !! e = Some a ∧ credential i a cu;
  served_all : clean = true → ∀ e, is_Some (cl !! e) → is_Some (v !! e)
}.

(** The same but for the users that failed removals left behind, each with the
    tag of its inbound. *)
Record served_but (left : gset (string * string)) (clean : bool) i cl v : Prop := mkServedBut {
  but_stored e cu : v !! e = Some cu → (In_Tag i, e) ∈ left ∨ ∃ a, cl !! e = Some a ∧ credential i a cu;
  but_all : clean = true → ∀ e, is_Some (cl !! e) → is_Some (v !! e)
}.
Implicit Types (left : gset (string * string)).

Lemma served_but_none b i cl v : served_but ∅ b i cl v ↔ served b i cl v.
Proof. split; intros [Hs Ha]; (split; [|done]); intros e cu Hv; destruct (Hs e cu Hv); [set_solver|eauto..]. Qed.

Lemma but_weaken left left' b b' i cl v :
  left ⊆ left' → (b' = true → b = true) → served_but left b i cl v → served_but left' b' i cl v.
Proof. intros Hl Hb [Hs Ha]. split; [|auto]. intros e cu Hv. destruct (Hs e cu Hv) as [Hk|Hk]; [left; by apply Hl|by right]. Qed.

Lemma served_weaken b b' i cl v : (b' = true → b = true) → served b i cl v → served b' i cl v.
Proof. rewrite <- !served_but_none. by apply but_weaken. Qed.

Lemma credential_flow i i' a cu : inboundFlow i' = inboundFlow i → credential i a cu → credential i' a cu.
Proof. intros Hf [-> | ->]; [by left|right]. unfold core_user_of, accountForAPI. by rewrite Hf. Qed.

Lemma but_flow left b i i' cl v :
  In_Tag i' = In_Tag i → inboundFlow i' = inboundFlow i → served_but left b i cl v → served_but left b i' cl v.
Proof.
  intros Ht Hf [Hs Ha]. split; [|done]. rewrite Ht. intros e cu Hv.
  destruct (Hs e cu Hv) as [?|(a & ? & Hcu)]; [by left|right; exists a; eauto using credential_flow].
Qed.

Lemma served_flow b i i' cl v : inboundFlow i' = inboundFlow i → served b i cl v → served b i' cl v.
Proof.
  intros Hf [Hs Ha]. split; [|done]. intros e cu Hv. destruct (Hs e cu Hv) as (a & ? & Hcu). exists a.
  eauto using credential_flow.
Qed.

Lemma served_fresh b i cl : served b i cl (plain_user <$> cl).
Proof.
  split.
  - intros e cu. rewrite lookup_fmap, fmap_Some. intros (a & Ha & ->). exists a. split; [done|by left].
  - intros _ e. by rewrite lookup_fmap, fmap_is_Some.
Qed.

Lemma but_delete left b i cl v e : served_but left b i cl v → served_but left b i (delete e cl) (delete e v).
Proof.
  intros [Hs Ha]. split.
  - intros e' cu [Hne Hv]%lookup_delete_Some. rewrite lookup_delete_ne by done. by apply Hs.
  - intros Hb e' [a [Hne Hc]%lookup_delete_Some]. rewrite lookup_delete_ne by done. apply Ha; [done|by exists a].
Qed.

Lemma served_delete b i cl v e : served b i cl v → served b i (delete e cl) (delete e v).
Proof. rewrite <- !served_but_none. apply but_delete. Qed.

(** Only the entry [e] of the clients changes, and it is left behind. *)
Lemma but_left left b i cl cl' v e : (In_Tag i, e) ∈ left → delete e cl' = delete e cl →
  (b = true → is_Some (cl' !! e) → is_Some (v !! e)) → served_but left b i cl v → served_but left b i cl' v.
Proof.
  intros He Hcl Hv [Hs Ha]. assert (∀ e', e' ≠ e → cl' !! e' = cl !! e') as Hne.
  { intros e' Hn. by rewrite <- (lookup_delete_ne cl' e e'), <- (lookup_delete_ne cl e e'), Hcl. }
  split.
  - intros e' cu Hcu. destruct (decide (e' = e)) as [->|Hn]; [by left|]. rewrite Hne by done. by apply Hs.
  - intros Hb e'. destruct (decide (e' = e)) as [->|Hn]; [by apply Hv|]. rewrite Hne by done. by apply Ha.
Qed.

Lemma but_insert left b i cl v a : served_but left b i cl v →
  served_but left b i (<[Account_GetEmail a := a]> cl) (<[Account_GetEmail a := core_user_of i a]> v).
Proof.
  intros [Hs Ha]. split.
  - intros e cu [[<- <-]|[Hne Hv]]%lookup_insert_Some;
      [right; exists a; rewrite lookup_insert_eq; split; [done|by right]|].
    rewrite lookup_insert_ne by done. by apply Hs.
  - intros Hb e. rewrite !lookup_insert_is_Some. intros [->|[Hne Hc]]; [by left|right]. auto.
Qed.

(** A user that could not be added is not served. *)
Lemma but_lost left b i cl v a : served_but left b i cl v →
  served_but left false i (<[Account_GetEmail a := a]> cl) (delete (Account_GetEmail a) v).
Proof.
  intros [Hs _]. split; [|done]. intros e cu [Hne Hv]%lookup_delete_Some. rewrite lookup_insert_ne by done. by apply Hs.
Qed.

(** ** The user operations *)

Context {X : Type} `{!XrayApi X}.
Implicit Types (x : X).

(** Removing a user, from the clients and from the core. *)
Lemma remove_but left b i cl x e : served_but left b i cl (api_users x (In_Tag i)) →
  served_but (left ∪ left_behind (In_Tag i) e x) b i (delete e cl)
    (api_users (RemoveInboundUser (In_Tag i) e x).2 (In_Tag i)).
Proof.
  intros Hs. apply (but_weaken _ (left ∪ left_behind (In_Tag i) e x) b b) in Hs; [|set_solver|done].
  destruct (left_entry (In_Tag i) e x) as [Hl|Hl].
  - rewrite removed, bool_decide_eq_true_2 by done. by apply but_delete.
  - rewrite remove_spec, bool_decide_eq_false_2 by (rewrite Hl; set_solver). rewrite Hl in *.
    apply (but_left _ b i cl (delete e cl) _ e); [set_solver|apply delete_delete_eq| |done].
    rewrite lookup_delete_eq. by intros _ [].
Qed.

(** Removing a user from the core and adding it again, whatever the API says. *)
Lemma readd_but left b i cl x a : served_but left b i cl (api_users x (In_Tag i)) →
  let '(msg, x') := add_reporting (In_Tag i) (accountForAPI i a) (RemoveInboundUser (In_Tag i) (Account_GetEmail a) x).2 in
  served_but (left ∪ left_behind (In_Tag i) (Account_GetEmail a) x) (b && bool_decide (msg = "")) i
    (<[Account_GetEmail a := a]> cl) (api_users x' (In_Tag i)) ∧
  ∀ t, t ≠ In_Tag i → api_users x' t = api_users x t.
Proof.
  intros Hs. set (e := Account_GetEmail a). pose proof (remove_but left b i cl x e Hs) as Hr.
  pose proof (λ t, remove_off (In_Tag i) e x t) as Hoff. pose proof (remove_spec (In_Tag i) e x (In_Tag i)) as Hspec.
  set (x1 := (RemoveInboundUser (In_Tag i) e x).2) in *.
  pose proof (add_reporting_spec (In_Tag i) i a x1) as Ha.
  destruct (add_reporting (In_Tag i) (accountForAPI i a) x1) as [msg x2]. split.
  - specialize (Ha (In_Tag i)). rewrite (bool_decide_eq_true_2 (In_Tag i = In_Tag i)) in Ha by done.
    case_bool_decide; rewrite Ha.
    + rewrite andb_true_r, <- (insert_delete_eq cl). by apply but_insert.
    + rewrite andb_false_r. destruct (left_entry (In_Tag i) e x) as [Hl|Hl].
      * rewrite Hspec, bool_decide_eq_true_2 by done. apply (but_lost _ b).
        by apply (but_weaken left _ b b); [set_solver|..].
      * rewrite Hl in *. apply (but_left _ false i (delete e cl) _ _ e);
          [set_solver|by rewrite delete_insert_eq, delete_delete_eq|done|]. by apply (but_weaken _ (left ∪ {[ (In_Tag i, e) ]}) b false) in Hr.
  - intros t Ht. specialize (Ha t). rewrite (bool_decide_eq_false_2 (t = In_Tag i)) in Ha by done.
    rewrite <- (Hoff t Ht). by destruct (bool_decide (msg = "")).
Qed.

Lemma sync_inbound_but left b user i x : known_method i → exclude i = false →
  served_but left b i (clients i) (api_users x (In_Tag i)) →
  let '(i', msg, x') := sync_inbound user (setupUserAccount user) i x in
  In_Tag i' = In_Tag i ∧
  served_but (left ∪ left_behind (In_Tag i) (GetEmail user) x) (b && bool_decide (msg = "")) i' (clients i') (api_users x' (In_Tag i)) ∧
  ∀ t, t ≠ In_Tag i → api_users x' t = api_users x t.
Proof.
  intros Hk He Hs. unfold sync_inbound. rewrite He. fold (active i user). destruct (active i user) as [a|] eqn:Ha.
  - pose proof (active_email i user a Ha) as Hemail. rewrite <- Hemail.
    assert (Inbound_updateUser a i = set_clients (<[Account_GetEmail a := a]> (clients i)) i) as ->.
    { unfold Inbound_updateUser. f_equal. f_equal. by apply updateUser_stored with user. }
    rewrite forAPI_clients. cbn [In_Tag set_clients]. pose proof (readd_but left b i (clients i) x a Hs) as Hr.
    destruct (add_reporting _ _ _) as [msg x']. destruct Hr as [Hr Hoff].
    split_and!; [done|by apply (but_flow _ _ i)|done].
  - pose proof (remove_but left b i (clients i) x (GetEmail user) Hs) as Hr.
    pose proof (λ t, remove_off (In_Tag i) (GetEmail user) x t) as Hoff.
    destruct (RemoveInboundUser _ _ x) as [r x1]. cbn [snd] in *. unfold Inbound_removeUser. split_and!; [done| |done].
    rewrite bool_decide_eq_true_2, andb_true_r by done. by apply (but_flow _ _ i).
Qed.

Definition served_by b i x : Prop := exclude i = false → served b i (clients i) (api_users x (In_Tag i)).
Definition but_by left b i x : Prop := exclude i = false → served_but left b i (clients i) (api_users x (In_Tag i)).

Lemma but_by_none b i x : but_by ∅ b i x ↔ served_by b i x.
Proof. unfold but_by, served_by. by rewrite served_but_none. Qed.

Lemma but_by_weaken left left' b b' i x :
  left ⊆ left' → (b' = true → b = true) → but_by left b i x → but_by left' b' i x.
Proof. intros Hl Hb Hs He. eapply but_weaken; [done..|by apply Hs]. Qed.

Lemma sync_inbounds_but left b user l x :
  NoDup (In_Tag <$> l) → Forall known_method l → Forall (λ i, but_by left b i x) l →
  let '(l', msgs, x') := sync_inbounds user (setupUserAccount user) l x in
  Forall (λ i, but_by (left ∪ sync_left user (setupUserAccount user) l x) (b && bool_decide (msgs = "")) i x') l' ∧
  In_Tag <$> l' = In_Tag <$> l ∧
  ∀ t, t ∉ In_Tag <$> l → api_users x' t = api_users x t.
Proof.
  revert x. induction l as [|i l IH]; intros x Hnd Hk Hs; [done|].
  rewrite fmap_cons, NoDup_cons in Hnd. destruct Hnd as [Hi Hnd]. cbn [sync_inbounds sync_left].
  apply Forall_cons in Hk as [Hki Hk], Hs as [Hsi Hs].
  set (here := if exclude i then ∅ else left_behind (In_Tag i) (GetEmail user) x).
  assert (let '(i', msg, x') := sync_inbound user (setupUserAccount user) i x in
    In_Tag i' = In_Tag i ∧ but_by (left ∪ here) (b && bool_decide (msg = "")) i' x' ∧
    ∀ t, t ≠ In_Tag i → api_users x' t = api_users x t) as H1.
  { subst here. destruct (exclude i) eqn:He.
    - unfold sync_inbound. rewrite He. split_and!; [done| |done]. intros ?. congruence.
    - pose proof (sync_inbound_but left b user i x Hki He (Hsi He)) as H1.
      destruct (sync_inbound _ _ i x) as [[i' msg] x']. destruct H1 as (Ht & H1 & Hoff). split_and!; [done| |done].
      intros _. by rewrite Ht. }
  destruct (sync_inbound user (setupUserAccount user) i x) as [[i' msg] x1]. destruct H1 as (Ht & H1 & Hoff). cbn [snd].
  assert (Forall (λ j, but_by left b j x1) l) as Hs1.
  { apply Forall_forall. intros j Hj Hje. rewrite Forall_forall in Hs. rewrite Hoff; [by apply Hs|].
    intros Heq. apply Hi. rewrite <- Heq. by apply list_elem_of_fmap_2. }
  specialize (IH x1 Hnd Hk Hs1). set (rest := sync_left _ _ l x1) in *.
  destruct (sync_inbounds _ _ l x1) as [[l' msgs] x2]. destruct IH as (IH & Htags & Hoff2).
  assert (bool_decide (msg +:+ msgs = "") = bool_decide (msg = "") && bool_decide (msgs = "")) as ->.
  { rewrite <- bool_decide_and. apply bool_decide_ext, app_empty. }
  rewrite !fmap_cons, Ht, Htags. split_and!; [|done|].
  - apply Forall_cons. split.
    + intros He. rewrite Hoff2 by (by rewrite Ht). eapply but_weaken; [..|by apply H1]; [set_solver|]. rewrite !andb_true_iff. tauto.
    + eapply Forall_impl; [exact IH|]. intros j Hj. eapply but_by_weaken; [..|exact Hj]; [set_solver|]. rewrite !andb_true_iff. tauto.
  - intros t Hn. rewrite Hoff2, Hoff; [done|set_solver..].
Qed.

(** *** UpdateUsers *)

Definition store_all cl (l : list Account) : gmap string Account := foldl (λ m a, <[Account_GetEmail a := a]> m) cl l.
Definition drop_all cl (l : list string) : gmap string Account := foldl (λ m e, delete e m) cl l.

Lemma remove_all_but left b i cl l x : served_but left b i cl (api_users x (In_Tag i)) →
  served_but (left ∪ remove_all_left (In_Tag i) l x) b i (drop_all cl l) (api_users (remove_all (In_Tag i) l x) (In_Tag i)).
Proof.
  revert left cl x. induction l as [|e l IH]; intros left cl x Hs.
  { cbn. by rewrite union_empty_r_L. }
  cbn [remove_all remove_all_left]. rewrite (assoc_L (∪)). apply IH. by apply remove_but.
Qed.

Lemma add_all_but left b i cl l x : served_but left b i cl (api_users x (In_Tag i)) →
  let '(msg, x') := add_all i l x in
  served_but (left ∪ add_all_left i l x) (b && bool_decide (msg = "")) i (store_all cl l) (api_users x' (In_Tag i)) ∧
  ∀ t, t ≠ In_Tag i → api_users x' t = api_users x t.
Proof.
  revert left b cl x. induction l as [|a l IH]; intros left b cl x Hs.
  { cbn [add_all add_all_left]. by rewrite bool_decide_eq_true_2, andb_true_r, union_empty_r_L. }
  cbn [add_all add_all_left].
  pose proof (readd_but left b i cl x a Hs) as Ha.
  destruct (add_reporting _ _ _) as [msg x1]. destruct Ha as [Ha Hoff]. specialize (IH _ _ _ x1 Ha). cbn [snd].
  set (rest := add_all_left i l x1) in *. destruct (add_all i l x1) as [msgs x2]. destruct IH as [IH Hoff2]. split.
  - rewrite (assoc_L (∪)). eapply but_weaken; [done| |exact IH]. rewrite !andb_true_iff, !bool_decide_eq_true, app_empty. tauto.
  - intros t Ht. by rewrite Hoff2, Hoff.
Qed.

(** The clients an update leaves an inbound. *)
Definition updated ρ i (u : inboundUpdate) : gmap string Account :=
  store_all (drop_all (clients i) (set_range ρ (up_removeEmailSet u))) (up_accounts u).

Lemma update_loop_but left b ρ (todo : list (string * (Inbound * inboundUpdate))) c msgs0 x :
  NoDup todo.*1 → Forall (λ e, In_Tag e.2.1 = e.1) todo →
  Forall (λ e, served_but left b e.2.1 (clients e.2.1) (api_users x e.1)) todo →
  let '(_, msgs, x') := foldl (update_tag ρ) (c, msgs0, x) todo in
  (msgs = "" → msgs0 = "") ∧
  Forall (λ e, served_but (left ∪ update_left ρ todo (c, msgs0, x)) (b && bool_decide (msgs = "")) e.2.1
    (updated ρ e.2.1 e.2.2) (api_users x' e.1)) todo ∧
  ∀ t, t ∉ todo.*1 → api_users x' t = api_users x t.
Proof.
  revert c msgs0 x. induction todo as [|[tag [i u]] todo IH]; intros c msgs0 x Hnd Htags Hs; [done|].
  rewrite fmap_cons, NoDup_cons in Hnd. destruct Hnd as [Ht Hnd].
  apply Forall_cons in Htags as [Htag Htags], Hs as [Hsi Hs]. cbn in Htag, Hsi. subst tag. cbn [foldl update_left snd].
  unfold update_tag at 2 3. set (emails := set_range ρ (up_removeEmailSet u)).
  pose proof (remove_all_but left b i (clients i) emails x Hsi) as Hs1.
  pose proof (λ t, remove_all_off (In_Tag i) emails x t) as Hro.
  set (gone := remove_all_left (In_Tag i) emails x) in *. set (x1 := remove_all (In_Tag i) emails x) in *.
  pose proof (add_all_but _ b i _ (up_accounts u) x1 Hs1) as Ha. set (again := add_all_left i (up_accounts u) x1) in *.
  destruct (add_all i (up_accounts u) x1) as [msg x2]. destruct Ha as [Ha Hoff]. fold (updated ρ i u) in Ha.
  assert (∀ t, t ≠ In_Tag i → api_users x2 t = api_users x t) as Hoff2 by (intros t Hne; by rewrite Hoff, Hro).
  assert (Forall (λ e : string * (Inbound * inboundUpdate), served_but left b e.2.1 (clients e.2.1) (api_users x2 e.1)) todo) as Hs2.
  { rewrite Forall_forall in Hs |- *. intros e He. rewrite Hoff2; [by apply Hs|]. intros Heq. apply Ht.
    apply (list_elem_of_fmap_2 fst) in He. cbn in *. congruence. }
  set (c1 := update_inbound (In_Tag i) (Inbound_updateUsers (up_accounts u) emails) c).
  specialize (IH c1 (msgs0 +:+ msg) x2 Hnd Htags Hs2). set (rest := update_left ρ todo _) in *.
  destruct (foldl (update_tag ρ) _ todo) as [[c' msgs] x3]. destruct IH as (Hmsgs & IH & Hrest).
  split_and!; [intros Hm; by apply Hmsgs, app_empty in Hm as [? _]| |].
  - apply Forall_cons. split.
    + cbn. rewrite Hrest by done. eapply but_weaken; [..|exact Ha]; [set_solver|].
      rewrite !andb_true_iff, !bool_decide_eq_true. intros [? Hm]. split; [done|]. by apply Hmsgs, app_empty in Hm as [_ ?].
    + eapply Forall_impl; [exact IH|]. intros e. apply but_weaken; [set_solver|done].
  - intros t Hn. rewrite Hrest, Hoff2; [done|set_solver..].
Qed.

Lemma request_update_clients ρ us i : known_method i → NoDup (GetEmail <$> us) →
  clients (request_update ρ us i) = updated ρ i (foldl (update_user i) no_update us).
Proof.
  intros Hk Hnd. set (upd := foldl (update_user i) no_update us). unfold updated, store_all, drop_all.
  rewrite (puts_then_deletes id) by (intros a Ha; by apply (update_disjoint ρ us)).
  unfold request_update. fold upd. cbn [clients Inbound_updateUsers set_clients]. f_equal. unfold upd.
  rewrite update_accounts. cbn [up_accounts app no_update].
  rewrite added_accounts by done. generalize (clients i). clear Hnd upd.
  induction us as [|u us IH]; intros m; [done|]. cbn [foldl omap list_omap]. unfold apply_active at 2.
  destruct (active i u) as [a|] eqn:Ha; [|by rewrite IH]. cbn [foldl]. by rewrite IH, (active_email i u a Ha).
Qed.

Lemma update_config ρ (todo : list (string * (Inbound * inboundUpdate))) c msgs x :
  (foldl (update_tag ρ) (c, msgs, x) todo).1.1 = foldl (λ c '(tag, (_, u)), update_inbound tag
     (Inbound_updateUsers (up_accounts u) (set_range ρ (up_removeEmailSet u))) c) c todo.
Proof.
  revert c msgs x. induction todo as [|[tag [i u]] todo IH]; intros c msgs x; [done|]. cbn [foldl update_tag].
  destruct (add_all i (up_accounts u) _) as [msg x']. apply IH.
Qed.

Lemma UpdateUsers_config ρ users c x : (Xray_UpdateUsers ρ users (c, x)).2.1 = Config_updateUsers ρ users c.
Proof.
  unfold Xray_UpdateUsers. pose proof (update_config ρ (range_of ρ (buildInboundUpdates c users)) c "" x) as Hf.
  by destruct (foldl (update_tag ρ) _ _) as [[c' msgs] x'].
Qed.

Lemma UpdateUsers_but left b ρ users c x :
  NoDup (tags c) → Forall known_method (C_Inbounds c) → NoDup (GetEmail <$> users) →
  Forall (λ i, but_by left b i x) (C_Inbounds c) →
  let '(r, (c', x')) := Xray_UpdateUsers ρ users (c, x) in Forall (λ i, but_by (left ∪ UpdateUsers_left ρ users c x) (b && is_ok r) i x') (C_Inbounds c').
Proof.
  intros Htags Hk Hnd Hs. unfold Xray_UpdateUsers, UpdateUsers_left.
  assert (∀ tag i u, (tag, (i, u)) ∈ range_of ρ (buildInboundUpdates c users) →
    inbound_by_tag c !! tag = Some i ∧ u = foldl (update_user i) no_update users) as Hentry.
  { intros tag i u Hin%elem_of_range. unfold buildInboundUpdates in Hin.
    rewrite lookup_fmap, fmap_Some in Hin. by destruct Hin as (j & Hj & [= -> ->]). }
  pose proof (update_loop_but left b ρ (range_of ρ (buildInboundUpdates c users)) c "" x (range_nodup ρ _)) as Hl.
  assert (Forall (λ e : string * (Inbound * inboundUpdate), In_Tag e.2.1 = e.1)
    (range_of ρ (buildInboundUpdates c users))) as Hkeys.
  { apply Forall_forall. intros [tag [i u]] Hin. by eapply by_tag_key, (Hentry tag i u). }
  specialize (Hl Hkeys). rewrite Forall_forall in Hs, Hk.
  assert (∀ i, i ∈ C_Inbounds c → exclude i = false →
    (In_Tag i, (i, foldl (update_user i) no_update users)) ∈ range_of ρ (buildInboundUpdates c users)) as Hin.
  { intros i Hi He. apply elem_of_range. unfold buildInboundUpdates. by rewrite lookup_fmap, (inbound_by_tag_lookup c i). }
  ospecialize (Hl _).
  { apply Forall_forall. intros [tag [i u]] He. destruct (Hentry tag i u He) as [Hi _].
    destruct (by_tag_elem c tag i Hi) as (Hic & Hex & <-). by apply Hs. }
  pose proof (update_config ρ (range_of ρ (buildInboundUpdates c users)) c "" x) as Hc. fold (Config_updateUsers ρ users c) in Hc.
  destruct (foldl (update_tag ρ) _ _) as [[c' msgs] x']. cbn in Hc. subst c'. destruct Hl as (_ & Hl & Hrest).
  assert (is_ok (if bool_decide (msgs = "") then Ok () else Err (errors_New ("failed to update users:" +:+ msgs))) = bool_decide (msgs = "")) as ->
    by (by case_bool_decide).
  rewrite Config_updateUsers_eq by done. cbn [C_Inbounds set_inbounds]. apply Forall_fmap, Forall_forall. intros i Hi. cbn.
  destruct (exclude i) eqn:He; [intros ?; cbn in *; congruence|]. intros _.
  change (In_Tag (request_update ρ users i)) with (In_Tag i). rewrite request_update_clients by auto.
  apply (but_flow _ _ i); [done..|]. rewrite Forall_forall in Hl. exact (Hl _ (Hin i Hi He)).
Qed.

Lemma SyncUser_but left b user c x :
  NoDup (tags c) → Forall known_method (C_Inbounds c) → Forall (λ i, but_by left b i x) (C_Inbounds c) →
  let '(r, (c', x')) := Xray_SyncUser (Some user) (c, x) in
  Forall (λ i, but_by (left ∪ SyncUser_left user c x) (b && is_ok r) i x') (C_Inbounds c').
Proof.
  intros Htags Hk Hs. unfold Xray_SyncUser, SyncUser_left.
  pose proof (sync_inbounds_but left b (Some user) (C_Inbounds c) x Htags Hk Hs) as Hl.
  destruct (sync_inbounds _ _ (C_Inbounds c) x) as [[l msgs] x']. destruct Hl as (Hl & _).
  by destruct (bool_decide (msgs = "")).
Qed.

(** Where removals work nothing is left behind. *)
Lemma SyncUser_none user c x : removals_work (X:=X) → SyncUser_left user c x = ∅.
Proof.
  intros Hw. unfold SyncUser_left. revert x. induction (C_Inbounds c) as [|i l IH]; intros x; [done|]. cbn [sync_left].
  rewrite IH, nothing_left by done. by destruct (exclude i).
Qed.

Lemma UpdateUsers_none ρ users c x : removals_work (X:=X) → UpdateUsers_left ρ users c x = ∅.
Proof.
  intros Hw. unfold UpdateUsers_left. assert (∀ tag l x, remove_all_left tag l x = ∅) as Hr.
  { intros tag l. induction l as [|e l IH]; intros y; [done|]. cbn [remove_all_left]. by rewrite IH, nothing_left. }
  assert (∀ i l x, add_all_left i l x = ∅) as Ha.
  { intros i l. induction l as [|a l IH]; intros y; [done|]. cbn [add_all_left]. by rewrite IH, nothing_left. }
  generalize (c, "", x). induction (range_of ρ _) as [|[tag [i u]] todo IH]; intros acc; [done|]. cbn [update_left].
  by rewrite IH, Hr, Ha.
Qed.
End Served.

(** ** What the core makes of its configuration *)

(** An entry of the clients of an inbound is read as a user; the entry made of
    an account of the type the inbound takes gives the account's message.  When
    a core is started with the text of a configuration, each of its inbounds
    serves the users read. *)
Class CoreConfig (M : Type) `{UuidLib} `{Sha256} `{!Machine M} `{!XrayApi M} (marshal : Config → result string) := {
  read_client : Inbound → json → option (string * core_user);
  read_account i a wanted : written_type i = Some wanted → wanted a = true →
    read_client i (account_json a) = Some (Account_GetEmail a, plain_user a);
  marshals x : is_ok (marshal x) = true;
  spawn_reads e x bytes (m : M) id m' i l : marshal x = Ok bytes → NoDup (tags x) → m_spawn e bytes m = (Ok id, m') →
    i ∈ C_Inbounds x → In_Settings i ≫= (.!! "clients") = Some (JArr l) → NoDup (omap (read_client i) l).*1 →
    api_users m' (In_Tag i) = list_to_map (omap (read_client i) l)
}.

Section Start.
Context `{UuidLib} `{Sha256} `{JsonText} {M K : Type} `{!Machine M} `{!XrayApi M} `{!MachineLaws M}.
Context (marshal : Config → result string) (ρ : map_range) (cfg : @NodeConfig K) `{!CoreConfig M marshal}.
Implicit Types (c : Core) (x : Config) (m : M) (w : World (M:=M)) (i : Inbound).

(** *** The configuration *)

(** What the operations never change of a configuration that is in order. *)
Definition shape i : string * option json := (In_Tag i, In_Settings i ≫= (.!! "method")).

Record prepared x : Prop := mkPrepared {
  p_tags : NoDup (tags x);
  p_methods : Forall known_method (C_Inbounds x);
  p_typed : typed_config x
}.

Lemma shape_method i i' : shape i' = shape i → known_method i → known_method i'.
Proof.
  intros [= _ Hm] Hk method. unfold setting_string. rewrite Hm. exact (Hk method).
Qed.

Lemma prepared_shape x x' :
  shape <$> C_Inbounds x' = shape <$> C_Inbounds x → typed_config x' → prepared x → prepared x'.
Proof.
  intros Hs Ht [Htags Hk _]. split; [| |done].
  - unfold tags in *. assert (∀ l : list Inbound, In_Tag <$> l = fst <$> (shape <$> l)) as Hfst
      by (intros l; by rewrite <- list_fmap_compose). by rewrite Hfst, Hs, <- Hfst.
  - revert Hs Hk. generalize (C_Inbounds x). induction (C_Inbounds x') as [|i' l' IH]; intros l Hs Hk; [constructor|].
    destruct l as [|i l]; [done|]. rewrite !fmap_cons in Hs. injection Hs as Hi1 Hi2 Hl.
    apply Forall_cons in Hk as [Hki Hk]. constructor; [|by apply (IH l)].
    apply (shape_method i); [|done]. unfold shape. congruence.
Qed.

Lemma shape_fmap (f : Inbound → Inbound) x : (∀ i, shape (f i) = shape i) →
  shape <$> (f <$> C_Inbounds x) = shape <$> C_Inbounds x.
Proof. intros Hf. rewrite <- list_fmap_compose. apply list_fmap_ext. intros k i _. apply Hf. Qed.

Lemma render_shape i : shape (render_clients ρ i) = shape i.
Proof.
  unfold render_clients. destruct (exclude i); [done|]. unfold shape.
  assert (∀ v, In_Settings (set_clients_setting v i) ≫= (.!! "method") = In_Settings i ≫= (.!! "method")) as Hv.
  { intros v. cbn. rewrite lookup_insert_ne by done. by destruct (In_Settings i). }
  case_bool_decide; [by rewrite Hv|]. destruct (written_type i); [by rewrite Hv|]. cbn. by destruct (In_Settings i).
Qed.

Lemma settled_inbounds x : C_Inbounds (settled marshal ρ x) = render_clients ρ <$> C_Inbounds x.
Proof. rewrite settled_eq. by destruct x. Qed.

Lemma prepared_settled x : prepared x → prepared (settled marshal ρ x).
Proof.
  intros Hp. apply (prepared_shape x); [|apply (config_step_typed x); [apply (start_step (X:=M))|apply Hp]|done].
  rewrite settled_inbounds. apply shape_fmap, render_shape.
Qed.

Lemma prepared_sync users x : prepared x → prepared (Config_syncUsers users x).
Proof.
  intros Hp. apply (prepared_shape x); [|apply (config_step_typed x); [apply (sync_step (X:=M))|apply Hp]|done].
  cbn. apply shape_fmap. intros i. by destruct (exclude i).
Qed.

Lemma prepared_update users x : prepared x → prepared (Config_updateUsers ρ users x).
Proof.
  intros Hp. apply (prepared_shape x); [|apply (config_step_typed x); [apply (update_step (X:=M))|apply Hp]|done].
  rewrite Config_updateUsers_eq by apply Hp. cbn. apply shape_fmap. intros i. by destruct (exclude i).
Qed.

Lemma sync_inbounds_shape u l m : shape <$> (sync_inbounds u (setupUserAccount u) l m).1.1 = shape <$> l.
Proof.
  revert m. induction l as [|i l IH]; intros m; [done|]. cbn [sync_inbounds].
  assert (shape (sync_inbound u (setupUserAccount u) i m).1.1 = shape i) as Hs.
  { unfold sync_inbound. destruct (exclude i); [done|].
    destruct (isActiveInbound i (GetInbounds u) (setupUserAccount u)); [|done]. by destruct (add_reporting _ _ _). }
  destruct (sync_inbound u (setupUserAccount u) i m) as [[i' msg] m']. specialize (IH m').
  destruct (sync_inbounds u (setupUserAccount u) l m') as [[l' msgs] m'']. cbn in *. by rewrite Hs, IH.
Qed.

Lemma prepared_SyncUser user x m : prepared x → prepared (Xray_SyncUser (Some user) (x, m)).2.1.
Proof.
  intros Hp. apply (prepared_shape x); [|apply (config_step_typed x); [apply user_step|apply Hp]|done].
  unfold Xray_SyncUser. pose proof (sync_inbounds_shape (Some user) (C_Inbounds x) m) as Hs.
  by destruct (sync_inbounds _ _ _ _) as [[l msgs] m'].
Qed.

(** *** The users of a core that has just been started *)

Definition fresh x m : Prop :=
  Forall (λ i, exclude i = false → api_users m (In_Tag i) = plain_user <$> clients i) (C_Inbounds x).

Lemma fresh_served b x m : fresh x m → Forall (λ i, served_by b i m) (C_Inbounds (settled marshal ρ x)).
Proof.
  intros Hf. rewrite settled_inbounds. apply Forall_fmap. eapply Forall_impl; [exact Hf|]. intros i Hi He. cbn in *.
  assert (exclude (render_clients ρ i) = exclude i ∧ In_Tag (render_clients ρ i) = In_Tag i ∧
    clients (render_clients ρ i) = clients i) as (Hre & -> & ->).
  { unfold render_clients. destruct (exclude i) eqn:Hx; [done|]. case_bool_decide; [done|]. by destruct (written_type i). }
  rewrite Hi by congruence. apply served_fresh.
Qed.

(** The entries written for the clients of an inbound are read as its users. *)
Lemma rendered_reads i i' : typed i → written_type i' = written_type i →
  omap (read_client i') (account_json <$> (range_of ρ (clients i)).*2) = prod_map id plain_user <$> range_of ρ (clients i).
Proof.
  intros Ht Hw. assert (Forall (λ ea, typed_entry i ea.1 ea.2) (range_of ρ (clients i))) as Hall.
  { apply Forall_forall. intros [e a] Hin%elem_of_range. by apply Ht. }
  induction Hall as [|[e a] l Hea _ IH]; [done|]. cbn [fmap list_fmap omap list_omap].
  destruct Hea as [He (wanted & Hwant & Ha)]. cbn in He, Ha. rewrite <- Hw in Hwant.
  rewrite (read_account i' a wanted Hwant Ha), IH. cbn. by rewrite He.
Qed.

Lemma spawn_fresh e x m id m' : prepared x → m_spawn e (text_of marshal ρ x) m = (Ok id, m') → fresh x m'.
Proof.
  intros Hp Hsp. apply Forall_forall. intros i Hi He.
  set (log := default (mkLog "" "" "info" (JObj [])) (C_Log x)). set (given := rendered ρ log (GetLogFiles x).2).
  assert (C_Inbounds given = render_clients ρ <$> C_Inbounds x) as Hin by (by destruct x).
  assert (text_of marshal ρ x = config_bytes (marshal given)) as Htext by (by destruct x).
  pose proof (marshals given) as Hm. destruct (marshal given) as [bytes|] eqn:Hbytes; [|done].
  rewrite Htext in Hsp. cbn in Hsp. pose proof (p_typed x Hp) as Ht. unfold typed_config in Ht. rewrite Forall_forall in Ht.
  specialize (Ht i Hi). pose proof (rendered_reads i (render_clients ρ i) Ht) as Hr.
  assert (render_clients ρ i = set_clients_setting (JArr (account_json <$> (range_of ρ (clients i)).*2)) i) as Hren.
  { apply render_kinded; [done|]. intros e' a Ha. by destruct (Ht e' a Ha). }
  specialize (Hr ltac:(rewrite Hren; apply written_type_setting)).
  change (In_Tag i) with (shape i).1. rewrite <- (render_shape i). cbn [shape fst].
  rewrite (spawn_reads e given bytes m id m' (render_clients ρ i) (account_json <$> (range_of ρ (clients i)).*2)).
  - by rewrite Hr, list_to_map_fmap, range_to_map.
  - done.
  - unfold tags. rewrite Hin. pose proof (p_tags _ (prepared_settled x Hp)) as Hnd. unfold tags in Hnd. by rewrite settled_inbounds in Hnd.
  - done.
  - rewrite Hin. by apply list_elem_of_fmap_2.
  - rewrite Hren. cbn. by rewrite lookup_insert_eq.
  - rewrite Hr, <- list_fmap_compose. exact (range_nodup ρ (clients i)).
Qed.

(** *** Starting, stopping, waiting *)

Definition down w : Prop := Core_Started w.1.1 w.2 = false.

(** A step that leaves a stopped core stopped, and the flag alone. *)
Definition stays_down w w' : Prop := restarting w'.1.1 = restarting w.1.1 ∧ (down w → down w').

#[local] Instance stays_down_preorder : PreOrder stays_down.
Proof. split; [by intros w|]. intros w1 w2 w3 [R1 D1] [R2 D2]. split; [congruence|auto]. Qed.

Lemma keep_down c f m c' f' m' :
  process c' = None ∨ process c' = process c → restarting c' = restarting c → reaps m m' → stays_down (c, f, m) (c', f', m').
Proof.
  intros Hp Hr Hm. split; [done|]. unfold down, Core_Started. cbn. destruct Hp as [-> | ->]; [done|].
  destruct (process c) as [cmd|]; [|done]. rewrite !negb_false_iff. apply Hm.
Qed.

Notation idle g := (preserves stays_down g).

Lemma reset_idle : idle reset_diagnostics.
Proof. intros [[c f] m]. unfold reset_diagnostics. destruct (runtimeLogs (core_logs c)); (apply keep_down; [by right|done|by intros h]). Qed.

Lemma kill_previous_idle : idle kill_previous.
Proof.
  intros [[c f] m]. unfold kill_previous. destruct (process c) as [cmd|] eqn:Hp; [|done]. cbn. apply keep_down; [by left|done|].
  apply calm_reaps. etransitivity; [apply kill_calm|apply tree_calm].
Qed.

Lemma machine_idle {A} (g : eff M A) : (∀ m, calm m (g m).2) → idle (on_machine g).
Proof.
  intros Hg [[c f] m]. unfold on_machine. specialize (Hg m). destruct (g m) as [r m']. apply keep_down; [by right|done|].
  exact (calm_reaps _ _ Hg).
Qed.

Lemma open_logger_idle b a e : idle (open_logger b a e).
Proof.
  intros [[c f] m]. unfold open_logger. destruct (SetLogFile m_open_log a e (Logger_New b, f)) as [r [l f']].
  apply keep_down; [by right|done|by intros h].
Qed.

Lemma generate_idle bytes : idle (GenerateConfigFile bytes).
Proof.
  intros [[c f] m]. unfold GenerateConfigFile. destruct (m_Indent bytes) as [pretty|]; [|done].
  pose proof (mkdir_calm (configPath c) m) as Hm. destruct (m_MkdirAll (configPath c) m) as [[[]|e] m1];
    [|apply keep_down; [by right|done|exact (calm_reaps _ _ Hm)]].
  pose proof (write_calm (configPath c +:+ "/xray.json") pretty m1) as Hw.
  destruct (m_WriteFile _ pretty m1) as [r m2]. apply keep_down; [by right|done|]. apply calm_reaps. by etransitivity.
Qed.

(** From a stopped core: the process is started with [bytes], or there is none. *)
Definition launches (bytes : string) (g : eff (World (M:=M)) unit) : Prop := ∀ w, down w →
  restarting (g w).2.1.1 = restarting w.1.1 ∧
  match (g w).1 with
  | Ok _ => ∃ e id m0, m_spawn e bytes m0 = (Ok id, (g w).2.2)
  | Err _ => down (g w).2
  end.

Lemma launches_bind {A} (g : eff (World (M:=M)) A) (k : A → eff (World (M:=M)) unit) bytes :
  idle g → (∀ a, launches bytes (k a)) → launches bytes (g ≫= k).
Proof.
  intros Hg Hk w Hd. unfold mbind, eff_bind. destruct (Hg w) as [Hr Hdown]. destruct (g w) as [[a|e] w']; cbn [fst snd] in *.
  - destruct (Hk a w' (Hdown Hd)) as [Hr' Hm]. split; [congruence|exact Hm].
  - split; [done|auto].
Qed.

Lemma launch_launches bytes sockets : launches bytes (launch bytes sockets).
Proof.
  intros [[c f] m] Hd. unfold launch. pose proof (spawn_law (executablePath c) bytes m) as Hl.
  destruct (m_spawn (executablePath c) bytes m) as [[[id pid]|e] m'] eqn:Hsp; cbn.
  - split; [done|]. by exists (executablePath c), (id, pid), m.
  - destruct (keep_down c f m c f m') as [_ Hk]; [by right|done|exact (calm_reaps _ _ Hl)|]. split; [done|by apply Hk].
Qed.

Lemma start_run_launches debug bytes afile efile sockets : launches bytes (start_run debug bytes afile efile sockets).
Proof.
  unfold start_run. apply launches_bind; [destruct debug; [apply generate_idle|by intros w]|]. intros [] w Hd.
  assert (start_locked debug bytes afile efile sockets w = (
    _ ← reset_diagnostics;
    _ ← (λ '(c, f, m), (Ok (), (c, f, (cleanupOrphanedProcesses c m).2)));
    _ ← kill_previous;
    _ ← step_machine (removeUnixSocketFiles sockets);
    _ ← on_machine m_StdoutPipe;
    _ ← open_logger debug afile efile;
    launch bytes sockets) w) as ->.
  { unfold start_locked, get. unfold mbind at 1, eff_bind at 1. destruct w as [[c f] m]. unfold down in Hd. cbn in Hd. by rewrite Hd. }
  revert w Hd. match goal with |- ∀ w, down w → restarting (?g w).2.1.1 = _ ∧ _ => change (launches bytes g) end.
  apply launches_bind; [apply reset_idle|intros []]. apply launches_bind; [|intros []].
  { intros [[c' f'] m']. apply keep_down; [by right|done|]. apply calm_reaps, cleanup_calm. }
  apply launches_bind; [apply kill_previous_idle|intros []]. apply launches_bind; [|intros []].
  { intros [[c' f'] m']. apply keep_down; [by right|done|]. apply calm_reaps, remove_sockets_calm. }
  apply launches_bind; [apply machine_idle, pipe_calm|intros []].
  apply launches_bind; [apply open_logger_idle|intros []]. apply launch_launches.
Qed.

(** The core serves the users of [x], or does not run. *)
Definition outcome x (r : result unit) w : Prop := match r with Ok _ => fresh x w.2 | Err _ => down w end.

Lemma Core_Start_fresh debug x w : prepared x → down w →
  let '(r, (x', w')) := Core_Start marshal ρ debug (x, w) in
  x' = settled marshal ρ x ∧ restarting w'.1.1 = restarting w.1.1 ∧ outcome x r w'.
Proof.
  intros Hp Hd. unfold Core_Start. pose proof (eq_refl (settled marshal ρ x)) as Hset. unfold settled at 2 in Hset.
  assert (text_of marshal ρ x = config_bytes (ToBytes marshal ρ (GetLogFiles x).2).1) as Htext by done.
  destruct (GetLogFiles x) as [[afile efile] x1]. cbn [snd] in *.
  destruct (ToBytes marshal ρ x1) as [r x2]. cbn [fst snd] in *.
  pose proof (start_run_launches debug (config_bytes r) afile efile (collectUnixSocketPaths x2) w Hd) as [Hr Hl].
  destruct (start_run _ _ _ _ _ w) as [r' w']. cbn [fst snd] in *. split_and!; [done..|].
  destruct r' as [[]|e]; [|exact Hl]. destruct Hl as (e & id & m0 & Hsp). rewrite <- Htext in Hsp. by eapply spawn_fresh.
Qed.

Lemma Core_Stop_down w : down (Core_Stop w).2 ∧ restarting (Core_Stop w).2.1.1 = restarting w.1.1.
Proof.
  destruct w as [[c f] m]. unfold Core_Stop, mbind, eff_bind, get, put, mret, eff_ret.
  destruct (nothing_to_stop c m) eqn:Hn.
  - unfold nothing_to_stop in Hn. rewrite !andb_true_iff, !negb_true_iff in Hn. by destruct Hn as [[[[? _] _] _] _].
  - unfold close_logger. cbn [set_cancel set_sockets set_stopping set_process core_logs]. by destruct (logger (core_logs c)).
Qed.

Lemma Core_Restart_fresh debug x w : prepared x → restarting w.1.1 = false →
  let '(r, (x', w')) := Core_Restart marshal ρ debug (x, w) in
  x' = settled marshal ρ x ∧ restarting w'.1.1 = false ∧ outcome x r w'.
Proof.
  intros Hp Hr. destruct w as [[c f] m]. unfold Core_Restart. cbn in Hr. rewrite Hr.
  destruct (Core_Stop_down (set_restarting true c, f, m)) as [Hd _].
  destruct (Core_Stop (set_restarting true c, f, m)) as [r1 w1]. cbn [snd] in Hd.
  pose proof (Core_Start_fresh debug x w1 Hp Hd) as Hs.
  destruct (Core_Start marshal ρ debug (x, w1)) as [r [x' [[c' f'] m']]]. destruct Hs as (-> & _ & Ho). split_and!; [done..|].
  by destruct r.
Qed.

(** Waiting changes neither the process nor the users. *)
Definition idles w w' : Prop :=
  process w'.1.1 = process w.1.1 ∧ restarting w'.1.1 = restarting w.1.1 ∧ reaps w.2 w'.2 ∧
  ∀ t, api_users w'.2 t = api_users w.2 t.

#[local] Instance idles_preorder : PreOrder idles.
Proof.
  split; [by intros w; split_and!|]. intros w1 w2 w3 (P1 & R1 & M1 & U1) (P2 & R2 & M2 & U2).
  split_and!; [congruence..|by etransitivity|]. intros t. by rewrite U2, U1.
Qed.

Lemma idles_down w w' : idles w w' → down w → down w'.
Proof.
  destruct w as [[c f] m], w' as [[c' f'] m']. intros (Hp & Hr & Hm & _).
  by destruct (keep_down c f m c' f' m') as [_ Hk]; [right|..].
Qed.

(** The system may end processes; it does not change the users of a core. *)
Definition steady (e : env_event (M:=M)) : Prop :=
  match e with OsStep g => ∀ m, calm m (g m) ∧ ∀ t, api_users (g m) t = api_users m t | _ => True end.
Definition steady_moments (ms : list moment) : Prop := Forall (λ mo, Forall steady (meanwhile mo)) ms.

Lemma capture_idles g w : idles w (on_capture g w).2.
Proof. destruct w as [[c f] m]. unfold on_capture. destruct (g (core_logs c, f)) as [r [l f']]. by split_and!. Qed.

Lemma env_step_idles w e : steady e → idles w (env_step w e).
Proof.
  intros He. destruct e as [line|g|id err]; cbn [env_step]; [apply capture_idles| |].
  - destruct w as [[c f] m]. destruct (He m) as [Hc Hu]. split_and!; [done..|exact (calm_reaps _ _ Hc)|exact Hu].
  - destruct w as [[c f] m]. unfold handleProcessExit. destruct (stopping c || _); [done|]. apply (capture_idles _ (c, f, m)).
Qed.

Lemma env_steps_idles es w : Forall steady es → idles w (foldl env_step w es).
Proof.
  intros Hs. revert w. induction Hs as [|e es He _ IH]; intros w; [done|]. cbn.
  etransitivity; [by apply env_step_idles|apply IH].
Qed.

Lemma status_idles ms w : steady_moments ms → idles w (checkXrayStatus cfg ms w).2.
Proof.
  intros Hq. revert w. induction Hq as [|mo ms Hmo _ IH]; intros w; [done|]. cbn [checkXrayStatus].
  pose proof (env_steps_idles _ w Hmo) as Hs. destruct (foldl env_step w (meanwhile mo)) as [[c f] m].
  destruct (woken mo) as [| |[[]|e]]; try exact Hs; destruct (extractStartupError c); try exact Hs.
  - etransitivity; [exact Hs|apply IH].
  - destruct (Core_Started c m); [etransitivity; [exact Hs|apply IH]|exact Hs].
Qed.

(** ** The backend *)

Context `{!XrayServices M} `{!ServicesCalm M}.
Context (reparse : Config → result Config) (Hreparse : ∀ x, reparses reparse x).
Implicit Types (s : XS (M:=M)) (b : bool) (left : gset (string * string)).

(** The users the removals of a request leave behind in the core. *)
Definition left_by_user (user : User) s : gset (string * string) := SyncUser_left user (xr_config s.1) s.2.2.
Definition left_by_update (users : list (option User)) s : gset (string * string) := UpdateUsers_left ρ users (xr_config s.1) s.2.2.

(** The operations that serve the users, and what may happen between them.  The
    set holds the users failed removals left behind since the last restart, the
    flag says whether every user operation since then reported success. *)
Inductive serve_step : gset (string * string) * bool * XS (M:=M) → gset (string * string) * bool * XS (M:=M) → Prop :=
  | serve_env e left b (o : Xray) w : steady e → serve_step (left, b, (o, w)) (left, b, (o, env_step w e))
  | serve_SyncUser user left b s :
      serve_step (left, b, s) (left ∪ left_by_user user s,
        b && is_ok (with_api (Xray_SyncUser (Some user)) s).1, (with_api (Xray_SyncUser (Some user)) s).2)
  | serve_UpdateUsers users left b s : NoDup (GetEmail <$> users) →
      serve_step (left, b, s) (left ∪ left_by_update users s,
        b && is_ok (with_api (Xray_UpdateUsers ρ users) s).1, (with_api (Xray_UpdateUsers ρ users) s).2)
  | serve_SyncUsers users ms ms' left b s : steady_moments ms → steady_moments ms' →
      (Xray_SyncUsers marshal ρ cfg reparse users ms ms' s).1 ≠ Ok None →
      serve_step (left, b, s) (∅, true, (Xray_SyncUsers marshal ρ cfg reparse users ms ms' s).2)
  | serve_UpdateRestart users ms ms' left b s : steady_moments ms → steady_moments ms' →
      (Xray_UpdateUsersAndRestart marshal ρ cfg reparse users ms ms' s).1 ≠ Ok None →
      serve_step (left, b, s) (∅, true, (Xray_UpdateUsersAndRestart marshal ρ cfg reparse users ms ms' s).2)
  | serve_health probe failures left b s :
      serve_step (left, b, s) (left, b, (health_decide marshal ρ cfg probe failures s).2)
  | serve_Restart left b s : serve_step (left, b, s) (∅, true, (Xray_Restart marshal ρ cfg s).2)
  | serve_Shutdown left b s : serve_step (left, b, s) (left, b, (Xray_Shutdown s).2).

(** The invariant, with the users left behind, and where there are none. *)
Definition serving_but left b s : Prop :=
  restarting s.2.1.1 = false ∧ prepared (xr_config s.1) ∧
  (down s.2 ∨ Forall (λ i, but_by left b i s.2.2) (C_Inbounds (xr_config s.1))).

Definition serving b s : Prop :=
  restarting s.2.1.1 = false ∧ prepared (xr_config s.1) ∧
  (down s.2 ∨ Forall (λ i, served_by b i s.2.2) (C_Inbounds (xr_config s.1))).

Lemma serving_but_none b s : serving_but ∅ b s ↔ serving b s.
Proof.
  unfold serving_but, serving.
  assert (∀ l, Forall (λ i, but_by ∅ b i s.2.2) l ↔ Forall (λ i, served_by b i s.2.2) l) as ->; [|done].
  intros l. rewrite !Forall_forall. by setoid_rewrite but_by_none.
Qed.

Lemma serving_but_weaken left left' b b' s :
  left ⊆ left' → (b' = true → b = true) → serving_but left b s → serving_but left' b' s.
Proof.
  intros Hl Hb (Hr & Hp & Hs). split_and!; [done..|]. destruct Hs as [?|Hs]; [by left|right].
  eapply Forall_impl; [exact Hs|]. intros i. by apply but_by_weaken.
Qed.

Lemma serving_weaken b b' s : (b' = true → b = true) → serving b s → serving b' s.
Proof. rewrite <- !serving_but_none. by apply serving_but_weaken. Qed.

Lemma serving_but_idles left b (x : Xray) w w' : idles w w' → serving_but left b (x, w) → serving_but left b (x, w').
Proof.
  intros Hi (Hr & Hp & Hs). pose proof Hi as (_ & Hr' & _ & Hu). split_and!; [cbn in *; congruence|done|].
  destruct Hs as [Hs|Hs]; [left; by eapply idles_down|right]. eapply Forall_impl; [exact Hs|].
  intros i Hs' He. cbn. rewrite Hu. by apply Hs'.
Qed.

Lemma serving_idles b (x : Xray) w w' : idles w w' → serving b (x, w) → serving b (x, w').
Proof. rewrite <- !serving_but_none. apply serving_but_idles. Qed.

(** The core was restarted with the configuration [y], which is the stored one
    now. *)
Definition restarted y s : Prop := serving true s ∧ xr_config s.1 = settled marshal ρ y.

Lemma restarted_idles y (x : Xray) w w' : idles w w' → restarted y (x, w) → restarted y (x, w').
Proof. intros Hi [Hs Hc]. split; [by eapply serving_idles|done]. Qed.

Lemma restarted_outcome y r (x : Xray) w : prepared y → restarting w.1.1 = false → outcome y r w →
  restarted y (set_config (settled marshal ρ y) x, w).
Proof.
  intros Hp Hr Ho. split; [|done]. split_and!; [done|by apply prepared_settled|].
  destruct r; [right; by apply fresh_served|by left].
Qed.

Lemma Restart_serving (x : Xray) w : prepared (xr_config x) → restarting w.1.1 = false →
  restarted (xr_config x) (Xray_Restart marshal ρ cfg (x, w)).2.
Proof.
  intros Hp Hr. unfold Xray_Restart, restartCoreWithConfig.
  pose proof (Core_Restart_fresh (Debug cfg) (xr_config x) w Hp Hr) as Hc.
  destruct (Core_Restart _ _ _ _) as [r [x' w']]. destruct Hc as (-> & Hr' & Ho). by eapply restarted_outcome.
Qed.

Lemma restore_after_serving e ms (x : Xray) w : steady_moments ms → prepared (xr_config x) → restarting w.1.1 = false →
  let '(r, s') := restore_after marshal ρ cfg e ms (x, w) in
  restarted (xr_config x) s' ∧ (r ≠ Ok None → is_ok r = false).
Proof.
  intros Hq Hp Hr. unfold restore_after, restorePreviousConfig. pose proof (Restart_serving x w Hp Hr) as Hs.
  destruct (Xray_Restart marshal ρ cfg (x, w)) as [[[]|e1] [x1 w1]]; [|by split]. cbn [snd] in Hs.
  pose proof (status_idles ms w1 Hq) as Hi.
  destruct (checkXrayStatus cfg ms w1) as [[[[]|]|e2] w2]; (split; [by eapply restarted_idles|done]).
Qed.

(** A candidate that is accepted replaces the configuration, one that is not
    leaves the previous one. *)
Lemma apply_serving candidate ms ms' left b s : steady_moments ms → steady_moments ms' → prepared candidate → serving_but left b s →
  let '(r, s') := applyConfigWithRestart marshal ρ cfg candidate ms ms' s in
  r ≠ Ok None → restarted (if is_ok r then candidate else xr_config s.1) s'.
Proof.
  intros Hq Hq' Hc (Hr & Hp & _). destruct s as [x w]. cbn in Hr, Hp. unfold applyConfigWithRestart, restartCoreWithConfig.
  pose proof (Core_Restart_fresh (Debug cfg) candidate w Hc Hr) as Hs.
  assert (∀ e w', restarting w'.1.1 = false → let '(r, s') := restore_after marshal ρ cfg e ms' (x, w') in
    r ≠ Ok None → restarted (if is_ok r then candidate else xr_config x) s') as Hrestore.
  { intros e w' Hr'. pose proof (restore_after_serving e ms' x w' Hq' Hp Hr') as Hres.
    destruct (restore_after _ _ _ e ms' (x, w')) as [r s']. destruct Hres as [Hres Hok]. intros Hn. by rewrite Hok. }
  destruct (Core_Restart _ _ _ _) as [[[]|e] [x1 w1]]; destruct Hs as (-> & Hr1 & Ho); [|by apply Hrestore].
  pose proof (status_idles ms w1 Hq) as Hi. destruct (checkXrayStatus cfg ms w1) as [[[[]|]|e] w2]; cbn [snd] in Hi.
  - intros _. eapply restarted_idles; [exact Hi|]. by apply (restarted_outcome candidate (Ok ())) with (x := x).
  - done.
  - apply Hrestore. destruct Hi as (_ & Hi & _). congruence.
Qed.

(** The health check does nothing or restarts the core. *)
Lemma health_cases probe failures s :
  (health_decide marshal ρ cfg probe failures s).2 = s ∨
  (health_decide marshal ρ cfg probe failures s).2 = (Xray_Restart marshal ρ cfg s).2.
Proof.
  assert (∀ n, (health_restart marshal ρ cfg n s).2 = (Xray_Restart marshal ρ cfg s).2) as Hre
    by (intros n; unfold health_restart; by destruct (Xray_Restart marshal ρ cfg s) as [[[]|e] s']).
  unfold health_decide. destruct probe as [[]|e]; [by left|]. destruct (errors_Is e ContextCanceled); [by left|].
  destruct s as [x [[c f] m]]. destruct (negb (Core_Started c m)); [right; apply Hre|].
  destruct (maxFailures <=? failures + 1); [right; apply Hre|by left].
Qed.

Lemma restarted_but y left b s : restarted y s → serving_but left b s.
Proof. intros [Hs _]. apply serving_but_none in Hs. by apply (serving_but_weaken ∅ left true b); [apply empty_subseteq|..]. Qed.

Lemma health_serving_but probe failures left b s : serving_but left b s →
  let s' := (health_decide marshal ρ cfg probe failures s).2 in
  serving_but left b s' ∧ (xr_config s'.1 = xr_config s.1 ∨ xr_config s'.1 = settled marshal ρ (xr_config s.1)).
Proof.
  intros Hs. destruct (health_cases probe failures s) as [-> | ->]; [by split; [|left]|].
  destruct s as [x w]. destruct Hs as (Hr & Hp & _). pose proof (Restart_serving x w Hp Hr) as Hx.
  split; [by eapply restarted_but|right; apply Hx].
Qed.

Lemma health_serving probe failures b s : serving b s →
  let s' := (health_decide marshal ρ cfg probe failures s).2 in
  serving b s' ∧ (xr_config s'.1 = xr_config s.1 ∨ xr_config s'.1 = settled marshal ρ (xr_config s.1)).
Proof. cbv zeta. rewrite <- !serving_but_none. apply health_serving_but. Qed.

(** An operation on the configuration and the API of the core. *)
Lemma with_api_serving {A} (op : eff (Config * M) A) left left' b b' s : serving_but left b s →
  prepared (op (xr_config s.1, s.2.2)).2.1 → calm s.2.2 (op (xr_config s.1, s.2.2)).2.2 →
  (Forall (λ i, but_by left b i s.2.2) (C_Inbounds (xr_config s.1)) →
   Forall (λ i, but_by left' b' i (op (xr_config s.1, s.2.2)).2.2) (C_Inbounds (op (xr_config s.1, s.2.2)).2.1)) →
  serving_but left' b' (with_api op s).2.
Proof.
  destruct s as [x [[c f] m]]. intros (Hr & _ & Hs) Hp Hc Hserve. unfold with_api. cbn in *.
  destruct (op (xr_config x, m)) as [r [conf m']]. cbn in *. split_and!; [done..|].
  destruct Hs as [Hs|Hs]; [left|by right; apply Hserve]. revert Hs. unfold down, Core_Started. cbn.
  destruct (process c) as [cmd|]; [|done]. rewrite !negb_false_iff. apply (calm_reaps _ _ Hc).
Qed.

Lemma SyncUser_serving_but user left b s : serving_but left b s →
  serving_but (left ∪ left_by_user user s) (b && is_ok (with_api (Xray_SyncUser (Some user)) s).1)
    (with_api (Xray_SyncUser (Some user)) s).2.
Proof.
  intros Hs. pose proof Hs as (_ & Hp & _). apply (with_api_serving _ left _ b); [done|by apply prepared_SyncUser|apply SyncUser_calm|].
  intros Hserve. pose proof (SyncUser_but left b user (xr_config s.1) s.2.2 (p_tags _ Hp) (p_methods _ Hp) Hserve) as Hu.
  unfold left_by_user. destruct s as [x [[c f] m]]. cbn [fst snd] in *. unfold with_api.
  by destruct (Xray_SyncUser (Some user) (xr_config x, m)) as [r [c' m']].
Qed.

Lemma UpdateUsers_serving_but users left b s : NoDup (GetEmail <$> users) → serving_but left b s →
  serving_but (left ∪ left_by_update users s) (b && is_ok (with_api (Xray_UpdateUsers ρ users) s).1)
    (with_api (Xray_UpdateUsers ρ users) s).2.
Proof.
  intros Hnd Hs. pose proof Hs as (_ & Hp & _).
  apply (with_api_serving _ left _ b); [done|rewrite UpdateUsers_config; by apply prepared_update|apply UpdateUsers_calm|].
  intros Hserve. pose proof (UpdateUsers_but left b ρ users (xr_config s.1) s.2.2 (p_tags _ Hp) (p_methods _ Hp) Hnd Hserve) as Hu.
  unfold left_by_update. destruct s as [x [[c f] m]]. cbn [fst snd] in *. unfold with_api.
  by destruct (Xray_UpdateUsers ρ users (xr_config x, m)) as [r [c' m']].
Qed.

(** The same where removals work. *)
Lemma SyncUser_serving user b s : removals_work (X:=M) → serving b s →
  serving (b && is_ok (with_api (Xray_SyncUser (Some user)) s).1) (with_api (Xray_SyncUser (Some user)) s).2.
Proof.
  rewrite <- !serving_but_none. intros Hw Hs. pose proof (SyncUser_serving_but user ∅ b s Hs) as Hu.
  unfold left_by_user in Hu. by rewrite SyncUser_none, union_empty_r_L in Hu.
Qed.

Lemma UpdateUsers_serving users b s : removals_work (X:=M) → NoDup (GetEmail <$> users) → serving b s →
  serving (b && is_ok (with_api (Xray_UpdateUsers ρ users) s).1) (with_api (Xray_UpdateUsers ρ users) s).2.
Proof.
  rewrite <- !serving_but_none. intros Hw Hnd Hs. pose proof (UpdateUsers_serving_but users ∅ b s Hnd Hs) as Hu.
  unfold left_by_update in Hu. by rewrite UpdateUsers_none, union_empty_r_L in Hu.
Qed.

Lemma serve_step_serving t t' : serve_step t t' → serving_but t.1.1 t.1.2 t.2 → serving_but t'.1.1 t'.1.2 t'.2.
Proof.
  intros Hstep. destruct Hstep as [e left b x w He|user left b s|users left b s Hnd|users ms ms' left b s Hq Hq' Hn
    |users ms ms' left b s Hq Hq' Hn|probe failures left b s|left b s|left b s]; cbn [fst snd]; intros Hs.
  - eapply serving_but_idles; [by apply env_step_idles|done].
  - by apply SyncUser_serving_but.
  - by apply UpdateUsers_serving_but.
  - pose proof Hs as (_ & Hp & _). revert Hn. unfold Xray_SyncUsers. rewrite Clone_same by (apply Hp || apply Hreparse). intros Hn.
    pose proof (apply_serving (Config_syncUsers users (xr_config s.1)) ms ms' left b s Hq Hq' (prepared_sync _ _ Hp) Hs) as Ha.
    destruct (applyConfigWithRestart _ _ _ _ ms ms' s) as [r s']. eapply restarted_but. by apply Ha.
  - pose proof Hs as (_ & Hp & _). revert Hn. unfold Xray_UpdateUsersAndRestart. rewrite Clone_same by (apply Hp || apply Hreparse). intros Hn.
    pose proof (apply_serving (Config_updateUsers ρ users (xr_config s.1)) ms ms' left b s Hq Hq' (prepared_update _ _ Hp) Hs) as Ha.
    destruct (applyConfigWithRestart _ _ _ _ ms ms' s) as [r s']. eapply restarted_but. by apply Ha.
  - by apply health_serving_but.
  - destruct s as [x w]. destruct Hs as (Hr & Hp & _). by eapply restarted_but, Restart_serving.
  - destruct s as [x w]. destruct Hs as (Hr & Hp & _). destruct (Core_Stop_down w) as [Hd Hr']. unfold Xray_Shutdown.
    split_and!; [cbn in *; congruence|done|by left].
Qed.

Lemma serve_steps_serving t t' : rtc serve_step t t' → serving_but t.1.1 t.1.2 t.2 → serving_but t'.1.1 t'.1.2 t'.2.
Proof. induction 1 as [|t1 t2 t3 Hs _ IH]; [done|]. intros Ht. apply IH. by eapply serve_step_serving. Qed.

(** The configuration a core is created with. *)
Definition created ifaces p q users x : Config :=
  let x := (ApplyAPI ifaces p q x).2 in if bool_decide (length users = 0%nat) then x else Config_syncUsers users x.

Lemma Xray_New_serving abs ifaces api x users p q ms f m s fm : steady_moments ms →
  (is_ok (ApplyAPI ifaces p q x).1 = true → prepared (ApplyAPI ifaces p q x).2) →
  Xray_New marshal ρ cfg abs ifaces api x users p q ms (f, m) = (Ok (Some s), fm) →
  is_ok (ApplyAPI ifaces p q x).1 = true ∧ restarted (created ifaces p q users x) s.
Proof.
  intros Hq Hp. unfold Xray_New. destruct (abs (XrayExecutablePath cfg)) as [ex|]; [|done].
  destruct (abs (XrayAssetsPath cfg)); [|done]. destruct (abs (GeneratedConfigPath cfg)) as [dir|]; [|done].
  unfold created. destruct (ApplyAPI ifaces p q x) as [[[]|] x1]; [|done]. specialize (Hp eq_refl). cbn [fst snd is_ok] in *.
  set (x2 := if bool_decide (length users = 0%nat) then x1 else Config_syncUsers users x1).
  assert (prepared x2) as Hp2 by (subst x2; case_bool_decide; [done|by apply prepared_sync]). clearbody x2.
  unfold NewXRayCore. destruct (LogBufferSize cfg <? 0); [done|].
  destruct (refreshVersion ex m) as [[version|] m1]; [|done].
  set (core := mkCore _ _ _ _ _ _ _ _ _ _ _). pose proof (Core_Start_fresh (Debug cfg) x2 (core, f, m1) Hp2 eq_refl) as Hst.
  destruct (Core_Start _ _ _ _) as [[[]|] [x3 w]]; [|by destruct w as [[? ?] ?]]. destruct Hst as (-> & Hr & Ho).
  destruct api as [[]|]; [|by destruct (Xray_Shutdown _) as [? [? [[? ?] ?]]]].
  pose proof (status_idles ms w Hq) as Hi.
  destruct (checkXrayStatus cfg ms w) as [[[[]|]|] [[c4 f4] m4]]; [|done|by destruct (Xray_Shutdown _) as [? [? [[? ?] ?]]]].
  intros [= <- <-]. split; [done|]. eapply restarted_idles; [exact Hi|].
  exact (restarted_outcome x2 (Ok ()) (mkXray x2 q true false) w Hp2 Hr Ho).
Qed.
End Start.

(** ** Property *)

(** C18: the core serves the stored users over the life of the backend, one
    request at a time.  The backend is created with a configuration in order
    (distinct tags, known Shadowsocks methods, accounts of the inbounds' types)
    that survives its clone ([reparses]); then synchronisations of one, of several
    (each named once) and of all users whose waits end, restarts and steps of the
    system that leave the core's users alone follow one another, successful or not
    (XrayRace shows what overlapping ones do).  While the core runs, a user it
    serves on an included inbound is a stored client of that inbound, with the
    stored credential (up to the VLESS flow, which may be the inbound's), or a
    removal of that user from that inbound has failed since the last restart: the
    code discards that error, [left] collects these users, and a restart drops them
    (one by the health check is a [serve_Restart] too, by [health_cases]).  Unless
    an operation on single users has reported an error since then, every stored
    client is served. *)
Theorem xray_serves_the_stored_users `{UuidLib} `{Sha256} `{JsonText} {M K : Type} `{!Machine M} `{!XrayApi M} `{!MachineLaws M}
    `{!XrayServices M} `{!ServicesCalm M} (marshal : Config → result string) (ρ : map_range) (cfg : @NodeConfig K)
    `{!CoreConfig M marshal} (reparse : Config → result Config) (abs : string → result string)
    (ifaces : result (list NetInterface)) (api : result unit) (x : Config) (users : list (option User)) (p q : Z)
    (ms : list (moment (M:=M))) (f : Files) (m : M) (fm : Files * M) (left : gset (string * string)) (clean : bool)
    (s0 s : XS (M:=M)) (Hreparse : ∀ y, reparses reparse y)
    (Hprepared : prepared (ApplyAPI ifaces p q x).2) (Hquiet : steady_moments ms)
    (Hnew : Xray_New marshal ρ cfg abs ifaces api x users p q ms (f, m) = (Ok (Some s0), fm))
    (Hsteps : rtc (serve_step marshal ρ cfg reparse) (∅, true, s0) (left, clean, s))
    (Hrunning : Core_Started s.2.1.1 s.2.2 = true) (i : Inbound) (Hi : i ∈ C_Inbounds (xr_config s.1)) (Hin : exclude i = false) :
  (∀ email cu, api_users s.2.2 (In_Tag i) !! email = Some cu →
     (In_Tag i, email) ∈ left ∨
     ∃ a, clients i !! email = Some a ∧ (cu = plain_user a ∨ cu = core_user_of i a)) ∧
  (clean = true → ∀ email, is_Some (clients i !! email) → is_Some (api_users s.2.2 (In_Tag i) !! email)).
Proof.
  assert (serving_but left clean s) as (_ & _ & Hs).
  { refine (serve_steps_serving marshal ρ cfg reparse Hreparse (∅, true, s0) (left, clean, s) Hsteps _).
    apply serving_but_none.
    by destruct (Xray_New_serving marshal ρ cfg abs ifaces api x users p q ms f m s0 fm Hquiet (λ _, Hprepared) Hnew) as [_ [? _]]. }
  destruct Hs as [Hd|Hs]; [unfold down in Hd; congruence|]. rewrite Forall_forall in Hs.
  destruct (Hs i Hi Hin) as [Hstored Hall]. by split.
Qed.
