(* ===== verification/XrayRoster.v ===== *)
(** * The inbounds of an Xray backend and the users asked for

    [serves_inbounds clean l s]: the backend [s] keeps the inbounds [l] with their
    users, and its core serves them as XrayServe says.  The lemmas say how the
    users move: the node creates a backend with those of the request, a full
    synchronisation replaces them, an update changes the ones it names, and a
    request that fails leaves a configuration and not half of it. *)

From S2P Require Import Prelude GoString Json Helper Messages NodeConfig Logger XrayLogs XrayAccount XrayInbound XrayClients XrayUser XrayApply XrayApi XrayRender XrayTyped XrayCore XrayRun XrayLife XrayProps XrayReap XrayStats NodeBackends NodeLaws XrayServe.

#[local] Open Scope Z_scope.

(** ** The users of an inbound *)

Section Roster.
Context `{UuidLib} `{Sha256}.
Implicit Types (i : Inbound) (l : list Inbound) (m : gmap string Account) (u : option User) (users : list (option User)).

(** A change of the clients of every included inbound. *)
Definition on_included (f : Inbound → gmap string Account → gmap string Account) i : Inbound :=
  if exclude i then i else set_clients (f i (clients i)) i.

(** What a full synchronisation leaves, and an update: each user it names has
    its account on the inbound, or is not on it any more. *)
Definition only_users users i m : gmap string Account := foldl (apply_active i) ∅ users.
Definition serve_user i m u : gmap string Account :=
  match active i u with Some a => <[GetEmail u := a]> m | None => delete (GetEmail u) m end.
Definition also_users users i m : gmap string Account := foldl (serve_user i) m users.

Lemma unnamed_inactive i users e : e ∉ GetEmail <$> users → foldl (apply_active i) ∅ users !! e = None.
Proof.
  intros Hn. destruct (foldl (apply_active i) ∅ users !! e) as [a|] eqn:He; [|done]. exfalso. apply Hn.
  apply synced_lookup in He as (pre & u & post & -> & <- & _). apply list_elem_of_fmap_2. set_solver.
Qed.

Lemma also_users_lookup users i m e : NoDup (GetEmail <$> users) →
  also_users users i m !! e = if bool_decide (e ∈ GetEmail <$> users) then only_users users i ∅ !! e else m !! e.
Proof.
  unfold also_users, only_users. induction users as [|u users IH] using rev_ind; [done|].
  rewrite fmap_app, NoDup_app, !foldl_snoc. cbn [fmap list_fmap]. intros (Hnd & Hu & _).
  assert (GetEmail u ∉ GetEmail <$> users) as Hnu by (intros Hin; apply (Hu _ Hin); set_solver).
  unfold serve_user at 1, apply_active at 1. destruct (decide (e = GetEmail u)) as [->|Hne].
  - rewrite bool_decide_eq_true_2 by set_solver.
    destruct (active i u); rewrite ?lookup_insert_eq, ?lookup_delete_eq; [done|]. by rewrite unnamed_inactive.
  - rewrite (bool_decide_ext (e ∈ _ ++ _) (e ∈ GetEmail <$> users)) by set_solver.
    destruct (active i u); rewrite ?lookup_insert_ne, ?lookup_delete_ne by done; by apply IH.
Qed.

Lemma also_users_at users i m u : NoDup (GetEmail <$> users) → u ∈ users → also_users users i m !! GetEmail u = active i u.
Proof.
  unfold also_users. induction users as [|v users IH] using rev_ind; [set_solver|].
  rewrite fmap_app, NoDup_app, foldl_snoc. intros (Hnd & Hv & _) [Hu| ->%list_elem_of_singleton]%elem_of_app; unfold serve_user at 1.
  - assert (GetEmail u ≠ GetEmail v) as Hne by (intros Heq; apply (Hv (GetEmail u)); [by apply list_elem_of_fmap_2|set_solver]).
    destruct (active i v); rewrite ?lookup_insert_ne, ?lookup_delete_ne by done; by apply IH.
  - destruct (active i v); by rewrite ?lookup_insert_eq, ?lookup_delete_eq.
Qed.

(** ** What the operations make of a configuration *)

Lemma sync_included users c : C_Inbounds (Config_syncUsers users c) = on_included (only_users users) <$> C_Inbounds c.
Proof.
  cbn. apply list_fmap_ext. intros k i _. unfold on_included. destruct (exclude i); [done|]. apply syncUsers_eq.
Qed.

Lemma request_update_also ρ users i : known_method i → NoDup (GetEmail <$> users) → exclude i = false →
  request_update ρ users i = on_included (also_users users) i.
Proof.
  intros Hk Hnd He. unfold on_included. rewrite He.
  transitivity (set_clients (clients (request_update ρ users i)) i); [done|]. f_equal. apply map_eq. intros e.
  rewrite request_update_lookup, also_users_lookup, syncUsers_eq by done. done.
Qed.

Lemma update_included ρ users c : NoDup (tags c) → Forall known_method (C_Inbounds c) → NoDup (GetEmail <$> users) →
  C_Inbounds (Config_updateUsers ρ users c) = on_included (also_users users) <$> C_Inbounds c.
Proof.
  intros Ht Hk Hnd. rewrite Config_updateUsers_eq by done. cbn. apply list_fmap_ext. intros k i Hi.
  rewrite Forall_forall in Hk. specialize (Hk i (list_elem_of_lookup_2 _ _ _ Hi)).
  destruct (exclude i) eqn:He; [by unfold on_included; rewrite He|by apply request_update_also].
Qed.

Lemma one_included {X : Type} `{!XrayApi X} user c (x : X) : Forall known_method (C_Inbounds c) →
  C_Inbounds (Xray_SyncUser (Some user) (c, x)).2.1 = on_included (also_users [Some user]) <$> C_Inbounds c.
Proof.
  intros Hk. unfold Xray_SyncUser.
  assert ((sync_inbounds (Some user) (setupUserAccount (Some user)) (C_Inbounds c) x).1.1 =
    on_included (also_users [Some user]) <$> C_Inbounds c) as Hs; [|by destruct (sync_inbounds _ _ _ x) as [[l msg] x']].
  revert x. induction Hk as [|i l Hi _ IH]; intros x; [done|]. cbn [sync_inbounds]. rewrite fmap_cons.
  assert ((sync_inbound (Some user) (setupUserAccount (Some user)) i x).1.1 = on_included (also_users [Some user]) i) as H1.
  { unfold sync_inbound, on_included, also_users. cbn [foldl]. unfold serve_user. fold (active i (Some user)).
    destruct (exclude i); [done|]. destruct (active i (Some user)) as [a|] eqn:Ha; [|done].
    transitivity (Inbound_updateUser a i); [by destruct (add_reporting _ _ _)|].
    unfold Inbound_updateUser. by rewrite (updateUser_stored i _ a Hi Ha), (active_email i _ a Ha). }
  destruct (sync_inbound _ _ i x) as [[i' msg] x1]. specialize (IH x1). destruct (sync_inbounds _ _ l x1) as [[l' msgs] x2].
  cbn in *. congruence.
Qed.

(** ** Up to the rendered clients *)

(** An inbound without the list of clients in its settings, which every start
    of the core writes anew. *)
Definition bare i : Inbound := set_settings (Some (delete "clients" (default ∅ (In_Settings i)))) i.

Lemma bare_string i key : key ≠ "clients" → setting_string (bare i) key = setting_string i key.
Proof.
  intros Hk. unfold setting_string, bare. cbn. rewrite lookup_delete_ne by done. by destruct (In_Settings i).
Qed.

Lemma bare_active i u : active (bare i) u = active i u.
Proof. unfold active, isActiveInbound. by rewrite bare_string. Qed.

Lemma bare_flow i : inboundFlow (bare i) = inboundFlow i.
Proof. unfold inboundFlow. by rewrite bare_string. Qed.

Lemma bare_render ρ i : bare (render_clients ρ i) = bare i.
Proof.
  assert (∀ v, bare (set_clients_setting v i) = bare i) as Hv by (intros v; unfold bare; cbn; by rewrite delete_insert_eq).
  unfold render_clients. destruct (exclude i); [done|]. case_bool_decide; [apply Hv|].
  by destruct (written_type i).
Qed.

Definition barely (f : Inbound → gmap string Account → gmap string Account) : Prop := ∀ i m, f (bare i) m = f i m.

Lemma only_users_barely users : barely (only_users users).
Proof. intros i m. apply foldl_ext. intros m' u _. unfold apply_active. by rewrite bare_active. Qed.

Lemma also_users_barely users : barely (also_users users).
Proof. intros i m. apply foldl_ext. intros m' u _. unfold serve_user. by rewrite bare_active. Qed.

(** [updateUsers] changes nothing else either. *)
Lemma bare_updateUsers accounts removed i :
  bare (Inbound_updateUsers accounts removed i) = Inbound_updateUsers accounts removed (bare i).
Proof.
  assert (fits (bare i) = fits i) as Hf by (unfold fits; by rewrite bare_string).
  unfold Inbound_updateUsers. by rewrite Hf.
Qed.

(** Lists of inbounds that differ in nothing else. *)
Definition alike l l' : Prop := bare <$> l = bare <$> l'.

Lemma alike_included f l l' : barely f → alike l l' → alike (on_included f <$> l) (on_included f <$> l').
Proof.
  intros Hf. unfold alike. assert (∀ l, bare <$> (on_included f <$> l) = on_included f <$> (bare <$> l)) as Hcom.
  { intros l0. rewrite <- !list_fmap_compose. apply list_fmap_ext. intros k i _. cbn. unfold on_included.
    change (exclude (bare i)) with (exclude i). destruct (exclude i); [done|].
    change (clients (bare i)) with (clients i). by rewrite Hf. }
  rewrite !Hcom. by intros ->.
Qed.

Lemma alike_render ρ l : alike (render_clients ρ <$> l) l.
Proof. unfold alike. rewrite <- list_fmap_compose. apply list_fmap_ext. intros k i _. apply bare_render. Qed.

Lemma alike_elem l l' i : alike l l' → i ∈ l' → ∃ j, j ∈ l ∧ bare j = bare i.
Proof.
  intros Ha Hi. apply (list_elem_of_fmap_2 bare) in Hi. unfold alike in Ha. rewrite <- Ha in Hi.
  by apply list_elem_of_fmap in Hi as (j & -> & Hj); exists j.
Qed.
End Roster.

(** ** The configuration a backend is created with *)

Section Offered.
Context `{UuidLib} `{Sha256} `{JsonText}.
Implicit Types (c : Config) (users : list (option User)).

(** The inbounds of the request, with the node's own API inbound. *)
Definition offered (apiPort : Z) c : list Inbound := api_inbound apiPort :: filter (λ i, ¬ is_api i) (C_Inbounds c).

Lemma tags_filter (P : Inbound → Prop) `{!∀ i, Decision (P i)} (l : list Inbound) :
  NoDup (In_Tag <$> l) → NoDup (In_Tag <$> filter P l).
Proof.
  induction l as [|i l IH]; [done|]. rewrite filter_cons, fmap_cons, NoDup_cons. intros [Hi Hnd]. specialize (IH Hnd).
  destruct (decide (P i)); [|done]. rewrite fmap_cons. apply NoDup_cons. split; [|done].
  intros (j & Heq & [_ Hj]%list_elem_of_filter)%list_elem_of_fmap. apply Hi. rewrite Heq. by apply list_elem_of_fmap_2.
Qed.

Lemma one_api (l : list Inbound) : NoDup (In_Tag <$> l) → (length (filter is_api l) ≤ 1)%nat.
Proof.
  intros Hnd. destruct (filter is_api l) as [|i [|j rest]] eqn:Hf; cbn; [lia..|]. exfalso.
  assert (∀ k, k ∈ i :: j :: rest → is_api k) as Hall by (intros k; rewrite <- Hf, list_elem_of_filter; tauto).
  pose proof (tags_filter is_api l Hnd) as Hnd'. rewrite Hf, !fmap_cons, NoDup_cons in Hnd'. apply Hnd'. rewrite (Hall i), (Hall j) by set_solver. set_solver.
Qed.

Lemma apply_rules_inbounds ifaces p c : is_ok (apply_rules ifaces p c).1 = true →
  C_Inbounds (apply_rules ifaces p c).2 = api_inbound p :: C_Inbounds c.
Proof.
  unfold apply_rules, mbind, eff_bind, get, lift, modify, assign_filtered, checkPolicy.
  destruct (normalizeGeoIPPrivateRules _) as [rules|e]; [|done]. destruct (filterRules _ _) as [rules'|e]; [|done].
  by destruct (checked_policy _).
Qed.

Lemma ApplyAPI_offered ifaces p q c : NoDup (tags c) → is_ok (ApplyAPI ifaces p q c).1 = true →
  C_Inbounds (ApplyAPI ifaces p q c).2 = offered p c.
Proof.
  intros Hnd. rewrite ApplyAPI_unfold, removeAPIInbound_one by by apply one_api. intros Hok.
  rewrite apply_rules_inbounds by done. by rewrite before_rules_eq.
Qed.

Lemma prepared_offered ifaces p q c : prepared c → is_ok (ApplyAPI ifaces p q c).1 = true → prepared (ApplyAPI ifaces p q c).2.
Proof.
  intros [Ht Hk Hty] Hok. pose proof (ApplyAPI_offered ifaces p q c Ht Hok) as Hi.
  split; [unfold tags; rewrite Hi|rewrite Hi|unfold typed_config; rewrite Hi]; unfold offered.
  - rewrite fmap_cons, NoDup_cons. split.
    + intros (i & Heq & [Hn _]%list_elem_of_filter)%list_elem_of_fmap. by apply Hn.
    + by apply tags_filter.
  - apply Forall_cons. split; [by intros method|]. apply Forall_forall. intros i [_ Hin]%list_elem_of_filter. by eapply Forall_forall in Hin.
  - apply Forall_cons. split; [by intros e a Ha|]. apply Forall_forall. intros i [_ Hin]%list_elem_of_filter. by eapply Forall_forall in Hin.
Qed.

(** Its users: those of the request, when it names any. *)
Definition begun users (l : list Inbound) : list Inbound :=
  if bool_decide (length users = 0%nat) then l else on_included (only_users users) <$> l.

Lemma created_inbounds ifaces p q users c : NoDup (tags c) → is_ok (ApplyAPI ifaces p q c).1 = true →
  C_Inbounds (created ifaces p q users c) = begun users (offered p c).
Proof.
  intros Hnd Hok. unfold created, begun. rewrite <- (ApplyAPI_offered ifaces p q c) by done.
  case_bool_decide; [done|]. apply sync_included.
Qed.
End Offered.

(** ** The backend *)

(** Steps of the machine that change the users of no core. *)
Definition same_users {M : Type} `{!XrayApi M} (m m' : M) : Prop := ∀ t, api_users m' t = api_users m t.

#[export] Instance same_users_preorder {M : Type} `{!XrayApi M} : PreOrder (same_users (M:=M)).
Proof. split; [by intros m t|]. intros m1 m2 m3 H12 H23 t. by rewrite H23. Qed.

Section Serving.
Context `{UuidLib} `{Sha256} `{JsonText} `{Grpc} {M K : Type} `{!Machine M} `{!XrayApi M} `{!MachineLaws M}.
Context (marshal : Config → result string) (ρ : map_range) (cfg : @NodeConfig K) `{!CoreConfig M marshal}.
Context `{!XrayServices M} `{!ServicesCalm M} (Hremove : removals_work (X:=M)).
Context (reparse : Config → result Config) (Hreparse : ∀ x, reparses reparse x).
Implicit Types (s : XS (M:=M)) (l : list Inbound) (users : list (option User)) (clean : bool).

Definition serves_inbounds clean l s : Prop := serving clean s ∧ alike (C_Inbounds (xr_config s.1)) l.

(** While the core runs, each included inbound serves its users. *)
Lemma serves_users clean l s i : serves_inbounds clean l s → Core_Started s.2.1.1 s.2.2 = true → i ∈ l → exclude i = false →
  served clean i (clients i) (api_users s.2.2 (In_Tag i)).
Proof.
  intros [(_ & _ & Hs) Ha] Hrun Hi He. destruct Hs as [Hd|Hs]; [unfold down in Hd; congruence|].
  destruct (alike_elem _ _ i Ha Hi) as (j & Hj & Hb). rewrite Forall_forall in Hs.
  assert (In_Tag j = In_Tag i ∧ exclude j = exclude i ∧ clients j = clients i) as (Ht & Hx & Hc).
  { change (In_Tag (bare j) = In_Tag (bare i) ∧ exclude (bare j) = exclude (bare i) ∧ clients (bare j) = clients (bare i)).
    by rewrite Hb. }
  specialize (Hs j Hj). unfold served_by in Hs. rewrite Ht, Hx, Hc in Hs. apply (served_flow _ j); [|by apply Hs].
  by rewrite <- (bare_flow i), <- (bare_flow j), Hb.
Qed.

(** Steps that change neither the configuration nor the users of the core. *)
Definition leaves s s' : Prop := xr_config s'.1 = xr_config s.1 ∧ idles s.2 s'.2.

Lemma serves_leaves clean l s s' : leaves s s' → serves_inbounds clean l s → serves_inbounds clean l s'.
Proof.
  destruct s as [x w], s' as [x' w']. intros [Hx Hi] [Hs Ha]. unfold serves_inbounds. cbn [fst] in *. rewrite Hx. split; [|done].
  destruct (serving_idles clean x w w' Hi Hs) as (Hr & Hp & Hd). split_and!; [done|cbn; by rewrite Hx|]. cbn in *. by rewrite Hx.
Qed.

(** Statistics and routing requests are such steps. *)
Definition undisturbed (m m' : M) : Prop := calm m m' ∧ same_users m m'.

#[export] Instance undisturbed_preorder : PreOrder undisturbed.
Proof. split; [by split|]. intros m1 m2 m3 [C1 U1] [C2 U2]. split; by etransitivity. Qed.

#[export] Instance undisturbed_keeps `{!ServicesKeep (same_users (M:=M))} : ServicesKeep undisturbed.
Proof.
  split; intros; split;
    first [apply sys_stats_keeps|apply query_stats_keeps|apply online_keeps|apply online_ips_keeps|apply list_rule_keeps
          |apply balancer_keeps|apply test_route_keeps|apply add_rule_keeps|apply remove_rule_keeps|apply override_keeps].
Qed.

Lemma undisturbed_idles c f m f' m' : undisturbed m m' → idles (c, f, m) (c, f', m').
Proof. intros [Hc Hu]. split_and!; [done..|by apply calm_reaps|done]. Qed.

Lemma services_leaves {A} (op : eff M A) : preserves undisturbed op → preserves leaves (services op).
Proof.
  intros Hop [x [[c f] m]]. unfold services. specialize (Hop m). destruct (op m) as [r m']. split; [done|].
  by apply undisturbed_idles.
Qed.

Lemma routed_leaves {A} (op : bool → bool → eff M A) :
  (∀ started handler, preserves undisturbed (op started handler)) → preserves leaves (routed op).
Proof. intros Hop [x [[c f] m]]. unfold routed. by apply services_leaves. Qed.

(** A restart with a configuration that has the inbounds. *)
Lemma serves_restarted y l s : restarted marshal ρ y s → alike (C_Inbounds y) l → serves_inbounds true l s.
Proof.
  intros [Hs Hc] Ha. split; [done|]. rewrite Hc, settled_inbounds. unfold alike in *. by rewrite (alike_render ρ).
Qed.

(** ** The requests *)

Lemma serves_SyncUsers users ms ms' clean l s : steady_moments ms → steady_moments ms' → serves_inbounds clean l s →
  Exists decisive ms → Exists decisive ms' →
  let '(r, s') := Xray_SyncUsers marshal ρ cfg reparse users ms ms' s in
  serves_inbounds true (if is_ok (finished r) then on_included (only_users users) <$> l else l) s'.
Proof.
  intros Hq Hq' [Hs Ha] Hd Hd'. pose proof Hs as (_ & Hp & _). unfold Xray_SyncUsers. rewrite Clone_same by (apply Hp || apply Hreparse).
  pose proof (apply_serving marshal ρ cfg (Config_syncUsers users (xr_config s.1)) ms ms' ∅ clean s Hq Hq'
    (prepared_sync (M:=M) users _ Hp) (proj2 (serving_but_none _ _) Hs)) as Happ.
  pose proof (apply_ends marshal ρ cfg (Config_syncUsers users (xr_config s.1)) ms ms' s Hd Hd') as Hr.
  destruct (applyConfigWithRestart _ _ _ _ ms ms' s) as [r s']. cbn [fst] in Hr. eapply serves_restarted; [by apply Happ|].
  assert (is_ok (finished r) = is_ok r) as -> by (by destruct r as [[]|]).
  destruct (is_ok r); [|done]. rewrite sync_included. by apply alike_included; [apply only_users_barely|].
Qed.

Lemma serves_api (op : eff (Config * M) unit) f clean l s : barely f →
  serving (clean && is_ok (with_api op s).1) (with_api op s).2 →
  C_Inbounds (op (xr_config s.1, s.2.2)).2.1 = on_included f <$> C_Inbounds (xr_config s.1) →
  alike (C_Inbounds (xr_config s.1)) l →
  let '(r, s') := with_api op s in serves_inbounds (clean && is_ok r) (on_included f <$> l) s'.
Proof.
  intros Hf. destruct s as [x [[c fs] m]]. unfold with_api. cbn [fst snd].
  destruct (op (xr_config x, m)) as [r [conf m']]. cbn [fst snd]. intros Hs Hc Ha. split; [done|]. cbn. rewrite Hc.
  by apply alike_included.
Qed.

Lemma serves_SyncUser user clean l s : serves_inbounds clean l s →
  let '(r, s') := with_api (Xray_SyncUser (Some user)) s in
  serves_inbounds (clean && is_ok r) (on_included (also_users [Some user]) <$> l) s'.
Proof.
  intros [Hs Ha]. apply serves_api; [apply also_users_barely| |apply one_included, Hs|done].
  exact (SyncUser_serving user clean s Hremove Hs).
Qed.

Lemma serves_UpdateUsers users clean l s : NoDup (GetEmail <$> users) → serves_inbounds clean l s →
  let '(r, s') := with_api (Xray_UpdateUsers ρ users) s in
  serves_inbounds (clean && is_ok r) (on_included (also_users users) <$> l) s'.
Proof.
  intros Hnd [Hs Ha]. pose proof Hs as (_ & Hp & _). apply serves_api; [apply also_users_barely| | |done].
  - exact (UpdateUsers_serving ρ users clean s Hremove Hnd Hs).
  - rewrite UpdateUsers_config. apply update_included; [apply Hp..|done].
Qed.

(** ** The health check *)

Definition steady_turn (t : turn (M:=M)) : Prop := Forall steady (turn_before t) ∧ Forall steady (turn_during t).

Lemma env_run_leaves es s : Forall steady es → leaves s (env_run es s).
Proof. destruct s as [x w]. intros Hes. split; [done|]. by apply env_steps_idles. Qed.

Lemma serves_health t failures clean l s : steady_turn t → serves_inbounds clean l s →
  serves_inbounds clean l (checkXrayHealth marshal ρ cfg [t] failures s).2.
Proof.
  intros [Hb Hd] Hs. cbn [checkXrayHealth]. pose proof (serves_leaves _ _ _ _ (env_run_leaves _ s Hb) Hs) as Hs1.
  destruct (health_begin _ _) as [[[] k]|]; [|done..].
  pose proof (serves_leaves _ _ _ _ (env_run_leaves _ _ Hd) Hs1) as [Hs2 Ha].
  set (s2 := env_run (turn_during t) _) in *. destruct (health_serving marshal ρ cfg (probe t) k clean s2 Hs2) as [Hs3 Hc].
  assert (serves_inbounds clean l (health_decide marshal ρ cfg (probe t) k s2).2) as Hs4.
  { split; [done|]. destruct Hc as [-> | ->]; [done|]. rewrite settled_inbounds. unfold alike in *. by rewrite (alike_render ρ). }
  by destruct (health_decide _ _ _ _ k s2) as [[[?|]|?] ?].
Qed.

(** ** Creation *)

Lemma serves_created abs ifaces api x users p q ms f m s fm : steady_moments ms → prepared x →
  Xray_New marshal ρ cfg abs ifaces api x users p q ms (f, m) = (Ok (Some s), fm) →
  serves_inbounds true (begun users (offered p x)) s.
Proof.
  intros Hq Hp Hnew. destruct (Xray_New_serving marshal ρ cfg abs ifaces api x users p q ms f m s fm Hq
    (prepared_offered ifaces p q x Hp) Hnew) as [Hok Hres].
  eapply serves_restarted; [exact Hres|]. rewrite created_inbounds; [done|apply Hp|done].
Qed.
End Serving.
