(* ===== verification/Service.v ===== *)
(** * What a client sees of the node

    An abstract specification of a session: the node is [Idle], serves a roster
    of peers over a WireGuard interface, or the users of a list of inbounds with
    Xray.  [spec_does] says what each call may answer and which service it
    leaves; [allowed] is what a client has to observe about the networks, keys
    and configurations it sends.  EndToEnd shows that the whole node refines it. *)

From S2P Require Import Prelude GoString Json Helper Messages GoNet Chunks Backends Controller Rpc Rest WgTypes PeerStore WgConfig WgUsers WgPlan WgAgree WgSync WgBackend XrayAccount XrayInbound XrayServe XrayRoster.

(** Runs of a system whose steps carry labels. *)
Inductive runs {S L : Type} (step : L → S → S → Prop) : S → list L → S → Prop :=
  | runs_nil s : runs step s [] s
  | runs_cons l s s' s'' tr : step l s s' → runs step s' tr s'' → runs step s (l :: tr) s''.

Section Service.
Context `{UuidLib} `{Sha256} `{Grpc} `{Proto} `{WgKeys}.
(** The parsers of the configurations, and what counts as the API key. *)
Context (newConfig : string → result WgConfig.Config) (newXray : string → list string → result XrayInbound.Config).
Context (is_key : string → Prop).
(** The names of network interfaces nothing but the node creates. *)
Context (ours : string → Prop).
Implicit Types (users : list (option User)) (r : gmap string PeerInfo).

(** The inbounds of Xray carry their users; [clean] is whether every user
    operation since the core was last started reported success. *)
Inductive service :=
  | Idle
  | OnWireguard (c : WgConfig.Config) (r : gmap string PeerInfo)
  | OnXray (l : list Inbound) (clean : bool).
Implicit Types σ : service.

(** ** The users *)

(** A full synchronisation replaces the users, an update changes those it names;
    [ok] is whether it succeeds.  One that fails changes nothing, except that
    Xray stores what its core refused; and Xray is started anew by every full
    synchronisation. *)
Definition replaced (ok : bool) users σ : service :=
  match σ with
  | OnWireguard c r => if ok then OnWireguard c (desired_roster c users) else σ
  | OnXray l _ => OnXray (if ok then on_included (only_users users) <$> l else l) true
  | Idle => Idle
  end.
Definition updated (ok : bool) users σ : service :=
  match σ with
  | OnWireguard c r => if ok then OnWireguard c (after_update c users r) else σ
  | OnXray l clean => OnXray (on_included (also_users users) <$> l) (clean && ok)
  | Idle => Idle
  end.
Definition updated_by (users : list User) σ : service := foldl (λ σ u, updated true [Some u] σ) σ users.

(** A stream of users is served up to the first that fails. *)
Definition streamed (users : list User) (ok : bool) σ σ' : Prop := ∃ served rest,
  users = served ++ rest ∧ (ok = true → rest = []) ∧
  (σ' = updated_by served σ ∨ ∃ u, head rest = Some u ∧ σ' = updated false [Some u] (updated_by served σ)).

(** The users of an upload in chunks, when it is complete. *)
Definition uploaded (chunks : list UsersChunk) (ending : goerr) : result (list (option User)) :=
  match rpc_receive nothing_received chunks ending with
  | Ok r => BuildUsersFromChunks (rc_chunks r) (rc_last r) (rc_saw r)
  | Err e => Err e
  end.

(** ** Commands *)

(** What a request asks for, on whichever server it comes in. *)
Inductive command :=
  | Cstart (data : Backend)
  | Cstop
  | Cinfo
  | Creplace users
  | Cserve (users : list User)
  | Cupdate users
  | Cask
  | Cinvalid.

(** Whether it succeeded, and what the node said about itself. *)
Record outcome := mkOutcome { o_ok : bool; o_info : option BaseInfoResponse }.
Implicit Types o : outcome.

Inductive begins (data : Backend) : service → Prop :=
  | begins_wireguard c :
      Backend_Type data = BackendType_WIREGUARD → newConfig (Backend_Config data) = Ok c →
      begins data (OnWireguard c (desired_roster c (Backend_Users data)))
  | begins_xray c apiPort :
      Backend_Type data = BackendType_XRAY → newXray (Backend_Config data) (Backend_ExcludeInbounds data) = Ok c →
      begins data (OnXray (begun (Backend_Users data) (offered apiPort c)) true).

Definition reports σ (info : BaseInfoResponse) : Prop :=
  match σ with
  | Idle => BaseInfoResponse_Started info = false ∧ BaseInfoResponse_CoreVersion info = ""
  | OnWireguard _ _ => BaseInfoResponse_Started info = true
  | OnXray _ _ => True
  end.

Definition refused o σ σ' : Prop := o_ok o = false ∧ σ' = σ.

(** A command that is let through. *)
Definition effect (cmd : command) o σ σ' : Prop :=
  match cmd with
  | Cstart data =>
      if o_ok o then begins data σ' ∧ ∃ info, o_info o = Some info ∧ reports σ' info else σ' = Idle
  | Cstop => σ' = if o_ok o then Idle else σ
  | Cinfo => σ' = σ ∧ ∃ info, o_info o = Some info ∧ reports σ info
  | Creplace users => σ' = replaced (o_ok o) users σ
  | Cserve users => streamed users (o_ok o) σ σ'
  | Cupdate users => σ' = updated true users σ ∨ (o_ok o = false ∧ σ' = updated false users σ)
  | Cask => σ' = σ
  | Cinvalid => refused o σ σ'
  end.

(** Without the key, and without a backend where one is needed, a command is
    refused. *)
Definition answers (authorized needs_backend : Prop) (cmd : command) o σ σ' : Prop :=
  (effect cmd o σ σ' ∧ authorized ∧ (needs_backend → σ ≠ Idle)) ∨
  (refused o σ σ' ∧ (authorized → needs_backend ∧ ∀ c r, σ ≠ OnWireguard c r)).

(** ** Calls *)

Definition rpc_command {A} (call : rpc_call A) : command :=
  match call with
  | RpcStart data => Cstart data
  | RpcStop => Cstop
  | RpcGetBaseInfo => Cinfo
  | RpcSyncUser users _ => Cserve users
  | RpcSyncUsers users => Creplace users
  | RpcSyncUsersChunked chunks ending _ =>
      match uploaded chunks ending with Ok users => Cupdate users | Err _ => Cinvalid end
  | _ => Cask
  end.

Definition rpc_outcome {A} (call : rpc_call A) (res : result A) : outcome :=
  mkOutcome (is_ok res)
    (match call in rpc_call A return result A → option BaseInfoResponse with
     | RpcStart _ | RpcGetBaseInfo => λ res, match res with Ok info => Some info | Err _ => None end
     | _ => λ _, None
     end res).

Definition rpc_needs {A} (call : rpc_call A) : Prop := rpc_method call ∈ backendMethods.

Definition rpc_keyed (md : metadata) : Prop :=
  ∃ m header rest, md = Some m ∧ m !! "x-api-key" = Some (header :: rest) ∧ is_key header.

(** The command in the body of an HTTP request. *)
Definition rest_command {A} (b : http_body) (call : rest_call A) : command :=
  match call with
  | RestStart => match ReadProtoBody Unmarshal_Backend b with Ok data => Cstart data | Err _ => Cinvalid end
  | RestStop => Cstop
  | RestBase => Cinfo
  | RestSyncUser =>
      match ReadProtoBody Unmarshal_User b with
      | Ok user => if bool_decide (User_Email user = "") then Cinvalid else Cserve [user]
      | Err _ => Cinvalid
      end
  | RestSyncUsers =>
      match ReadProtoBody Unmarshal_Users b with Ok users => Creplace users | Err _ => Cinvalid end
  | RestSyncUsersChunked =>
      match rest_chunks b with
      | HttpOk r | HttpSilent r =>
          match BuildUsersFromChunks (rc_chunks r) (rc_last r) (rc_saw r) with Ok users => Cupdate users | Err _ => Cinvalid end
      | _ => Cinvalid
      end
  | _ => Cask
  end.

Definition http_ok {A} (res : http A) : bool := match res with HttpOk _ | HttpSilent _ => true | _ => false end.

Definition rest_outcome {A} (call : rest_call A) (res : http A) : outcome :=
  mkOutcome (http_ok res)
    (match call in rest_call A return http A → option BaseInfoResponse with
     | RestStart | RestBase => λ res, match res with HttpOk info => Some info | _ => None end
     | _ => λ _, None
     end res).

Definition rest_keyed (req : http_request) : Prop := r_key req ≠ "" ∧ is_key (r_key req).

(** ** Sessions *)

(** A gRPC call or an HTTP request with its answer; the expiry of a keep-alive;
    anything else. *)
Inductive label :=
  | Lcall {A : Type} (env : environ) (md : metadata) (call : rpc_call A) (res : result A)
  | Lhttp {A : Type} (env : environ) (req : http_request) (call : rest_call A) (res : http A)
  | Lexpiry
  | Lquiet.

Definition spec_does (l : label) σ σ' : Prop :=
  match l with
  | Lcall _ md call res => answers (rpc_keyed md) (rpc_needs call) (rpc_command call) (rpc_outcome call res) σ σ'
  | Lhttp _ req call res =>
      answers (rest_keyed req) (rest_private call = true) (rest_command (r_body req) call) (rest_outcome call res) σ σ'
  | Lexpiry => σ' = Idle
  | Lquiet => σ' = σ
  end.

(** ** The client's part *)

(** Over WireGuard standard key texts, and networks that no other user has; over
    Xray one entry per user, and to start it a configuration in order: distinct
    tags, Shadowsocks methods the core knows, no accounts of the wrong type. *)
Definition update_ok c users r : Prop := canonical_keys users ∧ ips_free c users r.

Fixpoint stream_ok c (users : list User) r : Prop :=
  match users with
  | [] => True
  | u :: users => update_ok c [Some u] r ∧ stream_ok c users (after_update c [Some u] r)
  end.

Definition allowed_command (cmd : command) σ : Prop :=
  match cmd, σ with
  | Cstart data, _ =>
      (Backend_Type data = BackendType_WIREGUARD →
       canonical_keys (Backend_Users data) ∧
       ∀ c, newConfig (Backend_Config data) = Ok c → ours (InterfaceName c)) ∧
      (Backend_Type data = BackendType_XRAY →
       ∀ c, newXray (Backend_Config data) (Backend_ExcludeInbounds data) = Ok c → prepared c)
  | Creplace users, OnWireguard _ _ => canonical_keys users
  | Cserve users, OnWireguard c r => stream_ok c users r
  | Cupdate users, OnWireguard c r => update_ok c users r
  | Cupdate users, OnXray _ _ => NoDup (GetEmail <$> users)
  | _, _ => True
  end.

Definition allowed (l : label) σ : Prop :=
  match l with
  | Lcall _ md call _ => rpc_keyed md → allowed_command (rpc_command call) σ
  | Lhttp _ req call _ => rest_keyed req → allowed_command (rest_command (r_body req) call) σ
  | _ => True
  end.

(** The client keeps to its part along [tr], whatever the node does of what it
    may do. *)
Fixpoint contract σ (tr : list label) : Prop :=
  match tr with
  | [] => True
  | l :: tr => allowed l σ ∧ ∀ σ', spec_does l σ σ' → contract σ' tr
  end.

End Service.
