(* ===== verification/NodeSystem.v ===== *)
(** * The controller over the real backends

    The backends of NodeBackends keep the laws the controller relies on, so the
    theorems of Control hold of the node as it is; and since a living Xray
    process belongs to a core, they speak of processes too. *)

From S2P Require Import Prelude GoString GoNet Json Helper Messages Tracker NodeConfig WgBackend Logger XrayLogs XrayAccount XrayInbound XrayUser XrayApply XrayRender XrayCore XrayRun XrayLife XrayProps XrayReap XrayShare XrayStats WgTypes PeerStore WgConfig WgUsers WgManager HostRouting WireGuard WgReads Backends NodeBackends NodeLaws Controller Control.

#[local] Open Scope Z_scope.

Section System.
Context `{UuidLib} `{Sha256} `{JsonText} `{Grpc} `{Host} `{AwgLib} {UUID : Type}.
Context {M : Type} `{!Machine M} `{!XrayApi M} `{!XrayServices M} `{!MachineLaws M} `{!ServicesCalm M}.
Context (d : Deps (UUID:=UUID) (M:=M)) (prompt : ∀ h (m : M), (m_await h (m_Kill h m)).1 = true).
(** The names of network interfaces nothing but the node creates. *)
Context (ours : string → Prop).
Context (Htidy : ∀ name, ours name → tidy_kernel ∧ is_ok (initStatsTickers (d_cfg d)) = true).
Notation node_ok := (node_ok (ours:=ours)).
Notation node := (@node _ _ _ UUID M).
Implicit Types (w : node) (h n : nat) (b : handle).

#[local] Instance the_backends : Backends handle node := node_backends d.

(** ** Operations on a core *)

Lemma steps_tame {A} (op : eff (XS (M:=M)) A) :
  (∀ s, rtc (xray_step (d_marshal d) (d_range d) (d_cfg d)) s (op s).2) → tame op.
Proof.
  intros Hop s. generalize (Hop s). generalize (op s).2. clear Hop. intros s' Hs. split.
  - intros S. induction Hs as [|s1 s2 s3 Hstep _ IH]; [done|]. intros Hs1. apply IH.
    exact (step_solo_but (d_marshal d) (d_range d) (d_cfg d) prompt S s1 s2 Hstep Hs1).
  - induction Hs as [s1|s1 s2 s3 Hstep _ IH]; [by intros h|]. unfold s_reaps, w_reaps in *.
    etransitivity; [exact (xray_step_reaps _ _ _ s1 s2 Hstep)|exact IH].
Qed.

Lemma sync_tame users ms ms' : quiet_moments ms → quiet_moments ms' → tame (xray_sync d users ms ms').
Proof.
  intros Hq Hq'. apply steps_tame. intros s. unfold xray_sync, Xray_SyncUsers.
  destruct (Config_Clone (d_reparse d) (xr_config s.1)) as [candidate|e]; [|apply rtc_refl].
  pose proof (step_apply (d_marshal d) (d_range d) (d_cfg d) (Config_syncUsers users candidate) ms ms' s Hq Hq') as Hstep.
  destruct (applyConfigWithRestart _ _ _ _ ms ms' s) as [r s']. by apply rtc_once.
Qed.

Lemma env_run_steps es (s : XS (M:=M)) : Forall quiet es →
  rtc (xray_step (d_marshal d) (d_range d) (d_cfg d)) s (env_run es s).
Proof.
  intros Hq. destruct s as [x w]. unfold env_run. revert w.
  induction Hq as [|e es He _ IH]; intros w; [apply rtc_refl|]. cbn.
  eapply rtc_l; [by apply XrayProps.step_env|apply IH].
Qed.

Definition quiet_turn (t : turn (M:=M)) : Prop := Forall quiet (turn_before t) ∧ Forall quiet (turn_during t).

Lemma health_tame t failures : quiet_turn t → tame (checkXrayHealth (d_marshal d) (d_range d) (d_cfg d) [t] failures).
Proof.
  intros [Hq Hq']. apply steps_tame. intros s. cbn [checkXrayHealth].
  pose proof (env_run_steps (turn_before t) s Hq) as Hb. destruct (health_begin _ _) as [[[] k]|]; [|exact Hb..].
  pose proof (env_run_steps (turn_during t) (env_run (turn_before t) s) Hq') as Hd.
  pose proof (step_health (d_marshal d) (d_range d) (d_cfg d) (probe t) k (env_run (turn_during t) (env_run (turn_before t) s))) as Hh.
  assert (rtc (xray_step (d_marshal d) (d_range d) (d_cfg d)) s (health_decide (d_marshal d) (d_range d) (d_cfg d) (probe t) k
    (env_run (turn_during t) (env_run (turn_before t) s))).2) as Hall
    by (etransitivity; [exact Hb|]; etransitivity; [exact Hd|]; by apply rtc_once).
  by destruct (health_decide _ _ _ _ k _) as [[[?|]|?] ?].
Qed.

Lemma services_still {A} (op : eff M A) : (∀ m, calm m (op m).2) → still (services op).
Proof.
  intros Hop. apply calm_still. intros [x [[c f] m]]. unfold services. specialize (Hop m). by destruct (op m) as [r m'].
Qed.

Lemma api_still {A} (op : eff (XrayInbound.Config * M) A) : (∀ c m, calm m (op (c, m)).2.2) → still (with_api op).
Proof.
  intros Hop. apply calm_still. intros [x [[c f] m]]. unfold with_api. specialize (Hop (xr_config x) m).
  by destruct (op (xr_config x, m)) as [r [conf m']].
Qed.

Lemma routed_still {A} (op : bool → bool → eff M A) : (∀ started handler m, calm m (op started handler m).2) → still (routed op).
Proof.
  intros Hop. apply calm_still. intros [x [[c f] m]]. unfold routed, services.
  specialize (Hop (Core_Started c m) (xr_handler x) m). by destruct (op _ _ m) as [r m'].
Qed.

Lemma event_still e : quiet e → still (M:=M) (λ '(x, w), (Ok (), (x, env_step w e))).
Proof.
  intros Hq. split.
  - apply steps_tame. intros [x w]. by apply rtc_once, XrayProps.step_env.
  - intros [x w]. apply env_step_process.
Qed.

(** ** The laws *)

Lemma next_wait_ok w : node_ok w → quiet_moments (next_wait w).1 ∧ node_ok (next_wait w).2.
Proof.
  intros [Ho Hq Hg Hl Hf Hgf]. split.
  - apply Forall_app. split; [|by repeat constructor]. destruct Hq; [constructor|done].
  - split; [done| |done..]. cbn. by destruct Hq.
Qed.

Lemma kept_started w w' b :
  (∀ n x c, b = XrayHandle n → n_xrays w' !! n = Some (x, c) → ∃ x', n_xrays w !! n = Some (x', c)) → n_wgs w' = n_wgs w →
  reaps (n_ext w) (n_ext w') → node_Started b w' = true → node_Started b w = true.
Proof.
  intros Hx Hg Hr. destruct b as [n|n]; cbn; [|by rewrite Hg]. destruct (n_xrays w' !! n) as [[x c]|] eqn:Hl; [|done].
  destruct (Hx n x c eq_refl Hl) as [x' ->]. unfold Core_Started. destruct (process c) as [cmd|]; [|done].
  intros Hs%negb_true_iff. apply negb_true_iff. destruct (m_reaped (cmd_id cmd) (n_ext w)) eqn:Hm; [|done].
  apply Hr in Hm. congruence.
Qed.

Lemma Shutdown_ok b w : node_ok w → node_ok (node_Shutdown d b w).
Proof.
  intros Hok. destruct b as [n|n]; cbn.
  - apply on_xray_ok; [|done]. apply steps_tame. intros s. apply rtc_once, step_shutdown.
  - rewrite on_wg_eq. destruct (n_wgs w !! n) as [g|] eqn:Hg; [|done].
    apply put_wg_ok; [done|by eapply wg_below|intros _; apply Shutdown_life; by eapply ok_wg|].
    apply put_wg_links; [apply Hok| |].
    + intros name Hours Hd. left. destruct (Shutdown_links (d_timestamp d (n_now w)) (g, n_kernel w) (proj1 (Htidy name Hours))) as [Ha _].
      by apply Ha.
    + intros g' mgr Hg' Hrun Hm Hours Hd. rewrite Hg in Hg'. injection Hg' as <-.
      destruct (Shutdown_links (d_timestamp d (n_now w)) (g, n_kernel w) (proj1 (Htidy _ Hours))) as [_ Hgone].
      assert (wg_shutdownDone g = false) as Hdone by (destruct (wg_shutdownDone g) eqn:Hdone; [by apply (ok_wg w Hok n g) in Hdone|done]).
      cbn [modify snd] in Hd. rewrite (Hgone Hdone mgr Hm) in Hd. by apply is_Some_None in Hd.
Qed.

Lemma Shutdown_stops b w : node_ok w → node_Started b (node_Shutdown d b w) = false.
Proof.
  intros Hok. destruct b as [n|n]; cbn.
  - rewrite on_xray_eq. unfold xray_state. destruct (n_xrays w !! n) as [[x c]|] eqn:Hl; cbn [fmap option_fmap option_map]; [|by rewrite Hl].
    rewrite put_xray_lookup, decide_True, put_xray_ext by done. cbn [fst snd]. unfold Xray_Shutdown. cbn [fst snd].
    unfold Core_Stop, mbind, eff_bind, get, put, mret, eff_ret.
    destruct (nothing_to_stop c (n_ext w)) eqn:Hn.
    + unfold nothing_to_stop in Hn. rewrite !andb_true_iff, !negb_true_iff in Hn. tauto.
    + unfold close_logger. cbn [set_cancel set_sockets set_stopping set_process core_logs]. by destruct (logger (core_logs c)).
  - rewrite on_wg_eq. destruct (n_wgs w !! n) as [g|] eqn:Hg; [|by rewrite Hg]. cbn. rewrite lookup_insert_eq.
    unfold WireGuard_Started. apply bool_decide_eq_false_2, Shutdown_life. by eapply ok_wg.
Qed.

Lemma Shutdown_others b w b' : node_ok w → node_Started b' (node_Shutdown d b w) = true → node_Started b' w = true.
Proof.
  intros Hok Hst. destruct (decide (b' = b)) as [->|Hne]; [by rewrite Shutdown_stops in Hst|]. destruct b as [n|n]; cbn in Hst.
  - apply on_xray_started in Hst as [->|?]; [done|done|]. apply steps_tame. intros s. apply rtc_once, step_shutdown.
  - rewrite on_wg_eq in Hst. destruct (n_wgs w !! n) as [g|] eqn:Hg; [|done].
    by destruct (put_wg_started n g _ w b' Hg Hst) as [[-> _]|[_ ?]].
Qed.

Lemma New_ends marshal ρ cfg abs ifaces api x users p q ms (fm : Files * M) :
  Exists decisive ms → (Xray_New (K:=UUID) marshal ρ cfg abs ifaces api x users p q ms fm).1 ≠ Ok None.
Proof.
  intros Hex. destruct fm as [f m]. unfold Xray_New. destruct (abs (XrayExecutablePath cfg)) as [ex|]; [|done].
  destruct (abs (XrayAssetsPath cfg)); [|done]. destruct (abs (GeneratedConfigPath cfg)) as [dir|]; [|done].
  destruct (ApplyAPI ifaces p q x) as [[[]|] x1]; [|done]. destruct (NewXRayCore _ _ _ _ m) as [[core|] m1]; [|done].
  destruct (Core_Start _ _ _ _) as [[[]|] [x3 w3]]; [|by destruct w3 as [[? ?] ?]].
  assert (∀ (e : goerr) s, (let '(_, (_, (_, f, m))) := Xray_Shutdown (M:=M) s in (Err (A:=option (XS (M:=M))) e, (f, m))).1 ≠ Ok None) as Hab
    by (intros e s; by destruct (Xray_Shutdown s) as [r [x' [[c' f'] m']]]).
  destruct api as [[]|]; [|apply Hab]. pose proof (status_ends cfg ms w3 Hex) as Hst.
  destruct (checkXrayStatus cfg ms w3) as [[[[]|]|] [[c4 f4] m4]]; [done|done|apply Hab].
Qed.

Lemma no_owner w h : node_ok w → (∃ n', n' ≠ n_next w ∧ owns w n' h) ↔ ∃ n', owns w n' h.
Proof.
  intros Hok. split; [naive_solver|]. intros (n' & x & c & Hl & Hp). exists n'. split; [|by exists x, c].
  intros ->. by rewrite (ok_fresh w Hok) in Hl.
Qed.

Lemma xray_starts cfg users p q : starts_only node_ok (node_xray_New d cfg users p q).
Proof.
  intros w0 Hok0. unfold node_xray_New. destruct (next_wait_ok w0 Hok0) as [Hq Hok].
  assert (Exists decisive (next_wait w0).1) as Hex by (apply Exists_app; right; by constructor).
  assert (∀ b, be_Started b (next_wait w0).2 = be_Started b w0) as Hsame by done.
  destruct (next_wait w0) as [ms w]. cbn [fst snd] in *. set (S := others w (n_next w)).
  assert (∀ h, S h = true ↔ ∃ n', owns w n' h) as HS by (intros h; unfold S; rewrite others_spec; by apply no_owner).
  assert (none_but S (n_ext w)) as Hnone by (intros h Ha; apply HS; exact (ok_owned w Hok h Ha)).
  pose proof (New_solo_but (d_marshal d) (d_range d) (d_cfg d) prompt S (d_abs d) (d_ifaces d) (d_dial d p) cfg users p q ms
    (n_files w) (n_ext w) Hnone Hq) as Hsolo.
  pose proof (Xray_New_reaps (d_marshal d) (d_range d) (d_cfg d) (d_abs d) (d_ifaces d) (d_dial d p) cfg users p q ms
    (n_files w) (n_ext w) Hq) as Hr.
  pose proof (New_ends (d_marshal d) (d_range d) (d_cfg d) (d_abs d) (d_ifaces d) (d_dial d p) cfg users p q ms
    (n_files w, n_ext w) Hex) as Hends.
  destruct (Xray_New _ _ _ _ _ _ _ _ _ _ ms _) as [[[s|]|e] [f m]]; cbn [finished fst] in *; [|done|].
  - destruct Hr as [Hr _]. split; [by apply add_xray_ok|].
    intros b Hb. destruct (decide (b = XrayHandle (n_next w))) as [->|Hne]; [by left|right]. rewrite <- Hsame.
    revert Hb. apply kept_started.
    + intros n x c -> Hl. change (n_xrays (put_xray (n_next w) s w) !! n = Some (x, c)) in Hl.
      rewrite put_xray_lookup, decide_False in Hl by congruence. eauto.
    + by destruct s as [x [[c f'] m']].
    + change (reaps (n_ext w) (n_ext (put_xray (n_next w) s w))). by rewrite put_xray_ext.
  - split.
    + destruct Hok as [Ho Hw Hg Hl Hf Hgf]. split; [|done..]. intros h Ha. apply Hsolo in Ha. by apply HS.
    + intros b. rewrite <- Hsame. apply kept_started; [|done|exact Hr]. intros n x c _ Hl. eauto.
Qed.

Lemma wireguard_starts cfg users : starts_only node_ok (node_wireguard_New d cfg users).
Proof.
  intros w Hok. unfold node_wireguard_New.
  pose proof (λ name Hours, New_adds (d_ranges d) (n_now w) (d_timestamp d (n_now w)) (d_ownerID d) (d_cfg d) cfg users (n_kernel w)
    (proj1 (Htidy name Hours)) (proj2 (Htidy name Hours))) as Hadds.
  destruct (WireGuard_New _ _ _ _ _ _ _ _) as [[g|e] k] eqn:Hnew.
  - apply New_life in Hnew. split.
    + apply add_wg_ok; [done|cbn; congruence|]. apply put_wg_links; [apply Hok| |].
      * intros name Hours Hd. destruct (Hadds name Hours) as (Hst & mgr & Hm & _ & Ha).
        destruct (decide (name = iFaceName mgr)) as [->|Hne].
        -- right. exists (n_next w), g, mgr. by rewrite put_wg_lookup, decide_True.
        -- left. apply Ha; [congruence|done].
      * intros g' mgr Hg'. by rewrite (ok_wg_fresh w Hok) in Hg'.
    + intros b Hb. destruct b as [n|n]; [by right|]. cbn in Hb. destruct (decide (n = n_next w)) as [->|Hne]; [by left|].
      rewrite lookup_insert_ne in Hb by done. by right.
  - destruct Hok as [Ho Hq Hg Hl Hf Hgf]. split; [|by intros b]. split; [done..| |done|done].
    intros name Hours Hd. apply Hl; [done|]. by apply (Hadds name Hours).
Qed.

#[local] Instance the_laws : BackendLaws handle node := {|
  be_ok := node_ok;
  shutdown_ok := Shutdown_ok;
  shutdown_stops := Shutdown_stops;
  shutdown_starts_none b w Hok := λ b', Shutdown_others b w b' Hok;
  xray_New_starts := xray_starts;
  wireguard_New_starts := wireguard_starts
|}.
(** ** Activity besides the controller *)

Definition set_waits (l : list (list (moment (M:=M)))) w : node :=
  mkNode (n_next w) (n_xrays w) (n_wgs w) (n_files w) (n_ext w) (n_kernel w) l (n_now w).

(** Requests of clients and events that start nothing: user updates through the
    core's API or to WireGuard's kernel, statistics, routing, ticks, what a core
    prints, processes that end, time, and what others do to the kernel. *)
Inductive passive w : node → Prop :=
  | q_SyncUser b user : passive w (node_SyncUser d b user w).2
  | q_UpdateUsers b users : passive w (node_UpdateUsers d b users w).2
  | q_SyncUsers n users : passive w (node_SyncUsers d (WireguardHandle n) users w).2
  | q_GetSysStats b : passive w (node_GetSysStats d b w).2
  | q_GetStats b request : passive w (node_GetStats d b request w).2
  | q_GetOutboundsLatency b request : passive w (node_GetOutboundsLatency d b request w).2
  | q_GetUserOnlineStats b email : passive w (node_GetUserOnlineStats b email w).2
  | q_GetUserOnlineIpListStats b email : passive w (node_GetUserOnlineIpListStats b email w).2
  | q_ListRoutingRules b r : node_routing b = Some r → passive w (rb_ListRoutingRules r w).2
  | q_GetBalancerInfo b r tag : node_routing b = Some r → passive w (rb_GetBalancerInfo r tag w).2
  | q_TestRoute b r req : node_routing b = Some r → passive w (rb_TestRoute r req w).2
  | q_AddRoutingRule b r rule append : node_routing b = Some r → passive w (rb_AddRoutingRule r rule append w).2
  | q_RemoveRoutingRule b r tag : node_routing b = Some r → passive w (rb_RemoveRoutingRule r tag w).2
  | q_OverrideBalancerTarget b r tag target :
      node_routing b = Some r → passive w (rb_OverrideBalancerTarget r tag target w).2
  | q_event n e : quiet e → passive w (node_event n e w).2
  | q_tick n t : passive w (node_tick d n t w).2
  | q_time now : passive w (set_now now w)
  | q_kernel k : (∀ name, ours name → is_Some (dev k name) → is_Some (dev (n_kernel w) name)) → passive w (set_kernel k w)
  | q_waits l : Forall quiet_moments l → passive w (set_waits l w).

(** What restarts the core [n]: a full synchronisation, the health check. *)
Inductive restarts n w : node → Prop :=
  | r_SyncUsers users : restarts n w (node_SyncUsers d (XrayHandle n) users w).2
  | r_health t failures : quiet_turn t → restarts n w (health_turn d n t failures w).2.

Definition harmless w w' : Prop := node_ok w' ∧ ∀ b, node_Started b w' = true → node_Started b w = true.

Lemma still_harmless {A} n (op : eff (XS (M:=M)) A) w : still op → node_ok w → harmless w (on_xray n op w).2.
Proof. intros Hs Hok. split; [apply on_xray_ok; [apply Hs|done]|]. intros b. by apply on_xray_still. Qed.

Lemma wg_harmless {A} n (op : eff (WireGuard (UUID:=UUID) * K) A) w :
  preserves same_life op → node_ok w → harmless w (on_wg n op w).2.
Proof.
  intros Hs Hok. split; [|intros b; by apply on_wg_started]. apply on_wg_ok; [|done..].
  intros name Hours. exact (proj1 (Htidy name Hours)).
Qed.

Lemma routed_harmless {A} n (op : bool → bool → eff M A) w :
  (∀ started handler m, calm m (op started handler m).2) → node_ok w → harmless w (on_xray n (routed op) w).2.
Proof. intros Hop. by apply still_harmless, routed_still. Qed.

Lemma latency_still request : still (M:=M) (λ '(x, (c, f, m)),
  (Xray_GetOutboundsLatency (Core_Started c m) (xr_config x) (xr_metricPort x) (λ url, d_fetch d url m) request,
   (x, (c, f, m)))).
Proof. apply calm_still. by intros [x [[c f] m]]. Qed.

Lemma passive_harmless w w' : passive w w' → node_ok w → harmless w w'.
Proof.
  intros Hq Hok. destruct Hq as [b user|b users|n users|b|b request|b request|b email|b email|b r Hr|b r tag Hr|b r req Hr
    |b r rule append Hr|b r tag Hr|b r tag target Hr|n e He|n t|now|k Hk|l Hl];
    try (destruct b as [n|n]; [|try discriminate Hr]); try (injection Hr as <-; cbn [rb_ListRoutingRules rb_GetBalancerInfo rb_TestRoute rb_AddRoutingRule rb_RemoveRoutingRule rb_OverrideBalancerTarget]; apply routed_harmless; [|exact Hok]; intros started handler);
    try (apply still_harmless; [|exact Hok]); try (apply wg_harmless; [|exact Hok]).
  - apply api_still. intros. apply SyncUser_calm.
  - apply SyncUser_life.
  - apply api_still. intros. apply UpdateUsers_calm.
  - apply partial_life.
  - apply full_life.
  - apply services_still, (keeps_GetSysStats calm).
  - apply reads_lives, GetSysStats_reads.
  - apply services_still, (keeps_GetStats calm).
  - apply reads_lives, GetStats_reads.
  - apply latency_still.
  - apply reads_lives, latency_reads.
  - apply services_still, (keeps_GetUserOnlineStats calm).
  - apply reads_lives, GetUserOnlineStats_reads.
  - apply services_still, (keeps_GetUserOnlineIpListStats calm).
  - apply reads_lives, GetUserOnlineIpListStats_reads.
  - apply (keeps_ListRoutingRules calm).
  - apply (keeps_GetBalancerInfo calm).
  - apply (keeps_TestRoute calm).
  - apply (keeps_AddRoutingRule calm).
  - apply (keeps_RemoveRoutingRule calm).
  - apply (keeps_OverrideBalancerTarget calm).
  - by apply event_still.
  - apply tick_life.
  - by destruct Hok.
  - split; [|by intros b]. split; try apply Hok. intros name Hours Hd. apply (ok_links w Hok name Hours). by apply Hk.
  - by destruct Hok.
Qed.

Lemma restarts_ok n w w' : restarts n w w' → node_ok w →
  node_ok w' ∧ ∀ b, node_Started b w' = true → b = XrayHandle n ∨ node_Started b w = true.
Proof.
  intros [users|t failures Ht] Hok.
  - unfold node_SyncUsers. destruct (next_wait_ok w Hok) as [Hq Hok1].
    assert (∀ b, node_Started b (next_wait w).2 = node_Started b w) as Hs1 by done.
    destruct (next_wait w) as [ms w1]. cbn [fst snd] in *. destruct (next_wait_ok w1 Hok1) as [Hq' Hok2].
    assert (∀ b, node_Started b (next_wait w1).2 = node_Started b w1) as Hs2 by done.
    destruct (next_wait w1) as [ms' w2]. cbn [fst snd] in *.
    pose proof (sync_tame users ms ms' Hq Hq') as Ht. split; [by apply on_xray_ok|].
    intros b Hb. rewrite <- Hs1, <- Hs2. by eapply on_xray_started.
  - pose proof (health_tame t failures Ht) as Hh. split; [by apply on_xray_ok|]. intros b. by apply on_xray_started.
Qed.

(** ** The whole node *)

Notation sys := (@sys UUID handle node).

(** The controller's actions, where requests and expiries do not overlap, passive
    steps at any time of any backend, and restarts of the current backend while
    no Start, Stop or expiry is under way. *)
Inductive node_step (free : Z → bool) (y : sys) : sys → Prop :=
  | node_act a y' : serial y a → act free a y = Some y' → node_step free y y'
  | node_passive w' : passive (y_s y).2 w' → node_step free y (mkSys ((y_s y).1, w') (y_ctl y) (y_ka y))
  | node_restart n w' :
      idle y → c_backend (y_s y).1 = Some (XrayHandle n) → restarts n (y_s y).2 w' →
      node_step free y (mkSys ((y_s y).1, w') (y_ctl y) (y_ka y)).

(** A node that has just been started. *)
Definition new_node (f : Files) (m : M) (k : K) (now : Z) : node := mkNode 0 ∅ ∅ f m k [] now.

Lemma new_node_ok f m k now : (∀ h, m_alive h m = false) → (∀ name, ours name → dev k name = None) → node_ok (new_node f m k now).
Proof.
  intros Hm Hk. split; [|done|done| |done|done].
  - intros h Hh. cbn in Hh. by rewrite Hm in Hh.
  - intros name Hours Hd. cbn in Hd. rewrite (Hk name Hours) in Hd. by apply is_Some_None in Hd.
Qed.

Lemma node_step_inv free y y' : node_step free y y' → sys_inv y → sys_inv y'.
Proof.
  intros Hstep Hinv. pose proof (inv_ok y Hinv) as Hok.
  destruct Hstep as [a y' Ha Hact|w' Hq|n w' Hctl Hb Hr].
  - by eapply sys_inv_act.
  - apply (sys_inv_world free serial); [done|]. destruct (passive_harmless _ _ Hq Hok) as [Hok' Hst].
    split; [by intros _|]. intros b Hs. left. by apply Hst.
  - apply (sys_inv_world free serial); [done|]. destruct (restarts_ok _ _ _ Hr Hok) as [Hok' Hst].
    split; [by intros _|]. intros b Hs. destruct (Hst b Hs) as [->|?]; [by right|by left].
Qed.

Lemma owned_started w n h : node_ok w → m_alive h (n_ext w) = true → owns w n h → node_Started (XrayHandle n) w = true.
Proof.
  intros Hok Ha (x & c & Hl & Hp). cbn. rewrite Hl. unfold Core_Started. destruct (process c) as [cmd|]; [|done].
  injection Hp as <-. apply negb_true_iff. destruct (m_reaped (cmd_id cmd) (n_ext w)) eqn:Hr; [|done].
  apply reaped_dead in Hr. congruence.
Qed.

Lemma node_reach_inv free cfg p q f m k now y :
  (∀ h, m_alive h m = false) → (∀ name, ours name → dev k name = None) →
  rtc (node_step free) (initial cfg free p q (new_node f m k now)) y → sys_inv y.
Proof.
  intros Hnone Hk Hrun. assert (sys_inv (initial cfg free p q (new_node f m k now))) as H0inv
    by (apply initial_inv; [by apply new_node_ok|by intros [n|n]]).
  revert H0inv. induction Hrun as [|y1 y2 y3 Hstep _ IH]; [done|]. intros Hi. apply IH. by eapply node_step_inv.
Qed.

(** Without a backend that runs no process lives, and no interface is left. *)
Lemma none_started_none_alive w : node_ok w → (∀ b, node_Started b w = false) → ∀ h, m_alive h (n_ext w) = false.
Proof.
  intros Hok Hs h. destruct (m_alive h (n_ext w)) eqn:Ha; [|done]. destruct (ok_owned _ Hok h Ha) as [n Hown].
  pose proof (owned_started w n h Hok Ha Hown) as Hst. by rewrite Hs in Hst.
Qed.

Lemma held_started w n g : n_wgs w !! n = Some g → wg_state g = lifecycleRunning → node_Started (WireguardHandle n) w = true.
Proof. intros Hg Hst. cbn. rewrite Hg. by apply bool_decide_eq_true_2. Qed.

Lemma none_started_no_links w : node_ok w → (∀ b, node_Started b w = false) → ∀ name, ours name → dev (n_kernel w) name = None.
Proof.
  intros Hok Hs name Hours. apply eq_None_not_Some. intros Hd.
  destruct (ok_links w Hok name Hours Hd) as (n & g & mgr & Hg & Hst & _). pose proof (held_started w n g Hg Hst) as Hb.
  by rewrite Hs in Hb.
Qed.

(** What there is belongs to the controller's backend when only that one runs. *)
Lemma living_is_current (c : @Controller UUID handle) w h : node_ok w → sole c w → m_alive h (n_ext w) = true →
  ∃ n x core, c_backend c = Some (XrayHandle n) ∧ n_xrays w !! n = Some (x, core) ∧ cmd_id <$> process core = Some h.
Proof.
  intros Hok Hs Ha. destruct (ok_owned _ Hok h Ha) as [n Hown]. pose proof (Hs _ (owned_started _ n h Hok Ha Hown)) as Hb.
  destruct Hown as (x & core & Hl & Hp). by exists n, x, core.
Qed.

Lemma link_is_current (c : @Controller UUID handle) w name :
  node_ok w → sole c w → ours name → is_Some (dev (n_kernel w) name) →
  ∃ n g mgr, c_backend c = Some (WireguardHandle n) ∧ n_wgs w !! n = Some g ∧ wg_manager g = Some mgr ∧ iFaceName mgr = name.
Proof.
  intros Hok Hs Hours Hd. destruct (ok_links _ Hok name Hours Hd) as (n & g & mgr & Hg & Hst & Hm & Hn).
  pose proof (Hs _ (held_started _ n g Hg Hst)) as Hb. by exists n, g, mgr.
Qed.

(** A disconnection that nothing overlaps leaves no backend, no process and no
    interface. *)
Lemma disconnect_leaves_nothing free p q (y : sys) : sys_inv y →
  let s := Controller_Disconnect free p q (y_s y) in
  c_backend s.1 = None ∧ (∀ b, node_Started b s.2 = false) ∧ (∀ h, m_alive h (n_ext s.2) = false) ∧
  ∀ name, ours name → dev (n_kernel s.2) name = None.
Proof.
  intros [Hok Hs _ _]. destruct y as [[c w] ctl ka]. cbn [y_s fst snd] in *. unfold Controller_Disconnect. cbn [fst snd].
  change (c_backend (disconnect_cancel c)) with (c_backend c).
  assert (be_ok (disconnect_shutdown (c_backend c) w) ∧ ∀ b, be_Started b (disconnect_shutdown (c_backend c) w) = false) as [Hok' Hoff].
  { unfold disconnect_shutdown. destruct (c_backend c) as [b0|] eqn:Hc.
    - split; [by apply shutdown_ok|by apply (shutdown_alone c)].
    - split; [done|by apply (sole_none c)]. }
  split_and!; [done|exact Hoff|by apply none_started_none_alive|by apply none_started_no_links].
Qed.

(** C10: the node never leaks a process or an interface.  From a fresh node, in every
    interleaving of Start and Stop requests and keep-alive expiries, which do not
    overlap each other, with user synchronisations, health checks, statistics and
    routing requests and the events of the environment, where what may restart a
    core runs while no Start, Stop or expiry is under way, a backend that runs is the controller's current one,
    a living Xray process is the one the current backend's core remembers,
    and a network interface with a name only the node uses is the current
    WireGuard backend's; so a node without a current backend has none of them.
    It relies on a killed process being reaped within the five seconds [Stop]
    waits, and for interfaces on links that can be looked up and deleted and on
    positive statistics intervals. *)
Theorem node_owns_its_process (free : Z → bool) (cfg : @NodeConfig UUID) (p q : Z) (f : Files) (m : M) (k : K) (now : Z)
    (y : sys) (Hnone : ∀ h, m_alive h m = false) (Hlinks : ∀ name, ours name → dev k name = None)
    (Hrun : rtc (node_step free) (initial cfg free p q (new_node f m k now)) y) :
  (∀ b, node_Started b (y_s y).2 = true → c_backend (y_s y).1 = Some b) ∧
  (∀ h, m_alive h (n_ext (y_s y).2) = true →
    ∃ n x c, c_backend (y_s y).1 = Some (XrayHandle n) ∧ n_xrays (y_s y).2 !! n = Some (x, c) ∧
      cmd_id <$> process c = Some h) ∧
  (∀ name, ours name → is_Some (dev (n_kernel (y_s y).2) name) →
    ∃ n g mgr, c_backend (y_s y).1 = Some (WireguardHandle n) ∧ n_wgs (y_s y).2 !! n = Some g ∧
      wg_manager g = Some mgr ∧ iFaceName mgr = name).
Proof.
  destruct (node_reach_inv free cfg p q f m k now y Hnone Hlinks Hrun) as [Hok Hs _ _].
  split_and!; [exact Hs| |]; [intros h|intros name]; [by apply living_is_current|by apply link_is_current].
Qed.

End System.
