(* ===== verification/EndToEnd.v ===== *)
(** * The whole node refines the service a client sees

    The composition of everything: the gRPC server with its interceptors, the
    controller, the backends of NodeBackends, and underneath the kernel and the
    operating system.  Requests are answered one at a time, with ticks, health
    checks, events of the environment and keep-alive expiries between them;
    [refines] ties the node's state to the abstract one of Service. *)

From S2P Require Import Prelude GoString GoNet Json Helper Messages Tracker NodeConfig WgBackend WgReads WgRun WgServe Logger XrayLogs XrayAccount XrayInbound XrayClients XrayUser XrayApply XrayRender XrayCore XrayRun XrayLife XrayProps XrayReap XrayShare XrayStats WgTypes PeerStore WgConfig WgUsers WgAgree WgSync WgManager HostRouting WireGuard Backends NodeBackends NodeLaws XrayServe XrayRoster Chunks Controller Rpc Rest Control Servers Service NodeSystem.

#[local] Open Scope Z_scope.

Section EndToEnd.
Context `{UuidLib} `{Sha256} `{JsonText} `{Grpc} `{Proto} `{Host} `{AwgLib} {UUID : Type} `{!EqDecision UUID}.
Context {M : Type} `{!Machine M} `{!XrayApi M} `{!XrayServices M} `{!MachineLaws M} `{!ServicesCalm M}.
Context `{!ServicesKeep (same_users (M:=M))}.
Context (d : Deps (UUID:=UUID) (M:=M)) (prompt : ∀ h (m : M), (m_await h (m_Kill h m)).1 = true).
(** What the core makes of its configuration, and what cloning does to it. *)
Context `{!CoreConfig M (d_marshal d)} (Hremove : removals_work (X:=M)) (Hreparse : ∀ x, reparses (d_reparse d) x).
Context (uuid_Parse : string → result UUID).
(** The names of network interfaces nothing but the node creates. *)
Context (ours : string → Prop).
Context (Htidy : ∀ name, ours name → tidy_kernel ∧ is_ok (initStatsTickers (d_cfg d)) = true) (Hat : atomic_kernel).
(** The configuration the controller is given. *)
Context (cfg : @NodeConfig UUID).
Notation node_ok := (node_ok (ours:=ours)).
Notation node := (@node _ _ _ UUID M).
Notation Controller := (@Controller UUID handle).
Notation CS := (@CS UUID handle node).
Notation newConfig := (WgConfig.NewConfig (d_wg_unmarshal d)).
Notation newXray := (XrayInbound.NewConfig (d_unmarshal d)).
Notation effect := (effect newConfig newXray).
Notation allowed_command := (allowed_command newConfig newXray ours).
Implicit Types (w : node) (c : Controller) (s : CS) (σ : service) (n : nat) (b : handle).

#[local] Instance whole_backends : Backends handle node := node_backends d.
#[local] Instance whole_laws : BackendLaws handle node := the_laws d prompt ours Htidy.

(** ** The relation *)

Definition shows σ c w : Prop :=
  match σ with
  | Idle => c_backend c = None
  | OnWireguard conf r => ∃ n g, c_backend c = Some (WireguardHandle n) ∧ n_wgs w !! n = Some g ∧
      serves_roster conf r (g, n_kernel w) ∧ ours (InterfaceName conf)
  | OnXray l clean => ∃ n t, c_backend c = Some (XrayHandle n) ∧ xray_state n w = Some t ∧ serves_inbounds clean l t
  end.

(** The environment of the coming waits does not change the users of a core. *)
Definition matches σ c w : Prop := Forall steady_moments (n_waits w) ∧ shows σ c w.

Record refines s σ : Prop := mkRefines {
  rf_ok : node_ok s.2;
  rf_sole : sole s.1 s.2;
  rf_cfg : c_cfg s.1 = cfg;
  rf_matches : matches σ s.1 s.2
}.

(** Only the backend and the configuration of the controller matter. *)
Lemma refines_controller c c' w σ :
  c_backend c' = c_backend c → c_cfg c' = c_cfg c → refines (c, w) σ → refines (c', w) σ.
Proof.
  intros Hb Hc [Hok Hs Hcfg Hm]. split; cbn [fst snd] in *; [done| |congruence|].
  - intros b Hst. rewrite Hb. by apply Hs.
  - destruct Hm as [Hw Hm]. split; [done|]. destruct σ; cbn in *; by rewrite Hb.
Qed.

Lemma refines_world c w w' σ σ' :
  refines (c, w) σ → node_ok w' → (∀ b, node_Started b w' = true → c_backend c = Some b ∨ node_Started b w = true) →
  matches σ' c w' → refines (c, w') σ'.
Proof.
  intros [_ Hs Hcfg _] Hok Hst Hm. split; cbn [fst snd] in *; [done| |done|done].
  intros b Hb. destruct (Hst b Hb) as [?|Hold]; [done|by apply Hs].
Qed.

Lemma refines_passive c w w' σ σ' :
  refines (c, w) σ → passive d ours w w' → matches σ' c w' → refines (c, w') σ'.
Proof.
  intros Hr Hq Hm. destruct (passive_harmless d prompt ours Htidy w w' Hq (rf_ok _ _ Hr)) as [Hok Hst].
  eapply refines_world; [exact Hr|exact Hok| |exact Hm]. intros b Hb. right. by apply Hst.
Qed.

Lemma refines_restarts c n w w' σ σ' :
  refines (c, w) σ → c_backend c = Some (XrayHandle n) → restarts d n w w' → matches σ' c w' → refines (c, w') σ'.
Proof.
  intros Hr Hc Hq Hm. destruct (restarts_ok d prompt ours n w w' Hq (rf_ok _ _ Hr)) as [Hok Hst].
  eapply refines_world; [exact Hr|exact Hok| |exact Hm]. intros b Hb. destruct (Hst b Hb) as [->|?]; [by left|by right].
Qed.

(** ** Queries *)

(** What a handler asks of the current backend without changing its users. *)
Inductive asks b w : node → Prop :=
  | ask_GetSysStats : asks b w (node_GetSysStats d b w).2
  | ask_GetStats request : asks b w (node_GetStats d b request w).2
  | ask_GetOutboundsLatency request : asks b w (node_GetOutboundsLatency d b request w).2
  | ask_GetUserOnlineStats email : asks b w (node_GetUserOnlineStats b email w).2
  | ask_GetUserOnlineIpListStats email : asks b w (node_GetUserOnlineIpListStats b email w).2
  | ask_ListRoutingRules rb : node_routing b = Some rb → asks b w (rb_ListRoutingRules rb w).2
  | ask_GetBalancerInfo rb tag : node_routing b = Some rb → asks b w (rb_GetBalancerInfo rb tag w).2
  | ask_TestRoute rb req : node_routing b = Some rb → asks b w (rb_TestRoute rb req w).2
  | ask_AddRoutingRule rb rule append : node_routing b = Some rb → asks b w (rb_AddRoutingRule rb rule append w).2
  | ask_RemoveRoutingRule rb tag : node_routing b = Some rb → asks b w (rb_RemoveRoutingRule rb tag w).2
  | ask_OverrideBalancerTarget rb tag target :
      node_routing b = Some rb → asks b w (rb_OverrideBalancerTarget rb tag target w).2.

Lemma asks_passive b w w' : asks b w w' → passive d ours w w'.
Proof. intros []; by econstructor. Qed.

Lemma put_xray_state n (t : XS (M:=M)) w n' :
  xray_state n' (put_xray n t w) =
  if decide (n' = n) then Some t else (λ '(x, (c, _, _)), (x, (c, t.2.1.2, t.2.2))) <$> xray_state n' w.
Proof.
  unfold xray_state. rewrite put_xray_lookup. destruct t as [x [[c f] m]]. cbn. case_decide; [done|].
  by destruct (n_xrays w !! n') as [[x' c']|].
Qed.

Lemma xray_state_world n w (t : XS (M:=M)) : xray_state n w = Some t → n_files w = t.2.1.2 ∧ n_ext w = t.2.2.
Proof. unfold xray_state. destruct (n_xrays w !! n) as [[x c]|]; [|done]. by intros [= <-]. Qed.

(** What a query of any core leaves of the service. *)
Lemma matches_xray {A} n (op : eff (XS (M:=M)) A) σ c w : preserves leaves op → matches σ c w → matches σ c (on_xray n op w).2.
Proof.
  intros Hop [Hw Hm]. rewrite on_xray_eq. destruct (xray_state n w) as [s|] eqn:Hs; [|done].
  destruct (put_xray_fields n (op s).2 w) as (_ & Hg & Hwait & Hk). split; [by rewrite Hwait|].
  destruct σ as [|conf r|l clean]; cbn in *; [done|by rewrite Hg, Hk|]. destruct Hm as (n' & s' & Hb & Hs' & Hin).
  pose proof (Hop s) as Hl. destruct (decide (n' = n)) as [->|Hne].
  - rewrite Hs in Hs'. injection Hs' as <-. exists n, (op s).2. rewrite put_xray_state, decide_True by done.
    split_and!; [done..|by eapply serves_leaves].
  - destruct s' as [x' [[c' f'] m']]. eexists n', _. rewrite put_xray_state, decide_False, Hs' by done. split_and!; [done..|].
    eapply serves_leaves; [|exact Hin]. split; [done|]. destruct Hl as [_ (_ & _ & Hr & Hu)].
    apply xray_state_world in Hs as [Hf Hm], Hs' as [Hf' Hm']. cbn in Hm'.
    assert (m' = s.2.2) as -> by congruence. by split_and!.
Qed.

Lemma matches_fields σ c w w' :
  n_wgs w' = n_wgs w → n_kernel w' = n_kernel w → n_xrays w' = n_xrays w → n_files w' = n_files w → n_ext w' = n_ext w →
  Forall steady_moments (n_waits w') → matches σ c w → matches σ c w'.
Proof.
  intros Hg Hk Hx Hf Hm Hw [_ Hs]. split; [done|]. destruct σ; cbn in *; [done|by rewrite Hg, Hk|].
  unfold xray_state in *. by rewrite Hx, Hf, Hm.
Qed.

(** The moments of the next wait. *)
Lemma matches_next σ c w : matches σ c w →
  steady_moments (next_wait w).1 ∧ Exists decisive (next_wait w).1 ∧ matches σ c (next_wait w).2.
Proof.
  intros Hm. pose proof Hm as [Hw _]. split_and!.
  - apply Forall_app. split; [|by repeat constructor]. destruct Hw; [constructor|done].
  - apply Exists_app. right. by constructor.
  - eapply matches_fields; [..|exact Hm]; try done. cbn. by destruct Hw.
Qed.

(** A query of any WireGuard backend. *)
Lemma matches_reads {A} n (op : eff (WireGuard * K) A) σ c w :
  preserves reads op → matches σ c w → matches σ c (on_wg n op w).2.
Proof.
  intros Hop. rewrite on_wg_eq. destruct (n_wgs w !! n) as [g|] eqn:Hg; [|done]. intros [Hw Hm]. split; [done|]. revert Hm.
  destruct σ as [|conf r|]; cbn; [done| |done]. intros (n' & g' & Hb & Hg' & Hs & Ho). specialize (Hop (g, n_kernel w)). destruct (decide (n = n')) as [<-|Hne].
  - rewrite Hg in Hg'. injection Hg' as <-. exists n, (op (g, n_kernel w)).2.1. rewrite lookup_insert_eq. split_and!; [done..| |done].
    rewrite <- surjective_pairing. by eapply serves_reads.
  - exists n', g'. rewrite lookup_insert_ne by done. split_and!; [done..| |done].
    apply (serves_kernel conf r g' (n_kernel w)); [|done]. destruct Hop as (_ & _ & _ & _ & _ & Hd).
    exact (f_equal (λ f, f (InterfaceName conf)) Hd).
Qed.

Lemma asks_matches b w w' σ c : asks b w w' → matches σ c w → matches σ c w'.
Proof.
  intros Ha Hm. destruct Ha as [|request|request|email|email|rb Hrb|rb tag Hrb|rb req Hrb|rb rule append Hrb|rb tag Hrb|rb tag target Hrb];
    (destruct b as [n|n]; [|try discriminate Hrb]); try (injection Hrb as <-; cbn);
    first [apply matches_xray; [|exact Hm]|apply matches_reads; [|exact Hm]].
  - apply services_leaves, (keeps_GetSysStats undisturbed).
  - apply GetSysStats_reads.
  - apply services_leaves, (keeps_GetStats undisturbed).
  - apply GetStats_reads.
  - by intros [x [[cr f] m]].
  - apply latency_reads.
  - apply services_leaves, (keeps_GetUserOnlineStats undisturbed).
  - apply GetUserOnlineStats_reads.
  - apply services_leaves, (keeps_GetUserOnlineIpListStats undisturbed).
  - apply GetUserOnlineIpListStats_reads.
  - apply routed_leaves, (keeps_ListRoutingRules undisturbed).
  - apply routed_leaves. intros started handler. apply (keeps_GetBalancerInfo undisturbed).
  - apply routed_leaves. intros started handler. apply (keeps_TestRoute undisturbed).
  - apply routed_leaves. intros started handler. apply (keeps_AddRoutingRule undisturbed).
  - apply routed_leaves. intros started handler. apply (keeps_RemoveRoutingRule undisturbed).
  - apply routed_leaves. intros started handler. apply (keeps_OverrideBalancerTarget undisturbed).
Qed.

Lemma asks_refines c b w w' σ : asks b w w' → refines (c, w) σ → refines (c, w') σ.
Proof.
  intros Ha Hr. eapply refines_passive; [exact Hr|by eapply asks_passive|]. eapply asks_matches; [exact Ha|apply Hr].
Qed.

(** Handlers that do no more. *)
Definition queries {R} (op : CS → R * CS) : Prop :=
  ∀ s, (op s).2 = s ∨ ∃ b w', asks b s.2 w' ∧ (op s).2 = (s.1, w').

Lemma query_refines {R} (op : CS → R * CS) s σ : queries op → refines s σ → refines (op s).2 σ.
Proof.
  intros Hop Hr. destruct (Hop s) as [->|(b & w' & Ha & ->)]; [done|]. destruct s as [c w]. by eapply asks_refines.
Qed.

Definition queries_of b {R} (op : CS → R * CS) : Prop :=
  ∀ s, (op s).2 = s ∨ ∃ w', asks b s.2 w' ∧ (op s).2 = (s.1, w').

Lemma query_op b {A} (op : eff node A) : (∀ w, asks b w (op w).2) → queries_of b (backend op).
Proof.
  intros Hop [c w]. right. exists (op w).2. split; [apply Hop|]. rewrite backend_eq. by destruct (op w).
Qed.

Lemma query_map_err b {A} f (op : eff CS A) : queries_of b op → queries_of b (map_err f op).
Proof. intros Hop s. specialize (Hop s). unfold map_err. by destruct (op s) as [[a|e] s']. Qed.

Lemma query_backend {A} (g : handle → eff CS A) : (∀ b, queries_of b (g b)) → queries (rpc_backend ≫= g).
Proof.
  intros Hg s. unfold rpc_backend, get, mbind, eff_bind. destruct (Controller_Backend s.1) as [b|]; [|by left].
  destruct (Hg b s) as [?|(w' & ? & ?)]; [by left|right; by exists b, w'].
Qed.

Lemma query_routing {A} (g : RoutingBackend node → eff CS A) :
  (∀ b rb, node_routing b = Some rb → queries_of b (g rb)) → queries (rpc_routingBackend ≫= g).
Proof.
  intros Hg s. unfold rpc_routingBackend, rpc_backend, get, mbind, eff_bind, mret, eff_ret.
  destruct (Controller_Backend s.1) as [b|]; [|by left].
  change (be_routing b) with (node_routing (UUID:=UUID) (M:=M) b).
  destruct (node_routing (UUID:=UUID) (M:=M) b) as [rb|] eqn:Hrb; [|by left].
  destruct (Hg b rb Hrb s) as [?|(w' & ? & ?)]; [by left|right; by exists b, w'].
Qed.

Definition plain_call {A} (call : rpc_call A) : bool :=
  match call with
  | RpcStart _ | RpcStop | RpcSyncUser _ _ | RpcSyncUsers _ | RpcSyncUsersChunked _ _ _ => false
  | _ => true
  end.

Lemma handler_queries env {A} (call : rpc_call A) : plain_call call = true → queries (rpc_handler env call).
Proof.
  destruct call; intros Hp; try discriminate Hp; cbn [rpc_handler].
  - intros s. by left.
  - apply query_backend. intros b. apply query_map_err, query_op. intros w. apply ask_GetStats.
  - apply query_backend. intros b. apply query_map_err, query_op. intros w. apply ask_GetUserOnlineStats.
  - apply query_backend. intros b. apply query_map_err, query_op. intros w. apply ask_GetUserOnlineIpListStats.
  - apply query_backend. intros b. apply query_op. intros w. apply ask_GetSysStats.
  - intros s. unfold rpc_GetOutboundsLatency, Controller_OutboundsLatency. destruct (c_backend s.1) as [b|]; [|by left].
    destruct (query_op b (node_GetOutboundsLatency d b request) (λ w, ask_GetOutboundsLatency b w request) s) as [?|(w' & ? & ?)];
      [by left|right; by exists b, w'].
  - intros [c w]. unfold rpc_GetSystemStats, Controller_SystemStats. cbn [fst snd]. destruct (c_backend c) as [b|]; [|by left].
    pose proof (ask_GetSysStats b w) as Ha. change (be_GetSysStats b w) with (node_GetSysStats d b w).
    right. exists b. destruct (node_GetSysStats d b w) as [[st|e] w']; by exists w'.
  - apply query_backend. intros b s. by left.
  - apply query_routing. intros b rb Hrb. apply query_map_err, query_op. intros w. by apply ask_ListRoutingRules.
  - apply query_routing. intros b rb Hrb. apply query_map_err, query_op. intros w. by apply ask_GetBalancerInfo.
  - apply query_routing. intros b rb Hrb. apply query_map_err, query_op. intros w. by apply ask_TestRoute.
  - apply query_routing. intros b rb Hrb. apply query_op. intros w. by apply ask_AddRoutingRule.
  - apply query_routing. intros b rb Hrb. apply query_map_err, query_op. intros w. by apply ask_RemoveRoutingRule.
  - apply query_routing. intros b rb Hrb. apply query_map_err, query_op. intros w. by apply ask_OverrideBalancerTarget.
Qed.

(** ** Users *)

Lemma on_xray_current c w n σ : matches σ c w → c_backend c = Some (XrayHandle n) → ∃ l clean, σ = OnXray l clean.
Proof. intros [_ Hm]. destruct σ as [|conf r|l clean]; cbn in Hm; [congruence| |eauto]. destruct Hm as (n' & g & Hb & _). congruence. Qed.

Lemma on_wg_current c w n σ : matches σ c w → c_backend c = Some (WireguardHandle n) →
  ∃ conf r, σ = OnWireguard conf r.
Proof. intros [_ Hm]. destruct σ as [|conf r|l clean]; cbn in Hm; [congruence|eauto|]. destruct Hm as (n' & t & Hb & _). congruence. Qed.

(** An operation of the current backend that moves its users: [f] is what it
    leaves. *)
Lemma matches_moves {A} n (op : eff (WireGuard * K) A) (f : result A → gmap string PeerInfo) conf r c w :
  c_backend c = Some (WireguardHandle n) → matches (OnWireguard conf r) c w →
  (∀ t, serves_roster conf r t → let '(res, t') := op t in serves_roster conf (f res) t') →
  let '(res, w') := on_wg n op w in matches (OnWireguard conf (f res)) c w'.
Proof.
  intros Hb [Hw (n' & g & Hb' & Hg & Hs & Ho)] Hop. rewrite Hb in Hb'. injection Hb' as <-. unfold on_wg. rewrite Hg.
  specialize (Hop _ Hs). destruct (op (g, n_kernel w)) as [res [g' k']]. split; [done|].
  exists n, g'. cbn. rewrite lookup_insert_eq. by split_and!.
Qed.

Lemma matches_moves_xray {A} n (op : eff (XS (M:=M)) A) (f : result A → list Inbound * bool) l clean c w :
  c_backend c = Some (XrayHandle n) → matches (OnXray l clean) c w →
  (∀ t, serves_inbounds clean l t → let '(res, t') := op t in serves_inbounds (f res).2 (f res).1 t') →
  let '(res, w') := on_xray n op w in matches (OnXray (f res).1 (f res).2) c w'.
Proof.
  intros Hb [Hw (n' & t & Hb' & Ht & Hs)] Hop. rewrite Hb in Hb'. injection Hb' as <-. unfold on_xray. rewrite Ht.
  specialize (Hop _ Hs). destruct (op t) as [res t']. split; [by rewrite (proj1 (proj2 (proj2 (put_xray_fields n t' w))))|].
  exists n, t'. by rewrite put_xray_state, decide_True.
Qed.

Lemma full_refines c w b users σ : refines (c, w) σ → c_backend c = Some b →
  (∀ conf r, σ = OnWireguard conf r → canonical_keys users) →
  let '(res, w') := node_SyncUsers d b users w in refines (c, w') (replaced (is_ok res) users σ).
Proof.
  intros Hr Hb Hcan. pose proof (rf_matches _ _ Hr) as Hm. cbn [fst snd] in Hm. destruct b as [n|n].
  - pose proof (r_SyncUsers d n w users) as Hq. destruct (on_xray_current _ _ _ _ Hm Hb) as (l & clean & ->).
    assert (let '(res, w') := node_SyncUsers d (XrayHandle n) users w in matches (replaced (is_ok res) users (OnXray l clean)) c w') as Hm'.
    { unfold node_SyncUsers. destruct (matches_next _ _ _ Hm) as (Hq1 & He1 & Hm1). destruct (next_wait w) as [ms w1]. cbn [fst snd] in *.
      destruct (matches_next _ _ _ Hm1) as (Hq2 & He2 & Hm2). destruct (next_wait w1) as [ms' w2]. cbn [fst snd] in *.
      apply (matches_moves_xray n (xray_sync d users ms ms')
        (λ res, (if is_ok res then on_included (only_users users) <$> l else l, true)) l clean c w2 Hb Hm2).
      intros t Ht. unfold xray_sync.
      pose proof (serves_SyncUsers (d_marshal d) (d_range d) (d_cfg d) (d_reparse d) Hreparse users ms ms' clean l t Hq1 Hq2 Ht He1 He2) as Hs.
      by destruct (Xray_SyncUsers _ _ _ _ users ms ms' t) as [r t']. }
    destruct (node_SyncUsers d (XrayHandle n) users w) as [res w']. cbn [snd] in Hq.
    eapply refines_restarts; [exact Hr|exact Hb|exact Hq|exact Hm'].
  - pose proof (q_SyncUsers d ours w n users) as Hq. destruct (on_wg_current _ _ _ _ Hm Hb) as (conf & r & ->).
    pose proof (matches_moves n (WireGuard_SyncUsers (d_ranges d) users) (λ res, if is_ok res then desired_roster conf users else r)
      conf r c w Hb Hm (λ t, serves_full _ users conf r t Hat (Hcan _ _ eq_refl))) as Hm'.
    change (on_wg n _ w) with (node_SyncUsers d (WireguardHandle n) users w) in Hm'.
    destruct (node_SyncUsers d (WireguardHandle n) users w) as [res w']. cbn [snd] in Hq.
    eapply refines_passive; [exact Hr|exact Hq|]. by destruct res.
Qed.

(** An update of some users, or of one. *)
Lemma partial_refines c w b users σ (op : eff node unit) (xop : eff (XS (M:=M)) unit) :
  refines (c, w) σ → c_backend c = Some b → passive d ours w (op w).2 →
  (∀ n, b = WireguardHandle n → op = on_wg n (WireGuard_UpdateUsers (d_ranges d) users)) →
  (∀ n, b = XrayHandle n → op = on_xray n xop) →
  (∀ conf r, σ = OnWireguard conf r → update_ok conf users r) →
  (∀ l clean, σ = OnXray l clean → ∀ t, serves_inbounds clean l t →
     let '(res, t') := xop t in serves_inbounds (clean && is_ok res) (on_included (also_users users) <$> l) t') →
  let '(res, w') := op w in refines (c, w') (updated (is_ok res) users σ).
Proof.
  intros Hr Hb Hq Hop Hxop Hup Hxup. pose proof (rf_matches _ _ Hr) as Hm. cbn [fst snd] in Hm. destruct b as [n|n].
  - destruct (on_xray_current _ _ _ _ Hm Hb) as (l & clean & ->). specialize (Hxup l clean eq_refl).
    pose proof (matches_moves_xray n xop (λ res, (on_included (also_users users) <$> l, clean && is_ok res)) l clean c w Hb Hm Hxup) as Hm'.
    rewrite <- (Hxop n eq_refl) in Hm'. destruct (op w) as [res w']. by eapply refines_passive.
  - destruct (on_wg_current _ _ _ _ Hm Hb) as (conf & r & ->). destruct (Hup _ _ eq_refl) as [Hcan Hfree].
    pose proof (matches_moves n (WireGuard_UpdateUsers (d_ranges d) users) (λ res, if is_ok res then after_update conf users r else r)
      conf r c w Hb Hm (λ t, serves_partial _ users conf r t Hat Hcan Hfree)) as Hm'.
    rewrite <- (Hop n eq_refl) in Hm'. destruct (op w) as [res w'].
    eapply refines_passive; [exact Hr|exact Hq|]. by destruct res.
Qed.

Lemma update_refines c w b users σ : refines (c, w) σ → c_backend c = Some b →
  (∀ conf r, σ = OnWireguard conf r → update_ok conf users r) →
  (∀ l clean, σ = OnXray l clean → NoDup (GetEmail <$> users)) →
  let '(res, w') := node_UpdateUsers d b users w in refines (c, w') (updated (is_ok res) users σ).
Proof.
  intros Hr Hb Hok Hnd. apply (partial_refines c w b _ _ _ (with_api (Xray_UpdateUsers (d_range d) users)));
    [done..|apply q_UpdateUsers|by intros n ->|by intros n ->|done|].
  intros l clean Hσ t. exact (serves_UpdateUsers (d_range d) Hremove users clean l t (Hnd l clean Hσ)).
Qed.

Lemma one_refines c w b u σ : refines (c, w) σ → c_backend c = Some b →
  (∀ conf r, σ = OnWireguard conf r → update_ok conf [Some u] r) →
  let '(res, w') := node_SyncUser d b (Some u) w in refines (c, w') (updated (is_ok res) [Some u] σ).
Proof.
  intros Hr Hb Hok. apply (partial_refines c w b _ _ _ (with_api (Xray_SyncUser (Some u))));
    [done..|apply q_SyncUser|by intros n ->|by intros n ->|done|].
  intros l clean _ t. exact (serves_SyncUser Hremove u clean l t).
Qed.

(** The stream of [SyncUser] serves its users one by one, until one fails. *)
Lemma stream_refines c w b users reply σ : refines (c, w) σ → c_backend c = Some b →
  (∀ conf r, σ = OnWireguard conf r → stream_ok conf users r) →
  let '(res, s') := rpc_sync_each b users reply (c, w) in ∃ σ', streamed users (is_ok res) σ σ' ∧ refines s' σ'.
Proof.
  revert w σ. induction users as [|u users IH]; intros w σ Hr Hb Hok; cbn [rpc_sync_each].
  { exists σ. split; [|done]. exists [], []. split_and!; [done..|by left]. }
  case_bool_decide; [exists σ; split; [|done]; exists [], (u :: users); split_and!; [done..|by left]|].
  pose proof (one_refines c w b u σ Hr Hb (λ conf r Hσ, proj1 (Hok conf r Hσ))) as Hone.
  unfold mbind, eff_bind, map_err. rewrite backend_eq. change (be_SyncUser b (Some u) w) with (node_SyncUser d b (Some u) w).
  destruct (node_SyncUser d b (Some u) w) as [[[]|e] w'].
  2:{ eexists. split; [|exact Hone]. exists [], (u :: users). split_and!; [done..|right]. by exists u. }
  specialize (IH w' (updated true [Some u] σ) Hone Hb). destruct (rpc_sync_each b users reply (c, w')) as [res s'].
  destruct IH as (σ' & (served & rest & -> & Hrest & Hσ') & Hr').
  - intros conf r Hσ. destruct σ as [|conf0 r0|]; try discriminate Hσ. injection Hσ as <- <-. by apply (Hok conf0 r0).
  - exists σ'. split; [|done]. by exists (u :: served), rest.
Qed.

(** ** Sessions *)

Lemma shutdown_waits b w : n_waits (node_Shutdown d b w) = n_waits w.
Proof.
  destruct b as [n|n]; cbn [node_Shutdown]; [rewrite on_xray_eq|rewrite on_wg_eq].
  - destruct (xray_state n w) as [t|]; [|done]. apply put_xray_fields.
  - by destruct (n_wgs w !! n).
Qed.

Lemma disconnect_refines free p q s σ : refines s σ → refines (Controller_Disconnect free p q s) Idle.
Proof.
  destruct s as [c w]. intros [Hok Hs Hcfg [Hw _]]. cbn [fst snd] in *. unfold Controller_Disconnect. cbn [fst snd].
  assert (be_ok w) as Hbe by exact Hok.
  change (c_backend (disconnect_cancel c)) with (c_backend c). split; cbn [fst snd]; [| |done|split; [|done]].
  - unfold disconnect_shutdown. destruct (c_backend c) as [b0|]; [exact (shutdown_ok b0 w Hbe)|done].
  - intros b Hb. exfalso. unfold disconnect_shutdown in Hb. destruct (c_backend c) as [b0|] eqn:Hc.
    + by rewrite (shutdown_alone c w b0 Hbe Hs Hc) in Hb.
    + by rewrite (sole_none c w Hs Hc) in Hb.
  - unfold disconnect_shutdown. destruct (c_backend c) as [b0|]; [|done].
    change (be_Shutdown b0 w) with (node_Shutdown d b0 w). by rewrite shutdown_waits.
Qed.

Lemma if_connected_refines env s σ : refines s σ → refines (if_connected env s) Idle.
Proof.
  intros Hr. unfold if_connected. destruct (c_backend s.1) eqn:Hc; [by eapply disconnect_refines|].
  destruct Hr as [Hok Hs Hcfg [Hw _]]. split; [done..|by split].
Qed.

(** A backend that has been made from an idle node. *)
Lemma begun_refines c w w' b σ : refines (c, w) Idle → node_ok w' →
  (∀ b', node_Started b' w' = true → b' = b ∨ node_Started b' w = true) →
  matches σ (set_backend (Some b) c) w' → refines (set_backend (Some b) c, w') σ.
Proof.
  intros [_ Hs Hcfg [_ Hn]] Hok Hst Hm. split; cbn [fst snd] in *; [done| |done|done].
  intros b' Hb. destruct (Hst b' Hb) as [->|Hold]; [done|].
  pose proof (sole_none c w Hs Hn b') as Hoff. change (node_Started b' w = false) in Hoff. congruence.
Qed.

Lemma failed_refines c w w' : refines (c, w) Idle → node_ok w' → starts_none w w' →
  Forall steady_moments (n_waits w') → refines (c, w') Idle.
Proof.
  intros Hr Hok Hst Hw. eapply refines_world; [exact Hr|exact Hok| |split; [done|apply Hr]]. intros b Hb. right. by apply Hst.
Qed.

Lemma xray_refines c w conf users p q : refines (c, w) Idle → prepared conf →
  match node_xray_New d conf users p q w with
  | (Ok b, w') => refines (set_backend (Some b) c, w') (OnXray (begun users (offered p conf)) true)
  | (Err _, w') => refines (c, w') Idle
  end.
Proof.
  intros Hr Hp. pose proof (xray_starts d prompt ours Htidy conf users p q w (rf_ok _ _ Hr)) as Hst.
  destruct (matches_next _ _ _ (rf_matches _ _ Hr)) as (Hq & _ & [Hw _]). cbn [fst snd] in Hq, Hw.
  destruct (node_xray_New d conf users p q w) as [r' w'] eqn:Hnew. unfold node_xray_New in Hnew.
  assert (n_next (next_wait w).2 = n_next w) as Hnext by done. destruct (next_wait w) as [ms w0]. cbn [fst snd] in *.
  destruct (Xray_New _ _ _ _ _ _ _ _ _ _ _ _) as [r [f m]] eqn:Hrun.
  destruct r as [[t|]|e]; cbn [finished] in Hnew; injection Hnew as <- <-; destruct Hst as [Hok Hst]; try by eapply failed_refines.
  eapply begun_refines; [done..|]. split; [by destruct t as [? [[? ?] ?]]|]. exists (n_next w0), t. split_and!; [done| |].
  - unfold xray_state. destruct t as [x [[cr f'] m']]. cbn. by rewrite lookup_insert_eq.
  - by eapply serves_created.
Qed.

Lemma wireguard_refines c w conf users : refines (c, w) Idle → canonical_keys users → ours (InterfaceName conf) →
  match node_wireguard_New d conf users w with
  | (Ok b, w') => refines (set_backend (Some b) c, w') (OnWireguard conf (desired_roster conf users))
  | (Err _, w') => refines (c, w') Idle
  end.
Proof.
  intros Hr Hcan Hours. pose proof (wireguard_starts d ours Htidy conf users w (rf_ok _ _ Hr)) as Hst.
  destruct (node_wireguard_New d conf users w) as [[b|e] w'] eqn:Hnew; destruct Hst as [Hok Hst].
  2:{ eapply failed_refines; [exact Hr|done..|]. unfold node_wireguard_New in Hnew.
      destruct (WireGuard_New _ _ _ _ _ _ _ _) as [[g|e'] k']; [done|]. injection Hnew as _ <-. apply (rf_matches _ _ Hr). }
  eapply begun_refines; [done..|]. unfold node_wireguard_New in Hnew.
  destruct (WireGuard_New _ _ _ _ _ _ _ _) as [[g|e] k'] eqn:Hg; [|done]. injection Hnew as <- <-.
  split; [exact (proj1 (rf_matches _ _ Hr))|]. exists (n_next w), g. cbn. rewrite lookup_insert_eq. split_and!; [done..| |done]. destruct (Htidy _ Hours) as [Ht Htick].
  by eapply serves_new.
Qed.

Lemma start_refines data s σ : refines s Idle → allowed_command (Cstart data) σ →
  match Controller_StartBackend data s with
  | (Ok _, s') => ∃ σ', begins newConfig newXray data σ' ∧ refines s' σ'
  | (Err _, s') => refines s' Idle
  end.
Proof.
  destruct s as [c w]. intros Hr Hal. unfold Controller_StartBackend, get, mbind, eff_bind. cbn [fst snd]. cbn in Hal. destruct Hal as [Hwal Hxal].
  destruct (Backend_Type data) eqn:Hty; cbn [lift fst snd].
  - destruct (xray_NewConfig _ _) as [conf|e] eqn:Hconf; [|done]. rewrite backend_eq.
    pose proof (xray_refines c w conf (Backend_Users data) (c_apiPort c) (c_metricPort c) Hr (Hxal eq_refl conf Hconf)) as Hx.
    change (xray_New conf) with (node_xray_New d conf). destruct (node_xray_New d conf _ _ _ w) as [[b|e] w']; [|done].
    eexists. split; [by apply begins_xray|exact Hx].
  - destruct (Hwal eq_refl) as [Hcan Hours]. destruct (wireguard_NewConfig _) as [conf|e] eqn:Hconf; [|done]. rewrite backend_eq.
    pose proof (wireguard_refines c w conf (Backend_Users data) Hr Hcan (Hours conf Hconf)) as Hx.
    change (wireguard_New conf) with (node_wireguard_New d conf). destruct (node_wireguard_New d conf _ w) as [[b|e] w']; [|done].
    eexists. split; [by apply begins_wireguard|done].
  - done.
Qed.

Lemma refines_reports s σ : refines s σ → reports σ (Controller_BaseInfoResponse s).
Proof.
  destruct s as [c w]. intros [_ _ _ [_ Hm]]. cbn [fst snd] in Hm. unfold Controller_BaseInfoResponse. cbn [fst snd].
  destruct σ as [|conf r|]; cbn in *; [by rewrite Hm| |done]. destruct Hm as (n & g & -> & Hg & Hs & _). cbn. rewrite Hg.
  apply bool_decide_eq_true_2, Hs.
Qed.

(** ** Commands *)

(** What a server makes of a command: [res] tells how it went. *)
Definition handles {R} (cmd : command) (res : R → outcome) (r : R * CS) σ : Prop :=
  ∃ σ', effect cmd (res r.1) σ σ' ∧ refines r.2 σ'.

Lemma backend_some s : running s → ∃ b, c_backend s.1 = Some b.
Proof. intros (b & Hb & _). by exists b. Qed.

Lemma Connect_refines now keepAlive c w σ : refines (c, w) σ → refines (Controller_Connect now keepAlive c, w) σ.
Proof. by apply refines_controller. Qed.

(** ** gRPC calls *)

Lemma handler_start env data s σ : refines s σ → allowed_command (Cstart data) σ →
  handles (Cstart data) (rpc_outcome (RpcStart data)) (rpc_Start env data s) σ.
Proof.
  intros Hr Hal. rewrite start_eq. pose proof (start_refines data _ σ (if_connected_refines env s σ Hr) Hal) as Hst.
  unfold start_session, modify_c, modify, get, mbind, eff_bind, mret, eff_ret.
  destruct (Controller_StartBackend data (if_connected env s)) as [[u|e] [c w]]; [|by exists Idle].
  destruct Hst as (σ' & Hb & Hr'). exists σ'. cbn [fst snd].
  pose proof (Connect_refines (e_now env) (Backend_KeepAlive data) _ _ _ Hr') as Hr2.
  split; [|done]. split; [done|]. eexists. split; [done|]. by apply refines_reports.
Qed.

Lemma rpc_upload_eq chunks ending reply b s : c_backend s.1 = Some b →
  rpc_SyncUsersChunked chunks ending reply s =
  match uploaded chunks ending with
  | Ok users =>
      match node_UpdateUsers d b users s.2 with
      | (Ok _, w) => (reply, (s.1, w))
      | (Err e, w) => (Err (status_Error Internal ("failed to update users: " +:+ err_text e)), (s.1, w))
      end
  | Err e => (Err (if rpc_receive nothing_received chunks ending then status_Error InvalidArgument (err_text e) else e), s)
  end.
Proof.
  intros Hb. unfold rpc_SyncUsersChunked, uploaded. unfold mbind at 1, eff_bind at 1, lift at 1.
  destruct (rpc_receive nothing_received chunks ending) as [rc|e]; [|done].
  unfold mbind at 1, eff_bind at 1, map_err at 1, lift at 1.
  destruct (BuildUsersFromChunks _ _ _) as [users|e]; [|done]. rewrite (rpc_backend_run _ b) by done.
  destruct s as [c w]. unfold mbind, eff_bind, map_err, ApplyChunkedUserUpdate. rewrite backend_eq.
  change (be_UpdateUsers b users w) with (node_UpdateUsers d b users w). cbn [fst snd].
  by destruct (node_UpdateUsers d b users w) as [[[]|e] w'].
Qed.

Lemma handler_refines {A} env (call : rpc_call A) s σ :
  refines s σ → allowed_command (rpc_command call) σ → (rpc_needs call → running s) →
  handles (rpc_command call) (rpc_outcome call) (rpc_handler env call s) σ.
Proof.
  intros Hr Hal Hrun. destruct (plain_call call) eqn:Hp.
  { pose proof (query_refines _ s σ (handler_queries env call Hp) Hr) as Hq.
    exists σ. split; [|done]. destruct call; try discriminate Hp; try done. split; [done|].
    eexists. split; [done|]. by apply refines_reports. }
  destruct call as [data| | | | | | | | |users reply|users|chunks ending reply| | | | | | |]; try discriminate Hp; cbn [rpc_handler].
  - by apply handler_start.
  - exists Idle. split; [done|]. by eapply disconnect_refines.
  - destruct (backend_some s) as [b Hb]; [by apply Hrun, slices_Contains_true|]. unfold rpc_SyncUser.
    rewrite (rpc_backend_run _ b) by done. destruct s as [c w].
    pose proof (stream_refines c w b users reply σ Hr Hb) as Hs. unfold handles. destruct (rpc_sync_each b users reply (c, w)) as [res s'].
    apply Hs. by intros conf r ->.
  - destruct (backend_some s) as [b Hb]; [by apply Hrun, slices_Contains_true|]. unfold rpc_SyncUsers, handles.
    rewrite (rpc_backend_run _ b) by done. destruct s as [c w]. rewrite backend_eq.
    pose proof (full_refines c w b users σ Hr Hb) as Hs. change (be_SyncUsers b users w) with (node_SyncUsers d b users w).
    destruct (node_SyncUsers d b users w) as [res w']. eexists. split; [reflexivity|]. apply Hs. by intros conf r ->.
  - destruct (backend_some s) as [b Hb]; [by apply Hrun, slices_Contains_true|]. cbn [rpc_command] in *. unfold handles.
    rewrite (rpc_upload_eq _ _ _ b) by done. destruct (uploaded chunks ending) as [users|e]; [|by exists σ].
    destruct s as [c w]. cbn [fst snd]. pose proof (update_refines c w b users σ Hr Hb) as Hs.
    destruct (node_UpdateUsers d b users w) as [[[]|e] w'].
    + exists (updated true users σ). split; [by left|]. apply Hs; [by intros conf r ->|by intros l clean ->].
    + exists (updated false users σ). split; [by right|]. apply Hs; [by intros conf r ->|by intros l clean ->].
Qed.

(** ** HTTP requests *)

Lemma query_reply b {A} code (op : eff CS A) : queries_of b op → queries_of b (reply code op).
Proof. intros Hop s. specialize (Hop s). unfold reply. by destruct (op s) as [[a|e] s']. Qed.

Lemma query_routing_reply b {A} (op : eff node A) : (∀ w, asks b w (op w).2) → queries_of b (routing_reply op).
Proof. intros Hop s. pose proof (query_op b op Hop s) as Hq. unfold routing_reply. by destruct (backend op s) as [[a|e] s']. Qed.

Lemma query_body_of b {V A} (u : string → result V) body (f : V → rest A) :
  (∀ v, queries_of b (f v)) → queries_of b (with_body u body f).
Proof. intros Hf s. unfold with_body. destruct (ReadProtoBody u body); [apply Hf|by left]. Qed.

Lemma query_body {V A} (u : string → result V) body (f : V → rest A) : (∀ v, queries (f v)) → queries (with_body u body f).
Proof. intros Hf s. unfold with_body. destruct (ReadProtoBody u body); [apply Hf|by left]. Qed.

Lemma query_rest_backend {A} (g : handle → rest A) : (∀ b, queries_of b (g b)) → queries (rest_backend g).
Proof.
  intros Hg s. unfold rest_backend. destruct (Controller_Backend s.1) as [b|]; [|by left].
  destruct (Hg b s) as [?|(w' & ? & ?)]; [by left|right; by exists b, w'].
Qed.

Lemma query_rest_routing {A} (g : RoutingBackend node → rest A) :
  (∀ b rb, node_routing b = Some rb → queries_of b (g rb)) → queries (rest_routingBackend g).
Proof.
  intros Hg s. unfold rest_routingBackend, asRoutingBackend. destruct (Controller_Backend s.1) as [b|]; [|by left].
  change (Some b ≫= be_routing) with (node_routing (UUID:=UUID) (M:=M) b).
  destruct (node_routing (UUID:=UUID) (M:=M) b) as [rb|] eqn:Hrb; [|by left].
  destruct (Hg b rb Hrb s) as [?|(w' & ? & ?)]; [by left|right; by exists b, w'].
Qed.

Lemma query_map {A B} (op : eff CS A) (g : CS → B * CS) : (∀ s, (g s).2 = (op s).2) → queries op → queries g.
Proof. intros He Hop s. rewrite (He s). apply Hop. Qed.

Definition plain_request {A} (call : rest_call A) : bool :=
  match call with RestStart | RestStop | RestSyncUser | RestSyncUsers | RestSyncUsersChunked => false | _ => true end.

Lemma request_queries env body {A} (call : rest_call A) : plain_request call = true → queries (rest_handler env body call).
Proof.
  destruct call; intros Hp; try discriminate Hp; cbn [rest_handler].
  - intros s. by left.
  - unfold rest_GetLogs. destruct (negb flusher); [intros s; by left|]. apply query_rest_backend. intros b s. left.
    by destruct (rest_log_loop events).
  - apply query_body. intros v. apply query_rest_backend. intros b. apply query_reply, query_map_err, query_op. intros w. apply ask_GetStats.
  - apply query_body. intros v. apply (query_map (rpc_handler env (RpcGetOutboundsLatency v))); [|by apply handler_queries].
    intros s. cbn. unfold reply, rpc_GetOutboundsLatency. by destruct (Controller_OutboundsLatency v s) as [[?|?] ?].
  - apply query_body. intros v. apply query_rest_backend. intros b. apply query_reply, query_map_err, query_op. intros w.
    apply ask_GetUserOnlineStats.
  - apply query_body. intros v. apply query_rest_backend. intros b. apply query_reply, query_map_err, query_op. intros w.
    apply ask_GetUserOnlineIpListStats.
  - apply query_rest_backend. intros b. apply query_reply, query_op. intros w. apply ask_GetSysStats.
  - apply (query_map (rpc_handler env RpcGetSystemStats)); [|by apply handler_queries].
    intros s. cbn. unfold rest_GetSystemStats, reply, rpc_GetSystemStats. by destruct (Controller_SystemStats s) as [[?|?] ?].
  - apply query_rest_routing. intros b rb Hrb. apply query_routing_reply. intros w. by apply ask_ListRoutingRules.
  - apply query_rest_routing. intros b rb Hrb. apply query_body_of. intros v. apply query_routing_reply. intros w. by apply ask_AddRoutingRule.
  - apply query_rest_routing. intros b rb Hrb. apply query_body_of. intros v. apply query_routing_reply. intros w. by apply ask_RemoveRoutingRule.
  - apply query_rest_routing. intros b rb Hrb. apply query_body_of. intros v. apply query_routing_reply. intros w. by apply ask_GetBalancerInfo.
  - apply query_rest_routing. intros b rb Hrb. apply query_body_of. intros v. apply query_routing_reply. intros w.
    by apply ask_OverrideBalancerTarget.
  - apply query_rest_routing. intros b rb Hrb. apply query_body_of. intros v. apply query_routing_reply. intros w. by apply ask_TestRoute.
Qed.

(** A request that is refused before anything is done. *)
Lemma invalid_handles {R} (res : R → outcome) r s σ : refines s σ → o_ok (res r) = false → handles Cinvalid res (r, s) σ.
Proof. intros Hr Ho. exists σ. by split; [split|]. Qed.

Lemma http_Error_ok {A} code e : http_ok (http_Error (A:=A) code e) = false.
Proof. unfold http_Error. by destruct (errors_Is e Panicked). Qed.

Lemma request_start env body s σ : refines s σ → allowed_command (rest_command body RestStart) σ →
  handles (rest_command body RestStart) (rest_outcome RestStart) (rest_Start env body s) σ.
Proof.
  intros Hr Hal. cbn [rest_command] in *. unfold rest_Start, with_body.
  destruct (ReadProtoBody Unmarshal_Backend body) as [data|e]; [|by apply invalid_handles].
  pose proof (start_refines data _ σ (if_connected_refines env s σ Hr) Hal) as Hst.
  assert ((match Controller_Backend s.1 with Some _ => rest_disconnect env s | None => s end) = if_connected env s) as ->
    by (unfold if_connected, Controller_Backend; by destruct (c_backend s.1)).
  destruct (Controller_StartBackend data (if_connected env s)) as [[u|e] [c w]].
  - destruct Hst as (σ' & Hb & Hr'). exists σ'. cbn [fst snd].
    pose proof (Connect_refines (e_now env) (Backend_KeepAlive data) _ _ _ Hr') as Hr2.
    split; [|done]. split; [done|]. eexists. split; [done|]. by apply refines_reports.
  - exists Idle. split; [|done]. cbn. by rewrite http_Error_ok.
Qed.

(** An operation of the backend answered with a status of its own. *)
Lemma reply_backend {A} code (op : eff node A) c w :
  reply code (backend op) (c, w) = (match (op w).1 with Ok a => HttpOk a | Err e => http_Error (code e) e end, (c, (op w).2)).
Proof. unfold reply. rewrite backend_eq. by destruct (op w) as [[a|e] w']. Qed.

Lemma reply_ok {A} code (r : result A) :
  http_ok (match r with Ok a => HttpOk a | Err e => http_Error (code e) e end) = is_ok r.
Proof. destruct r; [done|]. apply http_Error_ok. Qed.

Lemma request_refines {A} env body (call : rest_call A) s σ :
  refines s σ → allowed_command (rest_command body call) σ → (rest_private call = true → running s) →
  handles (rest_command body call) (rest_outcome call) (rest_handler env body call s) σ.
Proof.
  intros Hr Hal Hrun. destruct (plain_request call) eqn:Hp.
  { pose proof (query_refines _ s σ (request_queries env body call Hp) Hr) as Hq. exists σ. split; [|done].
    destruct call; try discriminate Hp; try done. split; [done|]. eexists. split; [done|]. by apply refines_reports. }
  destruct call; try discriminate Hp; cbn [rest_handler]; [by apply request_start|..];
    (destruct (backend_some s) as [b Hb]; [by apply Hrun|]); destruct s as [c w]; cbn [rest_command] in *.
  - exists Idle. split; [done|]. by eapply disconnect_refines.
  - unfold rest_SyncUser. unfold ReadProtoBody in *. destruct (ReadAll body) as [data|e]; [|by apply invalid_handles].
    destruct (Unmarshal_User data) as [u|e]; [|by apply invalid_handles]. case_bool_decide; [by apply invalid_handles|].
    rewrite (rest_backend_run _ b) by done. rewrite reply_backend.
    pose proof (one_refines c w b u σ Hr Hb) as Hs. change (be_SyncUser b (Some u) w) with (node_SyncUser d b (Some u) w).
    assert (refines (c, (node_SyncUser d b (Some u) w).2) (updated (is_ok (node_SyncUser d b (Some u) w).1) [Some u] σ)) as Hr'.
    { destruct (node_SyncUser d b (Some u) w). apply Hs. intros conf ros ->. by apply Hal. }
    eexists. split; [|exact Hr']. cbn. rewrite reply_ok. destruct (node_SyncUser d b (Some u) w).1.
    + exists [u], []. split_and!; [done..|by left].
    + exists [], [u]. split_and!; [done..|right]. by exists u.
  - unfold rest_SyncUsers. unfold ReadProtoBody in *. destruct (ReadAll body) as [data|e]; [|by apply invalid_handles].
    destruct (Unmarshal_Users data) as [users|e]; [|by apply invalid_handles].
    rewrite (rest_backend_run _ b) by done. rewrite reply_backend.
    pose proof (full_refines c w b users σ Hr Hb) as Hs. change (be_SyncUsers b users w) with (node_SyncUsers d b users w).
    destruct (node_SyncUsers d b users w) as [res w']. eexists. split; [|apply Hs; by intros conf r ->]. cbn. by rewrite reply_ok.
  - unfold rest_SyncUsersChunked. destruct (rest_chunks body) as [rc|code text| |rc]; try by apply invalid_handles.
    all: destruct (BuildUsersFromChunks _ _ _) as [users|e]; [|by apply invalid_handles].
    all: rewrite (rest_backend_run _ b) by done; unfold ApplyChunkedUserUpdate; rewrite reply_backend.
    all: pose proof (update_refines c w b users σ Hr Hb) as Hs; change (be_UpdateUsers b users w) with (node_UpdateUsers d b users w).
    all: destruct (node_UpdateUsers d b users w) as [res w']; eexists; (split; [|apply Hs; [by intros conf ros ->|by intros l clean ->]]).
    all: cbn; rewrite reply_ok; destruct res; [by left|by right].
Qed.

(** ** Through the interceptors *)

Definition is_key (key : string) : Prop := uuid_Parse key = Ok (ApiKey cfg).

Notation spec_does := (spec_does newConfig newXray is_key).

Lemma rpc_keyed_eq md c : c_cfg c = cfg → rpc_authorized uuid_Parse md c ↔ rpc_keyed is_key md.
Proof. intros Hc. unfold rpc_keyed, is_key, rpc_authorized, Controller_ApiKey. by rewrite Hc. Qed.

Lemma rest_keyed_eq req c : c_cfg c = cfg → rest_authorized uuid_Parse req c ↔ rest_keyed is_key req.
Proof. intros Hc. unfold rest_keyed, is_key, rest_authorized, Controller_ApiKey. by rewrite Hc. Qed.

Lemma running_not_idle s σ : refines s σ → running s → σ ≠ Idle.
Proof.
  intros Hr (b & Hbk & _) ->. destruct (rf_matches _ _ Hr) as [_ Hm]. cbn in Hm. unfold Controller_Backend in Hbk. congruence.
Qed.

Lemma wireguard_running s conf r : refines s (OnWireguard conf r) → running s.
Proof.
  intros Hr. destruct (rf_matches _ _ Hr) as (_ & n & g & Hbk & Hg & Hs & _). exists (WireguardHandle n). split; [done|].
  cbn. rewrite Hg. apply bool_decide_eq_true_2, Hs.
Qed.

(** A refusal, and a command that was let through, in the terms of the service. *)
Lemma refusal_answers (P Q : Prop) cmd o s σ :
  refines s σ → o_ok o = false → (P → Q ∧ ¬ running s) → ∃ σ', answers newConfig newXray P Q cmd o σ σ' ∧ refines s σ'.
Proof.
  intros Hr Ho Hwhy. exists σ. split; [|done]. right. split; [by split|]. intros [HQ Hn]%Hwhy. split; [done|].
  intros conf r ->. by eapply Hn, wireguard_running.
Qed.

Lemma handles_answers {R} (P Q : Prop) cmd (res : R → outcome) r s s' σ : refines s σ → P → (Q → running s) →
  handles cmd res r σ → (∀ σ', refines r.2 σ' → refines s' σ') → ∃ σ', answers newConfig newXray P Q cmd (res r.1) σ σ' ∧ refines s' σ'.
Proof.
  intros Hr HP HQ (σ' & He & Hr') Hs. exists σ'. split; [|by apply Hs]. left. split_and!; [done..|].
  intros Hq. by eapply running_not_idle, HQ.
Qed.

Lemma call_refines {A} env md (call : rpc_call A) s σ :
  refines s σ → (rpc_keyed is_key md → allowed_command (rpc_command call) σ) →
  let '(res, s') := rpc_serve uuid_Parse env md call s in
  ∃ σ', answers newConfig newXray (rpc_keyed is_key md) (rpc_needs call) (rpc_command call) (rpc_outcome call res) σ σ' ∧ refines s' σ'.
Proof.
  intros Hr Hal. rewrite rpc_serve_eq. pose proof (rpc_keyed_eq md _ (rf_cfg _ _ Hr)) as Hkey.
  destruct (middleware_cases uuid_Parse env md (rpc_method call) (rpc_handler env call) s) as [(e & -> & Hwhy)|(Ha & Hb & ->)].
  - apply (refusal_answers _ _ _ (rpc_outcome call (Err e)) s); [done..|]. by intros Hk%Hkey%Hwhy.
  - apply Hkey in Ha. pose proof (handler_refines env call s σ Hr (Hal Ha) Hb) as Hh. unfold LoggingInterceptor.
    destruct (rpc_handler env call s) as [[a|e] [c w]]; eapply (handles_answers _ _ _ (rpc_outcome call) _ s) in Hh; try done.
    intros σ'. by apply refines_controller.
Qed.

Lemma http_refines {A} env req (call : rest_call A) s σ :
  refines s σ → (rest_keyed is_key req → allowed_command (rest_command (r_body req) call) σ) →
  let '(res, s') := rest_serve uuid_Parse env req call s in
  ∃ σ', answers newConfig newXray (rest_keyed is_key req) (rest_private call = true) (rest_command (r_body req) call)
          (rest_outcome call res) σ σ' ∧ refines s' σ'.
Proof.
  intros Hr Hal. pose proof (rest_keyed_eq req _ (rf_cfg _ _ Hr)) as Hkey.
  destruct (rest_gate_cases uuid_Parse env req call s) as [(code & text & -> & Hwhy)|(Ha & Hb & ->)].
  - apply (refusal_answers _ _ _ (rest_outcome call (HttpError code text)) s); [done..|]. by intros Hk%Hkey%Hwhy.
  - apply Hkey in Ha. pose proof (request_refines env (r_body req) call s σ Hr (Hal Ha) Hb) as Hh.
    unfold trackSuccessfulRequest, Recoverer. destruct (rest_handler env (r_body req) call s) as [res [c w]].
    assert (∀ res', rest_outcome call res' = rest_outcome call res → ∃ σ', answers newConfig newXray (rest_keyed is_key req)
      (rest_private call = true) (rest_command (r_body req) call) (rest_outcome call res') σ σ' ∧ refines (c, w) σ') as Hthrough
      by (intros res' ->; eapply (handles_answers _ _ _ (rest_outcome call) _ s) in Hh; try done).
    assert (∀ res', rest_outcome call res' = rest_outcome call res →
      let '(r, s') := if (200 <=? http_status res') && (http_status res' <? 300)
        then (res', (Controller_NewRequest (e_now env) c, w)) else (res', (c, w)) in
      ∃ σ', answers newConfig newXray (rest_keyed is_key req) (rest_private call = true) (rest_command (r_body req) call)
        (rest_outcome call r) σ σ' ∧ refines s' σ') as Htracked.
    { intros res' He. destruct (Hthrough res' He) as (σ' & Hans & Hr').
      destruct ((200 <=? http_status res') && (http_status res' <? 300)); exists σ'; (split; [done|]); [by apply (refines_controller c)|done]. }
    destruct res; try exact (Htracked _ eq_refl).
    refine (Htracked (HttpError 500 "") _). by destruct call.
Qed.

(** ** Between calls *)

(** The environment may end processes and print for them, but it does not change
    the users of a core. *)
Inductive background s : CS → Prop :=
  | bg_event n e : steady e → background s (s.1, (node_event n e s.2).2)
  | bg_tick n t : background s (s.1, (node_tick d n t s.2).2)
  | bg_health n t failures : c_backend s.1 = Some (XrayHandle n) → steady_turn t →
      background s (s.1, (health_turn d n t failures s.2).2)
  | bg_time now : background s (s.1, set_now now s.2)
  | bg_waits l : Forall steady_moments l → background s (s.1, set_waits l s.2)
  | bg_kernel k : (∀ name, ours name → dev k name = dev (n_kernel s.2) name) → background s (s.1, set_kernel k s.2)
  | bg_stats st : background s (record_stats st s.1, s.2).

Lemma steady_quiet (e : env_event (M:=M)) : steady e → quiet e.
Proof. destruct e as [line|g|id err]; [done| |done]. intros Hg m. apply Hg. Qed.

Lemma steady_all (es : list (env_event (M:=M))) : Forall steady es → Forall quiet es.
Proof. intros Hs. eapply Forall_impl; [exact Hs|apply steady_quiet]. Qed.

Lemma event_leaves e : steady e → preserves leaves (λ '(x, w), (Ok (), (x, env_step (M:=M) w e))).
Proof. intros He [x w]. split; [done|]. by apply env_step_idles. Qed.

Lemma matches_health n t failures σ c w : c_backend c = Some (XrayHandle n) → steady_turn t → matches σ c w →
  matches σ c (health_turn d n t failures w).2.
Proof.
  intros Hb Ht Hm. destruct (on_xray_current _ _ _ _ Hm Hb) as (l & clean & ->).
  pose proof (matches_moves_xray n (checkXrayHealth (d_marshal d) (d_range d) (d_cfg d) [t] failures) (λ _, (l, clean)) l clean c w Hb Hm) as Hmv.
  change (on_xray n _ w) with (health_turn d n t failures w) in Hmv. destruct (health_turn d n t failures w) as [res w'].
  apply Hmv. intros s Hs. pose proof (serves_health (d_marshal d) (d_range d) (d_cfg d) t failures clean l s Ht Hs) as Hh.
  by destruct (checkXrayHealth _ _ _ [t] failures s).
Qed.

Lemma background_refines s s' σ : background s s' → refines s σ → refines s' σ.
Proof.
  intros Hb Hr. pose proof (rf_matches _ _ Hr) as Hm. destruct s as [c w]; cbn [fst snd] in *.
  destruct Hb as [n e He|n t|n t failures Hc Ht|now|l Hl|k Hk|st]; cbn [fst snd] in *.
  - eapply refines_passive; [exact Hr|by apply q_event, steady_quiet|]. apply matches_xray; [by apply event_leaves|done].
  - eapply refines_passive; [exact Hr|by apply q_tick|]. apply matches_reads; [|done]. intros t'. apply tick_reads.
  - assert (quiet_turn t) as Hq by (destruct Ht; split; by apply steady_all).
    eapply refines_restarts; [exact Hr|done|by apply r_health|by apply matches_health].
  - eapply refines_passive; [exact Hr|apply q_time|]. eapply matches_fields; [..|exact Hm]; try done. apply Hm.
  - eapply refines_passive; [exact Hr|apply q_waits|by apply (matches_fields σ c w)].
    eapply Forall_impl; [exact Hl|]. intros ms Hms. eapply Forall_impl; [exact Hms|]. intros mo. apply steady_all.
  - eapply refines_passive; [exact Hr|apply q_kernel; intros name Ho; by rewrite (Hk name Ho)|].
    destruct Hm as [Hw Hm]. split; [done|].
    destruct σ as [|conf r|]; [done| |done]. destruct Hm as (n & g & Hb & Hg & Hs & Ho). exists n, g. split_and!; [done..| |done].
    apply (serves_kernel conf r g (n_kernel w)); [by apply Hk|done].
  - by apply (refines_controller c).
Qed.

(** The node's part of a label. *)
Definition does (l : label) s s' : Prop :=
  match l with
  | Lcall env md call res => rpc_serve uuid_Parse env md call s = (res, s')
  | Lhttp env req call res => rest_serve uuid_Parse env req call s = (res, s')
  | Lexpiry => ∃ free p q i ctx keepAlive now, c_jobs s.1 !! i = Some (KeepAliveTracker ctx keepAlive) ∧
      keepAlive_expired now keepAlive s.1 = true ∧ s' = Controller_Disconnect free p q s
  | Lquiet => background s s'
  end.

Lemma does_refines l s s' σ : does l s s' → refines s σ → allowed newConfig newXray is_key ours l σ →
  ∃ σ', spec_does l σ σ' ∧ refines s' σ'.
Proof.
  destruct l as [A env md call res|A env req call res| |]; cbn.
  - intros Hd Hr Hal. pose proof (call_refines env md call s σ Hr Hal) as Hs. by rewrite Hd in Hs.
  - intros Hd Hr Hal. pose proof (http_refines env req call s σ Hr Hal) as Hs. by rewrite Hd in Hs.
  - intros (free & p & q & _ & _ & _ & _ & _ & _ & ->) Hr _. exists Idle. split; [done|]. by eapply disconnect_refines.
  - intros Hb Hr _. exists σ. split; [done|]. by eapply background_refines.
Qed.

Lemma runs_refine tr s s' σ : runs does s tr s' → refines s σ → contract newConfig newXray is_key ours σ tr →
  ∃ σ', runs spec_does σ tr σ' ∧ refines s' σ'.
Proof.
  intros Hrun. revert σ. induction Hrun as [s|l s s1 s2 tr Hd _ IH]; intros σ Hr Hc; [exists σ; by split; [constructor|]|].
  destruct Hc as [Hal Hc]. destruct (does_refines l s s1 σ Hd Hr Hal) as (σ1 & Hs & Hr1).
  destruct (IH σ1 Hr1 (Hc σ1 Hs)) as (σ2 & Hs2 & Hr2). exists σ2. by split; [econstructor|].
Qed.

(** ** What the service means for the host *)

Definition no_process w : Prop := ∀ h, m_alive h (n_ext w) = false.
Definition no_interface_but (keep : string → Prop) w : Prop := ∀ name, ours name → ¬ keep name → dev (n_kernel w) name = None.

Definition observes w σ : Prop :=
  match σ with
  | Idle => no_process w ∧ no_interface_but (λ _, False) w
  | OnWireguard conf r =>
      no_process w ∧ no_interface_but (λ name, name = InterfaceName conf) w ∧
      ∃ dv, dev (n_kernel w) (InterfaceName conf) = Some dv ∧ agree dv r
  | OnXray l clean =>
      no_interface_but (λ _, False) w ∧
      (∀ h h', m_alive h (n_ext w) = true → m_alive h' (n_ext w) = true → h = h') ∧
      ∀ h i, m_alive h (n_ext w) = true → i ∈ l → exclude i = false →
        served clean i (clients i) (api_users (n_ext w) (In_Tag i))
  end.

Lemma refines_no_process s σ : refines s σ → (∀ n, c_backend s.1 ≠ Some (XrayHandle n)) → no_process s.2.
Proof.
  intros Hr Hb h. destruct (m_alive h (n_ext s.2)) eqn:Ha; [|done].
  destruct (living_is_current d ours s.1 s.2 h (rf_ok _ _ Hr) (rf_sole _ _ Hr) Ha) as (n & _ & _ & Hc & _). by apply Hb in Hc.
Qed.

Lemma refines_no_interface s σ keep : refines s σ →
  (∀ n g mgr, c_backend s.1 = Some (WireguardHandle n) → n_wgs s.2 !! n = Some g → wg_manager g = Some mgr → keep (iFaceName mgr)) →
  no_interface_but keep s.2.
Proof.
  intros Hr Hk name Ho Hn. apply eq_None_not_Some. intros Hd.
  destruct (link_is_current d ours s.1 s.2 name (rf_ok _ _ Hr) (rf_sole _ _ Hr) Ho Hd) as (n & g & mgr & Hc & Hg & Hm & <-).
  by eapply Hn, Hk.
Qed.

Lemma refines_observes s σ : refines s σ → observes s.2 σ.
Proof.
  intros Hr. destruct (rf_matches _ _ Hr) as [_ Hm]. destruct σ as [|conf r|l clean]; cbn in *.
  - split; [eapply refines_no_process; [exact Hr|congruence]|eapply refines_no_interface; [exact Hr|congruence]].
  - destruct Hm as (n & g & Hb & Hg & Hs & _). split_and!.
    + eapply refines_no_process; [exact Hr|congruence].
    + eapply refines_no_interface; [exact Hr|]. intros n' g' mgr Hb' Hg' Hm'. destruct (sv_manager _ _ _ Hs) as (mgr' & Hm & Hn).
      cbn in Hm. congruence.
    + apply (serves_link _ _ _ Hs).
  - destruct Hm as (n & t & Hb & Ht & Hs). split_and!; [eapply refines_no_interface; [exact Hr|congruence]| |].
    2:{ intros h i Ha Hi He.
        destruct (living_is_current d ours s.1 s.2 h (rf_ok _ _ Hr) (rf_sole _ _ Hr) Ha) as (n1 & x1 & c1 & Hb1 & Hl1 & Hp1).
        assert (n1 = n) as -> by congruence. unfold xray_state in Ht. rewrite Hl1 in Ht. injection Ht as <-.
        refine (serves_users clean l _ i Hs _ Hi He). cbn.
        pose proof (owned_started ours s.2 n h (rf_ok _ _ Hr) Ha (ex_intro _ x1 (ex_intro _ c1 (conj Hl1 Hp1)))) as Hst.
        cbn in Hst. by rewrite Hl1 in Hst. }
    intros h h' Ha Ha'.
    destruct (living_is_current d ours s.1 s.2 h (rf_ok _ _ Hr) (rf_sole _ _ Hr) Ha) as (n1 & x1 & c1 & Hb1 & Hl1 & Hp1).
    destruct (living_is_current d ours s.1 s.2 h' (rf_ok _ _ Hr) (rf_sole _ _ Hr) Ha') as (n2 & x2 & c2 & Hb2 & Hl2 & Hp2).
    congruence.
Qed.

Lemma new_refines free p q f m k now : (∀ h, m_alive h m = false) → (∀ name, ours name → dev k name = None) →
  refines (Controller_New cfg free p q, new_node f m k now) Idle.
Proof.
  intros Hm Hk. split; [by apply new_node_ok| |done|by split]. by intros [n|n].
Qed.

(** C1: what a client sees of the whole node is the service of Service.v.  From a
    fresh node, whatever gRPC calls and HTTP requests are answered one after the
    other, with ticks, health checks, events of the environment and keep-alive
    expiries between them, there is a run of the service with the same answers:
    a call without the API key, or without a backend where one is needed, is
    refused and changes nothing; a Start leaves the service it asks for or none; a
    full synchronisation replaces the users, an update and a stream of users
    change those they name, and one that fails changes nothing (except that Xray
    stores the users its core refused, and a stream keeps those it got to).  And
    the host shows the service: idle, there is neither an Xray process nor an
    interface of the node; over WireGuard the interface of the configuration is
    the node's only one and its kernel has exactly the roster's peers and
    networks; with Xray at most one process lives, and what it serves on an
    included inbound are users of the service with their credentials (up to the
    VLESS flow), all of them unless an update failed since it was last started.
    Over WireGuard the clients send standard key texts and, in updates, networks
    that no other user has; over Xray a configuration in order and one entry per
    user.  A failed kernel call changes nothing, statistics intervals are
    positive, links can be looked up and deleted, and a killed process is reaped
    within the five seconds [Stop] waits; a core that starts reads the users its
    configuration lists, its API removes the users it has, cloning a configuration
    loses no setting, and only the node changes the users of a core. *)
Theorem session_refines_service (free : Z → bool) (p q : Z) (f : Files) (m : M) (k : K) (now : Z) (tr : list label) s
    (Hnone : ∀ h, m_alive h m = false) (Hlinks : ∀ name, ours name → dev k name = None)
    (Hrun : runs does (Controller_New cfg free p q, new_node f m k now) tr s)
    (Hcontract : contract newConfig newXray is_key ours Idle tr) :
  ∃ σ, runs spec_does Idle tr σ ∧ observes s.2 σ.
Proof.
  destruct (runs_refine tr _ s Idle Hrun (new_refines free p q f m k now Hnone Hlinks) Hcontract) as (σ & Hs & Hr).
  exists σ. split; [done|]. by apply refines_observes.
Qed.
End EndToEnd.
