(* ===== verification/XrayMachine.v ===== *)
(** * A concrete machine: witnesses and observations

    Processes as numbers that live until they are killed, for the theorems of
    XrayRender and XrayProps, and what modelling the process showed. *)

From S2P Require Import Prelude GoString Json Helper Messages NodeConfig Logger XrayLogs XrayAccount XrayInbound XrayClients XrayUser XrayToy XrayApply XrayApi JsonToy XrayApiToy XrayRender XrayTyped XrayCore XrayRun XrayLife XrayProps XrayHealth XrayStats NodeToy.

#[local] Open Scope Z_scope.
#[local] Existing Instance toy_sha256.

(** ** The machine *)

Record toy_machine := mkMachine { tm_next : nat; tm_alive : gset nat }.

Definition toy_kill (h : nat) (m : toy_machine) : toy_machine := mkMachine (tm_next m) (tm_alive m ∖ {[ h ]}).

#[export] Instance toy_machine_ops : Machine toy_machine := {|
  m_version_output _ := mret "Xray 26.2.1 (Xray, Penetrates Everything.)";
  m_Indent s := if bool_decide (s = "") then Err (errors_New "unexpected end of JSON input") else Ok s;
  m_MkdirAll _ := mret ();
  m_WriteFile _ _ := mret ();
  m_StdoutPipe := mret ();
  m_spawn _ stdin m :=
    if bool_decide (stdin = "bad") then (Err (errors_New "fork failed"), m)
    else (Ok (tm_next m, 100 + Z.of_nat (tm_next m)), mkMachine (S (tm_next m)) ({[ tm_next m ]} ∪ tm_alive m));
  m_reaped h m := (h <? tm_next m)%nat && bool_decide (h ∉ tm_alive m);
  m_alive h m := bool_decide (h ∈ tm_alive m);
  m_Kill := toy_kill;
  m_killProcessTree _ := mret ();
  m_await h m := (bool_decide (h ∉ tm_alive m), m);
  m_verifyProcessDead _ _ := Ok ();
  m_findXrayProcesses _ _ := Ok [];
  m_Getpid := 1;
  m_lstat _ _ := Ok false;
  m_Remove _ := mret ();
  m_open_log _ := Ok ()
|}.

Lemma toy_reaped (h : nat) (m : toy_machine) : m_reaped h m = true ↔ (h < tm_next m)%nat ∧ h ∉ tm_alive m.
Proof.
  change (m_reaped h m) with ((h <? tm_next m)%nat && bool_decide (h ∉ tm_alive m)).
  by rewrite andb_true_iff, Nat.ltb_lt, bool_decide_eq_true.
Qed.

Lemma toy_kill_calm (alive : gset nat) (m : toy_machine) : alive ⊆ tm_alive m → calm m (mkMachine (tm_next m) alive).
Proof.
  intros Hsub. split; intros h; [cbn; rewrite !bool_decide_eq_true; set_solver|]. rewrite !toy_reaped. cbn. set_solver.
Qed.

#[export] Instance toy_machine_laws : MachineLaws toy_machine.
Proof.
  split; try (by intros; split; intros h').
  - intros h m [_ Hh]%toy_reaped. cbn. by apply bool_decide_eq_false_2.
  - intros h m. apply toy_kill_calm. set_solver.
  - intros e s m. cbn. case_bool_decide; [done|]. split; intros h'; [cbn; rewrite !bool_decide_eq_true; set_solver|].
    rewrite !toy_reaped. cbn. intros [Hlt Hn]. split; [lia|]. intros [Heq%elem_of_singleton|Hin]%elem_of_union; [lia|done].
  - intros h m. cbn. rewrite bool_decide_eq_true, bool_decide_eq_false. done.
Qed.

Lemma toy_prompt (h : nat) (m : toy_machine) : (m_await h (m_Kill h m)).1 = true.
Proof. cbn. apply bool_decide_eq_true_2. set_solver. Qed.

Definition toy_marshal (c : Config) : result string :=
  Ok (Join (In_Tag <$> C_Inbounds c) "," +:+ Join ((λ i, Itoa (Z.of_nat (size (clients i)))) <$> C_Inbounds c) ",").

Definition toy_reparse (c : Config) : result Config := Ok (set_inbounds (forget_runtime <$> C_Inbounds c) c).

(** The API answers at the first moment. *)
Definition toy_up : list (moment (M:=toy_machine)) := [mkMoment [Printed "started"] (ApiTick (Ok ()))].
Definition toy_down : list (moment (M:=toy_machine)) := [mkMoment [Printed "Failed to start: port"] (ApiTick (Err (errors_New "refused")))].

Definition toy_new :=
  Xray_New toy_marshal std_range toy_node_config Ok toy_ifaces (Ok ()) toy_to_prepare
    [Some (toy_xuser "ann" ["v"])] 62051 62052 toy_up (mkFiles 0 ∅ ∅ [], mkMachine 0 ∅).

Definition toy_xs : XS (M:=toy_machine) :=
  match toy_new with
  | (Ok (Some s), _) => s
  | _ => (mkXray toy_to_prepare 0 false false, (mkCore "" "" "" None 0 false false None
      (mkCoreLogs logPhaseRuntime None 0 "" false None [] 0 None) [] false, mkFiles 0 ∅ ∅ [], mkMachine 0 ∅))
  end.

Lemma toy_new_runs : toy_new = (Ok (Some toy_xs), (toy_xs.2.1.2, toy_xs.2.2)).
Proof. vm_compute. reflexivity. Qed.

(** ** Witnesses *)

Lemma to_bytes_lists_the_users_witness :
  let c := set_log (Some (mkLog "/a" "/e" "info" (JObj []))) toy_xray_config in
  let '(r, kept) := ToBytes toy_marshal rev_range (Config_syncUsers [Some (toy_xuser "ann" ["v"])] c) in
  r = Ok "v,s,t1,0,0" ∧ C_Log kept = Some (mkLog "/a" "/e" "info" (JObj [])).
Proof.
  intros c. assert (C_Log c = Some (mkLog "/a" "/e" "info" (JObj []))) as Hlog by reflexivity.
  pose proof (to_bytes_lists_the_users toy_marshal rev_range [Some (toy_xuser "ann" ["v"])] c _ Hlog) as Hthm.
  assert ((ToBytes toy_marshal rev_range (Config_syncUsers [Some (toy_xuser "ann" ["v"])] c)).1 = Ok "v,s,t1,0,0") as Hr
    by (vm_compute; reflexivity).
  destruct (ToBytes toy_marshal rev_range (Config_syncUsers [Some (toy_xuser "ann" ["v"])] c)) as [r kept].
  destruct Hthm as (given & _ & _ & Hk & _). split; [exact Hr|]. rewrite Hk. exact Hlog.
Defined.

Lemma toy_alone (h : nat) : m_alive h (mkMachine 0 ∅) = false.
Proof. apply bool_decide_eq_false_2. set_solver. Qed.

Lemma toy_up_quiet : quiet_moments toy_up.
Proof. repeat constructor. Qed.

Lemma xray_single_process_witness :
  solo toy_xs.2 ∧ none_alive (Xray_Shutdown toy_xs).2.2 ∧ Core_Started toy_xs.2.1.1 toy_xs.2.2 = true.
Proof.
  assert (Core_Started toy_xs.2.1.1 toy_xs.2.2 = true) as Hup by (vm_compute; reflexivity).
  pose proof (xray_single_process toy_marshal std_range toy_node_config Ok toy_ifaces (Ok ()) toy_to_prepare
    [Some (toy_xuser "ann" ["v"])] 62051 62052 toy_up (mkFiles 0 ∅ ∅ []) (mkMachine 0 ∅)
    toy_prompt toy_alone toy_up_quiet) as Hthm.
  fold toy_new in Hthm. rewrite toy_new_runs in Hthm. destruct (Hthm toy_xs (rtc_refl _ _)) as [Hsolo Hdead].
  split; [exact Hsolo|]. split; [exact Hdead|exact Hup].
Defined.

Lemma toy_xs_tags : NoDup (tags (xr_config toy_xs.1)).
Proof. apply (bool_decide_unpack _). vm_compute. exact I. Qed.

Lemma xray_sync_applied_or_restored_witness :
  let '(r, (x', w')) := Xray_SyncUsers toy_marshal std_range toy_node_config toy_reparse
    [Some (toy_xuser "bob" ["v"])] toy_down toy_up toy_xs in
  r = Err (errors_New "failed to start xray: Failed to start: port") ∧
  clients <$> C_Inbounds (xr_config x') = clients <$> C_Inbounds (xr_config toy_xs.1) ∧
  Core_Started w'.1.1 w'.2 = true.
Proof.
  destruct (xray_sync_applied_or_restored toy_marshal std_range toy_node_config toy_reparse
    [Some (toy_xuser "bob" ["v"])] toy_down toy_up toy_xs _ _ (or_introl (conj eq_refl eq_refl))) as [Hsame Hthm].
  rewrite (Hsame toy_xs_tags eq_refl) in Hthm. clear Hsame.
  assert (let '(r, (x', w')) := Xray_SyncUsers toy_marshal std_range toy_node_config toy_reparse
    [Some (toy_xuser "bob" ["v"])] toy_down toy_up toy_xs in
    r = Err (errors_New "failed to start xray: Failed to start: port") ∧ Core_Started w'.1.1 w'.2 = true) as Hrun
    by (vm_compute; split; reflexivity).
  destruct (Xray_SyncUsers toy_marshal std_range toy_node_config toy_reparse
    [Some (toy_xuser "bob" ["v"])] toy_down toy_up toy_xs) as [r [x' w']].
  destruct Hrun as [-> Hup]. split; [reflexivity|]. split; [exact (proj1 Hthm)|exact Hup].
Defined.

Lemma xray_waits_end_witness :
  (Xray_SyncUsers toy_marshal std_range toy_node_config toy_reparse
    [Some (toy_xuser "bob" ["v"])] toy_up toy_up toy_xs).1 ≠ Ok None.
Proof.
  assert (Exists decisive toy_up) as Hup by (left; exact I).
  exact (proj1 (proj2 (proj2 (xray_waits_end toy_marshal std_range toy_node_config toy_reparse
    [Some (toy_xuser "bob" ["v"])] toy_to_prepare toy_up toy_up toy_xs Hup Hup)))).
Defined.

Lemma xray_clients_well_typed_witness :
  let c := toy_xray_config in
  let c' := Config_syncUsers [Some (toy_xuser "ann" ["v"])] c in
  ∃ i, i ∈ C_Inbounds c' ∧ typed i ∧ size (clients i) = 1%nat.
Proof.
  intros c c'. assert (Forall (λ i, clients i = ∅) (C_Inbounds c)) as Hempty by (repeat constructor).
  assert (rtc (config_step (X:=gmap string (gmap string core_user))) c c') as Hsteps by (apply rtc_once, sync_step).
  destruct (C_Inbounds c' !! 0%nat) as [i|] eqn:Hi; [|vm_compute in Hi; discriminate Hi].
  assert (i ∈ C_Inbounds c') as Hin by (by eapply list_elem_of_lookup_2).
  exists i. split; [exact Hin|]. split.
  - exact (proj1 (xray_clients_well_typed c c' Hempty Hsteps i Hin)).
  - vm_compute in Hi. injection Hi as <-. vm_compute. reflexivity.
Defined.

(** Ten failed probes; the process dies during the third. *)
Definition toy_silent (dies : bool) : turn (M:=toy_machine) :=
  mkTurn [] (if dies then [OsStep (λ m, mkMachine (tm_next m) ∅); Exited 0 None] else [])
    (Err (status_Error DeadlineExceeded "failed to get sys stats: deadline exceeded")).
Definition toy_turns : list (turn (M:=toy_machine)) :=
  [toy_silent false; toy_silent false; toy_silent true] ++ replicate 7 (toy_silent false).

Lemma toy_restarts_work k : (k ≤ 10)%nat →
  is_ok (Xray_Restart toy_marshal std_range toy_node_config (env_turns (take k toy_turns) toy_xs)).1 = true.
Proof.
  intros Hk. assert (forallb (λ k, is_ok (Xray_Restart toy_marshal std_range toy_node_config
    (env_turns (take k toy_turns) toy_xs)).1) (seq 0 11) = true) as Hall by (vm_compute; reflexivity).
  rewrite forallb_forall in Hall. apply Hall. apply in_seq. lia.
Qed.

Lemma health_check_recovers_witness :
  ∃ k s', (1 ≤ k ≤ 3)%nat ∧
    checkXrayHealth toy_marshal std_range toy_node_config (take k toy_turns) 0 toy_xs = (Ok (Some 0), s') ∧
    serves toy_marshal std_range (xr_config s'.1) s'.2.
Proof.
  assert (watching toy_xs) as Hwatch by (vm_compute; split; reflexivity).
  assert (Forall (failing (M:=toy_machine)) toy_turns) as Hfail by (repeat constructor).
  destruct (health_check_recovers toy_marshal std_range toy_node_config toy_turns 0 toy_xs Hwatch ltac:(lia) eq_refl Hfail
    toy_restarts_work) as (k & s' & Hk & Hrun & Hs & Hfirst).
  assert (k ≤ 3)%nat as Hk3 by (apply (Hfirst 3%nat); [lia|vm_compute; reflexivity]).
  exists k, s'. split; [lia|]. split; [exact Hrun|exact Hs].
Defined.

(** Two outbounds report; the blackhole among them is left out. *)
Definition toy_vars : json :=
  JObj [("observatory", JObj [("direct", JObj [("alive", JBool true); ("delay", JNum "12")]); ("block", JObj [])])].
Definition toy_observatory : gmap string observatoryEntry :=
  <["block" := mkEntry false 0 "" 0 0]> (<["direct" := mkEntry true 12 "" 0 0]> ∅).

Lemma latencies_reported_witness :
  decode_vars (json_print toy_vars) = Ok toy_observatory ∧
  ∃ l, Xray_GetOutboundsLatency true toy_to_prepare 62052 (λ _, Ok (200, json_print toy_vars)) "" = Ok l ∧
    (latency_of "direct" (mkEntry true 12 "" 0 0) ∈ l) ∧ latency_of "block" (mkEntry false 0 "" 0 0) ∉ l.
Proof.
  assert (decode_vars (json_print toy_vars) = Ok toy_observatory) as Hvars
    by (unfold decode_vars; rewrite json_parse_print; vm_compute; reflexivity).
  assert (toy_observatory ≠ ∅) as Hsome by (apply insert_non_empty).
  split; [exact Hvars|].
  pose proof (latencies_reported toy_to_prepare 62052 (λ _, Ok (200, json_print toy_vars)) "" _ _ eq_refl Hvars Hsome) as Hthm.
  destruct Hthm as (l & Hl & _ & _ & Hin). exists l. split; [exact Hl|]. split.
  - apply Hin. exists "direct", (mkEntry true 12 "" 0 0). split_and!; [reflexivity..|by left|].
    intros protocol Hp. vm_compute in Hp. discriminate Hp.
  - intros (key & e & He & Heq & _ & Hp)%Hin. assert (key = "block") as -> by (injection Heq; congruence).
    apply (Hp "blackhole"); [vm_compute; reflexivity|set_solver].
Defined.

(** ** Observations *)

(** A health probe that a shutdown interrupts fails with a gRPC status, which
    [errors.Is(err, context.Canceled)] does not recognise; the core is stopped,
    so the health check starts it again: a process runs after the shutdown. *)
Lemma health_check_revives_core :
  let probe := Err (status_Error Canceled "failed to get sys stats: context canceled") in
  let s := (Xray_Shutdown toy_xs).2 in
  Core_Started s.2.1.1 s.2.2 = false ∧
  let s' := (health_decide toy_marshal std_range toy_node_config probe 0 s).2 in
  Core_Started s'.2.1.1 s'.2.2 = true.
Proof. vm_compute. split; reflexivity. Qed.

(** When the configuration cannot be marshalled the core is started all the
    same, with nothing to read. *)
Lemma unmarshalled_config_starts :
  let '(r, (_, w)) := Core_Start (λ _, Err (errors_New "json: unsupported value")) std_range false
    (xr_config toy_xs.1, (Xray_Shutdown toy_xs).2.2) in
  r = Ok () ∧ cmd_Stdin <$> process w.1.1 = Some "".
Proof. vm_compute. split; reflexivity. Qed.
