(* ===== verification/XrayServeToy.v ===== *)
(** * A machine whose core reads its configuration

    The concrete machine of XrayMachine beside the handler service of XrayToy:
    what is written to a process names the users of each inbound, and a process
    that is started serves them.  It has the laws of XrayServe. *)

From Stdlib Require Import Ascii.
From stdpp Require Import pretty countable.
From S2P Require Import Prelude GoString Json Helper Messages NodeConfig Logger XrayLogs XrayAccount XrayInbound XrayClients XrayUser XrayToy XrayApply XrayApi JsonToy XrayApiToy XrayRender XrayTyped XrayCore XrayRun XrayLife XrayProps XrayStats XrayMachine NodeToy NodeBackends NodeLaws XrayServe XrayRoster.

#[local] Open Scope Z_scope.
#[local] Existing Instance toy_sha256.

(** ** Reading an entry of the clients *)

Definition read_level (s : string) : option Z :=
  match s with String "-"%char s' => Z.opp <$> digits 0 s' | _ => digits 0 s end.

Lemma read_level_Itoa z : read_level (Itoa z) = Some z.
Proof.
  unfold Itoa. destruct z as [|n|n]; [reflexivity| |].
  - change (pretty (Z.pos n)) with (pretty (Npos n)). pose proof (digits_pretty_N (Npos n)) as Hd.
    unfold read_level. destruct (pretty (Npos n)) as [|a s] eqn:Hp; [done|].
    destruct (pretty_N_unsigned _ _ _ Hp) as [Hm _]. change (Z.pos n) with (Z.of_N (Npos n)). rewrite <- Hd.
    by destruct a as [[] [] [] [] [] [] [] []].
  - change (pretty (Z.neg n)) with (String "-" (pretty (Npos n))). cbn [read_level]. by rewrite digits_pretty_N.
Qed.

Definition str_field (fields : list (string * json)) (key : string) : option string :=
  match obj_key fields key with Some (JStr s) => Some s | _ => None end.

(** The account of the protocol of an inbound. *)
Definition read_account_of (i : Inbound) (fields : list (string * json)) : option core_account :=
  if bool_decide (In_Protocol i = "vmess") then CoreVmess <$> str_field fields "id"
  else if bool_decide (In_Protocol i = "vless") then
    id ← str_field fields "id"; flow ← str_field fields "flow"; Some (CoreVless id flow)
  else if bool_decide (In_Protocol i = "trojan") then CoreTrojan <$> str_field fields "password"
  else if bool_decide (In_Protocol i = "shadowsocks") then
    if from_option is_2022 false (setting_string i "method") then CoreShadowsocks2022 <$> str_field fields "password"
    else
      password ← str_field fields "password"; method ← str_field fields "method";
      Some (CoreShadowsocks password (default 0 (CipherType_value method)))
  else if bool_decide (In_Protocol i = "hysteria") then CoreHysteria <$> str_field fields "auth"
  else None.

Definition toy_read (i : Inbound) (v : json) : option (string * core_user) :=
  match v with
  | JObj fields =>
      match str_field fields "email", obj_key fields "level", read_account_of i fields with
      | Some email, Some (JNum level), Some account =>
          (λ l, (email, mkCoreUser l account)) <$> read_level level
      | _, _, _ => None
      end
  | _ => None
  end.

Lemma toy_read_account i a wanted : written_type i = Some wanted → wanted a = true →
  toy_read i (account_json a) = Some (Account_GetEmail a, plain_user a).
Proof.
  intros Hw Ha. assert (∃ rest, account_json a = JObj (base_fields (account_base a) ++ rest) ∧
    str_field (base_fields (account_base a) ++ rest) "email" = Some (Account_GetEmail a) ∧
    obj_key (base_fields (account_base a) ++ rest) "level" = Some (JNum (Itoa (Account_GetLevel a))) ∧
    read_account_of i (base_fields (account_base a) ++ rest) = Some (Account_Message a)) as (rest & -> & He & Hl & Hacc).
  { revert Hw Ha. unfold written_type, read_account_of.
    destruct (setting_string i "method") as [method|]; [destruct (is_2022 method) eqn:H2022|]; repeat case_bool_decide;
      intros Hw Ha; simplify_eq; destruct a; try done; cbn [from_option]; rewrite ?H2022; by eexists. }
  unfold toy_read. rewrite He, Hl, Hacc, read_level_Itoa. done.
Qed.

(** ** The text of a configuration *)

#[export] Instance core_account_countable : Countable core_account.
Proof.
  refine (inj_countable'
    (λ a, match a with
          | CoreVmess id => (0%nat, id, "", 0)
          | CoreVless id flow => (1%nat, id, flow, 0)
          | CoreTrojan password => (2%nat, password, "", 0)
          | CoreShadowsocks password cipher => (3%nat, password, "", cipher)
          | CoreShadowsocks2022 key => (4%nat, key, "", 0)
          | CoreHysteria auth => (5%nat, auth, "", 0)
          end)
    (λ '(n, s, t, z), match n with
          | 0%nat => CoreVmess s | 1%nat => CoreVless s t | 2%nat => CoreTrojan s
          | 3%nat => CoreShadowsocks s z | 4%nat => CoreShadowsocks2022 s | _ => CoreHysteria s
          end) _). by intros [].
Defined.

Definition users_view : Type := list (string * list (string * (Z * core_account))).

(** The clients the settings of an inbound list. *)
Definition listed (i : Inbound) : list (string * core_user) :=
  match In_Settings i ≫= (.!! "clients") with Some (JArr l) => omap (toy_read i) l | _ => [] end.

Definition flat (eu : string * core_user) : string * (Z * core_account) := (eu.1, (cu_level eu.2, cu_account eu.2)).
Definition unflat (eu : string * (Z * core_account)) : string * core_user := (eu.1, mkCoreUser eu.2.1 eu.2.2).

Definition view_of (x : Config) : users_view := (λ i, (In_Tag i, flat <$> listed i)) <$> C_Inbounds x.

Fixpoint bits (p : positive) : string :=
  match p with xH => "" | xO p => String "0" (bits p) | xI p => String "1" (bits p) end.
Fixpoint unbits (s : string) : positive :=
  match s with
  | "" => xH
  | String a s => if bool_decide (a = "0"%char) then xO (unbits s) else xI (unbits s)
  end.

Lemma unbits_bits p : unbits (bits p) = p.
Proof. induction p as [p IH|p IH|]; cbn; by rewrite ?IH. Qed.

Definition toy_text (x : Config) : result string := Ok (String "c" (bits (encode (view_of x)))).

Definition users_of_text (s : string) : option users_view :=
  match s with String "c"%char s => decode (unbits s) | _ => None end.

Definition served_users (l : users_view) : gmap string (gmap string core_user) :=
  list_to_map (prod_map id (λ us, list_to_map (unflat <$> us)) <$> l).

Lemma users_of_toy_text x : users_of_text (String "c" (bits (encode (view_of x)))) = Some (view_of x).
Proof. cbn [users_of_text]. by rewrite unbits_bits, decode_encode. Qed.

(** ** The machine *)

Definition toy_os : Type := toy_machine * gmap string (gmap string core_user).

(** A process that is started serves the users its configuration names. *)
Definition boot {A} (text : string) (spawn : eff toy_machine A) : eff toy_os A := λ '(m, u),
  match spawn m with
  | (Ok a, m) => (Ok a, (m, from_option served_users u (users_of_text text)))
  | (Err e, m) => (Err e, (m, u))
  end.

Definition on_fst {X Y A} (op : eff X A) : eff (X * Y) A := λ '(x, y), let '(r, x) := op x in (r, (x, y)).

#[export] Instance toy_os_machine : Machine toy_os := {|
  m_version_output e := on_fst (m_version_output e);
  m_Indent := m_Indent;
  m_MkdirAll p := on_fst (m_MkdirAll p);
  m_WriteFile p s := on_fst (m_WriteFile p s);
  m_StdoutPipe := on_fst m_StdoutPipe;
  m_spawn e s := boot s (m_spawn e s);
  m_reaped h m := m_reaped h m.1;
  m_alive h m := m_alive h m.1;
  m_Kill h m := (m_Kill h m.1, m.2);
  m_killProcessTree p := on_fst (m_killProcessTree p);
  m_await h m := let '(b, m1) := m_await h m.1 in (b, (m1, m.2));
  m_verifyProcessDead p m := m_verifyProcessDead p m.1;
  m_findXrayProcesses e m := m_findXrayProcesses e m.1;
  m_Getpid := 1;
  m_lstat p m := m_lstat p m.1;
  m_Remove p := on_fst (m_Remove p);
  m_open_log p := Ok ()
|}.

Lemma os_calm (m m' : toy_os) : calm m.1 m'.1 → calm m m'.
Proof. done. Qed.

#[export] Instance toy_os_laws : MachineLaws toy_os.
Proof.
  split; try (by intros; destruct m; apply os_calm).
  - intros h m. apply (reaped_dead h m.1).
  - intros h m. apply os_calm, (kill_calm h m.1).
  - intros e s [m u]. pose proof (spawn_law e s m) as Hl. cbn in *. by destruct (bool_decide (s = "bad")).
  - intros h [m u] Hw. exact (await_dead (M:=toy_machine) h m Hw).
Qed.

#[export, refine] Instance toy_os_api : XrayApi toy_os :=
  {| ToTypedMessage := ToTypedMessage; ToTypedOperation := ToTypedOperation;
     AlterInbound tag op m := let '(r, u) := AlterInbound tag op m.2 in (r, (m.1, u));
     api_users m := api_users m.2 |}.
Proof.
  - apply typed_message.
  - apply typed_operation.
  - intros tag op [m u] t. pose proof (alter_inbound tag op u t) as Hl. cbn [snd].
    by destruct (AlterInbound tag op u) as [[[]|e] u'].
Defined.

Definition toy_unavailable {A} : eff toy_os A := throw (status_Error Unavailable "no such service").

#[export] Instance toy_os_services : XrayServices toy_os := {|
  svc_GetSysStats := mret toy_no_stats;
  svc_QueryStats _ _ := mret [mkStat "user>>>ann>>>traffic>>>uplink" 5];
  svc_GetStatsOnline _ := mret 1;
  svc_GetStatsOnlineIpList _ := mret ∅;
  core_message := string;
  build_rule s := Ok (1%nat, s);
  svc_ListRule := mret [("direct", "r")];
  svc_GetBalancerInfo _ := toy_unavailable;
  svc_TestRoute _ := toy_unavailable;
  svc_AddRule _ _ := mret ();
  svc_RemoveRule _ := mret ();
  svc_OverrideBalancerTarget _ _ := toy_unavailable
|}.

#[export] Instance toy_os_calm : ServicesCalm toy_os.
Proof.
  split; [|by split]. intros tag op [m u]. cbn. destruct (toy_alter tag op u) as [r u']. by apply os_calm.
Qed.

(** The statistics and routing services do not touch the users. *)
#[export] Instance toy_os_users : ServicesKeep (same_users (M:=toy_os)).
Proof. by split. Qed.

Lemma toy_os_prompt (h : nat) (m : toy_os) : (m_await h (m_Kill h m)).1 = true.
Proof. exact (toy_prompt h m.1). Qed.

(** ** The laws of XrayServe *)

Lemma unflat_flat (l : list (string * core_user)) : unflat <$> (flat <$> l) = l.
Proof.
  rewrite <- list_fmap_compose. etransitivity; [|apply list_fmap_id]. apply list_fmap_ext. by intros k [e [l' a]] _.
Qed.

Lemma served_listed x i : NoDup (tags x) → i ∈ C_Inbounds x →
  toy_users (served_users (view_of x)) (In_Tag i) = list_to_map (listed i).
Proof.
  intros Hnd Hi. unfold toy_users, served_users, view_of. rewrite <- list_fmap_compose.
  assert ((list_to_map ((prod_map id (λ us, list_to_map (unflat <$> us)) ∘ (λ i, (In_Tag i, flat <$> listed i))) <$> C_Inbounds x)
    : gmap string (gmap string core_user)) !! In_Tag i = Some (list_to_map (listed i))) as Hl; [|by rewrite Hl].
  apply elem_of_list_to_map_1.
  - rewrite <- list_fmap_compose. exact Hnd.
  - apply list_elem_of_fmap. exists i. split; [|done]. cbn. by rewrite unflat_flat.
Qed.

#[export, refine] Instance toy_core_config : CoreConfig toy_os toy_text := {| read_client := toy_read |}.
Proof.
  - apply toy_read_account.
  - done.
  - intros e x bytes [m u] id m' i l Htext Hnd Hsp Hi Hl _. injection Htext as <-. set (text := String "c" _) in Hsp.
    change (boot text (m_spawn e text) (m, u) = (Ok id, m')) in Hsp. unfold boot, text in Hsp. rewrite users_of_toy_text in Hsp.
    cbn [from_option] in Hsp.
    destruct (m_spawn e _ m) as [[id'|e'] m1]; [|done]. injection Hsp as _ <-. cbn [api_users toy_os_api snd].
    change (api_users (served_users (view_of x)) (In_Tag i)) with (toy_users (served_users (view_of x)) (In_Tag i)).
    rewrite served_listed by done. unfold listed. by rewrite Hl.
Defined.

Lemma toy_os_removals : removals_work (X:=toy_os).
Proof.
  intros tag email [m u] t. pose proof (toy_removals tag email u t) as Hr.
  unfold RemoveInboundUser, AlertInbound, lift, mbind, eff_bind in *. cbn [ToTypedOperation AlterInbound toy_os_api toy_xray snd] in *.
  destruct (toy_alter tag (RemoveUserOperation email) u) as [r u']. exact Hr.
Qed.

(** ** Witness *)

(** A backend is created with the user ann; bob is added and ann removed while
    the core runs, then the health check restarts the core. *)
Definition serve_new :=
  Xray_New toy_text std_range toy_node_config Ok toy_ifaces (Ok ()) toy_to_prepare [Some (toy_xuser "ann" ["v"])]
    62051 62052 [mkMoment [] (ApiTick (Ok ()))] (mkFiles 0 ∅ ∅ [], (mkMachine 0 ∅, ∅) : toy_os).

Definition serve_start : option (XS (M:=toy_os)) := match serve_new.1 with Ok o => o | Err _ => None end.

Definition serve_ops (s : XS (M:=toy_os)) : bool * XS (M:=toy_os) :=
  let '(r1, s1) := with_api (Xray_SyncUser (Some (toy_xuser "bob" ["v"]))) s in
  let '(r2, s2) := with_api (Xray_UpdateUsers std_range [Some (toy_xuser "ann" [])]) s1 in
  (is_ok r1 && is_ok r2, (health_decide toy_text std_range toy_node_config (Err (errors_New "deadline exceeded")) 10 s2).2).

Definition serve_summary (t : bool * XS (M:=toy_os)) : bool * bool * nat * list (string * bool * list string) :=
  (t.1, Core_Started t.2.2.1.1 t.2.2.2, tm_next t.2.2.2.1, (λ i, (In_Tag i, exclude i, (map_to_list (clients i)).*1)) <$> C_Inbounds (xr_config t.2.1)).

Lemma serve_run_summary :
  (λ s, serve_summary (serve_ops s)) <$> serve_start = Some (true, true, 2%nat, [("API_INBOUND", false, []); ("v", false, ["bob"])]).
Proof. vm_compute. reflexivity. Qed.

Lemma serve_steps_run s :
  rtc (serve_step toy_text std_range toy_node_config toy_reparse) (∅, true, s) (∅, (serve_ops s).1, (serve_ops s).2).
Proof.
  unfold serve_ops. assert (∀ K, ∅ ∪ K = (∅ : gset (string * string)) ↔ K = ∅) as Hno by set_solver.
  eapply rtc_l; [apply (serve_SyncUser _ _ _ _ (toy_xuser "bob" ["v"]))|].
  unfold left_by_user. rewrite SyncUser_none, (proj2 (Hno ∅)) by (done || apply toy_os_removals).
  destruct (with_api (Xray_SyncUser (Some (toy_xuser "bob" ["v"]))) s) as [r1 s1]. cbn [fst snd andb].
  eapply rtc_l; [apply (serve_UpdateUsers _ _ _ _ [Some (toy_xuser "ann" [])]), NoDup_singleton|].
  unfold left_by_update. rewrite UpdateUsers_none, (proj2 (Hno ∅)) by (done || apply toy_os_removals).
  destruct (with_api (Xray_UpdateUsers std_range [Some (toy_xuser "ann" [])]) s1) as [r2 s2]. cbn [fst snd andb].
  apply rtc_once, serve_health.
Qed.

(** Inbounds without clients and methods are in order. *)
Lemma plain_prepared (x : Config) (l : list string) :
  (λ i, (In_Tag i, setting_string i "method", map_to_list (clients i))) <$> C_Inbounds x = (λ t, (t, None, [])) <$> l →
  NoDup l → prepared x.
Proof.
  intros Hl Hnd. assert (∀ i, i ∈ C_Inbounds x → setting_string i "method" = None ∧ clients i = ∅) as Hin.
  { intros i Hi. apply (list_elem_of_fmap_2 (λ i, (In_Tag i, setting_string i "method", map_to_list (clients i)))) in Hi.
    rewrite Hl in Hi. apply list_elem_of_fmap in Hi as (t & Heq & _). injection Heq as _ Hm Hc.
    split; [done|by apply map_to_list_empty_iff]. }
  split.
  - assert (tags x = l) as ->; [|done]. unfold tags. apply (f_equal (fmap (λ e, e.1.1))) in Hl.
    rewrite <- !list_fmap_compose in Hl. etransitivity; [exact Hl|]. by apply list_fmap_id.
  - apply Forall_forall. intros i Hi method. by rewrite (proj1 (Hin i Hi)).
  - apply Forall_forall. intros i Hi. unfold typed, typed_clients. rewrite (proj2 (Hin i Hi)). apply map_Forall_empty.
Qed.

Lemma toy_prepared : prepared (ApplyAPI toy_ifaces 62051 62052 toy_to_prepare).2.
Proof.
  apply (plain_prepared _ ["API_INBOUND"; "v"]); [vm_compute; reflexivity|]. apply (bool_decide_unpack _). reflexivity.
Qed.

Lemma xray_serves_the_stored_users_witness :
  ∃ s0 fm, serve_new = (Ok (Some s0), fm) ∧ Core_Started (serve_ops s0).2.2.1.1 (serve_ops s0).2.2.2 = true ∧
    api_users (serve_ops s0).2.2.2 "v" !! "ann" = None ∧ is_Some (api_users (serve_ops s0).2.2.2 "v" !! "bob").
Proof.
  pose proof serve_run_summary as Hsum. unfold serve_start in Hsum.
  destruct serve_new as [[[s0|]|e] fm] eqn:Hnew; [|discriminate Hsum..]. exists s0, fm. split; [reflexivity|].
  cbn [fst fmap option_fmap option_map] in Hsum. apply (inj Some) in Hsum. unfold serve_summary in Hsum.
  pose proof (serve_steps_run s0) as Hsteps. destruct (serve_ops s0) as [clean s]. cbn [fst snd] in *.
  assert (clean = true ∧ Core_Started s.2.1.1 s.2.2 = true) as [-> Hrun] by (split; congruence). split; [exact Hrun|].
  assert ((λ i, (In_Tag i, exclude i, (map_to_list (clients i)).*1)) <$> C_Inbounds (xr_config s.1) =
    [("API_INBOUND", false, []); ("v", false, ["bob"])]) as Hin by congruence.
  destruct (C_Inbounds (xr_config s.1)) as [|i1 [|i l]] eqn:Hx; [discriminate Hin..|]. injection Hin as _ _ _ Ht He Hc _.
  assert (∀ e, is_Some (clients i !! e) ↔ e = "bob") as Hcl.
  { intros e. rewrite <- list_elem_of_singleton, <- Hc, list_elem_of_fmap. split.
    - intros [a Ha]. exists (e, a). split; [reflexivity|]. by apply elem_of_map_to_list.
    - intros ([e' a] & -> & Ha%elem_of_map_to_list). by exists a. }
  destruct (xray_serves_the_stored_users toy_text std_range toy_node_config toy_reparse Ok toy_ifaces (Ok ()) toy_to_prepare
    [Some (toy_xuser "ann" ["v"])] 62051 62052 [mkMoment [] (ApiTick (Ok ()))] (mkFiles 0 ∅ ∅ []) ((mkMachine 0 ∅, ∅) : toy_os)
    fm ∅ true s0 s (λ y, eq_refl) toy_prepared ltac:(repeat constructor) Hnew Hsteps Hrun i
    ltac:(rewrite Hx; right; left) He) as [Hstored Hall]. rewrite Ht in Hstored, Hall. split.
  - destruct (api_users s.2.2 "v" !! "ann") as [cu|] eqn:Hann; [|reflexivity].
    destruct (Hstored "ann" cu Hann) as [Hleft|(a & Ha & _)]; [case (not_elem_of_empty ("v", "ann") Hleft)|]. assert ("ann" = "bob") as Heq by (apply Hcl; by exists a). discriminate Heq.
  - apply Hall; [reflexivity|]. by apply Hcl.
Defined.
