(* ===== verification/XrayRace.v ===== *)
(** * User operations and the health check at the same time ([src/backend/xray/user.go], jobs.go)

    A user operation holds [syncMu], a restart [mu]: the health check can restart
    the core between the steps of an operation, and an operation can fall into a
    restart.  The operations and the restart are written here with the points
    where the others can come, and without anyone there they are those of XrayUser
    and XrayRun; with the others there they break what XrayServe shows of
    operations that follow one another. *)

From S2P Require Import Prelude GoString Json Helper Messages NodeConfig Logger XrayLogs XrayAccount XrayInbound XrayClients XrayUser XrayToy XrayApply XrayApi JsonToy XrayApiToy XrayRender XrayTyped XrayCore XrayRun XrayLife XrayProps XrayStats XrayMachine NodeToy NodeBackends NodeLaws XrayServe XrayServeToy.

#[local] Open Scope Z_scope.
#[local] Existing Instance toy_sha256.

Section Race.
Context `{UuidLib} `{Sha256} `{JsonText} {M K : Type} `{!Machine M} `{!XrayApi M}.
Context (marshal : Config → result string) (ρ : map_range) (cfg : @NodeConfig K).
Implicit Types (s : XS (M:=M)) (i : Inbound).

(** ** A restart step by step *)

(** [Core.Restart] stops the process and [Start] writes the configuration, before
    the process is started with what was written; [syncMu] is not taken, so a user
    operation can come in between. *)
Definition Restart_begin (s : XS (M:=M)) : (string * string * string * list string) * XS (M:=M) :=
  let '(x, (c, f, m)) := s in
  let '(_, w) := Core_Stop (set_restarting true c, f, m) in
  let '((accessFile, errorFile), conf) := GetLogFiles (xr_config x) in
  let '(r, conf) := ToBytes marshal ρ conf in
  ((config_bytes r, accessFile, errorFile, collectUnixSocketPaths conf), (XrayRun.set_config conf x, w)).

Definition Restart_end (written : string * string * string * list string) : eff (XS (M:=M)) unit := λ '(x, w),
  let '(bytes, accessFile, errorFile, sockets) := written in
  let '(r, (c, f, m)) := start_run (Debug cfg) bytes accessFile errorFile sockets w in
  (r, (x, (set_restarting false c, f, m))).

(** ** [SyncUser] step by step *)

(** [others n] is what happens to the backend at the [n]-th pause. *)
Context (others : nat → XS (M:=M) → XS (M:=M)).

(** A call of the core's API; a change of an inbound of the stored configuration. *)
Definition on_api {A} (op : M → A * M) (s : XS (M:=M)) : A * XS (M:=M) :=
  let '(x, (c, f, m)) := s in let '(a, m) := op m in (a, (x, (c, f, m))).

Definition change_inbound (k : nat) (g : Inbound → Inbound) (s : XS (M:=M)) : XS (M:=M) :=
  (XrayRun.set_config (set_inbounds (alter g k (C_Inbounds (xr_config s.1))) (xr_config s.1)) s.1, s.2).

(** The loop's body for the [k]-th inbound, with a pause before each of its steps.
    A restart keeps the tags, protocols and methods, so [i] is read once. *)
Definition sync_inbound_at (user : User) (settings : ProxySettings) (k : nat) (s : XS (M:=M)) : string * XS (M:=M) :=
  let s := others (3 * k)%nat s in
  match C_Inbounds (xr_config s.1) !! k with
  | None => ("", s)
  | Some i =>
      if exclude i then ("", s)
      else
        let '(_, s) := on_api (RemoveInboundUser (In_Tag i) (User_Email user)) s in
        let s := others (3 * k + 1)%nat s in
        match isActiveInbound i (GetInbounds (Some user)) settings with
        | Some account =>
            let s := change_inbound k (Inbound_updateUser account) s in
            let s := others (3 * k + 2)%nat s in
            on_api (add_reporting (In_Tag i) (accountForAPI i account)) s
        | None => ("", change_inbound k (Inbound_removeUser (User_Email user)) s)
        end
  end.

Fixpoint sync_inbounds_from (user : User) (settings : ProxySettings) (k n : nat) (s : XS (M:=M)) : string * XS (M:=M) :=
  match n with
  | O => ("", s)
  | S n =>
      let '(msg, s) := sync_inbound_at user settings k s in
      let '(msgs, s) := sync_inbounds_from user settings (S k) n s in
      (msg +:+ msgs, s)
  end.

Definition SyncUser_steps (user : User) : eff (XS (M:=M)) unit := λ s,
  let '(errMessage, s) :=
    sync_inbounds_from user (setupUserAccount (Some user)) 0 (length (C_Inbounds (xr_config s.1))) s in
  (if bool_decide (errMessage = "") then Ok () else Err (errors_New ("failed to add user:" +:+ errMessage)), s).

(** ** [UpdateUsers] step by step *)

(** [others' tag k] is what happens at the [k]-th pause while the inbound [tag]
    has its turn. *)
Context (others' : string → nat → XS (M:=M) → XS (M:=M)).

Definition change_config (g : Config → Config) (s : XS (M:=M)) : XS (M:=M) := (XrayRun.set_config (g (xr_config s.1)) s.1, s.2).

Fixpoint remove_all_from (tag : string) (emails : list string) (k : nat) (s : XS (M:=M)) : nat * XS (M:=M) :=
  match emails with
  | [] => (k, s)
  | email :: emails => remove_all_from tag emails (S k) (on_api (RemoveInboundUser tag email) (others' tag k s)).2
  end.

Fixpoint add_all_from i (accounts : list Account) (k : nat) (s : XS (M:=M)) : string * XS (M:=M) :=
  match accounts with
  | [] => ("", s)
  | account :: accounts =>
      let '(_, s) := on_api (RemoveInboundUser (In_Tag i) (Account_GetEmail account)) (others' (In_Tag i) k s) in
      let '(msg, s) := on_api (add_reporting (In_Tag i) (accountForAPI i account)) (others' (In_Tag i) (S k) s) in
      let '(msgs, s) := add_all_from i accounts (S (S k)) s in
      (msg +:+ msgs, s)
  end.

(** One turn of the loop over the updates. *)
Definition update_tag_steps (acc : string * XS (M:=M)) (entry : string * (Inbound * inboundUpdate)) : string * XS (M:=M) :=
  let '(msgs, s) := acc in
  let '(tag, (i, u)) := entry in
  let removeEmails := set_range ρ (up_removeEmailSet u) in
  let s := change_config (update_inbound tag (Inbound_updateUsers (up_accounts u) removeEmails)) (others' tag 0%nat s) in
  let '(k, s) := remove_all_from tag removeEmails 1 s in
  let '(msg, s) := add_all_from i (up_accounts u) k s in
  (msgs +:+ msg, s).

Definition UpdateUsers_steps (users : list (option User)) : eff (XS (M:=M)) unit := λ s,
  let '(errMessage, s) :=
    foldl update_tag_steps ("", s) (range_of ρ (buildInboundUpdates (xr_config s.1) users)) in
  (if bool_decide (errMessage = "") then Ok () else Err (errors_New ("failed to update users:" +:+ errMessage)), s).

(** ** A full synchronisation step by step *)

(** The others act while the operation waits for the core it restarted; the
    configuration they see is the stored one. *)
Definition apply_steps (candidate : Config) (ms ms' : list (moment (M:=M))) : eff (XS (M:=M)) (option unit) := λ '(x, w),
  match restartCoreWithConfig marshal ρ cfg (candidate, w) with
  | (Err e, (_, w)) => restore_after marshal ρ cfg e ms' (x, w)
  | (Ok _, (candidate, w)) =>
      let '(x, w) := others 0%nat (x, w) in
      match checkXrayStatus cfg ms w with
      | (Err e, w) => restore_after marshal ρ cfg e ms' (x, w)
      | (Ok None, w) => (Ok None, (x, w))
      | (Ok (Some _), w) => (Ok (Some ()), (XrayRun.set_config candidate x, w))
      end
  end.

Definition SyncUsers_steps (reparse : Config → result Config) (users : list (option User)) (ms ms' : list (moment (M:=M)))
    : eff (XS (M:=M)) (option unit) := λ s,
  match Config_Clone reparse (xr_config s.1) with
  | Err e => (Err e, s)
  | Ok candidate => apply_steps (Config_syncUsers users candidate) ms ms' s
  end.
End Race.

(** ** Without the others *)

Section Alone.
Context `{UuidLib} `{Sha256} `{JsonText} {M K : Type} `{!Machine M} `{!XrayApi M}.
Context (marshal : Config → result string) (ρ : map_range) (cfg : @NodeConfig K).
Implicit Types (s : XS (M:=M)) (i : Inbound).

Lemma Restart_alone s : restarting s.2.1.1 = false →
  (let '(written, s') := Restart_begin marshal ρ s in Restart_end cfg written s') = Xray_Restart marshal ρ cfg s.
Proof.
  destruct s as [x [[c f] m]]. cbn. intros Hr. unfold Restart_begin, Restart_end, Xray_Restart, restartCoreWithConfig, Core_Restart, Core_Start.
  rewrite Hr. destruct (Core_Stop (set_restarting true c, f, m)) as [r w]. destruct (GetLogFiles (xr_config x)) as [[afile efile] y].
  destruct (ToBytes marshal ρ y) as [r1 y']. by destruct (start_run _ _ _ _ _ w) as [r2 [[c2 f2] m2]].
Qed.

Definition nobody : nat → XS (M:=M) → XS (M:=M) := λ _ s, s.

Lemma change_inbound_middle g pre i l y (x : Xray) (w : World (M:=M)) :
  change_inbound (length pre) g (XrayRun.set_config (set_inbounds (pre ++ i :: l) y) x, w) =
  (XrayRun.set_config (set_inbounds ((pre ++ [g i]) ++ l) y) x, w).
Proof.
  assert (alter g (length pre) (pre ++ i :: l) = (pre ++ [g i]) ++ l) as Hl
    by (rewrite <- (Nat.add_0_r (length pre)), alter_app_r, <- app_assoc; done).
  unfold change_inbound. cbn [fst snd xr_config XrayRun.set_config].
  change (C_Inbounds (set_inbounds (pre ++ i :: l) y)) with (pre ++ i :: l). rewrite Hl. by destruct y.
Qed.

Lemma sync_inbounds_from_alone user settings l pre x y w f (m : M) :
  let s := (XrayRun.set_config (set_inbounds (pre ++ l) y) x, (w, f, m)) in
  let '(l', msgs, m') := sync_inbounds (Some user) settings l m in
  sync_inbounds_from nobody user settings (length pre) (length l) s =
    (msgs, (XrayRun.set_config (set_inbounds (pre ++ l') y) x, (w, f, m'))).
Proof.
  unfold nobody. revert pre m. induction l as [|i l IH]; intros pre m; [done|]. cbn [sync_inbounds length sync_inbounds_from].
  assert (∀ i', S (length pre) = length (pre ++ [i'])) as Hlen by (intros i'; rewrite length_app; cbn; lia).
  assert (∀ i' l', pre ++ i' :: l' = (pre ++ [i']) ++ l') as Happ by (intros; by rewrite <- app_assoc).
  unfold sync_inbound_at. cbn [fst xr_config XrayRun.set_config].
  change (C_Inbounds (set_inbounds (pre ++ i :: l) y)) with (pre ++ i :: l).
  rewrite list_lookup_middle by done. unfold sync_inbound. destruct (exclude i).
  - specialize (IH (pre ++ [i]) m). rewrite <- Hlen, <- Happ in IH.
    destruct (sync_inbounds (Some user) settings l m) as [[l' msgs] m']. by rewrite IH, <- Happ.
  - change (GetEmail (Some user)) with (User_Email user). cbn [on_api]. destruct (RemoveInboundUser (In_Tag i) (User_Email user) m) as [r m1]. cbn [snd].
    cbn [GetInbounds]. destruct (isActiveInbound i _ settings) as [a|]; rewrite change_inbound_middle; unfold World; cbv beta iota.
    + cbn [on_api]. change (In_Tag (Inbound_updateUser a i)) with (In_Tag i).
      change (accountForAPI (Inbound_updateUser a i) a) with (accountForAPI i a).
      destruct (add_reporting _ _ m1) as [msg m2]. specialize (IH (pre ++ [Inbound_updateUser a i]) m2). rewrite <- Hlen in IH.
      destruct (sync_inbounds (Some user) settings l m2) as [[l' msgs] m']. by rewrite IH, <- Happ.
    + specialize (IH (pre ++ [Inbound_removeUser (User_Email user) i]) m1). rewrite <- Hlen in IH.
      destruct (sync_inbounds (Some user) settings l m1) as [[l' msgs] m']. by rewrite IH, <- Happ.
Qed.

Lemma SyncUser_alone user s : SyncUser_steps nobody user s = with_api (Xray_SyncUser (Some user)) s.
Proof.
  destruct s as [x [[c f] m]]. unfold SyncUser_steps, with_api, Xray_SyncUser.
  pose proof (sync_inbounds_from_alone user (setupUserAccount (Some user)) (C_Inbounds (xr_config x)) [] x (xr_config x) c f m) as Hs.
  cbn [app length] in Hs.
  assert (XrayRun.set_config (set_inbounds (C_Inbounds (xr_config x)) (xr_config x)) x = x) as Hx by (by destruct x as [[] ? ? ?]).
  rewrite Hx in Hs. unfold XS, World in *. cbn [fst]. destruct (sync_inbounds _ _ _ m) as [[l' msgs] m']. by rewrite Hs.
Qed.

Definition no_one : string → nat → XS (M:=M) → XS (M:=M) := λ _ _ s, s.

Lemma remove_all_alone tag emails k (x : Xray) c f (m : M) :
  (remove_all_from no_one tag emails k (x, (c, f, m))).2 = (x, (c, f, remove_all tag emails m)).
Proof.
  revert k m. induction emails as [|email emails IH]; intros k m; [done|]. cbn [remove_all_from remove_all]. unfold no_one at 2.
  cbn [on_api]. destruct (RemoveInboundUser tag email m) as [r m']. apply IH.
Qed.

Lemma add_all_alone i accounts k (x : Xray) c f (m : M) :
  add_all_from no_one i accounts k (x, (c, f, m)) = ((add_all i accounts m).1, (x, (c, f, (add_all i accounts m).2))).
Proof.
  revert k m. induction accounts as [|a accounts IH]; intros k m; [done|]. cbn [add_all_from add_all]. unfold no_one at 1 2.
  cbn [on_api]. destruct (RemoveInboundUser _ _ m) as [r m1]. cbn [snd on_api].
  destruct (add_reporting _ _ m1) as [msg m2]. rewrite IH. by destruct (add_all i accounts m2).
Qed.

Lemma update_tag_alone msgs (x : Xray) c f (m : M) entry :
  update_tag_steps ρ no_one (msgs, (x, (c, f, m))) entry =
  let '(conf, msgs', m') := update_tag ρ (xr_config x, msgs, m) entry in (msgs', (XrayRun.set_config conf x, (c, f, m'))).
Proof.
  destruct entry as [tag [i u]]. unfold update_tag_steps, update_tag, change_config.
  change (no_one tag 0 (x, (c, f, m))) with (x, (c, f, m)). cbn [fst snd].
  set (emails := set_range ρ (up_removeEmailSet u)).
  set (x' := XrayRun.set_config (update_inbound tag (Inbound_updateUsers (up_accounts u) emails) (xr_config x)) x).
  pose proof (remove_all_alone tag emails 1 x' c f m) as Hr.
  pose proof (λ k, add_all_alone i (up_accounts u) k x' c f (remove_all tag emails m)) as Ha. unfold XS, World in *.
  destruct (remove_all_from no_one tag emails 1 (x', (c, f, m))) as [k s]. cbn [snd] in Hr. subst s. rewrite Ha.
  by destruct (add_all i (up_accounts u) _).
Qed.

Lemma UpdateUsers_alone users s : UpdateUsers_steps ρ no_one users s = with_api (Xray_UpdateUsers ρ users) s.
Proof.
  destruct s as [x [[c f] m]]. unfold UpdateUsers_steps, with_api, Xray_UpdateUsers. cbn [fst].
  assert (∀ todo conf msgs m, foldl (update_tag_steps ρ no_one) (msgs, (XrayRun.set_config conf x, (c, f, m))) todo =
    let '(conf', msgs', m') := foldl (update_tag ρ) (conf, msgs, m) todo in
    (msgs', (XrayRun.set_config conf' x, (c, f, m')))) as Hfold.
  { induction todo as [|entry todo IH]; intros conf msgs m0; [done|]. cbn [foldl].
    rewrite update_tag_alone. change (xr_config (XrayRun.set_config conf x)) with conf.
    destruct (update_tag ρ (conf, msgs, m0) entry) as [[conf1 msgs1] m1].
    change (XrayRun.set_config conf1 (XrayRun.set_config conf x)) with (XrayRun.set_config conf1 x). apply IH. }
  specialize (Hfold (range_of ρ (buildInboundUpdates (xr_config x) users)) (xr_config x) "" m).
  assert (XrayRun.set_config (xr_config x) x = x) as Hx by (by destruct x). rewrite Hx in Hfold.
  unfold XS, World in *. rewrite Hfold. by destruct (foldl (update_tag ρ) _ _) as [[conf msgs] m'].
Qed.

Lemma SyncUsers_alone reparse users ms ms' s :
  SyncUsers_steps marshal ρ cfg nobody reparse users ms ms' s = Xray_SyncUsers marshal ρ cfg reparse users ms ms' s.
Proof. done. Qed.
End Alone.

(** ** Observations *)

Definition kill_process (id : nat) (m : toy_os) : toy_os := (toy_kill id m.1, m.2).

(** The process dies, and the health check, which finds it dead, restarts the
    core with the stored configuration. *)
Definition dies_and_restarts (id : nat) (s : XS (M:=toy_os)) : XS (M:=toy_os) :=
  let s := env_run [OsStep (kill_process id); Exited id (Some (errors_New "exit status 23"))] s in
  (health_decide toy_text std_range toy_node_config (Err (errors_New "connection refused")) 0 s).2.

(** Whether the core runs, whom it serves on an inbound, and whom the stored
    configuration lists. *)
Definition race_summary (tag : string) (s : XS (M:=toy_os)) : bool * list string * list (list string) :=
  (Core_Started s.2.1.1 s.2.2, (map_to_list (api_users s.2.2 tag)).*1, (λ i, (map_to_list (clients i)).*1) <$> C_Inbounds (xr_config s.1)).

(** [SyncUser] takes the user from the core before it takes it from the
    configuration.  A restart in between gives it back: the request succeeds and
    the user, who may have been removed, is served. *)
Lemma restart_gives_removed_user_back :
  match serve_start with
  | Some s =>
      let '(r, s') := SyncUser_steps (λ n, if bool_decide (n = 4%nat) then dies_and_restarts 0 else id)
        (toy_xuser "ann" []) s in
      r = Ok () ∧ race_summary "v" s' = (true, ["ann"], [[]; []])
  | None => False
  end.
Proof. vm_compute. split; reflexivity. Qed.

(** The core of a full synchronisation dies at once; before the operation sees
    it the health check starts the previous configuration, whose API answers: the
    request succeeds, the new users are stored and the old ones are served. *)
Lemma restart_undoes_full_sync :
  match serve_start with
  | Some s =>
      let '(r, s') := SyncUsers_steps toy_text std_range toy_node_config (λ _, dies_and_restarts 1) toy_reparse
        [Some (toy_xuser "bob" ["v"])] [mkMoment [] (ApiTick (Ok ()))] [] s in
      r = Ok (Some ()) ∧ race_summary "v" s' = (true, ["ann"], [[]; ["bob"]])
  | None => False
  end.
Proof. vm_compute. split; reflexivity. Qed.

(** The health check restarts the core: it has written the configuration, which
    lists ann, when [UpdateUsers] takes ann out of it.  The request succeeds, the
    process that is then started serves ann, and nothing says so. *)
Lemma restart_straddles_update :
  match serve_start with
  | Some s =>
      let '(written, s) := Restart_begin toy_text std_range s in
      let '(r, s) := with_api (Xray_UpdateUsers std_range [Some (toy_xuser "ann" [])]) s in
      let '(r', s) := Restart_end toy_node_config written s in
      r = Ok () ∧ r' = Ok () ∧ race_summary "v" s = (true, ["ann"], [[]; []])
  | None => False
  end.
Proof. vm_compute. split_and!; reflexivity. Qed.
