(* ===== verification/XrayOverlap.v ===== *)
(** * Requests while the health check restarts the core

    XrayRace shows what goes wrong for the user a request names when the health
    check restarts the core between its steps, or the request falls into a
    restart.  Here is what holds all the same.
    [SyncUser] takes the user from the core before it changes what a restart
    reads, but whatever whole restarts and deaths of the process fall between its
    steps, every other user stays stored, and served as it was.  [UpdateUsers] changes
    what a restart reads first, and keeps its whole promise. *)

From S2P Require Import Prelude GoString Json Helper Messages NodeConfig Logger XrayLogs XrayAccount XrayInbound XrayClients XrayUser XrayToy XrayApply XrayApi JsonToy XrayApiToy XrayRender XrayTyped XrayCore XrayRun XrayLife XrayProps XrayReap XrayStats XrayMachine NodeToy NodeBackends NodeLaws XrayServe XrayRoster XrayServeToy XrayRace.

#[local] Open Scope Z_scope.
#[local] Existing Instance toy_sha256.

Section Overlap.
Context `{UuidLib} `{Sha256} `{JsonText} {M K : Type} `{!Machine M} `{!XrayApi M} `{!MachineLaws M}.
Context (marshal : Config → result string) (ρ : map_range) (cfg : @NodeConfig K) `{!CoreConfig M marshal}.
Context `{!XrayServices M} `{!ServicesCalm M}.
(** The user of the request; the inbounds before it. *)
Context (user : User) (l : list Inbound) (Htags : NoDup (In_Tag <$> l)) (Hmethods : Forall known_method l).
Notation email := (User_Email user).
Implicit Types (s : XS (M:=M)) (i : Inbound) (b : bool).

(** What may happen to the backend at a pause of the request.  A restart by the
    health check falls whole into the pause: one that has written the
    configuration before a step and starts the process after it is not among these
    ([restart_straddles_update] in XrayRace shows what it does). *)
Inductive meddles : XS (M:=M) → XS (M:=M) → Prop :=
  | meddle_env e (x : Xray) w : steady e → meddles (x, w) (x, env_step w e)
  | meddle_health probe failures s : meddles s (health_decide marshal ρ cfg probe failures s).2.

(** An inbound without what the request may change. *)
Definition spare i : Inbound := set_clients (delete email (clients i)) (bare i).

Definition spares b (m : M) : Prop := ∀ i, i ∈ l → exclude i = false →
  served b i (delete email (clients i)) (delete email (api_users m (In_Tag i))).

Record spared b s : Prop := mkSpared {
  sp_still : restarting s.2.1.1 = false;
  sp_inbounds : spare <$> C_Inbounds (xr_config s.1) = spare <$> l;
  sp_typed : typed_config (xr_config s.1);
  sp_served : down s.2 ∨ spares b s.2.2
}.

Lemma spare_fields i j : spare i = spare j →
  In_Tag i = In_Tag j ∧ exclude i = exclude j ∧ delete email (clients i) = delete email (clients j) ∧
  ∀ key, key ≠ "clients" → setting_string i key = setting_string j key.
Proof.
  intros Hs. split_and!; [exact (f_equal In_Tag Hs)|exact (f_equal exclude Hs)|exact (f_equal clients Hs)|].
  intros key Hk. rewrite <- (bare_string i key Hk), <- (bare_string j key Hk).
  exact (f_equal (λ x, setting_string x key) Hs).
Qed.

Lemma spare_active i j u : spare i = spare j → active i u = active j u.
Proof.
  intros Hs. rewrite <- (bare_active i), <- (bare_active j). exact (f_equal (λ x, active x u) Hs).
Qed.

Lemma spare_render i : spare (render_clients ρ i) = spare i.
Proof.
  unfold spare. rewrite bare_render. do 2 f_equal. unfold render_clients. destruct (exclude i); [done|].
  case_bool_decide; [done|]. by destruct (written_type i).
Qed.

(** The inbounds of a backend that is spared, one by one. *)
Lemma spared_lookup b s k i : spared b s → C_Inbounds (xr_config s.1) !! k = Some i → ∃ j, l !! k = Some j ∧ spare i = spare j.
Proof.
  intros Hs Hi. assert ((spare <$> l) !! k = Some (spare i)) as Hl by (by rewrite <- (sp_inbounds b s Hs), list_lookup_fmap, Hi).
  rewrite list_lookup_fmap, fmap_Some in Hl. by destruct Hl as (j & Hj & Heq); exists j.
Qed.

Lemma spared_prepared b s : spared b s → prepared (xr_config s.1).
Proof.
  intros Hs. split; [| |exact (sp_typed b s Hs)].
  - unfold tags. assert (∀ l : list Inbound, In_Tag <$> l = In_Tag <$> (spare <$> l)) as Hc by (intros l0; by rewrite <- list_fmap_compose).
    by rewrite Hc, (sp_inbounds b s Hs), <- Hc.
  - apply Forall_lookup. intros k i Hi. destruct (spared_lookup b s k i Hs Hi) as (j & Hj & Heq).
    intros method. destruct (spare_fields i j Heq) as (_ & _ & _ & Hkey). rewrite Hkey by done.
    rewrite Forall_lookup in Hmethods. by apply (Hmethods k j).
Qed.

(** ** What does not touch the other users *)

Lemma spared_idles b (x : Xray) w w' : idles w w' → spared b (x, w) → spared b (x, w').
Proof.
  intros Hi [Hr Hin Ht Hs]. pose proof Hi as (_ & Hr' & _ & Hu). split; [cbn in *; congruence|done..|].
  destruct Hs as [Hd|Hs]; [left; by eapply idles_down|right]. intros i Hil He. cbn. rewrite Hu. by apply Hs.
Qed.

Lemma spared_restart b s : spared b s → spared b (Xray_Restart marshal ρ cfg s).2.
Proof.
  intros Hs. destruct s as [x w]. pose proof (spared_prepared b _ Hs) as Hp. cbn [fst] in Hp.
  destruct (Restart_serving marshal ρ cfg x w Hp (sp_still b _ Hs)) as [(Hr & Hp' & Hserve) Hc].
  assert (spare <$> C_Inbounds (xr_config (Xray_Restart marshal ρ cfg (x, w)).2.1) = spare <$> l) as Hin.
  { rewrite Hc, settled_inbounds, <- (sp_inbounds b _ Hs), <- list_fmap_compose. apply list_fmap_ext.
    intros k i _. apply spare_render. }
  split; [done..|apply Hp'|]. destruct Hserve as [?|Hserve]; [by left|right]. intros i Hi He.
  assert (spare i ∈ spare <$> l) as Hsi by (by apply list_elem_of_fmap_2). rewrite <- Hin in Hsi.
  apply list_elem_of_fmap in Hsi as (j & Heq & Hj). destruct (spare_fields i j Heq) as (Ht & Hx & Hcl & Hkey).
  rewrite Forall_forall in Hserve. rewrite Ht, Hcl. apply (served_weaken true); [done|]. apply (served_flow _ j).
  - unfold inboundFlow. by rewrite Hkey.
  - apply served_delete, Hserve; [done|congruence].
Qed.

Lemma meddles_spared b s s' : meddles s s' → spared b s → spared b s'.
Proof.
  intros [e x w He|probe failures s0] Hs; [by eapply spared_idles; [apply env_step_idles|]|].
  destruct (health_cases marshal ρ cfg probe failures s0) as [-> | ->]; [done|by apply spared_restart].
Qed.

(** ** The steps of the request *)

Lemma api_spared {A} b (op : M → A * M) s : (∀ m, calm m (op m).2) →
  (∀ m t, delete email (api_users (op m).2 t) = delete email (api_users m t)) → spared b s → spared b (on_api op s).2.
Proof.
  destruct s as [x [[c f] m]]. intros Hc Hu [Hr Hin Ht Hs]. unfold on_api. specialize (Hc m). specialize (Hu m).
  destruct (op m) as [a m']. cbn in *. split; [done..|]. destruct Hs as [Hd|Hs]; [left|right].
  - revert Hd. unfold down, Core_Started. cbn. destruct (process c) as [cmd|]; [|done]. rewrite !negb_false_iff.
    apply (calm_reaps _ _ Hc).
  - intros i Hi He. cbn. rewrite Hu. by apply Hs.
Qed.

Lemma change_spared b k g s : (∀ i, C_Inbounds (xr_config s.1) !! k = Some i → spare (g i) = spare i ∧ (typed i → typed (g i))) →
  spared b s → spared b (change_inbound k g s).
Proof.
  intros Hg [Hr Hin Ht Hs]. split; [done| | |done]; cbn.
  - rewrite <- Hin. apply list_eq. intros k'. rewrite !list_lookup_fmap. destruct (decide (k' = k)) as [->|Hne].
    + rewrite list_lookup_alter_eq. destruct (C_Inbounds (xr_config s.1) !! k) as [i|] eqn:Hi; [|done]. cbn [fmap option_fmap option_map].
      by rewrite (proj1 (Hg i eq_refl)).
    + by rewrite list_lookup_alter_ne.
  - unfold typed_config in *. cbn. apply Forall_alter; [done|]. intros i Hi Hti. by apply Hg.
Qed.

Lemma remove_spared b tag s : spared b s → spared b (on_api (RemoveInboundUser tag email) s).2.
Proof.
  apply api_spared; [intros m; apply remove_user_calm|]. intros m t.
  destruct (decide (t = tag)) as [->|Ht]; [apply remove_others|by rewrite remove_off].
Qed.

Lemma add_spared b i a s : Account_GetEmail a = email →
  spared b s → spared b (on_api (add_reporting (In_Tag i) (accountForAPI i a)) s).2.
Proof.
  intros He. apply api_spared; [intros m; apply add_reporting_calm|]. intros m t.
  pose proof (add_reporting_spec (In_Tag i) i a m t) as Ha. destruct (add_reporting _ _ m) as [msg m']. cbn [snd].
  destruct (bool_decide (msg = "")); rewrite Ha; [|done]. case_bool_decide; [|done]. by rewrite He, delete_insert_eq.
Qed.

Context (others : nat → XS (M:=M) → XS (M:=M)) (Hothers : ∀ n s, rtc meddles s (others n s)).

Lemma others_spared b n s : spared b s → spared b (others n s).
Proof.
  generalize (Hothers n s). generalize (others n s). intros s' Hs. induction Hs as [|s1 s2 s3 Hm _ IH]; [done|].
  intros Hs1. apply IH. by eapply meddles_spared.
Qed.

Lemma sync_at_spared b k s : spared b s → spared b (sync_inbound_at others user (setupUserAccount (Some user)) k s).2.
Proof.
  intros Hs0. pose proof (others_spared b (3 * k)%nat s Hs0) as Hs. unfold sync_inbound_at. clear Hs0.
  set (s0 := others (3 * k)%nat s) in *. clearbody s0. clear s. rename s0 into s. destruct (C_Inbounds (xr_config s.1) !! k) as [i|] eqn:Hi; [|done].
  destruct (exclude i); [done|]. pose proof (remove_spared b (In_Tag i) s Hs) as Hs1.
  assert (xr_config (on_api (RemoveInboundUser (In_Tag i) email) s).2.1 = xr_config s.1) as Hx.
  { destruct s as [x [[c f] m]]. unfold on_api. by destruct (RemoveInboundUser (In_Tag i) email m). }
  destruct (on_api (RemoveInboundUser (In_Tag i) email) s) as [r s1]. cbn [snd] in *.
  pose proof (others_spared b (3 * k + 1)%nat s1 Hs1) as Hs2. set (s2 := others (3 * k + 1)%nat s1) in *.
  assert (∀ i', C_Inbounds (xr_config s2.1) !! k = Some i' → spare i' = spare i) as Hsame.
  { intros i' Hi'. destruct (spared_lookup b s2 k i' Hs2 Hi') as (j & Hj & ->).
    destruct (spared_lookup b s k i Hs Hi) as (j' & Hj' & ->). congruence. }
  fold (active i (Some user)). destruct (active i (Some user)) as [a|] eqn:Ha.
  - apply add_spared; [exact (active_email i _ a Ha)|]. apply others_spared, change_spared; [|done]. intros i' Hi'. split.
    + unfold spare. cbn. rewrite (active_email i _ a Ha). cbn [GetEmail]. by rewrite delete_insert_eq.
    + apply updateUser_typed with (Some user). rewrite <- Ha. apply spare_active. by apply Hsame.
  - apply change_spared; [|done]. intros i' _. split; [unfold spare; cbn; by rewrite delete_delete_eq|].
    intros Ht. apply typed_set. by apply typed_delete.
Qed.

Lemma sync_from_spared b k n s : spared b s → spared b (sync_inbounds_from others user (setupUserAccount (Some user)) k n s).2.
Proof.
  revert k s. induction n as [|n IH]; intros k s Hs; [done|]. cbn [sync_inbounds_from].
  pose proof (sync_at_spared b k s Hs) as Hs1. destruct (sync_inbound_at _ _ _ k s) as [msg s1].
  specialize (IH (S k) s1 Hs1). by destruct (sync_inbounds_from _ _ _ (S k) n s1).
Qed.

Lemma SyncUser_spared b s : spared b s → spared b (SyncUser_steps others user s).2.
Proof.
  intros Hs. unfold SyncUser_steps. pose proof (sync_from_spared b 0 (length (C_Inbounds (xr_config s.1))) s Hs) as Hf.
  by destruct (sync_inbounds_from _ _ _ 0 _ s).
Qed.
End Overlap.

(** ** Updates of several users

    [UpdateUsers] stores an inbound's users before it touches the core, so what a
    restart reads is what the request asks for, and the calls that follow repeat
    it.  [off] says for which users of the inbound that has its turn the core may
    be wrong, and for which it may lack an entry. *)

Section Updates.
Context `{UuidLib} `{Sha256} `{JsonText} {M K : Type} `{!Machine M} `{!XrayApi M} `{!MachineLaws M}.
Context (marshal : Config → result string) (ρ : map_range) (cfg : @NodeConfig K) `{!CoreConfig M marshal}.
Context `{!XrayServices M} `{!ServicesCalm M} (Hremove : removals_work (X:=M)).
Implicit Types (s : XS (M:=M)) (i : Inbound) (b : bool) (l : list Inbound) (cl : gmap string Account) (v : gmap string core_user).
Implicit Types (wrong lost : gset string) (t : string).

Record off wrong lost b i cl v : Prop := mkOff {
  off_stored e cu : v !! e = Some cu → e ∈ wrong ∨ ∃ a, cl !! e = Some a ∧ credential i a cu;
  off_all : b = true → ∀ e, is_Some (cl !! e) → e ∈ lost ∨ is_Some (v !! e)
}.

Lemma off_served b i cl v : off ∅ ∅ b i cl v ↔ served b i cl v.
Proof.
  split; intros [Hs Ha]; split; [intros e cu Hv; destruct (Hs e cu Hv); set_solver| |by eauto..].
  intros Hb e He. destruct (Ha Hb e He); set_solver.
Qed.

Lemma off_weaken wrong wrong' lost lost' b b' i cl v :
  wrong ⊆ wrong' → lost ⊆ lost' → (b' = true → b = true) → off wrong lost b i cl v → off wrong' lost' b' i cl v.
Proof.
  intros Hw Hl Hb [Hs Ha]. split; [intros e cu Hv; destruct (Hs e cu Hv); set_solver|].
  intros Hb' e He. destruct (Ha (Hb Hb') e He); set_solver.
Qed.

(** The backend keeps the inbounds [l], and serves them but for these users of
    the inbound [t]. *)
Definition only_at t (X : gset string) t' : gset string := if decide (t' = t) then X else ∅.

Definition nearly t wrong lost b l (m : M) : Prop := ∀ i, i ∈ l → exclude i = false →
  off (only_at t wrong (In_Tag i)) (only_at t lost (In_Tag i)) b i (clients i) (api_users m (In_Tag i)).

Record tended t wrong lost b l s : Prop := mkTended {
  td_still : restarting s.2.1.1 = false;
  td_prepared : prepared (xr_config s.1);
  td_alike : alike (C_Inbounds (xr_config s.1)) l;
  td_served : down s.2 ∨ nearly t wrong lost b l s.2.2
}.

Lemma only_at_empty t t' : only_at t ∅ t' = ∅.
Proof. unfold only_at. by case_decide. Qed.

Lemma alike_fields i j : bare i = bare j →
  In_Tag i = In_Tag j ∧ exclude i = exclude j ∧ clients i = clients j ∧ inboundFlow i = inboundFlow j.
Proof.
  intros Hb. split_and!; [exact (f_equal In_Tag Hb)|exact (f_equal exclude Hb)|exact (f_equal clients Hb)|].
  by rewrite <- (bare_flow i), <- (bare_flow j), Hb.
Qed.

(** Without such users the backend serves its inbounds, whatever [t]. *)
Lemma tended_serves t b l s : tended t ∅ ∅ b l s ↔ serves_inbounds b l s.
Proof.
  split.
  - intros [Hr Hp Ha Hs]. split; [|done]. split_and!; [done..|]. destruct Hs as [?|Hs]; [by left|right].
    apply Forall_forall. intros i Hi He. destruct (alike_elem l (C_Inbounds (xr_config s.1)) i) as (j & Hj & Hb); [done..|].
    destruct (alike_fields j i Hb) as (Ht & Hx & Hc & Hf). specialize (Hs j Hj ltac:(congruence)).
    rewrite !only_at_empty in Hs. apply off_served in Hs. rewrite Ht, Hc in Hs. by apply (served_flow _ j).
  - intros [(Hr & Hp & Hs) Ha]. split; [done..|]. destruct Hs as [?|Hs]; [by left|right].
    intros i Hi He. destruct (alike_elem _ l i Ha Hi) as (j & Hj & Hb). destruct (alike_fields j i Hb) as (Ht & Hx & Hc & Hf).
    rewrite Forall_forall in Hs. specialize (Hs j Hj ltac:(congruence)). rewrite Ht, Hc in Hs.
    rewrite !only_at_empty. apply off_served. by apply (served_flow _ j).
Qed.

Lemma tended_weaken t wrong wrong' lost lost' b b' l s :
  wrong ⊆ wrong' → lost ⊆ lost' → (b' = true → b = true) → tended t wrong lost b l s → tended t wrong' lost' b' l s.
Proof.
  intros Hw Hl Hb [Hr Hp Ha Hs]. split; [done..|]. destruct Hs as [?|Hs]; [by left|right]. intros i Hi He.
  eapply off_weaken; [..|by apply Hs]; [| |done]; unfold only_at; case_decide; set_solver.
Qed.

(** *** What happens at a pause *)

Lemma tended_idles t wrong lost b l (x : Xray) w w' : idles w w' → tended t wrong lost b l (x, w) → tended t wrong lost b l (x, w').
Proof.
  intros Hi [Hr Hp Ha Hs]. pose proof Hi as (_ & Hr' & _ & Hu). split; [cbn in *; congruence|done..|].
  destruct Hs as [Hd|Hs]; [left; by eapply idles_down|right]. intros i Hil He. cbn. rewrite Hu. by apply Hs.
Qed.

Lemma tended_restart t wrong lost b l s : tended t wrong lost b l s → tended t wrong lost b l (Xray_Restart marshal ρ cfg s).2.
Proof.
  intros [Hr Hp Ha _]. destruct s as [x w]. apply (tended_weaken t ∅ wrong ∅ lost true); [set_solver..|done|].
  apply tended_serves. by eapply serves_restarted; [apply Restart_serving|].
Qed.

Lemma meddles_tended t wrong lost b l s s' : rtc (meddles marshal ρ cfg) s s' → tended t wrong lost b l s → tended t wrong lost b l s'.
Proof.
  induction 1 as [|s1 s2 s3 Hm _ IH]; [done|]. intros Hs. apply IH. clear IH. destruct Hm as [e x w He|probe failures s1].
  - eapply tended_idles; [by apply env_step_idles|done].
  - destruct (health_cases marshal ρ cfg probe failures s1) as [-> | ->]; [done|by apply tended_restart].
Qed.

(** *** The calls of the API *)

Lemma tended_api {A} t wrong wrong' lost lost' b b' l (op : M → A * M) s : calm s.2.2 (op s.2.2).2 →
  (∀ t', t' ≠ t → api_users (op s.2.2).2 t' = api_users s.2.2 t') → (b' = true → b = true) →
  (∀ i, i ∈ l → In_Tag i = t → exclude i = false → off wrong lost b i (clients i) (api_users s.2.2 t) →
     off wrong' lost' b' i (clients i) (api_users (op s.2.2).2 t)) →
  tended t wrong lost b l s → tended t wrong' lost' b' l (on_api op s).2.
Proof.
  destruct s as [x [[c f] m]]. intros Hc Hoff Hb Hop [Hr Hp Ha Hs]. unfold on_api. cbn [fst snd] in *.
  destruct (op m) as [a m']. cbn [fst snd] in *. split; [done..|]. cbn [fst snd] in *. destruct Hs as [Hd|Hs]; [left|right].
  - revert Hd. unfold down, Core_Started. cbn. destruct (process c) as [cmd|]; [|done]. rewrite !negb_false_iff.
    apply (calm_reaps _ _ Hc).
  - intros i Hi He. specialize (Hs i Hi He). revert Hs. unfold only_at. case_decide as Ht.
    + rewrite Ht. by apply Hop.
    + rewrite Hoff by done. intros Hs. by eapply off_weaken; [..|exact Hs].
Qed.

Lemma tended_remove t wrong lost b l e s : tended t wrong lost b l s →
  tended t (wrong ∖ {[ e ]}) ({[ e ]} ∪ lost) b l (on_api (RemoveInboundUser t e) s).2.
Proof.
  apply tended_api; [apply remove_user_calm|intros t' Ht; by rewrite Hremove, bool_decide_eq_false_2|done|].
  intros i _ _ _ [Hs Ha]. rewrite Hremove, bool_decide_eq_true_2 by done. split.
  - intros e' cu [Hne Hv]%lookup_delete_Some. destruct (Hs e' cu Hv); set_solver.
  - intros Hb e' He'. destruct (decide (e' = e)) as [->|Hne]; [set_solver|]. rewrite lookup_delete_ne by done.
    destruct (Ha Hb e' He'); set_solver.
Qed.

(** A user that is not stored is not missed. *)
Lemma tended_gone t wrong lost b l e s : (∀ i, i ∈ l → In_Tag i = t → exclude i = false → clients i !! e = None) →
  tended t wrong lost b l s → tended t wrong (lost ∖ {[ e ]}) b l s.
Proof.
  intros Hn [Hr Hp Ha Hs]. split; [done..|]. destruct Hs as [?|Hs]; [by left|right]. intros i Hi He.
  destruct (Hs i Hi He) as [Hst Hall]. split; [done|]. intros Hb e' He'. destruct (Hall Hb e' He') as [Hin|?]; [|by right]. left.
  revert Hin. unfold only_at. case_decide as Ht; [|set_solver].
  destruct (decide (e' = e)) as [->|Hne]; [|set_solver]. rewrite (Hn i Hi Ht He) in He'. by apply is_Some_None in He'.
Qed.

Lemma tended_add t wrong lost b l i a s : In_Tag i = t →
  (∀ j, j ∈ l → In_Tag j = t → exclude j = false → inboundFlow j = inboundFlow i ∧ clients j !! Account_GetEmail a = Some a) →
  tended t wrong lost b l s →
  let '(msg, s') := on_api (add_reporting t (accountForAPI i a)) s in
  tended t wrong (lost ∖ {[ Account_GetEmail a ]}) (b && bool_decide (msg = "")) l s'.
Proof.
  intros Ht Hj Hs. pose proof (add_reporting_spec t i a s.2.2) as Hspec.
  set (op := add_reporting t (accountForAPI i a)).
  assert ((on_api op s).1 = (op s.2.2).1) as Hmsg by (destruct s as [x [[c f] m]]; unfold on_api; cbn; by destruct (op m)).
  enough (tended t wrong (lost ∖ {[ Account_GetEmail a ]}) (b && bool_decide ((op s.2.2).1 = "")) l (on_api op s).2) as Hgoal
    by (rewrite <- Hmsg in Hgoal; by destruct (on_api op s)).
  apply (tended_api t wrong _ lost _ b); [apply add_reporting_calm| |by intros [? _]%andb_true_iff| |exact Hs].
  - intros t' Hne. specialize (Hspec t'). subst op. destruct (add_reporting _ _ _) as [msg m']. cbn [snd].
    rewrite (bool_decide_eq_false_2 (t' = t)) in Hspec by done. by destruct (bool_decide (msg = "")).
  - intros j Hjl Htj He [Hst Hall]. destruct (Hj j Hjl Htj He) as [Hflow Hcl]. specialize (Hspec t). subst op.
    destruct (add_reporting _ _ _) as [msg m']. cbn [fst snd]. rewrite (bool_decide_eq_true_2 (t = t)) in Hspec by done.
    case_bool_decide as Hok; rewrite Hspec.
    + rewrite andb_true_r. split.
      * intros e cu [[<- <-]|[Hne Hv]]%lookup_insert_Some; [|by apply Hst]. right. exists a. split; [done|]. right.
        unfold core_user_of, accountForAPI. by rewrite Hflow.
      * intros Hb e Hse. destruct (decide (e = Account_GetEmail a)) as [->|Hne]; [right; by rewrite lookup_insert_eq|].
        rewrite lookup_insert_ne by done. destruct (Hall Hb e Hse); set_solver.
    + rewrite andb_false_r. by split.
Qed.

(** *** One turn of the loop *)

Context (users : list (option User)) (Hnd : NoDup (GetEmail <$> users)).
Context (l0 : list Inbound) (Htags : NoDup (In_Tag <$> l0)) (Hmethods : Forall known_method l0).
Context (others : string → nat → XS (M:=M) → XS (M:=M)) (Hothers : ∀ t n s, rtc (meddles marshal ρ cfg) s (others t n s)).

(** The inbounds when those with the tags [D] have had their turn. *)
Definition turn_of (D : gset string) i : Inbound := if bool_decide (In_Tag i ∈ D) then on_included (also_users users) i else i.
Definition turned (D : gset string) : list Inbound := turn_of D <$> l0.

Lemma turn_of_fields D i : In_Tag (turn_of D i) = In_Tag i ∧ exclude (turn_of D i) = exclude i ∧ inboundFlow (turn_of D i) = inboundFlow i.
Proof. unfold turn_of, on_included. case_bool_decide; [destruct (exclude i) eqn:He|]; by split_and!. Qed.

(** A turn's inbound, before and after it. *)
Lemma turned_at D i j : i ∈ l0 → exclude i = false → In_Tag i ∈ D → j ∈ turned D → In_Tag j = In_Tag i →
  j = set_clients (also_users users i (clients i)) i.
Proof.
  intros Hi He HD (j0 & -> & Hj)%list_elem_of_fmap Ht. destruct (turn_of_fields D j0) as (Ht0 & _ & _). rewrite Ht0 in Ht.
  assert (j0 = i) as -> by (by apply (keyed_unique In_Tag l0)). unfold turn_of, on_included. by rewrite bool_decide_eq_true_2, He.
Qed.

Lemma turned_next c i D (upd := foldl (update_user i) no_update users) : prepared c → alike (C_Inbounds c) (turned D) →
  i ∈ l0 → exclude i = false → In_Tag i ∉ D →
  let c' := update_inbound (In_Tag i) (Inbound_updateUsers (up_accounts upd) (set_range ρ (up_removeEmailSet upd))) c in
  prepared c' ∧ alike (C_Inbounds c') (turned ({[In_Tag i]} ∪ D)).
Proof.
  intros Hp Ha Hi He HD c'. set (f := Inbound_updateUsers _ _) in *.
  assert (C_Inbounds c' = (λ j, if bool_decide (In_Tag j = In_Tag i) && negb (exclude j) then f j else j) <$> C_Inbounds c) as Hc'
    by (apply update_last_nodup, Hp). split.
  - apply (prepared_shape c); [rewrite Hc'; apply shape_fmap; intros j; by destruct (_ && _)| |done].
    unfold typed_config. apply update_last_typed; [|apply Hp]. intros j. apply updateUsers_typed.
  - set (g := λ j : Inbound, _) in Hc'. assert (∀ l, bare <$> (g <$> l) = g <$> (bare <$> l)) as Hcom.
    { intros l. rewrite <- !list_fmap_compose. apply list_fmap_ext. intros k j _. cbn. unfold g.
      change (In_Tag (bare j)) with (In_Tag j). change (exclude (bare j)) with (exclude j).
      destruct (_ && _); [apply bare_updateUsers|done]. }
    unfold alike in *. rewrite Hc', Hcom, Ha, <- Hcom. f_equal. unfold turned. rewrite <- list_fmap_compose.
    apply list_fmap_ext. intros k j Hj%list_elem_of_lookup_2. cbn. unfold g. destruct (turn_of_fields D j) as (-> & -> & _).
    destruct (decide (In_Tag j = In_Tag i)) as [Ht|Ht].
    + assert (j = i) as -> by (by apply (keyed_unique In_Tag l0)). rewrite He, bool_decide_eq_true_2 by done. cbn [andb negb].
      unfold turn_of. rewrite bool_decide_eq_false_2, bool_decide_eq_true_2 by set_solver.
      rewrite <- (request_update_also ρ) by (done || by eapply Forall_forall in Hmethods). done.
    + rewrite bool_decide_eq_false_2 by done. cbn [andb]. unfold turn_of. by rewrite (bool_decide_ext (_ ∈ {[_]} ∪ D) (In_Tag j ∈ D)) by set_solver.
Qed.

(** The loops of a turn: what they name is put right. *)
Lemma remove_all_tended t wrong lost b l emails k s :
  (∀ e i, e ∈ emails → i ∈ l → In_Tag i = t → exclude i = false → clients i !! e = None) → tended t wrong lost b l s →
  tended t (wrong ∖ list_to_set emails) (lost ∖ list_to_set emails) b l (remove_all_from others t emails k s).2.
Proof.
  revert wrong lost k s. induction emails as [|e emails IH]; intros wrong lost k s Hn Hs.
  - cbn [remove_all_from snd]. eapply tended_weaken; [..|exact Hs]; set_solver.
  - cbn [remove_all_from]. apply (meddles_tended _ _ _ _ _ _ _ (Hothers t k s)), (tended_remove _ _ _ _ _ e) in Hs.
    apply (tended_gone _ _ _ _ _ e) in Hs; [|set_solver].
    eapply tended_weaken; [..|apply IH; [set_solver|exact Hs]]; set_solver.
Qed.

Lemma add_all_tended i wrong lost b l accounts k s :
  (∀ a j, a ∈ accounts → j ∈ l → In_Tag j = In_Tag i → exclude j = false →
     inboundFlow j = inboundFlow i ∧ clients j !! Account_GetEmail a = Some a) → tended (In_Tag i) wrong lost b l s →
  let '(msgs, s') := add_all_from others i accounts k s in
  tended (In_Tag i) (wrong ∖ list_to_set (Account_GetEmail <$> accounts)) (lost ∖ list_to_set (Account_GetEmail <$> accounts))
    (b && bool_decide (msgs = "")) l s'.
Proof.
  revert wrong lost b k s. induction accounts as [|a accounts IH]; intros wrong lost b k s Hj Hs.
  - cbn [add_all_from]. eapply tended_weaken; [..|exact Hs]; [set_solver..|]. by intros [? _]%andb_true_iff.
  - cbn [add_all_from]. apply (meddles_tended _ _ _ _ _ _ _ (Hothers (In_Tag i) k s)), (tended_remove _ _ _ _ _ (Account_GetEmail a)) in Hs.
    destruct (on_api (RemoveInboundUser _ _) _) as [r s1]. cbn [snd] in Hs.
    apply (meddles_tended _ _ _ _ _ _ _ (Hothers (In_Tag i) (S k) s1)) in Hs.
    apply (tended_add _ _ _ _ _ i a) in Hs; [|done|set_solver].
    destruct (on_api (add_reporting _ _) _) as [msg s2].
    specialize (IH _ _ _ (S (S k)) s2 ltac:(set_solver) Hs). destruct (add_all_from others i accounts _ s2) as [msgs s3].
    eapply tended_weaken; [..|exact IH]; [set_solver..|].
    rewrite !andb_true_iff, !bool_decide_eq_true, app_empty. tauto.
Qed.

(** Storing an inbound's users leaves the core behind for those of the request. *)
Lemma turn_stored i D b s (upd := foldl (update_user i) no_update users) (N : gset string := list_to_set (GetEmail <$> users)) :
  i ∈ l0 → exclude i = false → In_Tag i ∉ D → serves_inbounds b (turned D) s →
  tended (In_Tag i) N N b (turned ({[In_Tag i]} ∪ D)) (change_config
    (update_inbound (In_Tag i) (Inbound_updateUsers (up_accounts upd) (set_range ρ (up_removeEmailSet upd)))) s).
Proof.
  intros Hi He HD [Hr Hp Ha Hs]%(tended_serves (In_Tag i)). destruct (turned_next _ i D Hp Ha Hi He HD) as [Hp' Ha'].
  split; [done..|]. destruct Hs as [?|Hs]; [by left|right]. intros j Hj Hje. unfold only_at.
  destruct (decide (In_Tag j = In_Tag i)) as [Ht|Ht].
  - rewrite (turned_at ({[In_Tag i]} ∪ D) i j Hi He ltac:(set_solver) Hj Ht).
    assert (turn_of D i = i) as Hsame by (unfold turn_of; by rewrite bool_decide_eq_false_2).
    specialize (Hs (turn_of D i) (list_elem_of_fmap_2 _ _ _ Hi)). rewrite Hsame in Hs. specialize (Hs He).
    rewrite !only_at_empty in Hs. destruct Hs as [Hst Hall]. cbn [clients In_Tag set_clients].
    split.
    + intros e cu Hv. destruct (decide (e ∈ N)) as [|Hn]; [by left|right]. destruct (Hst e cu Hv) as [|(a & Hc & Hcr)]; [set_solver|].
      exists a. split; [|done]. rewrite also_users_lookup, bool_decide_eq_false_2; [done|set_solver|done].
    + intros Hb e Hse. destruct (decide (e ∈ N)) as [|Hn]; [by left|right].
      rewrite also_users_lookup, bool_decide_eq_false_2 in Hse by (done || set_solver). destruct (Hall Hb e Hse); set_solver.
  - assert (j ∈ turned D) as Hj0.
    { apply list_elem_of_fmap in Hj as (j0 & -> & Hj0). destruct (turn_of_fields ({[In_Tag i]} ∪ D) j0) as (Ht0 & _ & _).
      rewrite Ht0 in Ht. apply list_elem_of_fmap. exists j0. split; [|done]. unfold turn_of.
      by rewrite (bool_decide_ext (_ ∈ {[_]} ∪ D) (In_Tag j0 ∈ D)) by set_solver. }
    specialize (Hs j Hj0 Hje). by rewrite !only_at_empty in Hs.
Qed.

Lemma turn_tended i D b msgs s : i ∈ l0 → exclude i = false → In_Tag i ∉ D →
  serves_inbounds (b && bool_decide (msgs = "")) (turned D) s →
  let '(msgs', s') := update_tag_steps ρ others (msgs, s) (In_Tag i, (i, foldl (update_user i) no_update users)) in
  serves_inbounds (b && bool_decide (msgs' = "")) (turned ({[In_Tag i]} ∪ D)) s'.
Proof.
  intros Hi He HD Hs. unfold update_tag_steps. set (upd := foldl _ _ users).
  apply (tended_serves (In_Tag i)), (meddles_tended _ _ _ _ _ _ _ (Hothers (In_Tag i) 0%nat s)), tended_serves in Hs.
  pose proof (turn_stored i D _ _ Hi He HD Hs) as Hm. fold upd in Hm. set (s1 := change_config _ _) in *. clearbody s1. clear Hs.
  assert (∀ j, j ∈ turned ({[In_Tag i]} ∪ D) → In_Tag j = In_Tag i → inboundFlow j = inboundFlow i ∧
    ∀ u, u ∈ users → clients j !! GetEmail u = active i u) as Hat.
  { intros j Hj Ht. rewrite (turned_at ({[In_Tag i]} ∪ D) i j Hi He ltac:(set_solver) Hj Ht). split; [done|]. intros u Hu. by apply also_users_at. }
  assert (up_accounts upd = omap (active i) users) as Hacc by (unfold upd; by rewrite update_accounts).
  assert (∀ e, e ∈ set_range ρ (up_removeEmailSet upd) ↔ ∃ u, u ∈ users ∧ e = GetEmail u ∧ active i u = None) as Hrem.
  { intros e. rewrite elem_of_set_range. unfold upd. rewrite update_accounts. cbn. rewrite union_empty_r_L, elem_of_list_to_set, list_elem_of_fmap.
    setoid_rewrite list_elem_of_filter. naive_solver. }
  eapply (remove_all_tended _ _ _ _ _ (set_range ρ (up_removeEmailSet upd)) 1) in Hm.
  2: { intros e j (u & Hu & -> & Hn)%Hrem Hj Ht _. rewrite <- Hn. by apply Hat. }
  destruct (remove_all_from _ _ _ _ s1) as [k s2]. cbn [snd] in Hm.
  eapply (add_all_tended i _ _ _ _ (up_accounts upd) k) in Hm.
  2: { intros a j Ha Hj Ht _. rewrite Hacc in Ha. apply list_elem_of_omap in Ha as (u & Hu & Ha).
       destruct (Hat j Hj Ht) as [Hf Hcl]. split; [done|]. by rewrite (active_email i u a Ha), Hcl. }
  destruct (add_all_from _ _ _ k s2) as [msg s3]. apply (tended_serves (In_Tag i)).
  assert (∀ X : gset string, (X ∖ list_to_set (set_range ρ (up_removeEmailSet upd))) ∖ list_to_set (Account_GetEmail <$> up_accounts upd) ⊆
    X ∖ list_to_set (GetEmail <$> users)) as HX.
  { intros X e. rewrite !elem_of_difference, !elem_of_list_to_set, Hrem, Hacc. intros [[HeX Hn1] Hn2]. split; [done|].
    intros (u & -> & Hu)%list_elem_of_fmap. destruct (active i u) as [a|] eqn:Ha; [|by apply Hn1; exists u].
    apply Hn2. rewrite <- (active_email i u a Ha). apply list_elem_of_fmap_2, list_elem_of_omap. by exists u. }
  eapply tended_weaken; [..|exact Hm]; [etransitivity; [apply HX|set_solver]..|].
  rewrite !andb_true_iff, !bool_decide_eq_true, app_empty. tauto.
Qed.

Lemma turns_tended (todo : list (string * (Inbound * inboundUpdate))) D b msgs s : NoDup todo.*1 →
  (∀ t i u, (t, (i, u)) ∈ todo → i ∈ l0 ∧ exclude i = false ∧ In_Tag i = t ∧ t ∉ D ∧ u = foldl (update_user i) no_update users) →
  serves_inbounds (b && bool_decide (msgs = "")) (turned D) s →
  let '(msgs', s') := foldl (update_tag_steps ρ others) (msgs, s) todo in
  serves_inbounds (b && bool_decide (msgs' = "")) (turned (list_to_set todo.*1 ∪ D)) s'.
Proof.
  revert D msgs s. induction todo as [|[t [i u]] todo IH]; intros D msgs s Ht Htodo Hs; [cbn [foldl list_to_set fmap list_fmap]; by rewrite union_empty_l_L|].
  rewrite fmap_cons, NoDup_cons in Ht. destruct Ht as [Hn Ht]. cbn [foldl fst] in *.
  destruct (Htodo t i u) as (Hi & He & <- & HD & ->); [left|].
  pose proof (turn_tended i D b msgs s Hi He HD Hs) as Hm. destruct (update_tag_steps _ _ (msgs, s) _) as [msgs1 s1].
  specialize (IH ({[In_Tag i]} ∪ D) msgs1 s1 Ht). rewrite fmap_cons. cbn [list_to_set fst].
  rewrite (comm_L (∪) {[In_Tag i]}), <- (assoc_L (∪)).
  apply IH; [|done]. intros t' i' u' Hin. destruct (Htodo t' i' u') as (? & ? & ? & ? & ?); [by right|]. split_and!; [done..| |done].
  apply (list_elem_of_fmap_2 fst) in Hin. cbn [fst] in Hin. apply not_elem_of_union. split; [|done].
  intros ->%elem_of_singleton. by apply Hn.
Qed.
End Updates.

(** ** Properties *)

(** C20: a restart in the middle of a request harms nobody but the user it names.
    On a backend that serves its users, whatever deaths of the process, whole
    restarts by the health check and steady steps of the system fall between the
    steps of [SyncUser], whether the request succeeds or not and whether its
    removals work or fail: every other user is
    stored on every inbound as before; and while the core runs, another user it
    serves on an included inbound is a stored one with its credential (up to the
    VLESS flow), and if nothing had failed before, every other stored user is
    served. *)
Theorem overlap_spares_other_users `{UuidLib} `{Sha256} `{JsonText} {M K : Type} `{!Machine M} `{!XrayApi M} `{!MachineLaws M}
    `{!XrayServices M} `{!ServicesCalm M} (marshal : Config → result string) (ρ : map_range) (cfg : @NodeConfig K)
    `{!CoreConfig M marshal} (user : User) (others : nat → XS (M:=M) → XS (M:=M)) (clean : bool) (s : XS (M:=M))
    (Hserving : serving clean s) (Hothers : ∀ n s, rtc (meddles marshal ρ cfg) s (others n s)) :
  let s' := (SyncUser_steps others user s).2 in
  (∀ k i, C_Inbounds (xr_config s.1) !! k = Some i → ∃ i', C_Inbounds (xr_config s'.1) !! k = Some i' ∧
     In_Tag i' = In_Tag i ∧ ∀ e, e ≠ User_Email user → clients i' !! e = clients i !! e) ∧
  (Core_Started s'.2.1.1 s'.2.2 = true → ∀ i e, i ∈ C_Inbounds (xr_config s.1) → exclude i = false → e ≠ User_Email user →
     (∀ cu, api_users s'.2.2 (In_Tag i) !! e = Some cu → ∃ a, clients i !! e = Some a ∧ credential i a cu) ∧
     (clean = true → is_Some (clients i !! e) → is_Some (api_users s'.2.2 (In_Tag i) !! e))).
Proof.
  intros s'. destruct Hserving as (Hr & [Htags Hmethods Htyped] & Hs).
  assert (spared user (C_Inbounds (xr_config s.1)) clean s') as [_ Hin _ Hserved].
  { apply (SyncUser_spared marshal ρ cfg user _ Htags Hmethods others Hothers). split; [done..|].
    destruct Hs as [?|Hs]; [by left|right]. intros i Hi He. rewrite Forall_forall in Hs. by apply served_delete, Hs. }
  clearbody s'. split.
  - intros k i Hi. assert ((spare user <$> C_Inbounds (xr_config s'.1)) !! k = Some (spare user i)) as Hk
      by (by rewrite Hin, list_lookup_fmap, Hi).
    rewrite list_lookup_fmap, fmap_Some in Hk. destruct Hk as (i' & Hi' & Heq). exists i'.
    destruct (spare_fields user i i' Heq) as (Ht & _ & Hc & _). split_and!; [done..|]. intros e He.
    by rewrite <- (lookup_delete_ne (clients i') (User_Email user) e), <- Hc, lookup_delete_ne by done.
  - intros Hrun i e Hi Hx He. destruct Hserved as [Hd|Hserved]; [unfold down in Hd; congruence|].
    destruct (Hserved i Hi Hx) as [Hstored Hall]. split.
    + intros cu Hcu. destruct (Hstored e cu) as (a & Ha & Hcred); [by rewrite lookup_delete_ne|].
      exists a. by rewrite lookup_delete_ne in Ha.
    + intros Hc Hst. destruct (Hall Hc e) as [cu Hcu]; [by rewrite lookup_delete_ne|].
      exists cu. by rewrite lookup_delete_ne in Hcu.
Qed.

(** C19: an update of users keeps its promise whatever whole restarts fall between
    its steps.  On a backend that serves its inbounds, let any deaths of the
    process, restarts by the health check and steady steps of the system fall
    between the steps of [UpdateUsers], for users with different emails.  Two
    things are assumed: a restart writes the configuration and starts the process
    within one pause ([restart_straddles_update] in XrayRace shows one that does
    not, which the locks allow), and the core refuses a removal only for a user it
    does not have ([removals_work]; the code discards the error of a removal, see
    [failed_removal_is_silent] in XrayToy).  Afterwards the inbounds are
    those before it, where every included one has each user of the request with
    its account there, or not at all when it is not active on the inbound, and all
    other users as before; and the core, while it runs, serves them as the
    undisturbed operation promises: each stored user when nothing failed before
    and the request succeeds, and otherwise no user that is not stored. *)
Theorem overlap_update_keeps_promise `{UuidLib} `{Sha256} `{JsonText} {M K : Type} `{!Machine M} `{!XrayApi M} `{!MachineLaws M}
    `{!XrayServices M} `{!ServicesCalm M} (marshal : Config → result string) (ρ : map_range) (cfg : @NodeConfig K)
    `{!CoreConfig M marshal} (users : list (option User)) (others : string → nat → XS (M:=M) → XS (M:=M)) (clean : bool) (s : XS (M:=M))
    (Hremove : removals_work (X:=M)) (Hnd : NoDup (GetEmail <$> users)) (Hserving : serving clean s)
    (Hothers : ∀ t n s, rtc (meddles marshal ρ cfg) s (others t n s)) :
  let '(r, s') := UpdateUsers_steps ρ others users s in
  serves_inbounds (clean && is_ok r) (on_included (also_users users) <$> C_Inbounds (xr_config s.1)) s'.
Proof.
  pose proof Hserving as (_ & [Htags Hmethods _] & _). set (c := xr_config s.1) in *. set (l := C_Inbounds c) in *.
  assert (serves_inbounds clean l s) as Hs by done. unfold UpdateUsers_steps. fold c.
  set (todo := range_of ρ (buildInboundUpdates c users)).
  assert (∀ t i u, (t, (i, u)) ∈ todo ↔ inbound_by_tag c !! t = Some i ∧ u = foldl (update_user i) no_update users) as Htodo.
  { intros t i u. unfold todo. rewrite elem_of_range. unfold buildInboundUpdates. rewrite lookup_fmap, fmap_Some.
    split; [by intros (j & Hj & [= -> ->])|]. intros [Hi ->]. by exists i. }
  assert (turned users l ∅ = l) as Hnone by (apply fmap_same; intros i _; by unfold turn_of; rewrite bool_decide_eq_false_2).
  pose proof (turns_tended marshal ρ cfg Hremove users Hnd l Htags Hmethods others Hothers todo ∅ clean "" s (range_nodup ρ _)) as Hall.
  ospecialize (Hall _ _).
  { intros t i u [Hi ->]%Htodo. destruct (by_tag_elem c t i Hi) as (? & ? & ?). by split_and!. }
  { by rewrite andb_true_r, Hnone. }
  destruct (foldl _ _ todo) as [msgs s']. rewrite union_empty_r_L in Hall.
  assert (is_ok (if bool_decide (msgs = "") then Ok () else Err (errors_New ("failed to update users:" +:+ msgs))) = bool_decide (msgs = "")) as ->
    by (by case_bool_decide).
  assert (turned users l (list_to_set todo.*1) = on_included (also_users users) <$> l) as <-; [|done].
  apply list_fmap_ext. intros k i Hi%list_elem_of_lookup_2. unfold turn_of. destruct (exclude i) eqn:He.
  - unfold on_included. rewrite He. destruct (bool_decide (In_Tag i ∈ _)); reflexivity.
  - rewrite bool_decide_eq_true_2; [done|]. apply elem_of_list_to_set, list_elem_of_fmap.
    exists (In_Tag i, (i, foldl (update_user i) no_update users)). split; [done|]. apply Htodo. by rewrite (inbound_by_tag_lookup c i).
Qed.

(** ** Witnesses *)

(** Ann is removed from a backend that serves ann and bob; the process dies
    between the two halves of the request, and the health check restarts it. *)
Definition meddler (n : nat) : XS (M:=toy_os) → XS (M:=toy_os) := if bool_decide (n = 4%nat) then dies_and_restarts 0 else id.

Definition both_served : option (XS (M:=toy_os)) :=
  s ← serve_start;
  match with_api (Xray_SyncUser (Some (toy_xuser "bob" ["v"]))) s with (Ok _, s) => Some s | (Err _, _) => None end.

Lemma kill_steady (id : nat) : steady (OsStep (kill_process id)).
Proof.
  intros [m u]. split; [|done]. apply os_calm. cbn. apply toy_kill_calm. set_solver.
Qed.

Lemma meddler_meddles n s : rtc (meddles toy_text std_range toy_node_config) s (meddler n s).
Proof.
  unfold meddler. case_bool_decide; [|done]. unfold dies_and_restarts. destruct s as [x w]. cbn [env_run foldl].
  eapply rtc_l; [exact (meddle_env _ _ _ (OsStep (kill_process 0)) x w (kill_steady 0))|].
  eapply rtc_l; [exact (meddle_env _ _ _ (Exited 0 (Some (errors_New "exit status 23"))) x _ I)|].
  apply rtc_once. exact (meddle_health _ _ _ _ _ _).
Qed.

Lemma both_served_serving s : both_served = Some s → serving true s.
Proof.
  unfold both_served, serve_start. destruct serve_new as [[[s0|]|e] fm] eqn:Hnew; [|done..].
  cbn [fst mbind option_bind]. intros Hs.
  destruct (Xray_New_serving toy_text std_range toy_node_config Ok toy_ifaces (Ok ()) toy_to_prepare
    [Some (toy_xuser "ann" ["v"])] 62051 62052 [mkMoment [] (ApiTick (Ok ()))] (mkFiles 0 ∅ ∅ []) ((mkMachine 0 ∅, ∅) : toy_os)
    s0 fm ltac:(repeat constructor) (λ _, toy_prepared) Hnew) as [_ [Hs0 _]].
  pose proof (SyncUser_serving (toy_xuser "bob" ["v"]) true s0 toy_os_removals Hs0) as Hs1.
  destruct (with_api _ s0) as [[[]|e] s1]; [|discriminate Hs]. injection Hs as <-. exact Hs1.
Qed.

Lemma overlap_runs : (λ s, let s' := (SyncUser_steps meddler (toy_xuser "ann" []) s).2 in
    (Core_Started s'.2.1.1 s'.2.2, tm_next s'.2.2.1, (λ i, (In_Tag i, exclude i, (map_to_list (clients i)).*1)) <$> C_Inbounds (xr_config s.1))) <$> both_served =
  Some (true, 2%nat, [("API_INBOUND", false, []); ("v", false, ["ann"; "bob"])]).
Proof. vm_compute. reflexivity. Qed.

Lemma overlap_spares_other_users_witness : ∃ s,
  let s' := (SyncUser_steps meddler (toy_xuser "ann" []) s).2 in
  serving true s ∧ Core_Started s'.2.1.1 s'.2.2 = true ∧ is_Some (api_users s'.2.2 "v" !! "bob").
Proof.
  pose proof overlap_runs as Hrun. pose proof both_served_serving as Hserving. destruct both_served as [s|]; [|discriminate Hrun].
  exists s. specialize (Hserving s eq_refl). cbn [fmap option_fmap option_map] in Hrun. apply (inj Some) in Hrun.
  destruct (overlap_spares_other_users toy_text std_range toy_node_config (toy_xuser "ann" []) meddler true s
    Hserving meddler_meddles) as [_ Hserved].
  destruct (SyncUser_steps meddler (toy_xuser "ann" []) s) as [r s']. cbn [snd] in *. injection Hrun as Hup _ Hin.
  split; [exact Hserving|]. split; [exact Hup|].
  destruct (C_Inbounds (xr_config s.1)) as [|i1 [|i l]] eqn:Hx; try discriminate Hin. injection Hin as _ _ _ Ht He Hc _.
  destruct (Hserved Hup i "bob" ltac:(right; left) He ltac:(discriminate)) as [_ Hall]. rewrite Ht in Hall. apply Hall; [reflexivity|].
  assert ("bob" ∈ (map_to_list (clients i)).*1) as Hb by (rewrite Hc; right; left).
  apply list_elem_of_fmap in Hb as ([e a] & -> & Ha%elem_of_map_to_list). by exists a.
Defined.

(** Ann leaves and carol comes in one request; the process dies when ann is
    removed, and the health check restarts it. *)
Definition meddler' (t : string) (n : nat) : XS (M:=toy_os) → XS (M:=toy_os) :=
  if bool_decide (t = "v" ∧ n = 2%nat) then dies_and_restarts 0 else id.

Definition ann_for_carol : list (option User) := [Some (toy_xuser "ann" []); Some (toy_xuser "carol" ["v"])].

Lemma meddler'_meddles t n s : rtc (meddles toy_text std_range toy_node_config) s (meddler' t n s).
Proof.
  pose proof (meddler_meddles 4 s) as Hm. unfold meddler'. case_bool_decide; [|done]. exact Hm.
Qed.

Lemma overlap_update_runs : (λ s, let '(r, s') := UpdateUsers_steps std_range meddler' ann_for_carol s in
    (is_ok r, Core_Started s'.2.1.1 s'.2.2, tm_next s'.2.2.1,
     (λ i, (In_Tag i, exclude i)) <$> (C_Inbounds (xr_config s.1)),
     (λ i, (map_to_list (clients i)).*1) <$> (on_included (also_users ann_for_carol) <$> C_Inbounds (xr_config s.1)))) <$> both_served =
  Some (true, true, 2%nat, [("API_INBOUND", false); ("v", false)], [[]; ["carol"; "bob"]]).
Proof. vm_compute. reflexivity. Qed.

Lemma overlap_update_keeps_promise_witness : ∃ s,
  let s' := (UpdateUsers_steps std_range meddler' ann_for_carol s).2 in
  serving true s ∧ Core_Started s'.2.1.1 s'.2.2 = true ∧ is_Some (api_users s'.2.2 "v" !! "bob") ∧
  is_Some (api_users s'.2.2 "v" !! "carol") ∧ api_users s'.2.2 "v" !! "ann" = None.
Proof.
  pose proof overlap_update_runs as Hrun. pose proof both_served_serving as Hserving. destruct both_served as [s|]; [|discriminate Hrun].
  exists s. specialize (Hserving s eq_refl). cbn [fmap option_fmap option_map] in Hrun. apply (inj Some) in Hrun.
  assert (NoDup (GetEmail <$> ann_for_carol)) as Hnd by (repeat (apply NoDup_cons; split; [set_solver|]); apply NoDup_nil_2).
  pose proof (overlap_update_keeps_promise toy_text std_range toy_node_config ann_for_carol meddler' true s toy_os_removals
    Hnd Hserving meddler'_meddles) as Hkept.
  destruct (UpdateUsers_steps std_range meddler' ann_for_carol s) as [r s']. cbn [snd] in *. injection Hrun as Hok Hup _ Hin Hcl.
  split; [exact Hserving|]. split; [exact Hup|]. rewrite Hok in Hkept.
  destruct (C_Inbounds (xr_config s.1)) as [|i1 [|i l]]; try discriminate Hin. injection Hin as _ _ Ht He _.
  rewrite !fmap_cons in Hkept, Hcl. injection Hcl as _ Hcl _.
  pose proof (serves_users _ _ _ (on_included (also_users ann_for_carol) i) Hkept Hup ltac:(right; left)) as Hs.
  unfold on_included in Hs, Hcl. rewrite He in Hs, Hcl. specialize (Hs He). cbn [In_Tag set_clients clients] in Hs, Hcl. rewrite Ht in Hs.
  destruct Hs as [Hst Hall]. assert (∀ e, is_Some (also_users ann_for_carol i (clients i) !! e) ↔ e ∈ ["carol"; "bob"]) as Hdom.
  { intros e. rewrite <- Hcl, list_elem_of_fmap. split; [intros [a Ha]; exists (e, a); split; [done|by apply elem_of_map_to_list]|].
    intros ([e' a] & -> & Ha%elem_of_map_to_list). by exists a. }
  split_and!; [apply (Hall eq_refl), Hdom; set_solver..|].
  destruct (api_users s'.2.2 "v" !! "ann") as [cu|] eqn:Hann; [|reflexivity]. destruct (Hst "ann" cu Hann) as (a & Ha & _).
  assert ("ann" ∈ ["carol"; "bob"]) as Hin by (by apply Hdom; exists a). set_solver.
Defined.
