(* ===== verification/NodeRun.v ===== *)
(** * A node at work: witness and observation

    Sessions of a whole node: the concrete machine of XrayMachine with the
    handler service of XrayToy beside it, the concrete kernel of WgToy. *)

From S2P Require Import Prelude GoString GoNet Json Helper Messages Tracker NodeConfig Logger XrayLogs XrayAccount XrayInbound XrayUser XrayToy XrayApply XrayApi JsonToy XrayApiToy XrayRender XrayCore XrayRun XrayLife XrayProps XrayStats WgTypes WgToy PeerStore WgConfig WgUsers WgManager HostRouting WireGuard WgScenario Backends NodeBackends NodeLaws NodeSystem Controller Control NodeToy XrayMachine XrayServeToy.

#[local] Open Scope Z_scope.
#[local] Existing Instances toy_sha256 toy_keys toy_kernel toy_host toy_awg.

(** ** The node *)

Definition toy_deps : Deps (UUID:=string) (M:=toy_os) :=
  mkDeps toy_node_config
    (λ s, if bool_decide (s = "") then Err (errors_New "unexpected end of JSON input")
          else Ok (toy_to_prepare, Some <$> C_Inbounds toy_to_prepare))
    toy_text toy_reparse (λ _, Ok (toy_config ""))
    std_range (λ _, std_range) Ok toy_ifaces (λ _, Ok ()) (λ _ _, Err (errors_New "refused")) (λ _ _ _, Ok (true, 1))
    toy_no_stats (λ _, "2026-01-01") "node".

#[local] Instance toy_node_backends : Backends handle (node (UUID:=string) (M:=toy_os)) := node_backends toy_deps.

Notation toy_node_sys := (@sys string handle (node (UUID:=string) (M:=toy_os))).

(** The interface of [toy_config] is the node's. *)
Definition toy_ours (name : string) : Prop := name = "wg0".

Lemma toy_ours_tidy name : toy_ours name →
  @tidy_kernel toy_keys toy_kernel ∧ is_ok (initStatsTickers (d_cfg toy_deps)) = true.
Proof. intros _. split; [exact toy_tidy|vm_compute; reflexivity]. Qed.

Lemma toy_ours_free name : toy_ours name → dev toy_host_state name = None.
Proof. intros ->. reflexivity. Qed.

Definition toy_os0 : toy_os := (mkMachine 0 ∅, ∅).
Definition toy_fresh : toy_node_sys := initial toy_node_config Z.even 1 2 (new_node (mkFiles 0 ∅ ∅ []) toy_os0 toy_host_state 0).

(** The API answers at the first moment of every wait. *)
Definition toy_waits : list (list (moment (M:=toy_os))) := replicate 4 [mkMoment [] (ApiTick (Ok ()))].

Definition toy_start_acts : list action :=
  [ABegin (ReqStart (toy_backend_msg 0)) 5 1 2; ACtl; ACtl; ACtl; AEnd].
Definition toy_stop_acts : list action := [ABegin ReqStop 6 1 2; ACtl; ACtl; ACtl; ACtl; AEnd].

Definition with_world (g : node (UUID:=string) (M:=toy_os) → node (UUID:=string) (M:=toy_os)) (y : toy_node_sys) : toy_node_sys :=
  mkSys ((y_s y).1, g (y_s y).2) (y_ctl y) (y_ka y).

(** A session in which the users are synchronised. *)
Definition toy_sync (w : node (UUID:=string) (M:=toy_os)) : node (UUID:=string) (M:=toy_os) :=
  (node_SyncUsers toy_deps (XrayHandle 0) [Some (toy_xuser "ann" ["v"])] w).2.

Definition toy_session : option toy_node_sys :=
  y ← acts Z.even toy_start_acts (with_world (set_waits toy_waits) toy_fresh);
  Some (with_world toy_sync y).
Definition toy_stopped : option toy_node_sys := y ← toy_session; acts Z.even toy_stop_acts y.

(** What is left of a run: the current backend, whether no request is under way
    and which of the first commands live. *)
Definition alive_list (w : node (UUID:=string) (M:=toy_os)) : list bool := (λ h, m_alive h (n_ext w)) <$> seq 0 4.
Definition summary (y : toy_node_sys) : option handle * bool * list bool * list bool :=
  (c_backend (y_s y).1, bool_decide (is_Some (y_ctl y) ∨ size (y_ka y) ≠ 0%nat), alive_list (y_s y).2, alive_list (toy_sync (y_s y).2)).

Lemma toy_started_summary :
  summary <$> acts Z.even toy_start_acts (with_world (set_waits toy_waits) toy_fresh) =
    Some (Some (XrayHandle 0), false, [true; false; false; false], [false; true; false; false]).
Proof. vm_compute. reflexivity. Qed.

Lemma toy_stopped_summary :
  summary <$> toy_stopped = Some (None, false, [false; false; false; false], [false; false; true; false]).
Proof. vm_compute. reflexivity. Qed.

Lemma summary_spec y b l l' : summary y = (b, false, l, l') →
  c_backend (y_s y).1 = b ∧ idle y ∧ alive_list (y_s y).2 = l ∧ alive_list (toy_sync (y_s y).2) = l'.
Proof.
  unfold summary. intros Hs. injection Hs as Hb Hc Hl Hl'. apply bool_decide_eq_false in Hc.
  split_and!; [done| |done..]. split; [apply eq_None_not_Some; tauto|]. apply map_size_empty_iff.
  destruct (decide (size (y_ka y) = 0%nat)); tauto.
Qed.

Lemma alive_list_at w l h : alive_list w = l → (h < 4)%nat → m_alive h (n_ext w) = default false (l !! h).
Proof.
  intros <- Hh. unfold alive_list. rewrite list_lookup_fmap, lookup_seq_lt by lia. done.
Qed.

Notation toy_step := (node_step toy_deps toy_ours Z.even).

Lemma acts_steps l (y y' : toy_node_sys) : acts_serial Z.even l y → acts Z.even l y = Some y' → rtc toy_step y y'.
Proof.
  revert y. induction l as [|a l IH]; intros y Hl Hy; [injection Hy as ->; apply rtc_refl|].
  cbn [acts] in Hy. cbn [acts_serial] in Hl. destruct Hl as [Ha Hl].
  destruct (act Z.even a y) as [y1|] eqn:Hact; [|done]. eapply rtc_l; [by eapply node_act|]. by apply IH.
Qed.

Lemma toy_start_serial (y : toy_node_sys) : idle y → acts_serial Z.even toy_start_acts y.
Proof. intros Hi. apply acts_serial_request; [exact Hi|]. repeat (constructor; [exact I|]). constructor. Qed.

Lemma toy_waits_quiet : Forall quiet_moments toy_waits.
Proof. by repeat constructor. Qed.

Lemma toy_alone_os h : m_alive h toy_os0 = false.
Proof. exact (toy_alone h). Qed.

Lemma toy_session_runs : ∃ y, toy_session = Some y ∧ rtc toy_step toy_fresh y ∧
  c_backend (y_s y).1 = Some (XrayHandle 0) ∧ idle y ∧ m_alive 1%nat (n_ext (y_s y).2) = true.
Proof.
  pose proof toy_started_summary as Hsum. unfold toy_session.
  destruct (acts Z.even toy_start_acts (with_world (set_waits toy_waits) toy_fresh)) as [y|] eqn:Hy; [|discriminate Hsum].
  exists (with_world toy_sync y). split; [done|]. apply (inj Some), summary_spec in Hsum as (Hb & [Hc Hk] & _ & Hl).
  assert (m_alive 1%nat (n_ext (toy_sync (y_s y).2)) = true) as Ha by (by rewrite (alive_list_at _ _ 1 Hl) by lia).
  split; [|exact (conj Hb (conj (conj Hc Hk) Ha))].
  eapply rtc_l; [apply (node_passive toy_deps toy_ours Z.even toy_fresh), q_waits, toy_waits_quiet|].
  eapply rtc_r; [eapply acts_steps; [|exact Hy]; apply toy_start_serial; split; reflexivity|].
  exact (node_restart toy_deps toy_ours Z.even y 0 _ (conj Hc Hk) Hb (r_SyncUsers toy_deps 0 (y_s y).2 [Some (toy_xuser "ann" ["v"])])).
Qed.

(** A session with a WireGuard backend. *)
Definition toy_wg_msg : Backend :=
  {| Backend_Type := BackendType_WIREGUARD; Backend_Config := "{}"; Backend_Users := [toy_user "a" "K1" ["10.0.0.2/32"]];
     Backend_KeepAlive := 0; Backend_ExcludeInbounds := [] |}.
Definition toy_wg_acts : list action := [ABegin (ReqStart toy_wg_msg) 5 1 2; ACtl; ACtl; ACtl; AEnd].
Definition toy_wg_session : option toy_node_sys := acts Z.even toy_wg_acts toy_fresh.

Definition wg_summary (y : toy_node_sys) : option handle * bool * bool :=
  (c_backend (y_s y).1, bool_decide (is_Some (y_ctl y) ∨ size (y_ka y) ≠ 0%nat),
   bool_decide (is_Some (dev (n_kernel (y_s y).2) "wg0"))).

Lemma toy_wg_summary : wg_summary <$> toy_wg_session = Some (Some (WireguardHandle 0), false, true).
Proof. vm_compute. reflexivity. Qed.

Lemma toy_wg_session_runs : ∃ y, toy_wg_session = Some y ∧ rtc toy_step toy_fresh y ∧
  c_backend (y_s y).1 = Some (WireguardHandle 0) ∧ idle y ∧ is_Some (dev (n_kernel (y_s y).2) "wg0").
Proof.
  pose proof toy_wg_summary as Hsum. destruct toy_wg_session as [y|] eqn:Hy; [|discriminate Hsum].
  apply (inj Some) in Hsum. unfold wg_summary in Hsum. injection Hsum as Hb Hc Hd.
  apply bool_decide_eq_true in Hd. apply bool_decide_eq_false in Hc. exists y. split_and!; [done| |done| |done].
  - eapply acts_steps; [|exact Hy]. apply acts_serial_request; [split; reflexivity|].
    repeat (constructor; [exact I|]). constructor.
  - split; [apply eq_None_not_Some; tauto|]. apply map_size_empty_iff. destruct (decide (size (y_ka y) = 0%nat)); tauto.
Qed.

(** The process of a session with an Xray backend; the interface of one with a
    WireGuard backend. *)
Lemma node_owns_its_process_witness :
  (∃ y, rtc toy_step toy_fresh y ∧ m_alive 1%nat (n_ext (y_s y).2) = true ∧
    (∀ h, m_alive h (n_ext (y_s y).2) = true → h = 1%nat)) ∧
  ∃ y g mgr, rtc toy_step toy_fresh y ∧ is_Some (dev (n_kernel (y_s y).2) "wg0") ∧
    n_wgs (y_s y).2 !! 0%nat = Some g ∧ wg_manager g = Some mgr ∧ iFaceName mgr = "wg0".
Proof.
  pose proof (λ y, node_owns_its_process toy_deps toy_os_prompt toy_ours toy_ours_tidy Z.even toy_node_config 1 2
    (mkFiles 0 ∅ ∅ []) toy_os0 toy_host_state 0 y toy_alone_os toy_ours_free) as Hthm. split.
  - destruct toy_session_runs as (y & _ & Hrun & Hb & _ & Ha). exists y. split; [exact Hrun|]. split; [exact Ha|].
    destruct (Hthm y Hrun) as (_ & Hown & _). intros h Hh.
    destruct (Hown h Hh) as (n & x & c & Hbn & Hl & Hp). destruct (Hown 1%nat Ha) as (n' & x' & c' & Hbn' & Hl' & Hp').
    rewrite Hbn in Hbn'. injection Hbn' as <-. rewrite Hl in Hl'. injection Hl' as <- <-. rewrite Hp in Hp'. by injection Hp'.
  - destruct toy_wg_session_runs as (y & _ & Hrun & Hb & _ & Hd). destruct (Hthm y Hrun) as (_ & _ & Hlink).
    destruct (Hlink "wg0" eq_refl Hd) as (n & g & mgr & Hbn & Hg & Hm & Hn). rewrite Hb in Hbn. injection Hbn as <-.
    exists y, g, mgr. split_and!; [exact Hrun|exact Hd|exact Hg|exact Hm|exact Hn].
Defined.

(** ** Observation *)

(** A full synchronisation that got hold of the backend before a Stop and runs
    after it starts the core again: a process lives and no backend is current. *)
Lemma late_sync_leaks_process :
  ∃ y, toy_stopped = Some y ∧ y_ctl y = None ∧ c_backend (y_s y).1 = None ∧
    (∀ h, (h < 4)%nat → m_alive h (n_ext (y_s y).2) = false) ∧
    m_alive 2%nat (n_ext (toy_sync (y_s y).2)) = true.
Proof.
  pose proof toy_stopped_summary as Hsum. destruct toy_stopped as [y|]; [|discriminate Hsum].
  apply (inj Some), summary_spec in Hsum as (Hb & [Hc _] & Hl & Hl'). exists y. split_and!; [done..| |].
  - intros h Hh. rewrite (alive_list_at _ _ h Hl Hh). by do 4 (destruct h as [|h]; [done|]).
  - by rewrite (alive_list_at _ _ 2 Hl') by lia.
Qed.
