(* ===== verification/EndToEndToy.v ===== *)
(** * A session end to end: witness

    A client starts a WireGuard backend on the concrete node of NodeRun, sends a
    full list of users, changes one of them, and the statistics loop ticks in
    between; then it starts Xray instead and adds a user. *)

From S2P Require Import Prelude GoString GoNet Json Helper Messages Tracker NodeConfig WgBackend WgReads WgRun WgServe Logger XrayLogs XrayAccount XrayInbound XrayClients XrayUser XrayToy XrayApply XrayApi JsonToy XrayApiToy XrayRender XrayCore XrayRun XrayLife XrayProps XrayStats WgTypes WgToy PeerStore WgConfig WgUsers WgPlan WgReconcile WgAgree WgSync WgManager HostRouting WireGuard WgScenario Backends NodeBackends NodeLaws XrayServe XrayRoster NodeSystem Chunks Controller Rpc Rest Control NodeToy Service EndToEnd XrayMachine XrayServeToy NodeRun.

#[local] Open Scope Z_scope.
#[local] Existing Instances toy_sha256 toy_keys toy_kernel toy_host toy_awg.

#[local] Instance toy_whole : Backends handle (node (UUID:=string) (M:=toy_os)) := node_backends toy_deps.

Notation toy_CS := (@CS string handle (node (UUID:=string) (M:=toy_os))).

Definition toy_begin : toy_CS := (Controller_New toy_node_config Z.even 1 2, new_node (mkFiles 0 ∅ ∅ []) toy_os0 toy_host_state 0).

(** The users of the session: a starts it, a and b are synchronised, b gets
    another network. *)
Definition users_a : list (option User) := [toy_user "a" "K1" ["10.0.0.2/32"]].
Definition user_b2 : User := default (Build_User "" None []) (toy_user "b" "K2" ["10.0.0.9/32"]).

Definition toy_says {A} (call : rpc_call A) (s : toy_CS) : result A * toy_CS :=
  rpc_serve toy_uuid (toy_env 5) (toy_md "secret") call s.

Definition toy_s1 : toy_CS := (toy_says (RpcStart toy_wg_msg) toy_begin).2.
Definition toy_s2 : toy_CS := (toy_says (RpcSyncUsers users_ab) toy_s1).2.
Definition toy_s3 : toy_CS := (toy_s2.1, (node_tick toy_deps 0 UpdateTick toy_s2.2).2).
Definition toy_s4 : toy_CS := (toy_says (RpcSyncUser [user_b2] (Ok ())) toy_s3).2.

Definition toy_xray_msg : Backend :=
  {| Backend_Type := BackendType_XRAY; Backend_Config := "{}"; Backend_Users := [Some (toy_xuser "ann" ["v"])];
     Backend_KeepAlive := 0; Backend_ExcludeInbounds := [] |}.

Definition toy_s5 : toy_CS := (toy_s4.1, set_waits toy_waits toy_s4.2).
Definition toy_s6 : toy_CS := (toy_says (RpcStart toy_xray_msg) toy_s5).2.
Definition toy_s7 : toy_CS := (toy_says (RpcSyncUser [toy_xuser "bob" ["v"]] (Ok ())) toy_s6).2.

Definition toy_call {A} (call : rpc_call A) (s : toy_CS) : label :=
  Lcall (toy_env 5) (toy_md "secret") call (toy_says call s).1.

Definition toy_trace : list label :=
  [toy_call (RpcStart toy_wg_msg) toy_begin; toy_call (RpcSyncUsers users_ab) toy_s1; Lquiet;
   toy_call (RpcSyncUser [user_b2] (Ok ())) toy_s3; Lquiet;
   toy_call (RpcStart toy_xray_msg) toy_s5; toy_call (RpcSyncUser [toy_xuser "bob" ["v"]] (Ok ())) toy_s6].

Notation toy_does := (does toy_deps toy_uuid toy_ours).
Notation toy_newConfig := (WgConfig.NewConfig (d_wg_unmarshal toy_deps)).
Notation toy_is_key := (is_key toy_uuid toy_node_config).
Notation toy_newXray := (XrayInbound.NewConfig (d_unmarshal toy_deps)).
Notation toy_spec := (spec_does toy_newConfig toy_newXray toy_is_key).

Lemma toy_call_does {A} (call : rpc_call A) s : toy_does (toy_call call s) s (toy_says call s).2.
Proof. unfold toy_call, does, toy_says. by destruct (rpc_serve _ _ _ call s). Qed.

Lemma toy_waits_steady : Forall steady_moments toy_waits.
Proof. repeat constructor. Qed.

Lemma toy_trace_runs : runs toy_does toy_begin toy_trace toy_s7.
Proof.
  eapply runs_cons; [apply toy_call_does|]. eapply runs_cons; [apply toy_call_does|].
  eapply runs_cons; [exact (bg_tick toy_deps toy_ours toy_s2 0 UpdateTick)|].
  eapply runs_cons; [apply toy_call_does|].
  eapply runs_cons; [exact (bg_waits toy_deps toy_ours toy_s4 toy_waits toy_waits_steady)|].
  eapply runs_cons; [apply toy_call_does|]. eapply runs_cons; [apply toy_call_does|]. apply runs_nil.
Qed.

Lemma toy_ok1 : is_ok (toy_says (RpcStart toy_wg_msg) toy_begin).1 = true.
Proof. vm_compute. reflexivity. Qed.
Lemma toy_ok2 : is_ok (toy_says (RpcSyncUsers users_ab) toy_s1).1 = true.
Proof. vm_compute. reflexivity. Qed.
Lemma toy_ok4 : is_ok (toy_says (RpcSyncUser [user_b2] (Ok ())) toy_s3).1 = true.
Proof. vm_compute. reflexivity. Qed.
Lemma toy_ok6 : is_ok (toy_says (RpcStart toy_xray_msg) toy_s5).1 = true.
Proof. vm_compute. reflexivity. Qed.
Lemma toy_ok7 : is_ok (toy_says (RpcSyncUser [toy_xuser "bob" ["v"]] (Ok ())) toy_s6).1 = true.
Proof. vm_compute. reflexivity. Qed.
Lemma toy_lives : m_alive 0 (n_ext toy_s7.2) = true.
Proof. vm_compute. reflexivity. Qed.

#[local] Opaque toy_says.

Definition toy_conf : WgConfig.Config :=
  match toy_newConfig "{}" with Ok c => c | Err _ => toy_config "" end.

(** What the service is after each call. *)
Definition toy_roster1 : gmap string PeerInfo := desired_roster toy_conf users_a.
Definition toy_roster2 : gmap string PeerInfo := desired_roster toy_conf users_ab.
Definition toy_roster3 : gmap string PeerInfo := after_update toy_conf [Some user_b2] toy_roster2.

(** The configuration Xray is started with, and its inbounds after each call. *)
Definition toy_conf_x : XrayInbound.Config :=
  match toy_newXray "{}" [] with Ok c => c | Err _ => toy_to_prepare end.
Definition toy_inbounds6 (p : Z) : list Inbound := begun [Some (toy_xuser "ann" ["v"])] (offered p toy_conf_x).
Definition toy_inbounds7 (p : Z) : list Inbound := on_included (also_users [Some (toy_xuser "bob" ["v"])]) <$> toy_inbounds6 p.

Lemma toy_newXray_eq : toy_newXray "{}" [] = Ok toy_conf_x.
Proof. vm_compute. reflexivity. Qed.

Lemma toy_conf_prepared : prepared toy_conf_x.
Proof.
  apply (plain_prepared _ ["API_INBOUND"; "v"]); [vm_compute; reflexivity|]. apply (bool_decide_unpack _). reflexivity.
Qed.

Lemma answered_ok newConfig newXray (P Q : Prop) cmd o (σ σ' : service) :
  answers newConfig newXray P Q cmd o σ σ' → o_ok o = true → effect newConfig newXray cmd o σ σ'.
Proof. intros [(? & _)|[[Ho _] _]] Hok; [done|congruence]. Qed.

Lemma toy_step1 σ : toy_spec (toy_call (RpcStart toy_wg_msg) toy_begin) Idle σ → σ = OnWireguard toy_conf toy_roster1.
Proof.
  intros He%answered_ok; [|exact toy_ok1].
  unfold effect, rpc_command in He. cbn [rpc_outcome o_ok] in He. rewrite toy_ok1 in He. destruct He as [Hb _].
  inversion Hb as [c _ Hc Hσ|c port Hx]; [|discriminate Hx]. unfold toy_roster1, toy_conf. change (Backend_Config toy_wg_msg) with "{}" in Hc.
  by rewrite Hc.
Qed.

Lemma toy_step2 σ : toy_spec (toy_call (RpcSyncUsers users_ab) toy_s1) (OnWireguard toy_conf toy_roster1) σ →
  σ = OnWireguard toy_conf toy_roster2.
Proof.
  intros He%answered_ok; [|exact toy_ok2].
  unfold effect, rpc_command in He. cbn [rpc_outcome o_ok] in He. by rewrite toy_ok2 in He.
Qed.

(** A stream of one user that succeeds. *)
Lemma streamed_one u (σ σ' : service) : streamed [u] true σ σ' → σ' = updated true [Some u] σ.
Proof.
  intros (served & rest & Hu & Hrest & Hσ). rewrite (Hrest eq_refl), app_nil_r in Hu. subst served.
  destruct Hσ as [->|(v & Hv & _)]; [done|]. by rewrite (Hrest eq_refl) in Hv.
Qed.

Lemma toy_step4 σ : toy_spec (toy_call (RpcSyncUser [user_b2] (Ok ())) toy_s3) (OnWireguard toy_conf toy_roster2) σ →
  σ = OnWireguard toy_conf toy_roster3.
Proof.
  intros He%answered_ok; [|exact toy_ok4].
  unfold effect, rpc_command in He. cbn [rpc_outcome o_ok] in He. rewrite toy_ok4 in He. by apply streamed_one in He.
Qed.

Lemma toy_step6 σ0 σ : toy_spec (toy_call (RpcStart toy_xray_msg) toy_s5) σ0 σ → ∃ p, σ = OnXray (toy_inbounds6 p) true.
Proof.
  intros He%answered_ok; [|exact toy_ok6].
  unfold effect, rpc_command in He. cbn [rpc_outcome o_ok] in He. rewrite toy_ok6 in He. destruct He as [Hb _].
  inversion Hb as [c Hx|c port _ Hc]; [discriminate Hx|]. exists port. unfold toy_inbounds6.
  change (toy_newXray "{}" [] = Ok c) in Hc. rewrite toy_newXray_eq in Hc. by injection Hc as <-.
Qed.

Lemma toy_step7 p σ : toy_spec (toy_call (RpcSyncUser [toy_xuser "bob" ["v"]] (Ok ())) toy_s6) (OnXray (toy_inbounds6 p) true) σ →
  σ = OnXray (toy_inbounds7 p) true.
Proof.
  intros He%answered_ok; [|exact toy_ok7].
  unfold effect, rpc_command in He. cbn [rpc_outcome o_ok] in He. rewrite toy_ok7 in He. by apply streamed_one in He.
Qed.

Lemma toy_free : ips_free toy_conf [Some user_b2] toy_roster2.
Proof.
  assert (map_Forall (λ _ t, map_Forall (λ e' q, is_Some (lastByEmail [Some user_b2] !! e') ∨ Forall (λ ip, ip ∉ texts q) (texts t))
    toy_roster2) (desired_roster toy_conf [Some user_b2])) as Hall by (apply (bool_decide_unpack _); vm_compute; exact I).
  intros e e' t q ip Ht Hq Hn Hip. destruct (Hall e t Ht e' q Hq) as [?|Hf]; [done|]. rewrite Forall_forall in Hf. by apply Hf.
Qed.

Lemma toy_contract : contract toy_newConfig toy_newXray toy_is_key toy_ours Idle toy_trace.
Proof.
  split.
  { intros _. split; [|by intros Hx]. intros _. split; [toy_canonical|]. intros c Hc. vm_compute in Hc. by injection Hc as <-. }
  intros σ1 ->%toy_step1. split; [intros _; exact canonical_ab|].
  intros σ2 ->%toy_step2. split; [exact I|]. intros σ3 ->. split.
  { intros _. split; [|exact I]. split; [toy_canonical|exact toy_free]. }
  intros σ4 ->%toy_step4. split; [exact I|]. intros σ5 ->. split.
  { intros _. split; [by intros Hw|]. intros _ c Hc. change (toy_newXray "{}" [] = Ok c) in Hc. rewrite toy_newXray_eq in Hc.
    injection Hc as <-. exact toy_conf_prepared. }
  intros σ6 [p ->]%toy_step6. split; [by intros _|]. by intros σ7 _.
Qed.

(** The inbound of the session's users at its end. *)
Lemma toy_inbound_users p : ∃ i, i ∈ toy_inbounds7 p ∧ In_Tag i = "v" ∧ exclude i = false ∧ dom (clients i) = {["ann"; "bob"]}.
Proof.
  assert ((λ i, (In_Tag i, exclude i, dom (clients i))) <$> toy_inbounds7 p =
    [("API_INBOUND", false, ∅); ("v", false, {["ann"; "bob"]})]) as Hl by (vm_compute; reflexivity).
  destruct (toy_inbounds7 p) as [|i1 [|i [|i3 l]]]; try discriminate Hl. injection Hl as _ _ _ Ht He Hc.
  exists i. split_and!; [set_solver|done..].
Qed.

(** The session ends with a core that serves ann and bob and nobody else. *)
Lemma session_refines_service_witness :
  runs toy_does toy_begin toy_trace toy_s7 ∧ contract toy_newConfig toy_newXray toy_is_key toy_ours Idle toy_trace ∧
  dom toy_roster3 = {["a"; "b"]} ∧ m_alive 0 (n_ext toy_s7.2) = true ∧ dev (n_kernel toy_s7.2) "wg0" = None ∧
  dom (api_users (n_ext toy_s7.2) "v") = {["ann"; "bob"]}.
Proof.
  split; [exact toy_trace_runs|]. split; [exact toy_contract|]. split; [vm_compute; reflexivity|]. split; [exact toy_lives|].
  destruct (session_refines_service toy_deps toy_os_prompt toy_os_removals (λ y, eq_refl) toy_uuid toy_ours toy_ours_tidy toy_atomic
    toy_node_config Z.even 1 2 (mkFiles 0 ∅ ∅ []) toy_os0 toy_host_state 0 toy_trace toy_s7 toy_alone_os toy_ours_free
    toy_trace_runs toy_contract) as (σ & Hruns & Hobs).
  assert (∃ p, σ = OnXray (toy_inbounds7 p) true) as [p ->].
  { inversion_clear Hruns as [|? ? ? ? ? H1 Hr1]. apply toy_step1 in H1 as ->.
    inversion_clear Hr1 as [|? ? ? ? ? H2 Hr2]. apply toy_step2 in H2 as ->.
    inversion_clear Hr2 as [|? ? ? ? ? H3 Hr3]. simpl in H3. subst.
    inversion_clear Hr3 as [|? ? ? ? ? H4 Hr4]. apply toy_step4 in H4 as ->.
    inversion_clear Hr4 as [|? ? ? ? ? H5 Hr5]. simpl in H5. subst.
    inversion_clear Hr5 as [|? ? ? ? ? H6 Hr6]. apply toy_step6 in H6 as [p ->]. exists p.
    inversion_clear Hr6 as [|? ? ? ? ? H7 Hr7]. apply toy_step7 in H7 as ->. by inversion_clear Hr7. }
  destruct Hobs as (Hno & _ & Hserved). split; [by apply Hno; [|intros []]|].
  destruct (toy_inbound_users p) as (i & Hi & Ht & He & Hc). destruct (Hserved 0%nat i toy_lives Hi He) as [Hstored Hall].
  rewrite Ht in Hstored, Hall. rewrite <- Hc. apply set_eq. intros e. rewrite !elem_of_dom. split; [|by apply Hall].
  intros [cu Hcu]. destruct (Hstored e cu Hcu) as (acc & Ha & _). by exists acc.
Defined.
