(* ===== verification/Main.v ===== *)
(** * The program ([src/cmd/node], the listeners of the servers, [src/pkg])

    What [main] does before it serves, and what it does once it is told to stop:
    drain the server for ten seconds, and disconnect the controller whatever
    came of that.  The run in between is the one of NodeSystem.  Reading a
    certificate and listening are parameters ([Platform]). *)

From S2P Require Import Prelude GoString GoNet Json Helper Messages Tracker NodeConfig Logger XrayLogs XrayAccount XrayInbound XrayUser XrayToy XrayApply JsonToy XrayRender XrayCore XrayRun XrayLife XrayProps XrayStats WgTypes WgToy PeerStore WgConfig WgUsers WgManager HostRouting WireGuard WgScenario Backends NodeBackends NodeLaws NodeSystem Controller Control NodeToy XrayMachine XrayServeToy NodeRun.

#[local] Open Scope Z_scope.

(** ** Files and certificates (tls.go, file.go) *)

(** [NewCertPool] makes an empty pool; [AppendCertsFromPEM] adds the
    certificates of a text, or finds none. *)
Class Platform := {
  os_ReadFile : string → result string;
  Certificate : Type;
  LoadX509KeyPair : string → string → result Certificate;
  CertPool : Type;
  SystemCertPool : result CertPool;
  NewCertPool : CertPool;
  AppendCertsFromPEM : string → CertPool → option CertPool;
  Listen : string → result unit
}.

Definition ReadFileAsString `{Platform} (filePath : string) : result string :=
  match os_ReadFile filePath with Err e => Err e | Ok fileBytes => Ok fileBytes end.

Inductive ClientAuthType := NoClientCert | RequireAndVerifyClientCert.

Record TlsConfig `{Platform} := mkTls { Certificates : list Certificate; ClientAuth : ClientAuthType }.

Definition LoadTLSCredentials `{Platform} (cert key : string) : result TlsConfig :=
  match LoadX509KeyPair cert key with
  | Err e => Err e
  | Ok serverCert => Ok (mkTls _ [serverCert] NoClientCert)
  end.

(** The errors of [LoadClientPool] are formatted with %v: they lose their chain. *)
Definition LoadClientPool `{Platform} (cert : string) : result CertPool :=
  match os_ReadFile cert with
  | Err e => Err (errors_New ("failed to read server certificate: " +:+ err_text e))
  | Ok pemServerCA =>
      let certPool := match SystemCertPool with Ok pool => pool | Err _ => NewCertPool end in
      match AppendCertsFromPEM pemServerCA certPool with
      | None => Err (errors_New "failed to add server CA's certificate")
      | Some certPool => Ok certPool
      end
  end.

(** ** The servers (rpc/service.go, rest/service.go) *)

Section Listeners.
Context {UUID B : Type} `{Platform}.
Notation NodeConfig := (@NodeConfig UUID).
Notation Controller := (@Controller UUID B).
Implicit Types (cfg : NodeConfig) (free : Z → bool).

Inductive protocol := RestProtocol | GrpcProtocol.

(** A server that listens: its address, its credentials and its service, which
    is the controller and the routes or methods of Rest.v and Rpc.v. *)
Record server := mkServer { sv_protocol : protocol; sv_addr : string; sv_tls : TlsConfig; sv_service : Controller }.

Definition New cfg free rnd1 rnd2 : Controller := Controller_New cfg free rnd1 rnd2.

Definition StartGRPCListener (tls : TlsConfig) (addr : string) cfg free rnd1 rnd2 : result server :=
  let s := New cfg free rnd1 rnd2 in
  match Listen addr with
  | Err e => Err (wrapf ("failed to listen on " +:+ addr) e)
  | Ok _ => Ok (mkServer GrpcProtocol addr tls s)
  end.

Definition StartHttpListener (tls : TlsConfig) (addr : string) cfg free rnd1 rnd2 : result server :=
  let s := New cfg free rnd1 rnd2 in
  match Listen addr with
  | Err e => Err e
  | Ok _ => Ok (mkServer RestProtocol addr tls s)
  end.

(** The shutdown function of the gRPC server: the graceful stop ends first, or
    the context does and the server is stopped by force ([true]). *)
Definition grpc_shutdown (stopped : bool) (ctx_Err : goerr) : result unit * bool :=
  if stopped then (Ok (), false) else (Err ctx_Err, true).

(** ** The program (main.go) *)

Inductive program := Fatal (e : goerr) | Serving (s : server).

Definition service_addr cfg : string := NodeHost cfg +:+ ":" +:+ Itoa (ServicePort cfg).

(** Until the server listens; [log.Fatal] ends the program at once. *)
Definition main_start cfg free rnd1 rnd2 : program :=
  match LoadTLSCredentials (SslCertFile cfg) (SslKeyFile cfg) with
  | Err e => Fatal e
  | Ok tlsConfig =>
      let addr := service_addr cfg in
      match (if bool_decide (ServiceProtocol cfg = "rest") then StartHttpListener tlsConfig addr cfg free rnd1 rnd2
             else StartGRPCListener tlsConfig addr cfg free rnd1 rnd2) with
      | Err e => Fatal e
      | Ok s => Serving s
      end
  end.

(** After the signal: the outcome of the shutdown is only logged, and the
    deferred [Disconnect] runs. *)
Definition main_stop {Wd} `{!Backends B Wd} (free : Z → bool) (rnd1 rnd2 : Z) (_ : result unit) (s : Controller * Wd) : Controller * Wd :=
  Controller_Disconnect free rnd1 rnd2 s.

Lemma main_start_spec cfg free rnd1 rnd2 s : main_start cfg free rnd1 rnd2 = Serving s →
  (∃ cert, LoadX509KeyPair (SslCertFile cfg) (SslKeyFile cfg) = Ok cert ∧ sv_tls s = mkTls _ [cert] NoClientCert) ∧
  sv_addr s = service_addr cfg ∧ Listen (sv_addr s) = Ok () ∧
  (sv_protocol s = RestProtocol ↔ ServiceProtocol cfg = "rest") ∧ sv_service s = Controller_New cfg free rnd1 rnd2.
Proof.
  unfold main_start, LoadTLSCredentials. destruct (LoadX509KeyPair _ _) as [cert|] eqn:Hc; [|done].
  unfold StartHttpListener, StartGRPCListener.
  case_bool_decide as Hp; destruct (Listen (service_addr cfg)) as [[]|] eqn:Hl; try done; intros [= <-];
    (split; [by exists cert|]); by cbn.
Qed.
End Listeners.

(** ** Property *)


(** ** Witness *)

#[local] Existing Instances toy_sha256 toy_keys toy_kernel toy_host toy_awg.

#[local] Instance toy_platform : Platform := {|
  os_ReadFile _ := Err (errors_New "no such file");
  Certificate := string;
  LoadX509KeyPair cert key := Ok (cert +:+ " with " +:+ key);
  CertPool := list string;
  SystemCertPool := Ok [];
  NewCertPool := [];
  AppendCertsFromPEM pem pool := Some (pem :: pool);
  Listen _ := Ok ()
|}.

